(** * Time Series Brush Slicer: a shallow embedding of [src/visual.ts]

    The development follows the source file top to bottom:
    - the JavaScript values the visual receives from its host;
    - [parseData]: rows to data points, per-series sort, gap detection, merge;
    - the value-scale derivation of [renderChart];
    - the date formatters ([toISOString], [createDateFormatter]);
    - the visual as a state machine: [update], [renderChart], [setupBrush],
      [onBrush], [onBrushEnd], [restoreBrushSelection], [destroy] and the
      timers;
    - the area segments and the line paths that [renderChart] draws for a
      series.

    Modelling conventions.
    - An instant is the millisecond count of a valid [Date], an integer: [Z].
    - A JavaScript number that carries a measure is a rational, or [NaN].
      Where a result depends on the rounding of binary64 arithmetic it is
      in the model: the differences of instants and the threshold of gap
      detection are rounded by [toDouble], the arithmetic of the value
      domain by the field [roundNumber] of the runtime.  Pixel arithmetic
      is exact, and the infinities are outside the model.
    - What the language leaves to the engine or to a library outside the
      repository (date parsing of strings, [Number] on strings, [String] on
      numbers and dates, [trim], the local time zone, the d3 time scale) is a
      field of the class [Runtime]. *)

From Stdlib Require Import ZArith QArith Qabs List Bool Lia Lqa.
From Stdlib Require Import Strings.String Strings.Ascii DecimalString.
From Stdlib Require Import Sorting.Sorted Sorting.Permutation.
Import ListNotations.

Local Open Scope string_scope.
Local Open Scope list_scope.
Local Open Scope Z_scope.

(** ** JavaScript values *)

Inductive JSNumber : Type :=
| NaN
| Num (q : Q).

(** A cell of a data view column ([powerbi.PrimitiveValue]).  A [Date] object
    holds a time value or is an Invalid Date ([None]). *)
Inductive PrimitiveValue : Type :=
| VNull
| VUndefined
| VNumber (n : JSNumber)
| VString (s : string)
| VBool (b : bool)
| VDate (d : option Z).

Class Runtime : Type := {
  (** [new Date(s).getTime()] for a string [s]; [None] is [NaN]. *)
  dateParse : string -> option Z;
  (** [Number(s)] for a string [s]. *)
  stringToNumber : string -> JSNumber;
  (** [parseFloat(s)]. *)
  parseFloat : string -> JSNumber;
  (** [String(n)] for a number, [String(d)] for a date. *)
  numberToString : JSNumber -> string;
  dateToString : option Z -> string;
  (** [s.trim()]. *)
  trim : string -> string;
  (** Offset of local time from UTC at an instant, in milliseconds. *)
  tzOffset : Z -> Z;
  (** The d3 time scale with domain [(d0, d1)] and range [(0, w)]:
      [scaleApply (d0, d1) w t] is [xScale(t)] and
      [scaleInvert (d0, d1) w x] is [xScale.invert(x)]. *)
  scaleApply : Z * Z -> Q -> Z -> Q;
  scaleInvert : Z * Z -> Q -> Q -> Z;
  (** The number nearest to a real: the result of an arithmetic operation on
      numbers is the rounding of the exact result. *)
  roundNumber : Q -> Q
}.

(** [a[i]] on a JavaScript array: [undefined] out of range. *)
Definition jsNth (i : nat) (a : list PrimitiveValue) : PrimitiveValue :=
  nth i a VUndefined.

Definition strNonEmpty (s : string) : bool :=
  match s with EmptyString => false | String _ _ => true end.

Definition isZeroQ (q : Q) : bool := Qeq_bool q 0.

(** Truthiness: [null], [undefined], [0], [NaN], the empty string and
    [false] are falsy; every object, a [Date] included, is truthy. *)
Definition truthy (v : PrimitiveValue) : bool :=
  match v with
  | VNull | VUndefined => false
  | VNumber NaN => false
  | VNumber (Num q) => negb (isZeroQ q)
  | VString s => strNonEmpty s
  | VBool b => b
  | VDate _ => true
  end.

(** The largest time value of a [Date]: 8.64e15 milliseconds. *)
Definition maxTime : Z := 8640000000000000.

(** [TimeClip]: a number too large is not a time value; a fraction is
    truncated toward zero. *)
Definition timeClip (q : Q) : option Z :=
  let t := Z.quot (Qnum q) (Zpos (Qden q)) in
  if Qle_bool (Qabs q) (inject_Z maxTime) then Some t else None.

Section WithRuntime.
Context {rt : Runtime}.

(** [Number(v)]. *)
Definition toNumber (v : PrimitiveValue) : JSNumber :=
  match v with
  | VNull => Num 0
  | VUndefined => NaN
  | VNumber n => n
  | VString s => stringToNumber s
  | VBool b => if b then Num 1 else Num 0
  | VDate None => NaN
  | VDate (Some t) => Num (inject_Z t)
  end.

(** [String(v)]. *)
Definition toStr (v : PrimitiveValue) : string :=
  match v with
  | VNull => "null"
  | VUndefined => "undefined"
  | VNumber n => numberToString n
  | VString s => s
  | VBool b => if b then "true" else "false"
  | VDate d => dateToString d
  end.

(** ** The data view *)

(** [roles] lists the role names the host has set to [true]. *)
Record DataViewMetadataColumn : Type := {
  roles : list string;
  queryName : option string;
  displayName : string
}.

Definition hasRole (r : string) (c : DataViewMetadataColumn) : bool :=
  existsb (String.eqb r) (roles c).

(** The conditional-formatting objects of one row, each the string found at
    [obj[card]["fill"]["solid"]["color"]] when the whole chain exists. *)
Record RowObjects : Type := {
  dataPointFill : option string;
  areaSettingsGroupFill : option string
}.

Record DataViewCategoryColumn : Type := {
  c_source : DataViewMetadataColumn;
  c_values : list PrimitiveValue;
  c_objects : option (list (option RowObjects))
}.

Record DataViewValueColumn : Type := {
  v_source : DataViewMetadataColumn;
  v_values : list PrimitiveValue
}.

Record DataViewValueColumnGroup : Type := {
  g_name : PrimitiveValue;
  g_values : list DataViewValueColumn
}.

(** [dv_values] is [categorical.values] seen through [grouped()]. *)
Record DataViewCategorical : Type := {
  dv_categories : option (list DataViewCategoryColumn);
  dv_values : option (list DataViewValueColumnGroup)
}.

(** ** Data points *)

Record TimeDataPoint : Type := {
  timestamp : Z;
  value : option Q;
  series : string;
  anomaly : option JSNumber;
  timelineMarker : option string;
  (** [Some i]: built [withCategory(timestampCategory, i)]; [None]: the
      empty selection id of a gap point. *)
  selectionId : option nat;
  lineColor : option string;
  areaColor : option string;
  index : Z
}.

(** [d.series || "default"]. *)
Definition seriesKey (d : TimeDataPoint) : string :=
  if strNonEmpty (series d) then series d else "default".

(** ** A JavaScript [Map]: insertion ordered, [set] overwrites in place *)

Section JSMap.
Context {K V : Type} (keq : K -> K -> bool).

Fixpoint mapGet (k : K) (m : list (K * V)) : option V :=
  match m with
  | [] => None
  | (k', v) :: m' => if keq k k' then Some v else mapGet k m'
  end.

Fixpoint mapSet (k : K) (v : V) (m : list (K * V)) : list (K * V) :=
  match m with
  | [] => [(k, v)]
  | (k', v') :: m' =>
      if keq k k' then (k', v) :: m' else (k', v') :: mapSet k v m'
  end.

Definition mapValues (m : list (K * V)) : list V := map snd m.
Definition mapKeys (m : list (K * V)) : list K := map fst m.

End JSMap.

(** ** [parseData] *)

Definition parseDate (ts : PrimitiveValue) : option Z :=
  match ts with
  | VDate d => d
  | VNumber NaN => None
  | VNumber (Num q) => timeClip q
  | VString s => dateParse s
  | _ => None
  end.

Definition findMeasure (role : string) (g : DataViewValueColumnGroup)
  : option DataViewValueColumn :=
  find (fun v => hasRole role (v_source v)) (g_values g).

(** First pass: the markers of one group, written into the global map. *)
Definition collectMarkers (timestamps : list PrimitiveValue)
    (gm : list (Z * string)) (g : DataViewValueColumnGroup) : list (Z * string) :=
  match findMeasure "timelineMarkers" g with
  | None => gm
  | Some measure =>
      fold_left
        (fun acc i =>
           match parseDate (jsNth i timestamps) with
           | None => acc
           | Some time =>
               let cell := jsNth i (v_values measure) in
               if truthy cell then
                 let m := toStr cell in
                 if strNonEmpty m && negb (String.eqb (trim m) "")
                 then mapSet Z.eqb time m acc else acc
               else acc
           end)
        (seq 0 (List.length timestamps)) gm
  end.

Definition globalMarkers (timestamps : list PrimitiveValue)
    (groups : list DataViewValueColumnGroup) : list (Z * string) :=
  fold_left (collectMarkers timestamps) groups [].

(** The value cell of row [i]: absent unless present, not the empty string
    and a number after coercion. *)
Definition rowValue (valueMeasure : option DataViewValueColumn) (i : nat)
  : option Q :=
  match valueMeasure with
  | None => None
  | Some vm =>
      match jsNth i (v_values vm) with
      | VNull | VUndefined => None
      | VString EmptyString => None
      | raw => match toNumber raw with NaN => None | Num q => Some q end
      end
  end.

Definition rowAnomaly (anomalyMeasure : option DataViewValueColumn) (i : nat)
  : option JSNumber :=
  match anomalyMeasure with
  | None => None
  | Some am =>
      match jsNth i (v_values am) with
      | VNull | VUndefined => None
      | VString EmptyString => None
      | raw => Some (toNumber raw)
      end
  end.

Definition truthyColor (c : option string) : option string :=
  match c with
  | Some s => if strNonEmpty s then Some s else None
  | None => None
  end.

Definition rowObjects (cat : DataViewCategoryColumn) (i : nat) : option RowObjects :=
  match c_objects cat with
  | None => None
  | Some objs => nth i objs None
  end.

Definition rowLineColor (cat : DataViewCategoryColumn) (i : nat) : option string :=
  match rowObjects cat i with
  | Some obj => truthyColor (dataPointFill obj)
  | None => None
  end.

Definition rowAreaColor (cat : DataViewCategoryColumn) (i : nat) : option string :=
  match rowObjects cat i with
  | Some obj => truthyColor (areaSettingsGroupFill obj)
  | None => None
  end.

Definition groupSeriesName (g : DataViewValueColumnGroup) : string :=
  if truthy (g_name g) then toStr (g_name g) else "default".

(** The point pushed for row [i] of a group whose timestamp parsed to [time]. *)
Definition rowPoint (cat : DataViewCategoryColumn) (gm : list (Z * string))
    (g : DataViewValueColumnGroup) (i : nat) (time : Z) : TimeDataPoint :=
  {| timestamp := time;
     value := rowValue (findMeasure "values" g) i;
     series := groupSeriesName g;
     anomaly := rowAnomaly (findMeasure "anomalies" g) i;
     timelineMarker := mapGet Z.eqb time gm;
     selectionId := Some i;
     lineColor := rowLineColor cat i;
     areaColor := rowAreaColor cat i;
     index := Z.of_nat i |}.

(** Second pass, one group: a point per row whose timestamp parses. *)
Definition groupPoints (cat : DataViewCategoryColumn) (gm : list (Z * string))
    (g : DataViewValueColumnGroup) : list TimeDataPoint :=
  flat_map
    (fun i =>
       match parseDate (jsNth i (c_values cat)) with
       | None => []
       | Some time => [rowPoint cat gm g i time]
       end)
    (seq 0 (List.length (c_values cat))).

Definition rawPoints (cat : DataViewCategoryColumn)
    (groups : list DataViewValueColumnGroup) : list TimeDataPoint :=
  flat_map (groupPoints cat (globalMarkers (c_values cat) groups)) groups.

(** [a.sort((x, y) => key(x) - key(y))]: a stable sort on an integer key;
    of two elements with the same key the one that came first stays first. *)
Section StableSort.
Context {A : Type} (key : A -> Z).

Fixpoint insertSorted (x : A) (l : list A) : list A :=
  match l with
  | [] => [x]
  | y :: l' => if key x <=? key y then x :: l else y :: insertSorted x l'
  end.

Fixpoint sortBy (l : list A) : list A :=
  match l with
  | [] => []
  | x :: l' => insertSorted x (sortBy l')
  end.

End StableSort.

(** [seriesMap]: the points of each series, keys in order of first
    appearance, points in data order. *)
Definition pushToSeries (m : list (string * list TimeDataPoint))
    (d : TimeDataPoint) : list (string * list TimeDataPoint) :=
  let s := seriesKey d in
  let m' := match mapGet String.eqb s m with
            | Some _ => m
            | None => mapSet String.eqb s [] m
            end in
  match mapGet String.eqb s m' with
  | Some pts => mapSet String.eqb s (pts ++ [d]) m'
  | None => m'
  end.

Definition seriesMapOf (data : list TimeDataPoint)
  : list (string * list TimeDataPoint) :=
  fold_left pushToSeries data [].

(** Arithmetic on time values is arithmetic on binary64 numbers.  A time
    value is an integer of magnitude at most 8.64e15, below 2^53, and is
    itself a binary64 number; the difference of two time values and three
    times a difference may lie above 2^53, where only the multiples of the
    spacing of the binade are numbers.  [roundPos a] is the number nearest
    to the integer [a >= 0]: [a] itself up to 2^53, and above it the nearest
    multiple of the spacing [u], the even multiple of two equally near.
    (Every quantity of the gap loop is below 2^56; the overflow to
    [Infinity] near 2^1024 is never reached.) *)
Definition roundPos (a : Z) : Z :=
  if a <? 2 ^ 53 then a
  else
    let u := 2 ^ (Z.log2 a - 52) in
    let q := a / u in
    let r := a mod u in
    if 2 * r <? u then q * u
    else if u <? 2 * r then (q + 1) * u
    else if Z.even q then q * u else (q + 1) * u.

(** The binary64 result of an operation whose exact result is the
    integer [z]. *)
Definition toDouble (z : Z) : Z :=
  if z <? 0 then - roundPos (- z) else roundPos z.

(** The differences of consecutive timestamps that are positive. *)
Fixpoint positiveDiffs (prev : Z) (rest : list TimeDataPoint) : list Z :=
  match rest with
  | [] => []
  | p :: rest' =>
      let diff := toDouble (timestamp p - prev) in
      (if 0 <? diff then [diff] else []) ++ positiveDiffs (timestamp p) rest'
  end.

(** [diffs[Math.floor(diffs.length / 2)]] of the sorted positive
    differences, 0 when there is none. *)
Definition medianDiff (points : list TimeDataPoint) : Z :=
  match points with
  | [] => 0
  | p0 :: rest =>
      let diffs := sortBy (fun d => d) (positiveDiffs (timestamp p0) rest) in
      nth (Nat.div (List.length diffs) 2) diffs 0
  end.

(** [medianDiff > 0 ? medianDiff * 3 : 0]. *)
Definition gapThreshold (m : Z) : Z := if 0 <? m then toDouble (m * 3) else 0.

Definition gapPoint (t : Z) (s : string) : TimeDataPoint :=
  {| timestamp := t;
     value := None;
     series := s;
     anomaly := None;
     timelineMarker := None;
     selectionId := None;
     lineColor := None;
     areaColor := None;
     index := -1 |}.

(** The loop over [i = 1 .. points.length - 1]: an absent-value point after
    [prev] when the step to [curr] exceeds the threshold, then [curr].  The
    instant of the inserted point, [prev + m], lies between two time values
    whenever the test holds ([gap_instant_exact]), so the sum is exact and
    [new Date] neither truncates nor rejects it. *)
Fixpoint fillGaps (m thr : Z) (s : string) (prev : TimeDataPoint)
    (rest : list TimeDataPoint) : list TimeDataPoint :=
  match rest with
  | [] => []
  | curr :: rest' =>
      let diff := toDouble (timestamp curr - timestamp prev) in
      (if (0 <? thr) && (thr <? diff)
       then [gapPoint (timestamp prev + m) s] else [])
      ++ curr :: fillGaps m thr s curr rest'
  end.

(** The body of [seriesMap.forEach]: what one series adds to [newData]. *)
Definition detectGaps (s : string) (points : list TimeDataPoint)
  : list TimeDataPoint :=
  let sorted := sortBy timestamp points in
  match sorted with
  | [] => sorted
  | [_] => sorted
  | p0 :: rest =>
      let m := medianDiff sorted in
      p0 :: fillGaps m (gapThreshold m) s p0 rest
  end.

Definition postProcess (data : list TimeDataPoint) : list TimeDataPoint :=
  let newData := flat_map (fun sp => detectGaps (fst sp) (snd sp)) (seriesMapOf data) in
  sortBy timestamp newData.

Definition findTimestampCategory (cats : list DataViewCategoryColumn)
  : option DataViewCategoryColumn :=
  find (fun c => hasRole "timestamp" (c_source c)) cats.

(** [parseData]: the new value of [this.data].  [None] stands for a missing
    [dataViews[0]] or a data view without [categorical]. *)
Definition parseData (dv : option DataViewCategorical) : list TimeDataPoint :=
  match dv with
  | None => []
  | Some categorical =>
      match dv_categories categorical, dv_values categorical with
      | Some (c :: cs), Some groups =>
          match findTimestampCategory (c :: cs) with
          | None => []
          | Some cat =>
              match c_values cat with
              | [] => []
              | _ => postProcess (rawPoints cat groups)
              end
          end
      | _, _ => []
      end
  end.


(** [this.data] as the two passes leave it, before gap detection. *)
Definition parseRows (dv : option DataViewCategorical) : list TimeDataPoint :=
  match dv with
  | None => []
  | Some categorical =>
      match dv_categories categorical, dv_values categorical with
      | Some (c :: cs), Some groups =>
          match findTimestampCategory (c :: cs) with
          | None => []
          | Some cat => rawPoints cat groups
          end
      | _, _ => []
      end
  end.

(** ** Value scales ([renderChart], "Y Scales") *)

Definition Qltb (a b : Q) : bool := negb (Qle_bool b a).
Definition qmax (a b : Q) : Q := if Qle_bool a b then b else a.
Definition qmin (a b : Q) : Q := if Qle_bool a b then a else b.

(** [d3.min] and [d3.max] over the values of the points: [None] is
    [undefined], the result on no value. *)
Definition d3min (vs : list Q) : option Q :=
  match vs with
  | [] => None
  | v :: vs' => Some (fold_left qmin vs' v)
  end.

Definition d3max (vs : list Q) : option Q :=
  match vs with
  | [] => None
  | v :: vs' => Some (fold_left qmax vs' v)
  end.

(** [x || d] on a number or [undefined]: [d] replaces [undefined] and 0. *)
Definition orDefault (x : option Q) (d : Q) : Q :=
  match x with
  | Some q => if isZeroQ q then d else q
  | None => d
  end.

(** The values of the points that have one ([validPoints]). *)
Definition validValues (points : list TimeDataPoint) : list Q :=
  flat_map (fun d => match value d with Some v => [v] | None => [] end) points.

(** A manual axis bound: the setting is a non-empty string that
    [parseFloat] reads as a number. *)
Definition manualBound (setting : option string) : option Q :=
  match setting with
  | Some s =>
      if strNonEmpty s
      then match parseFloat s with Num q => Some q | NaN => None end
      else None
  | None => None
  end.

(** "Padding": [yMin -= 1; yMax += 1] when [yMin === yMax], otherwise
    [padding = (yMax - yMin) * 0.1; yMin -= padding; yMax += padding].  Each
    operation gives the number nearest to the exact result, and [0.1] is
    the number nearest to a tenth. *)
Definition padDomain (yMin yMax : Q) : Q * Q :=
  if Qeq_bool yMin yMax
  then (roundNumber (yMin - 1), roundNumber (yMax + 1))
  else let padding :=
         roundNumber (roundNumber (yMax - yMin) * roundNumber (1 # 10)) in
       (roundNumber (yMin - padding), roundNumber (yMax + padding)).

(** The domain of the value scale of one series. *)
Definition yDomain (isMultiSeries : bool) (yMinSetting yMaxSetting : option string)
    (points : list TimeDataPoint) : Q * Q :=
  let valid := validValues points in
  let yMin := orDefault (d3min valid) 0 in
  let yMax := orDefault (d3max valid) 1 in
  let yMin := if isMultiSeries then yMin
              else match manualBound yMinSetting with Some b => b | None => yMin end in
  let yMax := if isMultiSeries then yMax
              else match manualBound yMaxSetting with Some b => b | None => yMax end in
  padDomain yMin yMax.

Definition isMultiSeriesOf (seriesNames : list string) : bool :=
  match seriesNames with
  | [] => false
  | [name] => negb (String.eqb name "default")
  | _ => true
  end.

(** [yScales]: one domain per series of [d3.group(this.data, seriesKey)];
    the keys of the grouping are distinct, so [set] never overwrites. *)
Definition yScalesOf (yMinSetting yMaxSetting : option string)
    (data : list TimeDataPoint) : list (string * (Q * Q)) :=
  let seriesGroups := seriesMapOf data in
  let isMulti := isMultiSeriesOf (mapKeys seriesGroups) in
  map (fun sp => (fst sp, yDomain isMulti yMinSetting yMaxSetting (snd sp)))
      seriesGroups.

(** ** Markers of the scene *)

Definition hasAnomaly (d : TimeDataPoint) : bool :=
  match anomaly d with Some _ => true | None => false end.

Definition hasMarker (d : TimeDataPoint) : bool :=
  match timelineMarker d with Some _ => true | None => false end.

Definition anomalyPoints (data : list TimeDataPoint) : list TimeDataPoint :=
  filter hasAnomaly data.

(** [uniqueMarkers]: the last point with a marker at each instant. *)
Definition timelinePoints (data : list TimeDataPoint) : list TimeDataPoint :=
  mapValues
    (fold_left
       (fun um d => if hasMarker d then mapSet Z.eqb (timestamp d) d um else um)
       data []).

(** ** Area and line of one series ([renderChart], "Render Series") *)

(** [c || dflt] for a colour. *)
Definition colorOr (c : option string) (dflt : string) : string :=
  match c with
  | Some s => if strNonEmpty s then s else dflt
  | None => dflt
  end.

(** [p.value] is neither [null] nor [undefined]. *)
Definition hasValue (d : TimeDataPoint) : bool :=
  match value d with Some _ => true | None => false end.

(** The loop over [i = 0 .. points.length - 2]: a segment between the
    points [i] and [i + 1] when both have a value, filled in the colour of
    the first. *)
Fixpoint areaLoop (defaultAreaColor : string) (points : list TimeDataPoint)
  : list (string * (TimeDataPoint * TimeDataPoint)) :=
  match points with
  | [] => []
  | p1 :: rest =>
      match rest with
      | [] => []
      | p2 :: _ =>
          (if hasValue p1 && hasValue p2
           then [(colorOr (areaColor p1) defaultAreaColor, (p1, p2))] else [])
          ++ areaLoop defaultAreaColor rest
      end
  end.

(** The area of a series: [if (showArea) { ... }] around the loop. *)
Definition areaSegments (showArea : bool) (defaultAreaColor : string)
    (points : list TimeDataPoint)
  : list (string * (TimeDataPoint * TimeDataPoint)) :=
  if showArea then areaLoop defaultAreaColor points else [].

(** [colorSegments]: the points with a value, by line colour; colours in
    order of first appearance, points in the order of the series. *)
Definition pushToColor (defaultLineColor : string)
    (m : list (string * list TimeDataPoint)) (p : TimeDataPoint)
  : list (string * list TimeDataPoint) :=
  if hasValue p then
    let color := colorOr (lineColor p) defaultLineColor in
    let m' := match mapGet String.eqb color m with
              | Some _ => m
              | None => mapSet String.eqb color [] m
              end in
    match mapGet String.eqb color m' with
    | Some pts => mapSet String.eqb color (pts ++ [p]) m'
    | None => m'
    end
  else m.

Definition colorSegments (defaultLineColor : string) (points : list TimeDataPoint)
  : list (string * list TimeDataPoint) :=
  fold_left (pushToColor defaultLineColor) points [].

(** The line of a series: one path for each colour that has two points or
    more, through the points of that colour. *)
Definition linePaths (defaultLineColor : string) (points : list TimeDataPoint)
  : list (string * list TimeDataPoint) :=
  filter (fun cp => Nat.leb 2 (List.length (snd cp)))
         (colorSegments defaultLineColor points).

(** ** Dates *)

Record DateFields : Type := {
  fullYear : Z;
  month : Z;        (* 0 .. 11, as [getMonth] *)
  date : Z;         (* 1 .. 31, as [getDate] *)
  hours : Z;
  minutes : Z;
  seconds : Z;
  milliseconds : Z
}.

Definition msPerDay : Z := 86400000.

(** Year, month (1 .. 12) and day of the day number counted from 1970-01-01
    in the proleptic Gregorian calendar. *)
Definition civilFromDays (days : Z) : Z * Z * Z :=
  let z := days + 719468 in
  let era := z / 146097 in
  let doe := z - era * 146097 in
  let yoe := (doe - doe / 1460 + doe / 36524 - doe / 146096) / 365 in
  let y := yoe + era * 400 in
  let doy := doe - (365 * yoe + yoe / 4 - yoe / 100) in
  let mp := (5 * doy + 2) / 153 in
  let d := doy - (153 * mp + 2) / 5 + 1 in
  let m := if mp <? 10 then mp + 3 else mp - 9 in
  (if m <=? 2 then y + 1 else y, m, d).

Definition utcFields (t : Z) : DateFields :=
  let '(y, m, d) := civilFromDays (t / msPerDay) in
  let r := t mod msPerDay in
  {| fullYear := y;
     month := m - 1;
     date := d;
     hours := r / 3600000;
     minutes := (r / 60000) mod 60;
     seconds := (r / 1000) mod 60;
     milliseconds := r mod 1000 |}.

Definition localFields (t : Z) : DateFields := utcFields (t + tzOffset t).

(** [n.toString()] for an integer. *)
Definition intToString (n : Z) : string := NilZero.string_of_int (Z.to_int n).

Fixpoint zeros (n : nat) : string :=
  match n with
  | O => EmptyString
  | S n' => String "0" (zeros n')
  end.

(** [s.padStart(len, "0")]. *)
Definition padStart0 (s : string) (len : nat) : string :=
  (zeros (len - String.length s) ++ s)%string.

(** [pad]: the helper of the custom formatter. *)
Definition pad (n : Z) (len : nat) : string := padStart0 (intToString n) len.

Definition isoYear (y : Z) : string :=
  if (0 <=? y) && (y <=? 9999) then pad y 4
  else String.append (if y <? 0 then "-" else "+") (pad (Z.abs y) 6).

(** [Date.prototype.toISOString] on a valid date. *)
Definition toISOString (t : Z) : string :=
  let f := utcFields t in
  (isoYear (fullYear f) ++ "-" ++ pad (month f + 1) 2 ++ "-" ++ pad (date f) 2
   ++ "T" ++ pad (hours f) 2 ++ ":" ++ pad (minutes f) 2 ++ ":"
   ++ pad (seconds f) 2 ++ "." ++ pad (milliseconds f) 3 ++ "Z")%string.

(** *** Global replacement of a token *)

Definition isLower (c : ascii) : bool :=
  (Nat.leb 97 (nat_of_ascii c) && Nat.leb (nat_of_ascii c) 122)%bool.

Fixpoint dropStr (n : nat) (s : string) : string :=
  match n, s with
  | O, _ => s
  | S n', String _ s' => dropStr n' s'
  | S _, EmptyString => EmptyString
  end.

Definition nextIsLower (s : string) : bool :=
  match s with
  | String c _ => isLower c
  | EmptyString => false
  end.

(** [s.replace(/tok/g, rep)], and with [look] the pattern
    [/tok(?![a-z])/g]: left to right, matches do not overlap and the
    replacement is not scanned again.  [skip] counts the characters of a
    match still to be consumed. *)
Fixpoint replaceFrom (tok rep : string) (look : bool) (skip : nat) (s : string)
  : string :=
  match s with
  | EmptyString => EmptyString
  | String c s' =>
      match skip with
      | S k => replaceFrom tok rep look k s'
      | O =>
          if (String.prefix tok s
              && (negb look || negb (nextIsLower (dropStr (String.length tok) s))))%bool
          then (rep ++ replaceFrom tok rep look (String.length tok - 1) s')%string
          else String c (replaceFrom tok rep look 0 s')
      end
  end.

Definition replaceAll (tok rep : string) (s : string) : string :=
  replaceFrom tok rep false 0 s.

Definition replaceAllNotBeforeLower (tok rep : string) (s : string) : string :=
  replaceFrom tok rep true 0 s.

Definition months : list string :=
  ["Jan"; "Feb"; "Mar"; "Apr"; "May"; "Jun";
   "Jul"; "Aug"; "Sep"; "Oct"; "Nov"; "Dec"].

Definition fullMonths : list string :=
  ["January"; "February"; "March"; "April"; "May"; "June"; "July";
   "August"; "September"; "October"; "November"; "December"].

(** [s.slice(-2)]. *)
Definition sliceLast2 (s : string) : string := dropStr (String.length s - 2) s.

(** [h % 12 || 12]. *)
Definition hour12 (h : Z) : Z := if (h mod 12) =? 0 then 12 else h mod 12.

(** The formatter that [createDateFormatter format] returns, applied to the
    date of instant [t].  The cache of formatters changes no result. *)
Definition createDateFormatter (format : string) (t : Z) : string :=
  let d := localFields t in
  let mon := Z.to_nat (month d) in
  let result := format in
  let result := replaceAll "yyyy" (intToString (fullYear d)) result in
  let result := replaceAll "yy" (sliceLast2 (intToString (fullYear d))) result in
  let result := replaceAll "MMMM" (nth mon fullMonths "") result in
  let result := replaceAll "MMM" (nth mon months "") result in
  let result := replaceAll "MM" (pad (month d + 1) 2) result in
  let result := replaceAllNotBeforeLower "M" (intToString (month d + 1)) result in
  let result := replaceAll "dd" (pad (date d) 2) result in
  let result := replaceAllNotBeforeLower "d" (intToString (date d)) result in
  let result := replaceAll "HH" (pad (hours d) 2) result in
  let result := replaceAllNotBeforeLower "H" (intToString (hours d)) result in
  let result := replaceAll "hh" (pad (hour12 (hours d)) 2) result in
  let result := replaceAllNotBeforeLower "h" (intToString (hour12 (hours d))) result in
  let result := replaceAll "mm" (pad (minutes d) 2) result in
  let result := replaceAllNotBeforeLower "m" (intToString (minutes d)) result in
  let result := replaceAll "ss" (pad (seconds d) 2) result in
  let result := replaceAllNotBeforeLower "s" (intToString (seconds d)) result in
  let result := replaceAll "fff" (pad (milliseconds d) 3) result in
  let result := replaceAll "tt" (if 12 <=? hours d then "PM" else "AM") result in
  let result := replaceAll "t" (if 12 <=? hours d then "P" else "A") result in
  result.


(** ** The visual *)

(** The formatting settings the visual reads; [None] is a [null] or
    [undefined] slice value, replaced by the default after [??]. *)
Record Settings : Type := {
  yAxisMin : option string;
  yAxisMax : option string;
  delimiter : option string;
  useISOFormat : option bool;
  outputFormat : option string;
  dateFormat : option string;
  prefix : option string;
  showSelectedRange : option bool;
  fontSize : option Q;
  rangeTextMarginTop : option Q;
  rangeTextMarginBottom : option Q;
  showAxis : option bool;
  marginTop : option Q;
  marginRight : option Q;
  marginBottom : option Q;
  marginLeft : option Q;
  showAreaChart : option bool
}.

(** [dv_settings] is what [populateFormattingSettingsModel] builds from the
    data view. *)
Record DataView : Type := {
  categorical : option DataViewCategorical;
  dv_settings : Settings
}.

(** [dataView0] is [options.dataViews && options.dataViews[0]]. *)
Record VisualUpdateOptions : Type := {
  dataView0 : option DataView;
  viewportWidth : Q;
  viewportHeight : Q
}.

Record FilterTarget : Type := {
  table : string;
  column : string
}.

(** The advanced filter handed to [host.applyJsonFilter]: one condition
    with the operator "Is". *)
Record JsonFilter : Type := {
  f_target : FilterTarget;
  f_value : string
}.

(** The event a d3 brush hands to its listeners. *)
Record BrushEvent : Type := {
  selection : option (Q * Q)
}.

(** A callback scheduled with [setTimeout]. *)
Inductive Timer : Type :=
| DisplayUpdate   (* 16 ms, set by [onBrush] *)
| FlagReset.      (* 50 ms, set by [restoreBrushSelection] *)

Definition isDisplayUpdate (t : Timer) : bool :=
  match t with DisplayUpdate => true | FlagReset => false end.

(** What the chart and marker groups hold after a render. *)
Record Scene : Type := {
  sc_anomalies : list TimeDataPoint;
  sc_timeline : list TimeDataPoint;
  sc_yScales : list (string * (Q * Q))
}.

(** The fields of the class and, below the line, the parts of the page and
    of the host that the handlers act on. *)
Record Visual : Type := {
  data : list TimeDataPoint;
  formattingSettings : option Settings;
  xScale : option ((Z * Z) * Q);
  brush : option (Q * Q);
  selectedStartDate : option Z;
  selectedEndDate : option Z;
  filterColumnTarget : option FilterTarget;
  lastTimeRange : option (Z * Z);
  lastBrushWidth : Q;
  lastBrushHeight : Q;
  brushUpdateTimeout : bool;
  isProgrammaticBrushUpdate : bool;
  (* ------------------------------------------------------------------ *)
  rangeDisplay : string;
  scene : option Scene;
  brushElementsExist : bool;
  brushSelection : option (Q * Q);
  timers : list Timer;
  appliedFilters : list JsonFilter
}.

(** The state the constructor leaves. *)
Definition initialVisual : Visual :=
  {| data := [];
     formattingSettings := None;
     xScale := None;
     brush := None;
     selectedStartDate := None;
     selectedEndDate := None;
     filterColumnTarget := None;
     lastTimeRange := None;
     lastBrushWidth := 0%Q;
     lastBrushHeight := 0%Q;
     brushUpdateTimeout := false;
     isProgrammaticBrushUpdate := false;
     rangeDisplay := "Add a timestamp field";
     scene := None;
     brushElementsExist := false;
     brushSelection := None;
     timers := [];
     appliedFilters := [] |}.

(** [this.formattingSettings?.card?.slice?.value ?? dflt]. *)
Definition setting {A : Type} (v : Visual) (get : Settings -> option A) (dflt : A) : A :=
  match formattingSettings v with
  | Some st => match get st with Some a => a | None => dflt end
  | None => dflt
  end.

(** [this.formattingSettings?.card?.slice?.value], without a default. *)
Definition settingOpt {A : Type} (v : Visual) (get : Settings -> option A) : option A :=
  match formattingSettings v with
  | Some st => get st
  | None => None
  end.

(** [showArea] of [renderChart]. *)
Definition showArea (v : Visual) : bool := setting v showAreaChart true.

Definition updateRangeDisplay (v : Visual) : Visual :=
  let text :=
    match selectedStartDate v, selectedEndDate v with
    | Some a, Some b =>
        let displayFormat := setting v dateFormat "MMM d, yyyy HH:mm:ss" in
        let prefix := setting v prefix "Effective Range" in
        let startStr := createDateFormatter displayFormat a in
        let endStr := createDateFormatter displayFormat b in
        let prefixText := if strNonEmpty prefix then String.append prefix ": " else "" in
        (prefixText ++ startStr ++ "  " ++ endStr)%string
    | _, _ => "Select a time range"
    end in
  {| data := data v; formattingSettings := formattingSettings v;
     xScale := xScale v; brush := brush v;
     selectedStartDate := selectedStartDate v;
     selectedEndDate := selectedEndDate v;
     filterColumnTarget := filterColumnTarget v;
     lastTimeRange := lastTimeRange v;
     lastBrushWidth := lastBrushWidth v; lastBrushHeight := lastBrushHeight v;
     brushUpdateTimeout := brushUpdateTimeout v;
     isProgrammaticBrushUpdate := isProgrammaticBrushUpdate v;
     rangeDisplay := text;
     scene := scene v; brushElementsExist := brushElementsExist v;
     brushSelection := brushSelection v;
     timers := timers v; appliedFilters := appliedFilters v |}.

Definition setSelection (a b : option Z) (v : Visual) : Visual :=
  {| data := data v; formattingSettings := formattingSettings v;
     xScale := xScale v; brush := brush v;
     selectedStartDate := a;
     selectedEndDate := b;
     filterColumnTarget := filterColumnTarget v;
     lastTimeRange := lastTimeRange v;
     lastBrushWidth := lastBrushWidth v; lastBrushHeight := lastBrushHeight v;
     brushUpdateTimeout := brushUpdateTimeout v;
     isProgrammaticBrushUpdate := isProgrammaticBrushUpdate v;
     rangeDisplay := rangeDisplay v;
     scene := scene v; brushElementsExist := brushElementsExist v;
     brushSelection := brushSelection v;
     timers := timers v; appliedFilters := appliedFilters v |}.

Definition setProgrammatic (b : bool) (v : Visual) : Visual :=
  {| data := data v; formattingSettings := formattingSettings v;
     xScale := xScale v; brush := brush v;
     selectedStartDate := selectedStartDate v;
     selectedEndDate := selectedEndDate v;
     filterColumnTarget := filterColumnTarget v;
     lastTimeRange := lastTimeRange v;
     lastBrushWidth := lastBrushWidth v; lastBrushHeight := lastBrushHeight v;
     brushUpdateTimeout := brushUpdateTimeout v;
     isProgrammaticBrushUpdate := b;
     rangeDisplay := rangeDisplay v;
     scene := scene v; brushElementsExist := brushElementsExist v;
     brushSelection := brushSelection v;
     timers := timers v; appliedFilters := appliedFilters v |}.

(** [setTimeout] and [clearTimeout] on the display timer of [onBrush]. *)
Definition setTimers (pending : bool) (ts : list Timer) (v : Visual) : Visual :=
  {| data := data v; formattingSettings := formattingSettings v;
     xScale := xScale v; brush := brush v;
     selectedStartDate := selectedStartDate v;
     selectedEndDate := selectedEndDate v;
     filterColumnTarget := filterColumnTarget v;
     lastTimeRange := lastTimeRange v;
     lastBrushWidth := lastBrushWidth v; lastBrushHeight := lastBrushHeight v;
     brushUpdateTimeout := pending;
     isProgrammaticBrushUpdate := isProgrammaticBrushUpdate v;
     rangeDisplay := rangeDisplay v;
     scene := scene v; brushElementsExist := brushElementsExist v;
     brushSelection := brushSelection v;
     timers := ts; appliedFilters := appliedFilters v |}.

(** [host.applyJsonFilter(filter, "general", "filter", merge)]. *)
Definition applyJsonFilter (f : JsonFilter) (v : Visual) : Visual :=
  {| data := data v; formattingSettings := formattingSettings v;
     xScale := xScale v; brush := brush v;
     selectedStartDate := selectedStartDate v;
     selectedEndDate := selectedEndDate v;
     filterColumnTarget := filterColumnTarget v;
     lastTimeRange := lastTimeRange v;
     lastBrushWidth := lastBrushWidth v; lastBrushHeight := lastBrushHeight v;
     brushUpdateTimeout := brushUpdateTimeout v;
     isProgrammaticBrushUpdate := isProgrammaticBrushUpdate v;
     rangeDisplay := rangeDisplay v;
     scene := scene v; brushElementsExist := brushElementsExist v;
     brushSelection := brushSelection v;
     timers := timers v; appliedFilters := appliedFilters v ++ [f] |}.

Definition setBrushSelection (sel : option (Q * Q)) (v : Visual) : Visual :=
  {| data := data v; formattingSettings := formattingSettings v;
     xScale := xScale v; brush := brush v;
     selectedStartDate := selectedStartDate v;
     selectedEndDate := selectedEndDate v;
     filterColumnTarget := filterColumnTarget v;
     lastTimeRange := lastTimeRange v;
     lastBrushWidth := lastBrushWidth v; lastBrushHeight := lastBrushHeight v;
     brushUpdateTimeout := brushUpdateTimeout v;
     isProgrammaticBrushUpdate := isProgrammaticBrushUpdate v;
     rangeDisplay := rangeDisplay v;
     scene := scene v; brushElementsExist := brushElementsExist v;
     brushSelection := sel;
     timers := timers v; appliedFilters := appliedFilters v |}.

(** [onBrush]: the selection follows the brush at once, the display later. *)
Definition onBrush (event : BrushEvent) (v : Visual) : Visual :=
  match selection event, xScale v with
  | Some (x0, x1), Some (domain, w) =>
      let v := setSelection (Some (scaleInvert domain w x0))
                            (Some (scaleInvert domain w x1)) v in
      let cleared := if brushUpdateTimeout v
                     then filter (fun t => negb (isDisplayUpdate t)) (timers v)
                     else timers v in
      setTimers true (cleared ++ [DisplayUpdate]) v
  | _, _ => v
  end.

(** The string that goes out as the operand of the filter. *)
Definition filterValue (v : Visual) (a b : Z) : string :=
  let delimiter := setting v delimiter "|" in
  let useISO := setting v useISOFormat true in
  let outStart :=
    if useISO then toISOString a
    else createDateFormatter (setting v outputFormat "yyyy-MM-dd HH:mm:ss") a in
  let outEnd :=
    if useISO then toISOString b
    else createDateFormatter (setting v outputFormat "yyyy-MM-dd HH:mm:ss") b in
  (outStart ++ delimiter ++ outEnd)%string.

Definition onBrushEnd (event : BrushEvent) (v : Visual) : Visual :=
  let v :=
    match selection event, xScale v with
    | None, Some (domain, _) =>
        updateRangeDisplay (setSelection (Some (fst domain)) (Some (snd domain)) v)
    | _, _ => v
    end in
  if isProgrammaticBrushUpdate v then v
  else
    match selectedStartDate v, selectedEndDate v, filterColumnTarget v with
    | Some a, Some b, Some target =>
        applyJsonFilter {| f_target := target; f_value := filterValue v a b |} v
    | _, _, _ => v
    end.

(** [this.brushGroup.call(this.brush.move, sel)]: d3 stores the selection
    and dispatches "start", "brush" and "end" before it returns; the brush
    has listeners for the last two. *)
Definition brushMove (sel : Q * Q) (v : Visual) : Visual :=
  let event := {| selection := Some sel |} in
  onBrushEnd event (onBrush event (setBrushSelection (Some sel) v)).

(** A pointer gesture on the brush: d3 tracks the selection, calls the
    "brush" listener on every move and the "end" listener on release; a
    release without a selection is a cleared brush. *)
Definition userDrag (sel : Q * Q) (v : Visual) : Visual :=
  onBrush {| selection := Some sel |} (setBrushSelection (Some sel) v).

Definition userRelease (sel : option (Q * Q)) (v : Visual) : Visual :=
  onBrushEnd {| selection := sel |} (setBrushSelection sel v).

Definition restoreBrushSelection (v : Visual) : Visual :=
  match selectedStartDate v, selectedEndDate v, brush v, xScale v with
  | Some a, Some b, Some _, Some (domain, w) =>
      let x0 := scaleApply domain w a in
      let x1 := scaleApply domain w b in
      let v := setProgrammatic true v in
      let v := brushMove (x0, x1) v in
      let v := updateRangeDisplay v in
      setTimers (brushUpdateTimeout v) (timers v ++ [FlagReset]) v
  | _, _, _, _ => v
  end.

(** A timer fires: its callback runs. *)
Definition runTimer (t : Timer) (v : Visual) : Visual :=
  match t with
  | DisplayUpdate => setTimers false (timers v) (updateRangeDisplay v)
  | FlagReset => setProgrammatic false v
  end.

Fixpoint removeNth {A : Type} (n : nat) (l : list A) : list A :=
  match n, l with
  | _, [] => []
  | O, _ :: l' => l'
  | S n', x :: l' => x :: removeNth n' l'
  end.

(** The pending timer number [n] fires, if there is one: it leaves the
    queue and its callback runs. *)
Definition fireTimer (n : nat) (v : Visual) : Visual :=
  match nth_error (timers v) n with
  | None => v
  | Some t => runTimer t (setTimers (brushUpdateTimeout v) (removeNth n (timers v)) v)
  end.


(** [d3.extent(this.data, d => d.timestamp)]. *)
Definition timeExtentOf (data : list TimeDataPoint) : option (Z * Z) :=
  match data with
  | [] => None
  | d :: ds =>
      Some (fold_left Z.min (map timestamp ds) (timestamp d),
            fold_left Z.max (map timestamp ds) (timestamp d))
  end.

Definition Qabsdiff_gt5 (a b : Q) : bool := Qltb 5 (Qabs (a - b)).

Definition setupBrush (width height : Q) (v : Visual) : Visual :=
  let dimensionsChanged :=
    Qabsdiff_gt5 (lastBrushWidth v) width || Qabsdiff_gt5 (lastBrushHeight v) height in
  let recreate :=
    match brush v with
    | None => true
    | Some _ => dimensionsChanged || negb (brushElementsExist v)
    end in
  {| data := data v; formattingSettings := formattingSettings v;
     xScale := xScale v;
     brush := Some (width, height);
     selectedStartDate := selectedStartDate v;
     selectedEndDate := selectedEndDate v;
     filterColumnTarget := filterColumnTarget v;
     lastTimeRange := lastTimeRange v;
     lastBrushWidth := if recreate then width else lastBrushWidth v;
     lastBrushHeight := if recreate then height else lastBrushHeight v;
     brushUpdateTimeout := brushUpdateTimeout v;
     isProgrammaticBrushUpdate := isProgrammaticBrushUpdate v;
     rangeDisplay := rangeDisplay v;
     scene := scene v;
     brushElementsExist := true;
     brushSelection := brushSelection v;
     timers := timers v; appliedFilters := appliedFilters v |}.

(** The part of [renderChart] before the brush: the extent check, the
    scales and the scene. *)
Definition renderScene (chartWidth : Q) (extent : Z * Z) (v : Visual) : Visual :=
  let changed :=
    match lastTimeRange v with
    | Some (oldMin, oldMax) =>
        negb (oldMin =? fst extent) || negb (oldMax =? snd extent)
    | None => false
    end in
  {| data := data v; formattingSettings := formattingSettings v;
     xScale := Some (extent, chartWidth);
     brush := brush v;
     selectedStartDate := if changed then None else selectedStartDate v;
     selectedEndDate := if changed then None else selectedEndDate v;
     filterColumnTarget := filterColumnTarget v;
     lastTimeRange := Some extent;
     lastBrushWidth := lastBrushWidth v; lastBrushHeight := lastBrushHeight v;
     brushUpdateTimeout := brushUpdateTimeout v;
     isProgrammaticBrushUpdate := isProgrammaticBrushUpdate v;
     rangeDisplay := rangeDisplay v;
     scene := Some {| sc_anomalies := anomalyPoints (data v);
                      sc_timeline := timelinePoints (data v);
                      sc_yScales := yScalesOf (settingOpt v yAxisMin)
                                              (settingOpt v yAxisMax)
                                              (data v) |};
     brushElementsExist := brushElementsExist v;
     brushSelection := brushSelection v;
     timers := timers v; appliedFilters := appliedFilters v |}.

Definition chartWidthOf (v : Visual) (width : Q) : Q :=
  qmax 50 (width - setting v marginLeft 0 - setting v marginRight 0)%Q.

Definition chartHeightOf (v : Visual) (height : Q) : Q :=
  let fontSize := setting v fontSize 12%Q in
  let rangeMarginTop := setting v rangeTextMarginTop 0%Q in
  let rangeMarginBottom := setting v rangeTextMarginBottom 0%Q in
  let rangeHeight :=
    if setting v showSelectedRange true
    then (fontSize + rangeMarginTop + rangeMarginBottom + 5)%Q else 0%Q in
  let axisHeight := if setting v showAxis true then 25%Q else 5%Q in
  qmax 30 (height - rangeHeight - setting v marginTop 0 - setting v marginBottom 0
           - axisHeight)%Q.

(** [renderChart]; it is called on data that is not empty. *)
Definition renderChart (width height : Q) (v : Visual) : Visual :=
  match timeExtentOf (data v) with
  | None => v
  | Some extent =>
      let chartWidth := chartWidthOf v width in
      let chartHeight := chartHeightOf v height in
      let v := renderScene chartWidth extent v in
      let v := setupBrush chartWidth chartHeight v in
      match selectedStartDate v, selectedEndDate v with
      | Some _, Some _ => restoreBrushSelection v
      | _, _ =>
          let v := setSelection (Some (fst extent)) (Some (snd extent)) v in
          let v := updateRangeDisplay v in
          brushMove (0%Q, chartWidth) v
      end
  end.

Definition showNoDataMessage (v : Visual) : Visual :=
  {| data := data v; formattingSettings := formattingSettings v;
     xScale := xScale v; brush := brush v;
     selectedStartDate := selectedStartDate v;
     selectedEndDate := selectedEndDate v;
     filterColumnTarget := filterColumnTarget v;
     lastTimeRange := lastTimeRange v;
     lastBrushWidth := lastBrushWidth v; lastBrushHeight := lastBrushHeight v;
     brushUpdateTimeout := brushUpdateTimeout v;
     isProgrammaticBrushUpdate := isProgrammaticBrushUpdate v;
     rangeDisplay := "Add a timestamp field and data to use the time brush slicer";
     scene := None;
     brushElementsExist := false;
     brushSelection := brushSelection v;
     timers := timers v; appliedFilters := appliedFilters v |}.

(** *** The filter target *)

Fixpoint lastIndexOfFrom (c : ascii) (i : nat) (s : string) (found : option nat)
  : option nat :=
  match s with
  | EmptyString => found
  | String c' s' =>
      lastIndexOfFrom c (S i) s' (if Ascii.eqb c c' then Some i else found)
  end.

(** [s.lastIndexOf('.')]; [None] is -1. *)
Definition lastIndexOfDot (s : string) : option nat :=
  lastIndexOfFrom "."%char 0 s None.

Definition filterCategoryOf (categories : list DataViewCategoryColumn)
  : option DataViewCategoryColumn :=
  let byRole := find (fun c => hasRole "filterField" (c_source c)) categories in
  let fallback1 :=
    match byRole with
    | Some c => Some c
    | None =>
        if Nat.ltb 1 (List.length categories)
        then find (fun c => negb (hasRole "timestamp" (c_source c))) categories
        else None
    end in
  match fallback1 with
  | Some c => Some c
  | None => find (fun c => hasRole "timestamp" (c_source c)) categories
  end.

Definition filterTargetOf (dv : option DataView) : option FilterTarget :=
  match dv with
  | None => None
  | Some view =>
      match categorical view with
      | None => None
      | Some cat =>
          match dv_categories cat with
          | None => None
          | Some categories =>
              match filterCategoryOf categories with
              | None => None
              | Some fc =>
                  match queryName (c_source fc) with
                  | None => None
                  | Some qn =>
                      if strNonEmpty qn then
                        match lastIndexOfDot qn with
                        | Some (S k) =>
                            Some {| table := substring 0 (S k) qn;
                                    column := dropStr (S (S k)) qn |}
                        | _ =>
                            Some {| table := "";
                                    column := displayName (c_source fc) |}
                        end
                      else None
                  end
              end
          end
      end
  end.

(** The head of [update]: data, settings and filter target are replaced. *)
Definition loadOptions (options : VisualUpdateOptions) (v : Visual) : Visual :=
  {| data := parseData match dataView0 options with
                       | Some view => categorical view
                       | None => None
                       end;
     formattingSettings := match dataView0 options with
                           | Some view => Some (dv_settings view)
                           | None => formattingSettings v
                           end;
     xScale := xScale v; brush := brush v;
     selectedStartDate := selectedStartDate v;
     selectedEndDate := selectedEndDate v;
     filterColumnTarget := filterTargetOf (dataView0 options);
     lastTimeRange := lastTimeRange v;
     lastBrushWidth := lastBrushWidth v; lastBrushHeight := lastBrushHeight v;
     brushUpdateTimeout := brushUpdateTimeout v;
     isProgrammaticBrushUpdate := isProgrammaticBrushUpdate v;
     rangeDisplay := rangeDisplay v;
     scene := scene v; brushElementsExist := brushElementsExist v;
     brushSelection := brushSelection v;
     timers := timers v; appliedFilters := appliedFilters v |}.

(** The test that sends [update] to the placeholder. *)
Definition placeholderPath (options : VisualUpdateOptions) (v : Visual) : bool :=
  let width := qmax 0 (viewportWidth options) in
  let height := qmax 0 (viewportHeight options) in
  Qltb width 100 || Qltb height 50
  || match data (loadOptions options v) with [] => true | _ => false end.

Definition update (options : VisualUpdateOptions) (v : Visual) : Visual :=
  let v := loadOptions options v in
  let width := qmax 0 (viewportWidth options) in
  let height := qmax 0 (viewportHeight options) in
  if Qltb width 100 || Qltb height 50 then showNoDataMessage v
  else
    match data v with
    | [] => showNoDataMessage v
    | _ => renderChart width height v
    end.

(** ** [destroy] *)

(** The display timer is cleared, the listeners of the brush are taken
    off, the groups of the chart are removed and data, scale and brush are
    dropped.  The timer that clears the guard is not cleared. *)
Definition destroy (v : Visual) : Visual :=
  {| data := [];
     formattingSettings := formattingSettings v;
     xScale := None;
     brush := None;
     selectedStartDate := selectedStartDate v;
     selectedEndDate := selectedEndDate v;
     filterColumnTarget := filterColumnTarget v;
     lastTimeRange := lastTimeRange v;
     lastBrushWidth := lastBrushWidth v; lastBrushHeight := lastBrushHeight v;
     brushUpdateTimeout := false;
     isProgrammaticBrushUpdate := isProgrammaticBrushUpdate v;
     rangeDisplay := rangeDisplay v;
     scene := None;
     brushElementsExist := false;
     brushSelection := None;
     timers := if brushUpdateTimeout v
               then filter (fun t => negb (isDisplayUpdate t)) (timers v)
               else timers v;
     appliedFilters := appliedFilters v |}.

End WithRuntime.

(** ** Vocabulary of the properties *)

(** The order of a sort: by key, not decreasing. *)
Definition keyLe {A : Type} (key : A -> Z) (a b : A) : Prop := key a <= key b.

(** A point made by gap detection carries the index -1; a point made from
    row [i] carries [i]. *)
Definition isSynthetic (d : TimeDataPoint) : bool := index d =? -1.

Definition isOriginal (d : TimeDataPoint) : bool := negb (isSynthetic d).

(** The consecutive pairs of a list. *)
Fixpoint pairsOf {A : Type} (l : list A) : list (A * A) :=
  match l with
  | [] => []
  | x :: tl =>
      match tl with
      | [] => []
      | y :: _ => (x, y) :: pairsOf tl
      end
  end.

(** The step from the first to the second point exceeds three times [m],
    both as the loop computes them. *)
Definition wide (m : Z) (p q : TimeDataPoint) : bool :=
  toDouble (m * 3) <? toDouble (timestamp q - timestamp p).

(** The same comparison on the exact integers. *)
Definition exceeds (m : Z) (p q : TimeDataPoint) : bool :=
  3 * m <? timestamp q - timestamp p.


(** The test of the gap loop on a pair of consecutive points. *)
Definition gapCond (thr : Z) (p q : TimeDataPoint) : bool :=
  (0 <? thr) && (thr <? toDouble (timestamp q - timestamp p)).

(** The median in the words of the specification: the middle element of the
    ascending list, the mean of the two middle elements when their number is
    even; 0 for no element. *)
Definition median (l : list Z) : Q :=
  let asc := sortBy (fun d => d) l in
  let n := List.length asc in
  let lower := nth (Nat.div n 2 - 1) asc 0 in
  let upper := nth (Nat.div n 2) asc 0 in
  if Nat.even n then ((inject_Z lower + inject_Z upper) / 2)%Q else inject_Z upper.

(** The positive steps between consecutive points, as they are computed. *)
Definition stepsOf (sorted : list TimeDataPoint) : list Z :=
  filter (fun d => 0 <? d)
         (map (fun pq => toDouble (timestamp (snd pq) - timestamp (fst pq)))
              (pairsOf sorted)).


(** The points of series [s] in a merged sequence, as [d3.group] and
    [seriesMap] see them. *)
Definition seriesPoints (s : string) (data : list TimeDataPoint) : list TimeDataPoint :=
  filter (fun d => String.eqb (seriesKey d) s) data.

(** The timestamp column and the groups that [parseData] works on, when it
    gets past its early returns on missing parts. *)
Definition timestampCategoryOf (dv : option DataViewCategorical)
  : option DataViewCategoryColumn :=
  match dv with
  | None => None
  | Some categorical =>
      match dv_categories categorical, dv_values categorical with
      | Some (c :: cs), Some _ => findTimestampCategory (c :: cs)
      | _, _ => None
      end
  end.

Definition groupsOf (dv : option DataViewCategorical) : list DataViewValueColumnGroup :=
  match dv with
  | None => []
  | Some categorical =>
      match dv_values categorical with
      | Some groups => groups
      | None => []
      end
  end.

(** A state of the visual without what is on the page: the message, the
    scene, the elements of the brush and its remembered size. *)
Definition pageless (v : Visual) : Visual :=
  {| data := data v; formattingSettings := formattingSettings v;
     xScale := xScale v; brush := brush v;
     selectedStartDate := selectedStartDate v;
     selectedEndDate := selectedEndDate v;
     filterColumnTarget := filterColumnTarget v;
     lastTimeRange := lastTimeRange v;
     lastBrushWidth := 0%Q; lastBrushHeight := 0%Q;
     brushUpdateTimeout := brushUpdateTimeout v;
     isProgrammaticBrushUpdate := isProgrammaticBrushUpdate v;
     rangeDisplay := "";
     scene := None;
     brushElementsExist := false;
     brushSelection := brushSelection v;
     timers := timers v; appliedFilters := appliedFilters v |}.

(** The character occurs in the string. *)
Fixpoint occurs (c : ascii) (s : string) : bool :=
  match s with
  | EmptyString => false
  | String c' s' => Ascii.eqb c c' || occurs c s'
  end.

(** The characters of a rendered integer: digits and the minus sign. *)
Definition isNumChar (c : ascii) : bool :=
  (Nat.leb 48 (nat_of_ascii c) && Nat.leb (nat_of_ascii c) 57)%bool
  || Ascii.eqb c "-".

Fixpoint numeric (s : string) : bool :=
  match s with
  | EmptyString => true
  | String c s' => isNumChar c && numeric s'
  end.

(** *** Token substitution *)

(** The tokens of a format, in the order of the passes of the formatter. *)
Inductive Token : Type :=
| Tyyyy | Tyy | TMMMM | TMMM | TMM | TM | Tdd | Td | THH | TH | Thh | Th
| Tmm | Tm | Tss | Ts | Tfff | Ttt | Tt.

Definition passOrder : list Token :=
  [Tyyyy; Tyy; TMMMM; TMMM; TMM; TM; Tdd; Td; THH; TH; Thh; Th;
   Tmm; Tm; Tss; Ts; Tfff; Ttt; Tt].

Definition tokenText (k : Token) : string :=
  match k with
  | Tyyyy => "yyyy" | Tyy => "yy"
  | TMMMM => "MMMM" | TMMM => "MMM" | TMM => "MM" | TM => "M"
  | Tdd => "dd" | Td => "d"
  | THH => "HH" | TH => "H"
  | Thh => "hh" | Th => "h"
  | Tmm => "mm" | Tm => "m"
  | Tss => "ss" | Ts => "s"
  | Tfff => "fff"
  | Ttt => "tt" | Tt => "t"
  end.

(** What a token stands for: the year, its last two digits, the name of
    the month and its abbreviation, the month, day, hour of 24, hour of 12,
    minute and second in two digits or as they are, the millisecond in
    three digits, the half of the day and its first letter. *)
Definition tokenValue (d : DateFields) (k : Token) : string :=
  match k with
  | Tyyyy => intToString (fullYear d)
  | Tyy => sliceLast2 (intToString (fullYear d))
  | TMMMM => nth (Z.to_nat (month d)) fullMonths ""
  | TMMM => nth (Z.to_nat (month d)) months ""
  | TMM => pad (month d + 1) 2
  | TM => intToString (month d + 1)
  | Tdd => pad (date d) 2
  | Td => intToString (date d)
  | THH => pad (hours d) 2
  | TH => intToString (hours d)
  | Thh => pad (hour12 (hours d)) 2
  | Th => intToString (hour12 (hours d))
  | Tmm => pad (minutes d) 2
  | Tm => intToString (minutes d)
  | Tss => pad (seconds d) 2
  | Ts => intToString (seconds d)
  | Tfff => pad (milliseconds d) 3
  | Ttt => if 12 <=? hours d then "PM" else "AM"
  | Tt => if 12 <=? hours d then "P" else "A"
  end.

(** A format cut into pieces: tokens and the text between them. *)
Inductive Piece : Type :=
| Lit (s : string)
| Tok (k : Token).

Definition joinStrings (l : list string) : string :=
  fold_right String.append "" l.

Definition pieceText (p : Piece) : string :=
  match p with Lit s => s | Tok k => tokenText k end.

(** The format that the pieces spell. *)
Definition formatOf (ps : list Piece) : string := joinStrings (map pieceText ps).

(** Token substitution: every token gives way to what it stands for, the
    text stays. *)
Definition renderPieces (d : DateFields) (ps : list Piece) : string :=
  joinStrings (map (fun p => match p with Lit s => s | Tok k => tokenValue d k end) ps).

Definition tokenLetter (k : Token) : ascii :=
  match k with
  | Tyyyy | Tyy => "y"
  | TMMMM | TMMM | TMM | TM => "M"
  | Tdd | Td => "d"
  | THH | TH => "H"
  | Thh | Th => "h"
  | Tmm | Tm => "m"
  | Tss | Ts => "s"
  | Tfff => "f"
  | Ttt | Tt => "t"
  end%char.

Definition tokenLength (k : Token) : nat := String.length (tokenText k).

(** The place of the pass of a token among the passes. *)
Definition passIndex (k : Token) : nat :=
  match k with
  | Tyyyy => 0 | Tyy => 1 | TMMMM => 2 | TMMM => 3 | TMM => 4 | TM => 5
  | Tdd => 6 | Td => 7 | THH => 8 | TH => 9 | Thh => 10 | Th => 11
  | Tmm => 12 | Tm => 13 | Tss => 14 | Ts => 15 | Tfff => 16 | Ttt => 17
  | Tt => 18
  end%nat.

(** The passes with the pattern [/x(?![a-z])/g]. *)
Definition lookahead (k : Token) : bool :=
  match k with
  | TM | Td | TH | Th | Tm | Ts => true
  | _ => false
  end.

Definition monthName (k : Token) : bool :=
  match k with TMMMM | TMMM => true | _ => false end.

(** Text between tokens: none of the letters of the tokens. *)
Definition plain (s : string) : bool :=
  forallb (fun c => negb (occurs c s))
          ["y"; "M"; "d"; "H"; "h"; "m"; "s"; "f"; "t"]%char.

(** What may stand after a token: neither a token of the same letter, with
    which it would make another token, nor, after a one-letter token with
    the lookahead, a lowercase letter of text or of a token whose pass
    comes later. *)
Definition follows (k : Token) (next : option Piece) : bool :=
  match next with
  | None => true
  | Some (Lit s) => negb (lookahead k && nextIsLower s)
  | Some (Tok k') =>
      negb (Ascii.eqb (tokenLetter k) (tokenLetter k'))
      && negb (lookahead k && isLower (tokenLetter k')
               && Nat.ltb (passIndex k) (passIndex k'))
  end.

(** The formats in which the tokens for numbers and for the half of the day
    can be told apart. *)
Fixpoint wellFormed (ps : list Piece) : bool :=
  match ps with
  | [] => true
  | Lit s :: rest => strNonEmpty s && plain s && wellFormed rest
  | Tok k :: rest => negb (monthName k) && follows k (hd_error rest) && wellFormed rest
  end.

(** The tokens that stand for a number. *)
Definition numberToken (k : Token) : bool :=
  match k with
  | TMMMM | TMMM | Ttt | Tt => false
  | _ => true
  end.

(** *** The passes of the formatter on a format in pieces *)

Fixpoint repeatChar (c : ascii) (n : nat) : string :=
  match n with
  | O => EmptyString
  | S n' => String c (repeatChar c n')
  end.

Definition startsWith (c : ascii) (s : string) : bool :=
  match s with
  | String c' _ => Ascii.eqb c c'
  | EmptyString => false
  end.

(** The stretches of a string during one pass: text without the letter of
    the pass, the token of the pass, and a shorter run of its letter. *)
Inductive Chunk : Type :=
| Inert (s : string)
| Target
| Short (n : nat).

Definition chunkIn (c0 : ascii) (len : nat) (ch : Chunk) : string :=
  match ch with
  | Inert s => s
  | Target => repeatChar c0 len
  | Short n => repeatChar c0 n
  end.

Definition chunkOut (c0 : ascii) (rep : string) (ch : Chunk) : string :=
  match ch with
  | Inert s => s
  | Target => rep
  | Short n => repeatChar c0 n
  end.

Fixpoint okChunks (c0 : ascii) (len : nat) (look : bool) (cs : list Chunk) : bool :=
  match cs with
  | [] => true
  | Inert s :: rest => negb (occurs c0 s) && okChunks c0 len look rest
  | Target :: rest =>
      negb (look && nextIsLower (joinStrings (map (chunkIn c0 len) rest)))
      && okChunks c0 len look rest
  | Short n :: rest =>
      Nat.ltb n len
      && negb (startsWith c0 (joinStrings (map (chunkIn c0 len) rest)))
      && okChunks c0 len look rest
  end.

(** The text of a piece when the passes before number [i] have run. *)
Definition stagePiece (d : DateFields) (i : nat) (p : Piece) : string :=
  match p with
  | Lit s => s
  | Tok k => if Nat.ltb (passIndex k) i then tokenValue d k else tokenText k
  end.

Definition stageText (d : DateFields) (i : nat) (ps : list Piece) : string :=
  joinStrings (map (stagePiece d i) ps).

(** A piece as the pass of [kp] meets it. *)
Definition stageChunk (d : DateFields) (kp : Token) (p : Piece) : Chunk :=
  match p with
  | Lit s => Inert s
  | Tok k =>
      if Nat.ltb (passIndex k) (passIndex kp) then Inert (tokenValue d k)
      else if Nat.eqb (passIndex k) (passIndex kp) then Target
      else if Ascii.eqb (tokenLetter k) (tokenLetter kp) then Short (tokenLength k)
      else Inert (tokenText k)
  end.

(** Month (1 .. 12) and day of the month of day [doe] of a 400-year era,
    as [civilFromDays] computes them. *)
Definition monthDayOfEra (doe : Z) : Z * Z :=
  let yoe := (doe - doe / 1460 + doe / 36524 - doe / 146096) / 365 in
  let doy := doe - (365 * yoe + yoe / 4 - yoe / 100) in
  let mp := (5 * doy + 2) / 153 in
  (if mp <? 10 then mp + 3 else mp - 9, doy - (153 * mp + 2) / 5 + 1).

Definition monthDayInRange (doe : Z) : bool :=
  let (m, d) := monthDayOfEra doe in
  (1 <=? m) && (m <=? 12) && (1 <=? d) && (d <=? 31).

(** [P] holds on [count] consecutive integers from [start]. *)
Fixpoint checkFrom (P : Z -> bool) (count : nat) (start : Z) : bool :=
  match count with
  | O => true
  | S count' => P start && checkFrom P count' (start + 1)
  end.

(** The marker that the first pass writes for row [i] of a group: the text
    of the cell of the group's marker measure, when it counts. *)
Section MarkerVocabulary.
Context {rt : Runtime}.

Definition markerCell (g : DataViewValueColumnGroup) (i : nat) : option string :=
  match findMeasure "timelineMarkers" g with
  | None => None
  | Some measure =>
      let cell := jsNth i (v_values measure) in
      if truthy cell && strNonEmpty (toStr cell)
         && negb (String.eqb (trim (toStr cell)) "")
      then Some (toStr cell) else None
  end.

(** The markers written at instant [t], in the order of the writes: group
    by group, and row by row within a group. *)
Definition markerWrites (timestamps : list PrimitiveValue)
    (groups : list DataViewValueColumnGroup) (t : Z) : list string :=
  flat_map
    (fun g =>
       flat_map
         (fun i =>
            match parseDate (jsNth i timestamps), markerCell g i with
            | Some time, Some m => if time =? t then [m] else []
            | _, _ => []
            end)
         (seq 0 (List.length timestamps)))
    groups.

End MarkerVocabulary.

(** The last element of a list, if any. *)
Definition lastOf {A : Type} (l : list A) : option A := last (map Some l) None.

(** A point with a marker at instant [t]. *)
Definition markedAt (t : Z) (d : TimeDataPoint) : bool :=
  hasMarker d && (timestamp d =? t).

(** The valued points of a series that are drawn in a colour. *)
Definition lineColorIs (defaultLineColor color : string) (p : TimeDataPoint) : bool :=
  hasValue p && String.eqb (colorOr (lineColor p) defaultLineColor) color.

(** The test of [renderChart] for keeping the selection: both ends are
    there and the extent is the recorded one, if one is recorded. *)
Definition selectionKept (extent : Z * Z) (v : Visual) : bool :=
  match selectedStartDate v, selectedEndDate v with
  | Some _, Some _ =>
      match lastTimeRange v with
      | Some (oldMin, oldMax) => (oldMin =? fst extent) && (oldMax =? snd extent)
      | None => true
      end
  | _, _ => false
  end.

(** ** The visual as a machine *)

(** What happens to a visual: the host calls [update]; the pointer moves
    the brush, which d3 reports to the "brush" listener; the pointer is
    released, which d3 reports to the "end" listener with the selection
    that the brush holds, or without one when the brush was cleared; a
    pending timer fires. *)
Inductive Event : Type :=
| EUpdate (options : VisualUpdateOptions)
| EDrag (sel : Q * Q)
| ERelease
| EClear
| ETimer (n : nat).

Section Machine.
Context {rt : Runtime}.

Definition step (e : Event) (v : Visual) : Visual :=
  match e with
  | EUpdate options => update options v
  | EDrag sel => userDrag sel v
  | ERelease => userRelease (brushSelection v) v
  | EClear => userRelease None v
  | ETimer n => fireTimer n v
  end.

Definition run (events : list Event) (v : Visual) : Visual :=
  fold_left (fun s e => step e s) events v.

(** The selection in instants goes with the chart and with the pixels of
    the brush. *)
Record Tracking (v : Visual) : Prop := {
  inv_ends : selectedStartDate v = None <-> selectedEndDate v = None;
  inv_drawn : xScale v = None <-> selectedStartDate v = None;
  inv_pixels : forall x0 x1 domain w,
      brushSelection v = Some (x0, x1) -> xScale v = Some (domain, w) ->
      selectedStartDate v = Some (scaleInvert domain w x0) /\
      selectedEndDate v = Some (scaleInvert domain w x1)
}.

End Machine.

(** The time scale, the brush and the recorded extent go together. *)
Record Drawn (v : Visual) : Prop := {
  inv_extent : lastTimeRange v = option_map fst (xScale v);
  inv_brush : match xScale v, brush v with
              | Some (_, w), Some (bw, bh) => bw = w /\ (50 <= w)%Q /\ (30 <= bh)%Q
              | None, None => True
              | _, _ => False
              end;
  inv_order : forall lo hi w, xScale v = Some ((lo, hi), w) -> lo <= hi
}.

(** The display timer of [onBrush] is pending exactly when its handle is
    set, and then once. *)
Definition Debounced (v : Visual) : Prop :=
  List.length (filter isDisplayUpdate (timers v))
  = if brushUpdateTimeout v then 1%nat else 0%nat.

(** While the guard is set, a timer that clears it is pending. *)
Definition Guarded (v : Visual) : Prop :=
  isProgrammaticBrushUpdate v = true -> In FlagReset (timers v).

Definition Inv {rt : Runtime} (v : Visual) : Prop :=
  Tracking v /\ Drawn v /\ Debounced v /\ Guarded v.

(** With a chart on the page and no display update pending, the range
    text is the one of the selection. *)
Definition Shown {rt : Runtime} (v : Visual) : Prop :=
  brushUpdateTimeout v = false -> scene v <> None ->
  rangeDisplay v = rangeDisplay (updateRangeDisplay v).

(** The timestamp cell gives an instant. *)
Definition parseable {rt : Runtime} (cell : PrimitiveValue) : bool :=
  match parseDate cell with Some _ => true | None => false end.

(** ** Sample inputs *)

Definition samplePoint (i : nat) (t : Z) (v : Q) : TimeDataPoint :=
  {| timestamp := t; value := Some v; series := "default"; anomaly := None;
     timelineMarker := None; selectionId := Some i; lineColor := None;
     areaColor := None; index := Z.of_nat i |}.

(** Three readings: at an instant, one hour later and ten hours later. *)
Definition threeReadings : list TimeDataPoint :=
  [samplePoint 0 0 10; samplePoint 1 3600000 12; samplePoint 2 36000000 9].

(** Hourly readings with one step of five hours, given out of order. *)
Definition hourlyWithGap : list TimeDataPoint :=
  [samplePoint 0 7200000 3; samplePoint 1 0 1; samplePoint 2 28800000 5;
   samplePoint 3 3600000 2; samplePoint 4 10800000 4].


(** Readings far apart: two steps of [(2^53 + 4) / 3] milliseconds around one
    of [2^53 + 5]. *)
Definition farApart : list TimeDataPoint :=
  [samplePoint 0 (-8000000000000000) 1; samplePoint 1 (-4997600248419668) 2;
   samplePoint 2 4009599006321329 3; samplePoint 3 7011998757901661 4].

(** A runtime for the samples: strings are neither dates nor numbers,
    local time is UTC, and the time scale is linear, in exact arithmetic,
    with the instant truncated as [new Date] does. *)
Definition linearApply (domain : Z * Z) (w : Q) (t : Z) : Q :=
  let (d0, d1) := domain in
  if d0 =? d1 then (w * (1 # 2))%Q
  else (inject_Z (t - d0) / inject_Z (d1 - d0) * w)%Q.

Definition linearInvert (domain : Z * Z) (w : Q) (x : Q) : Z :=
  let (d0, d1) := domain in
  let q := (inject_Z d0 + x / w * inject_Z (d1 - d0))%Q in
  Z.quot (Qnum q) (Zpos (Qden q)).

(** A string of decimal digits as a number; anything else is [NaN]. *)
Fixpoint digitsValue (acc : Z) (s : string) : option Z :=
  match s with
  | EmptyString => Some acc
  | String c s' =>
      let n := Z.of_nat (nat_of_ascii c) in
      if (48 <=? n) && (n <=? 57) then digitsValue (10 * acc + (n - 48)) s'
      else None
  end.

Definition digitsNumber (s : string) : JSNumber :=
  match s with
  | EmptyString => NaN
  | _ => match digitsValue 0 s with
         | Some z => Num (inject_Z z)
         | None => NaN
         end
  end.

Definition sampleRuntime : Runtime :=
  {| dateParse := fun _ => None;
     stringToNumber := digitsNumber;
     parseFloat := digitsNumber;
     numberToString := fun _ => "0";
     dateToString := fun _ => "Invalid Date";
     trim := fun s => s;
     tzOffset := fun _ => 0;
     scaleApply := linearApply;
     scaleInvert := linearInvert;
     roundNumber := fun q => q |}.

(** The binary64 number nearest to a rational, the one with the even
    significand of two equally near, in four steps: the exponent of the
    last bit of the significand, the rational over that power of two as a
    fraction, the integer nearest to the fraction, and the product in
    lowest terms.  (No rational of the samples is beyond the largest
    number.) *)

(** The integer nearest to [num / den], the even one of two equally
    near. *)
Definition roundRatio (num den : Z) : Z :=
  let k := num / den in
  let r := num mod den in
  if 2 * r <? den then k
  else if den <? 2 * r then k + 1
  else if Z.even k then k else k + 1.

(** [a / d] divided by [2 ^ e], as a fraction. *)
Definition scaled (a d e : Z) : Z * Z :=
  (a * 2 ^ Z.max (- e) 0, d * 2 ^ Z.max e 0).

(** The exponent of the last bit of the significand of [a / d]: the
    significand has 53 bits, and the exponent is at least -1074. *)
Definition lastBit (a d : Z) : Z :=
  let e0 := Z.log2 a - Z.log2 d - 52 in
  let e1 := if fst (scaled a d e0) / snd (scaled a d e0) <? 2 ^ 52
            then e0 - 1 else e0 in
  Z.max e1 (-1074).

(** [k * 2 ^ e] in lowest terms. *)
Definition timesPow2 (k e : Z) : Q :=
  if 0 <=? e then inject_Z (k * 2 ^ e)
  else Qred (Qmake k (Z.to_pos (2 ^ (- e)))).

(** The number nearest to the positive rational [a / d]. *)
Definition roundCore (a d : Z) : Q :=
  timesPow2 (roundRatio (fst (scaled a d (lastBit a d)))
                        (snd (scaled a d (lastBit a d))))
            (lastBit a d).

Definition roundBinary64 (q : Q) : Q :=
  let a := Z.abs (Qnum q) in
  let d := Zpos (Qden q) in
  if a =? 0 then 0%Q
  else
    let e := lastBit a d in
    let k := roundRatio (fst (scaled a d e)) (snd (scaled a d e)) in
    timesPow2 (Z.sgn (Qnum q) * k) e.

(** The d3 time scale in binary64: [normalize] of the domain, then the
    number interpolator [a * (1 - u) + b * u] over the range; [invert] the
    other way round, through [new Date], which drops the fraction. *)
Definition binary64Apply (domain : Z * Z) (w : Q) (t : Z) : Q :=
  let (d0, d1) := domain in
  let u := if d0 =? d1 then (1 # 2)%Q
           else roundBinary64
                  (roundBinary64 (inject_Z (t - d0))
                   / roundBinary64 (inject_Z (d1 - d0))) in
  roundBinary64 (roundBinary64 (0 * roundBinary64 (1 - u)) + roundBinary64 (w * u)).

Definition binary64Invert (domain : Z * Z) (w : Q) (x : Q) : Z :=
  let (d0, d1) := domain in
  let u := if Qeq_bool w 0 then (1 # 2)%Q
           else roundBinary64 (roundBinary64 (x - 0) / roundBinary64 (w - 0)) in
  let t := roundBinary64
             (roundBinary64 (inject_Z d0 * roundBinary64 (1 - u))
              + roundBinary64 (inject_Z d1 * u)) in
  Z.quot (Qnum t) (Zpos (Qden t)).

(** The sample runtime with the arithmetic of binary64 numbers. *)
Definition binary64Runtime : Runtime :=
  {| dateParse := fun _ => None;
     stringToNumber := digitsNumber;
     parseFloat := digitsNumber;
     numberToString := fun _ => "0";
     dateToString := fun _ => "Invalid Date";
     trim := fun s => s;
     tzOffset := fun _ => 0;
     scaleApply := binary64Apply;
     scaleInvert := binary64Invert;
     roundNumber := roundBinary64 |}.

Definition sampleColumn (role : string) (name : string) : DataViewMetadataColumn :=
  {| roles := [role]; queryName := Some name; displayName := name |}.

Definition timeColumn (cells : list PrimitiveValue) : DataViewCategoryColumn :=
  {| c_source := sampleColumn "timestamp" "Readings.Time";
     c_values := cells;
     c_objects := None |}.

Definition valueGroup (name : PrimitiveValue) (cells : list PrimitiveValue)
  : DataViewValueColumnGroup :=
  {| g_name := name;
     g_values := [{| v_source := sampleColumn "values" "Readings.Value";
                     v_values := cells |}] |}.

Definition num (z : Z) : PrimitiveValue := VNumber (Num (inject_Z z)).

Definition instant (t : Z) : PrimitiveValue := VDate (Some t).

(** The hourly readings as a data view: five rows, one unnamed group. *)
Definition hourlyView : DataViewCategorical :=
  {| dv_categories :=
       Some [timeColumn [instant 7200000; instant 0; instant 28800000;
                         instant 3600000; instant 10800000]];
     dv_values := Some [valueGroup VNull [num 3; num 1; num 5; num 2; num 4]] |}.

(** Two rows at the same instant. *)
Definition repeatedInstantView : DataViewCategorical :=
  {| dv_categories := Some [timeColumn [instant 0; instant 0]];
     dv_values := Some [valueGroup VNull [num 1; num 2]] |}.

(** Rows with a timestamp that does not parse and with values that are
    missing or no numbers. *)
Definition raggedView : DataViewCategorical :=
  {| dv_categories :=
       Some [timeColumn [instant 0; VString "soon"; instant 1000; instant 2000]];
     dv_values :=
       Some [valueGroup VNull [num 1; num 2; VNull; VString "n/a"]] |}.

Definition seriesPoint (name : string) (i : nat) (t : Z) (v : Q) : TimeDataPoint :=
  {| timestamp := t; value := Some v; series := name; anomaly := None;
     timelineMarker := None; selectionId := Some i; lineColor := None;
     areaColor := None; index := Z.of_nat i |}.

(** A series whose largest value is 0. *)
Definition belowZero : list TimeDataPoint :=
  [seriesPoint "A" 0 0 (-5); seriesPoint "A" 1 1000 0].

(** Two series with values in 0 .. 10 and in 1000 .. 2000. *)
Definition twoSeries : list TimeDataPoint :=
  [seriesPoint "A" 0 0 10; seriesPoint "B" 0 0 1000;
   seriesPoint "A" 1 1000 (1 # 2); seriesPoint "B" 1 1000 2000].

(** Every setting left at its default. *)
Definition noSettings : Settings :=
  {| yAxisMin := None; yAxisMax := None;
     delimiter := None; useISOFormat := None; outputFormat := None;
     dateFormat := None; prefix := None; showSelectedRange := None;
     fontSize := None; rangeTextMarginTop := None; rangeTextMarginBottom := None;
     showAxis := None; marginTop := None; marginRight := None;
     marginBottom := None; marginLeft := None; showAreaChart := None |}.

Definition sampleOptions (dv : DataViewCategorical) (st : Settings) (w h : Q)
  : VisualUpdateOptions :=
  {| dataView0 := Some {| categorical := Some dv; dv_settings := st |};
     viewportWidth := w;
     viewportHeight := h |}.

(** The first update of a fresh visual, on the hourly readings. *)
Definition firstRender : Visual :=
  @update sampleRuntime (sampleOptions hourlyView noSettings 400 200) initialVisual.

(** The user drags the brush to the pixels 50 .. 150 and lets go. *)
Definition afterDrag : Visual :=
  @userRelease sampleRuntime (Some (50%Q, 150%Q))
    (@userDrag sampleRuntime (50%Q, 150%Q) firstRender).

(** In binary64: the first render, then the user drags the brush to the
    pixels 29 .. 150 and lets go. *)
Definition draggedOff : Visual :=
  @userRelease binary64Runtime (Some (29%Q, 150%Q))
    (@userDrag binary64Runtime (29%Q, 150%Q)
       (@update binary64Runtime (sampleOptions hourlyView noSettings 400 200)
                initialVisual)).

(** The same data in a wider viewport. *)
Definition resizeOptions : VisualUpdateOptions :=
  sampleOptions hourlyView noSettings 600 200.

(** A viewport too small to draw in. *)
Definition tinyOptions : VisualUpdateOptions :=
  sampleOptions hourlyView noSettings 80 200.

(** Data with another time extent. *)
Definition laterView : DataViewCategorical :=
  {| dv_categories :=
       Some [timeColumn [instant 36000000; instant 39600000; instant 43200000]];
     dv_values := Some [valueGroup VNull [num 7; num 8; num 9]] |}.

Definition laterOptions : VisualUpdateOptions :=
  sampleOptions laterView noSettings 400 200.

(** The data with another extent in a viewport too small to draw in. *)
Definition tinyLaterOptions : VisualUpdateOptions :=
  sampleOptions laterView noSettings 80 200.

(** Custom output: the format of the settings defaults, a semicolon
    between the ends. *)
Definition customSettings : Settings :=
  {| yAxisMin := None; yAxisMax := None;
     delimiter := Some ";"; useISOFormat := Some false;
     outputFormat := Some "yyyy-MM-dd HH:mm:ss";
     dateFormat := None; prefix := None; showSelectedRange := None;
     fontSize := None; rangeTextMarginTop := None; rangeTextMarginBottom := None;
     showAxis := None; marginTop := None; marginRight := None;
     marginBottom := None; marginLeft := None; showAreaChart := None |}.

(** A visual with the given settings. *)
Definition visualWith (st : Settings) : Visual :=
  {| data := []; formattingSettings := Some st; xScale := None; brush := None;
     selectedStartDate := None; selectedEndDate := None;
     filterColumnTarget := None; lastTimeRange := None;
     lastBrushWidth := 0%Q; lastBrushHeight := 0%Q;
     brushUpdateTimeout := false; isProgrammaticBrushUpdate := false;
     rangeDisplay := ""; scene := None; brushElementsExist := false;
     brushSelection := None; timers := []; appliedFilters := [] |}.

(** A visual that has been drawn, with a selection of 01:00 to 03:00 and
    a filter target, and the release of the brush on it. *)
Definition readyVisual : Visual :=
  {| data := threeReadings; formattingSettings := Some noSettings;
     xScale := Some ((0, 28800000), 400%Q); brush := Some (400%Q, 170%Q);
     selectedStartDate := Some 3600000; selectedEndDate := Some 10800000;
     filterColumnTarget := Some {| table := "Readings"; column := "Time" |};
     lastTimeRange := Some (0, 28800000);
     lastBrushWidth := 400%Q; lastBrushHeight := 170%Q;
     brushUpdateTimeout := false; isProgrammaticBrushUpdate := false;
     rangeDisplay := ""; scene := None; brushElementsExist := true;
     brushSelection := Some (50%Q, 150%Q); timers := []; appliedFilters := [] |}.

Definition releaseEvent : BrushEvent := {| selection := Some (50%Q, 150%Q) |}.

(** The same visual with the custom output of [customSettings]. *)
Definition customReady : Visual :=
  {| data := threeReadings; formattingSettings := Some customSettings;
     xScale := Some ((0, 28800000), 400%Q); brush := Some (400%Q, 170%Q);
     selectedStartDate := Some 3600000; selectedEndDate := Some 10800000;
     filterColumnTarget := Some {| table := "Readings"; column := "Time" |};
     lastTimeRange := Some (0, 28800000);
     lastBrushWidth := 400%Q; lastBrushHeight := 170%Q;
     brushUpdateTimeout := false; isProgrammaticBrushUpdate := false;
     rangeDisplay := ""; scene := None; brushElementsExist := true;
     brushSelection := Some (50%Q, 150%Q); timers := []; appliedFilters := [] |}.

(** The format [yyyy-MM-dd HH:mm:ss] in pieces. *)
Definition defaultPieces : list Piece :=
  [Tok Tyyyy; Lit "-"; Tok TMM; Lit "-"; Tok Tdd; Lit " ";
   Tok THH; Lit ":"; Tok Tmm; Lit ":"; Tok Tss].

(** Two series over two instants; only the first group has a marker
    measure, with a marker in its first row. *)
Definition markedView : DataViewCategorical :=
  {| dv_categories := Some [timeColumn [instant 0; instant 3600000]];
     dv_values :=
       Some [{| g_name := VString "A";
                g_values :=
                  [{| v_source := sampleColumn "values" "Readings.Value";
                      v_values := [num 1; num 2] |};
                   {| v_source := sampleColumn "timelineMarkers" "Readings.Event";
                      v_values := [VString "start"; VNull] |}] |};
             valueGroup (VString "B") [num 3; num 4]] |}.

(** A series with an anomaly measure whose second cell is no number. *)
Definition anomalyView : DataViewCategorical :=
  {| dv_categories := Some [timeColumn [instant 0; instant 3600000]];
     dv_values :=
       Some [{| g_name := VNull;
                g_values :=
                  [{| v_source := sampleColumn "values" "Readings.Value";
                      v_values := [num 1; num 2] |};
                   {| v_source := sampleColumn "anomalies" "Readings.Alert";
                      v_values := [VNull; VString "n/a"] |}] |}] |}.

(** What happens in the first moments of a visual: the first update, a
    drag and its release, and an update in a wider viewport. *)
Definition firstEvents : list Event :=
  [EUpdate (sampleOptions hourlyView noSettings 400 200);
   EDrag (50%Q, 150%Q); ERelease;
   EUpdate (sampleOptions hourlyView noSettings 600 200)].

(** A marker at the first instant of two series. *)
Definition markedPoints : list TimeDataPoint :=
  [{| timestamp := 0; value := Some 1%Q; series := "A"; anomaly := None;
      timelineMarker := Some "start"; selectionId := Some 0%nat;
      lineColor := None; areaColor := None; index := 0 |};
   {| timestamp := 0; value := Some 3%Q; series := "B"; anomaly := None;
      timelineMarker := Some "start"; selectionId := Some 0%nat;
      lineColor := None; areaColor := None; index := 0 |}].

(** * Properties *)

(** ** The stable sort *)

Section SortFacts.
Context {A : Type} (key : A -> Z).

Lemma insertSorted_perm (x : A) (l : list A) :
  Permutation (insertSorted key x l) (x :: l).
Proof.
  induction l as [|y l IH]; simpl.
  - apply Permutation_refl.
  - destruct (key x <=? key y).
    + apply Permutation_refl.
    + apply perm_trans with (y :: x :: l).
      * apply perm_skip, IH.
      * apply perm_swap.
Qed.

Lemma sortBy_perm (l : list A) : Permutation (sortBy key l) l.
Proof.
  induction l as [|x l IH]; simpl.
  - apply perm_nil.
  - apply perm_trans with (x :: sortBy key l).
    + apply insertSorted_perm.
    + apply perm_skip, IH.
Qed.

Lemma sortBy_In (x : A) (l : list A) : In x (sortBy key l) <-> In x l.
Proof.
  split; apply Permutation_in;
    [apply sortBy_perm | apply Permutation_sym, sortBy_perm].
Qed.

Lemma sortBy_length (l : list A) : List.length (sortBy key l) = List.length l.
Proof. apply Permutation_length, sortBy_perm. Qed.

Lemma insertSorted_sorted (x : A) (l : list A) :
  StronglySorted (keyLe key) l -> StronglySorted (keyLe key) (insertSorted key x l).
Proof.
  induction 1 as [|y l Hs IH Hall]; simpl.
  - constructor; constructor.
  - destruct (key x <=? key y) eqn:E.
    + apply Z.leb_le in E.
      constructor.
      * constructor; assumption.
      * constructor.
        -- unfold keyLe; lia.
        -- eapply Forall_impl; [|exact Hall].
           unfold keyLe; intros; lia.
    + apply Z.leb_gt in E.
      constructor; [exact IH|].
      eapply Permutation_Forall.
      * apply Permutation_sym, insertSorted_perm.
      * constructor; [unfold keyLe; lia | exact Hall].
Qed.

Lemma sortBy_sorted (l : list A) : StronglySorted (keyLe key) (sortBy key l).
Proof.
  induction l as [|x l IH]; simpl.
  - constructor.
  - apply insertSorted_sorted, IH.
Qed.

Lemma filter_sorted (R : A -> A -> Prop) (f : A -> bool) (l : list A) :
  StronglySorted R l -> StronglySorted R (filter f l).
Proof.
  induction 1 as [|x l Hs IH Hall]; simpl.
  - constructor.
  - destruct (f x).
    + constructor; [exact IH|].
      apply Forall_forall; intros y Hy.
      apply filter_In in Hy.
      rewrite Forall_forall in Hall; apply Hall, Hy.
    + exact IH.
Qed.

(** A sorted list without two equal keys is strictly sorted. *)
Lemma sorted_nodup_strict (l : list A) :
  StronglySorted (keyLe key) l -> NoDup (map key l) ->
  StronglySorted (fun a b => key a < key b) l.
Proof.
  induction 1 as [|x l Hs IH Hall]; simpl; intros Hnd.
  - constructor.
  - inversion Hnd as [|k ks Hnotin Hnd']; subst.
    constructor; [apply IH, Hnd'|].
    rewrite Forall_forall in Hall |- *.
    intros y Hy.
    specialize (Hall y Hy); unfold keyLe in Hall.
    assert (key x <> key y).
    { intros Heq; apply Hnotin; rewrite Heq; apply in_map, Hy. }
    lia.
Qed.

Lemma strict_sorted_nodup (l : list A) :
  StronglySorted (fun a b => key a < key b) l -> NoDup (map key l).
Proof.
  induction 1 as [|x l Hs IH Hall]; simpl.
  - constructor.
  - constructor; [|exact IH].
    intros Hin; apply in_map_iff in Hin.
    destruct Hin as [y [Hk Hy]].
    rewrite Forall_forall in Hall; specialize (Hall y Hy); lia.
Qed.

(** Sorting a sorted list changes nothing: the sort is stable. *)
Lemma sortBy_sorted_id (l : list A) :
  StronglySorted (keyLe key) l -> sortBy key l = l.
Proof.
  induction 1 as [|x l Hs IH Hall]; simpl.
  - reflexivity.
  - rewrite IH.
    destruct l as [|y l']; simpl.
    + reflexivity.
    + inversion Hall as [|? ? Hxy _]; subst.
      unfold keyLe in Hxy.
      apply Z.leb_le in Hxy; rewrite Hxy; reflexivity.
Qed.

End SortFacts.

Lemma Permutation_filter_local {A : Type} (f : A -> bool) (l l' : list A) :
  Permutation l l' -> Permutation (filter f l) (filter f l').
Proof.
  induction 1 as [|x l l' _ IH|x y l|l l' l'' _ IH1 _ IH2]; simpl.
  - apply perm_nil.
  - destruct (f x); [apply perm_skip|]; exact IH.
  - destruct (f x), (f y); try apply Permutation_refl; apply perm_swap.
  - eapply perm_trans; eassumption.
Qed.

Lemma filter_all {A : Type} (f : A -> bool) (l : list A) :
  Forall (fun x => f x = true) l -> filter f l = l.
Proof.
  induction 1 as [|x l Hx _ IH]; simpl; [reflexivity|].
  rewrite Hx, IH; reflexivity.
Qed.

Lemma filter_none {A : Type} (f : A -> bool) (l : list A) :
  Forall (fun x => f x = false) l -> filter f l = [].
Proof.
  induction 1 as [|x l Hx _ IH]; simpl; [reflexivity|].
  rewrite Hx; exact IH.
Qed.

Lemma filter_length_le_local {A : Type} (f : A -> bool) (l : list A) :
  (List.length (filter f l) <= List.length l)%nat.
Proof.
  induction l as [|x l IH]; simpl; [lia|].
  destruct (f x); simpl; lia.
Qed.

(** ** Integers in binary64 *)

Lemma roundPos_small (a : Z) : a <= 2 ^ 53 -> roundPos a = a.
Proof.
  intros H; unfold roundPos.
  destruct (a <? 2 ^ 53) eqn:E; [reflexivity|].
  apply Z.ltb_ge in E.
  assert (a = 2 ^ 53) by lia; subst a; reflexivity.
Qed.

Lemma binade (a : Z) :
  2 ^ 53 <= a ->
  let u := 2 ^ (Z.log2 a - 52) in
  2 <= u /\ 2 ^ 52 * u <= a < 2 ^ 53 * u.
Proof.
  intros Ha u.
  assert (Hpos : 0 < a) by (assert (0 < 2 ^ 53) by reflexivity; lia).
  assert (Hl : 53 <= Z.log2 a).
  { change 53 with (Z.log2 (2 ^ 53)); apply Z.log2_le_mono, Ha. }
  destruct (Z.log2_spec a Hpos) as [H1 H2].
  assert (E1 : 2 ^ 52 * u = 2 ^ Z.log2 a).
  { unfold u; rewrite <- Z.pow_add_r by lia; f_equal; lia. }
  assert (E2 : 2 ^ 53 * u = 2 ^ Z.succ (Z.log2 a)).
  { unfold u; rewrite <- Z.pow_add_r by lia; f_equal; lia. }
  split; [|lia].
  unfold u; change 2 with (2 ^ 1) at 1.
  apply Z.pow_le_mono_r; lia.
Qed.

Lemma roundPos_near (a : Z) :
  2 ^ 53 <= a ->
  let u := 2 ^ (Z.log2 a - 52) in
  (a / u) * u <= roundPos a <= (a / u + 1) * u /\
  2 ^ 52 * u <= roundPos a <= 2 ^ 53 * u.
Proof.
  intros Ha u.
  destruct (binade a Ha) as [Hu [Hlo Hhi]]; fold u in Hu, Hlo, Hhi.
  assert (Hq : 2 ^ 52 <= a / u < 2 ^ 53).
  { split; [apply Z.div_le_lower_bound; lia | apply Z.div_lt_upper_bound; lia]. }
  assert (Hr : (a / u) * u <= roundPos a <= (a / u + 1) * u).
  { unfold roundPos.
    destruct (a <? 2 ^ 53) eqn:E; [apply Z.ltb_lt in E; lia|].
    fold u.
    destruct (2 * (a mod u) <? u); [lia|].
    destruct (u <? 2 * (a mod u)); [lia|].
    destruct (Z.even (a / u)); lia. }
  split; [exact Hr|]. nia.
Qed.

Lemma roundPos_mono (a b : Z) : a <= b -> roundPos a <= roundPos b.
Proof.
  intros Hab.
  destruct (Z.le_gt_cases b (2 ^ 53)) as [Hb | Hb].
  { rewrite !roundPos_small by lia; exact Hab. }
  destruct (Z.le_gt_cases a (2 ^ 53)) as [Ha | Ha].
  { rewrite (roundPos_small a Ha).
    destruct (roundPos_near b ltac:(lia)) as [_ [H _]].
    destruct (binade b ltac:(lia)) as [Hu _].
    assert (0 < 2 ^ 52) by reflexivity.
    change (2 ^ 53) with (2 ^ 52 * 2) in Ha. nia. }
  assert (Hll : Z.log2 a <= Z.log2 b) by (apply Z.log2_le_mono, Hab).
  destruct (roundPos_near a ltac:(lia)) as [Ha1 Ha2].
  destruct (roundPos_near b ltac:(lia)) as [Hb1 Hb2].
  destruct (Z.eq_dec (Z.log2 a) (Z.log2 b)) as [El | Nl].
  - destruct (binade a ltac:(lia)) as [Hu _].
    rewrite <- El in Hb1.
    set (u := 2 ^ (Z.log2 a - 52)) in *.
    assert (Hdiv : a / u <= b / u) by (apply Z.div_le_mono; lia).
    destruct (Z.eq_dec (a / u) (b / u)) as [Eq | Nq].
    + assert (Hmod : a mod u <= b mod u).
      { pose proof (Z.div_mod a u ltac:(lia)). pose proof (Z.div_mod b u ltac:(lia)).
        rewrite Eq in *. lia. }
      unfold roundPos.
      destruct (a <? 2 ^ 53) eqn:E1; [apply Z.ltb_lt in E1; lia|].
      destruct (b <? 2 ^ 53) eqn:E2; [apply Z.ltb_lt in E2; lia|].
      rewrite <- El; fold u; rewrite <- Eq.
      destruct (2 * (a mod u) <? u) eqn:A1;
      destruct (u <? 2 * (a mod u)) eqn:A2;
      destruct (2 * (b mod u) <? u) eqn:B1;
      destruct (u <? 2 * (b mod u)) eqn:B2;
      destruct (Z.even (a / u));
      rewrite ?Z.ltb_lt, ?Z.ltb_ge in *; lia.
    + assert ((a / u + 1) * u <= (b / u) * u) by nia. lia.
  - assert (H : 2 ^ 53 * 2 ^ (Z.log2 a - 52) <= 2 ^ 52 * 2 ^ (Z.log2 b - 52)).
    { assert (53 <= Z.log2 a).
      { change 53 with (Z.log2 (2 ^ 53)); apply Z.log2_le_mono; lia. }
      rewrite <- !Z.pow_add_r by lia.
      apply Z.pow_le_mono_r; lia. }
    lia.
Qed.

Lemma roundPos_pos (a : Z) : 0 < a -> 0 < roundPos a.
Proof.
  intros Ha.
  destruct (Z.le_gt_cases a (2 ^ 53)) as [H | H].
  - rewrite roundPos_small; assumption.
  - destruct (roundPos_near a ltac:(lia)) as [_ [H1 _]].
    destruct (binade a ltac:(lia)) as [Hu _].
    assert (0 < 2 ^ 52) by reflexivity. nia.
Qed.

Lemma toDouble_small (z : Z) : - 2 ^ 53 <= z <= 2 ^ 53 -> toDouble z = z.
Proof.
  intros H; unfold toDouble.
  destruct (z <? 0); rewrite roundPos_small; lia.
Qed.

Lemma toDouble_mono (a b : Z) : a <= b -> toDouble a <= toDouble b.
Proof.
  intros Hab; unfold toDouble.
  destruct (a <? 0) eqn:Ea; destruct (b <? 0) eqn:Eb;
    rewrite ?Z.ltb_lt, ?Z.ltb_ge in *.
  - pose proof (roundPos_mono (- b) (- a) ltac:(lia)); lia.
  - pose proof (roundPos_pos (- a) ltac:(lia)).
    pose proof (roundPos_mono 0 b Eb) as H0. rewrite (roundPos_small 0) in H0 by (compute; discriminate). lia.
  - lia.
  - apply roundPos_mono, Hab.
Qed.

Lemma toDouble_pos (z : Z) : 0 < toDouble z <-> 0 < z.
Proof.
  unfold toDouble; destruct (z <? 0) eqn:E; rewrite ?Z.ltb_lt, ?Z.ltb_ge in *.
  - pose proof (roundPos_pos (- z) ltac:(lia)); lia.
  - split; intros H.
    + destruct (Z.eq_dec z 0) as [->|]; [rewrite roundPos_small in H by (compute; discriminate); lia | lia].
    + apply roundPos_pos, H.
Qed.

Lemma toDouble_lt (a b : Z) : toDouble a < toDouble b -> a < b.
Proof.
  intros H. destruct (Z.lt_ge_cases a b) as [|Hge]; [assumption|].
  pose proof (toDouble_mono b a Hge); lia.
Qed.

(** ** Gap detection *)

Section GapFacts.

Lemma gapThreshold_bound (m : Z) :
  0 < gapThreshold m -> 0 < m /\ forall d, gapThreshold m < toDouble d -> m < d.
Proof.
  unfold gapThreshold.
  destruct (0 <? m) eqn:E; [apply Z.ltb_lt in E | lia].
  intros _; split; [exact E|].
  intros d Hd; apply toDouble_lt in Hd; lia.
Qed.


Lemma fillGaps_originals (m thr : Z) (s : string) (prev : TimeDataPoint)
    (rest : list TimeDataPoint) :
  Forall (fun d => isSynthetic d = false) rest ->
  filter isOriginal (fillGaps m thr s prev rest) = rest.
Proof.
  revert prev; induction rest as [|curr rest IH]; intros prev Hall; simpl.
  - reflexivity.
  - inversion Hall as [|? ? Hc Hr]; subst.
    rewrite filter_app; simpl.
    unfold isOriginal at 2; rewrite Hc; simpl.
    rewrite IH by exact Hr.
    destruct ((0 <? thr) && (thr <? toDouble (timestamp curr - timestamp prev))); reflexivity.
Qed.



(** The positive differences and the median. *)
Lemma positiveDiffs_pos (prev : Z) (rest : list TimeDataPoint) :
  Forall (fun d => 0 < d) (positiveDiffs prev rest).
Proof.
  revert prev; induction rest as [|p rest IH]; intros prev; simpl.
  - constructor.
  - apply Forall_app; split; [|apply IH].
    destruct (0 <? toDouble (timestamp p - prev)) eqn:E; constructor.
    + apply Z.ltb_lt, E.
    + constructor.
Qed.

Lemma positiveDiffs_nil (prev : TimeDataPoint) (rest : list TimeDataPoint) :
  positiveDiffs (timestamp prev) rest = [] ->
  forall p q, In (p, q) (pairsOf (prev :: rest)) -> timestamp q - timestamp p <= 0.
Proof.
  revert prev; induction rest as [|curr rest IH]; intros prev Hnil p q Hin.
  - destruct Hin.
  - simpl in Hnil.
    apply app_eq_nil in Hnil; destruct Hnil as [H1 H2].
    change (pairsOf (prev :: curr :: rest)) with ((prev, curr) :: pairsOf (curr :: rest)) in Hin.
    destruct Hin as [Heq | Hin].
    + injection Heq as <- <-.
      destruct (0 <? toDouble (timestamp curr - timestamp prev)) eqn:E; [discriminate|].
      apply Z.ltb_ge in E.
      pose proof (proj2 (toDouble_pos (timestamp curr - timestamp prev))); lia.
    + apply (IH curr H2 p q Hin).
Qed.

Lemma medianDiff_cases (points : list TimeDataPoint) :
  match points with
  | [] => medianDiff points = 0
  | p0 :: rest =>
      (medianDiff points = 0 /\ positiveDiffs (timestamp p0) rest = []) \/
      (0 < medianDiff points /\ In (medianDiff points) (positiveDiffs (timestamp p0) rest))
  end.
Proof.
  destruct points as [|p0 rest]; [reflexivity|].
  unfold medianDiff.
  set (D := positiveDiffs (timestamp p0) rest).
  assert (HD : Forall (fun d => 0 < d) D) by apply positiveDiffs_pos.
  set (S := sortBy (fun d => d) D).
  destruct D as [|d D'] eqn:ED.
  - left; split; reflexivity.
  - right.
    assert (Hlen : (Nat.div (List.length S) 2 < List.length S)%nat).
    { assert (List.length S = List.length (d :: D')) by apply sortBy_length.
      apply Nat.div_lt; [rewrite H; simpl; lia | lia]. }
    assert (Hin : In (nth (Nat.div (List.length S) 2) S 0) (d :: D')).
    { apply (sortBy_In (fun d => d)). apply nth_In, Hlen. }
    split; [|exact Hin].
    rewrite Forall_forall in HD; apply HD, Hin.
Qed.

Lemma medianDiff_nonneg (points : list TimeDataPoint) : 0 <= medianDiff points.
Proof.
  pose proof (medianDiff_cases points) as H.
  destruct points as [|p0 rest]; [rewrite H; lia|].
  destruct H as [[H _]|[H _]]; lia.
Qed.

(** With the threshold of the source, the test of the loop is [wide]. *)
Lemma gapCond_wide (sorted : list TimeDataPoint) (p q : TimeDataPoint) :
  In (p, q) (pairsOf sorted) ->
  gapCond (gapThreshold (medianDiff sorted)) p q = wide (medianDiff sorted) p q.
Proof.
  intros Hin.
  unfold gapCond, gapThreshold, wide.
  pose proof (medianDiff_cases sorted) as H.
  destruct sorted as [|p0 rest]; [destruct Hin|].
  destruct H as [[Hm Hnil]|[Hm _]].
  - rewrite Hm; simpl.
    pose proof (positiveDiffs_nil p0 rest Hnil p q Hin) as Hd.
    symmetry; apply Z.ltb_ge.
    pose proof (toDouble_mono _ _ Hd) as H0.
    rewrite (toDouble_small 0) in H0 by (split; discriminate).
    exact H0.
  - destruct (0 <? medianDiff (p0 :: rest)) eqn:E; [|apply Z.ltb_ge in E; lia].
    pose proof (proj2 (toDouble_pos (medianDiff (p0 :: rest) * 3)) ltac:(lia)) as Hpos.
    apply Z.ltb_lt in Hpos; rewrite Hpos; reflexivity.
Qed.

(** The test never holds where the exact step does not exceed three times
    [m]; up to 2^53 the two comparisons are the same. *)
Lemma wide_exceeds (m : Z) (p q : TimeDataPoint) :
  wide m p q = true -> exceeds m p q = true.
Proof.
  unfold wide, exceeds; intros H.
  apply Z.ltb_lt in H; apply Z.ltb_lt.
  apply toDouble_lt in H; lia.
Qed.

Lemma wide_exact (m : Z) (p q : TimeDataPoint) :
  - 2 ^ 53 <= m * 3 <= 2 ^ 53 ->
  - 2 ^ 53 <= timestamp q - timestamp p <= 2 ^ 53 ->
  wide m p q = exceeds m p q.
Proof.
  intros Hm Hd; unfold wide, exceeds.
  rewrite !toDouble_small by assumption.
  f_equal; lia.
Qed.


End GapFacts.








Lemma gap_instant_exact (m : Z) (p q : TimeDataPoint) :
  Z.abs (timestamp p) <= maxTime -> Z.abs (timestamp q) <= maxTime ->
  gapCond (gapThreshold m) p q = true ->
  timestamp p < timestamp p + m < timestamp q /\
  toDouble (timestamp p + m) = timestamp p + m /\
  timeClip (inject_Z (timestamp p + m)) = Some (timestamp p + m).
Proof.
  intros Hp Hq H.
  unfold gapCond in H; apply andb_true_iff in H; destruct H as [H1 H2].
  apply Z.ltb_lt in H1; apply Z.ltb_lt in H2.
  destruct (gapThreshold_bound m H1) as [Hm Hd]; specialize (Hd _ H2).
  unfold maxTime in *.
  assert (Hb : Z.abs (timestamp p + m) <= 8640000000000000) by lia.
  split; [lia|]; split.
  - apply toDouble_small.
    assert (8640000000000000 < 2 ^ 53) by reflexivity. lia.
  - unfold timeClip; cbn [inject_Z Qnum Qden].
    rewrite Z.quot_1_r.
    replace (Qle_bool (Qabs (inject_Z (timestamp p + m))) (inject_Z maxTime)) with true;
      [reflexivity|].
    symmetry; apply Qle_bool_iff.
    unfold Qabs, Qle, inject_Z, maxTime; cbn [Qnum Qden]; lia.
Qed.




(** Hourly readings with one step of five hours: one absent-value point,
    an hour after the reading before the step. *)
Example hourlyWithGap_gap :
  detectGaps "default" hourlyWithGap
  = [samplePoint 1 0 1; samplePoint 3 3600000 2; samplePoint 0 7200000 3;
     samplePoint 4 10800000 4; gapPoint 14400000 "default";
     samplePoint 2 28800000 5].
Proof. reflexivity. Qed.

(** Three readings have two steps, of one and of nine hours; the median is
    five hours, [m] is the upper step, nine hours, and no step exceeds three
    times either. *)
Example threeReadings_no_gap :
  medianDiff (sortBy timestamp threeReadings) = 32400000 /\
  (median (stepsOf (sortBy timestamp threeReadings)) == 18000000)%Q /\
  detectGaps "default" threeReadings = threeReadings.
Proof. vm_compute. repeat split; reflexivity. Qed.

(** Above 2^53 the binary64 numbers are the even integers, then the
    multiples of four. *)
Example toDouble_binades :
  toDouble (2 ^ 53 + 1) = 2 ^ 53 /\ toDouble (2 ^ 53 + 3) = 2 ^ 53 + 4 /\
  toDouble (2 ^ 53 + 5) = 2 ^ 53 + 4 /\ toDouble (2 ^ 54 + 2) = 2 ^ 54 /\
  toDouble (2 ^ 54 + 6) = 2 ^ 54 + 8 /\ toDouble (- (2 ^ 53 + 3)) = - (2 ^ 53 + 4).
Proof. vm_compute. repeat split; reflexivity. Qed.

(** Readings far apart: the long step, 2^53 + 5, exceeds three times the
    short one, 2^53 + 4, but is computed as 2^53 + 4, and no point is
    inserted. *)
Example farApart_no_gap :
  medianDiff farApart = 3002399751580332 /\
  exceeds (medianDiff farApart) (samplePoint 1 (-4997600248419668) 2)
          (samplePoint 2 4009599006321329 3) = true /\
  wide (medianDiff farApart) (samplePoint 1 (-4997600248419668) 2)
       (samplePoint 2 4009599006321329 3) = false /\
  detectGaps "default" farApart = farApart.
Proof. vm_compute. repeat split; reflexivity. Qed.

(** ** The series map *)

Section MapFacts.
Context {V : Type}.

Lemma mapGet_mapSet_same (k : string) (v : V) (m : list (string * V)) :
  mapGet String.eqb k (mapSet String.eqb k v m) = Some v.
Proof.
  induction m as [|[k' v'] m IH]; simpl.
  - rewrite String.eqb_refl; reflexivity.
  - destruct (String.eqb k k') eqn:E; simpl; rewrite E; [reflexivity | exact IH].
Qed.

Lemma mapGet_mapSet_other (k k' : string) (v : V) (m : list (string * V)) :
  k <> k' -> mapGet String.eqb k' (mapSet String.eqb k v m) = mapGet String.eqb k' m.
Proof.
  intros Hne.
  induction m as [|[k0 v0] m IH]; simpl.
  - destruct (String.eqb k' k) eqn:E; [|reflexivity].
    apply String.eqb_eq in E; congruence.
  - destruct (String.eqb k k0) eqn:E; simpl.
    + apply String.eqb_eq in E; subst k0.
      destruct (String.eqb k' k) eqn:E'; [|reflexivity].
      apply String.eqb_eq in E'; congruence.
    + rewrite IH; reflexivity.
Qed.

Lemma mapKeys_mapSet (k : string) (v : V) (m : list (string * V)) :
  mapKeys (mapSet String.eqb k v m)
  = match mapGet String.eqb k m with
    | Some _ => mapKeys m
    | None => mapKeys m ++ [k]
    end.
Proof.
  induction m as [|[k' v'] m IH]; simpl.
  - reflexivity.
  - destruct (String.eqb k k') eqn:E; simpl.
    + reflexivity.
    + unfold mapKeys in *; rewrite IH.
      destruct (mapGet String.eqb k m); reflexivity.
Qed.

Lemma mapGet_None_notin (k : string) (m : list (string * V)) :
  mapGet String.eqb k m = None -> ~ In k (mapKeys m).
Proof.
  induction m as [|[k' v'] m IH]; simpl; intros Hget Hin.
  - exact Hin.
  - destruct (String.eqb k k') eqn:E; [discriminate|].
    destruct Hin as [Heq | Hin].
    + subst k'; rewrite String.eqb_refl in E; discriminate.
    + exact (IH Hget Hin).
Qed.

Lemma mapGet_In (k : string) (v : V) (m : list (string * V)) :
  NoDup (mapKeys m) -> In (k, v) m -> mapGet String.eqb k m = Some v.
Proof.
  induction m as [|[k' v'] m IH]; simpl; intros Hnd Hin.
  - destruct Hin.
  - inversion Hnd as [|? ? Hnotin Hnd']; subst.
    destruct Hin as [Heq | Hin].
    + injection Heq as -> ->. rewrite String.eqb_refl; reflexivity.
    + destruct (String.eqb k k') eqn:E.
      * apply String.eqb_eq in E; subst k'.
        exfalso; apply Hnotin.
        change k with (fst (k, v)); apply in_map, Hin.
      * apply IH; assumption.
Qed.

Lemma In_mapGet (k : string) (v : V) (m : list (string * V)) :
  mapGet String.eqb k m = Some v -> In (k, v) m.
Proof.
  induction m as [|[k' v'] m IH]; simpl; intros Hget.
  - discriminate.
  - destruct (String.eqb k k') eqn:E.
    + apply String.eqb_eq in E; subst k'.
      injection Hget as ->; left; reflexivity.
    + right; apply IH, Hget.
Qed.

End MapFacts.

Lemma NoDup_snoc {A : Type} (l : list A) (x : A) :
  NoDup l -> ~ In x l -> NoDup (l ++ [x]).
Proof.
  intros Hnd Hnotin.
  apply Permutation_NoDup with (x :: l).
  - apply Permutation_cons_append.
  - constructor; assumption.
Qed.

Section SeriesMapFacts.

Lemma seriesKey_nonempty (d : TimeDataPoint) : strNonEmpty (seriesKey d) = true.
Proof.
  unfold seriesKey.
  destruct (strNonEmpty (series d)) eqn:E; [exact E | reflexivity].
Qed.

Lemma seriesKey_gapPoint (t : Z) (s : string) :
  strNonEmpty s = true -> seriesKey (gapPoint t s) = s.
Proof. intros H; unfold seriesKey; simpl; rewrite H; reflexivity. Qed.

Lemma seriesMapOf_snoc (data : list TimeDataPoint) (d : TimeDataPoint) :
  seriesMapOf (data ++ [d]) = pushToSeries (seriesMapOf data) d.
Proof. unfold seriesMapOf; rewrite fold_left_app; reflexivity. Qed.

Lemma seriesPoints_snoc (s : string) (data : list TimeDataPoint) (d : TimeDataPoint) :
  seriesPoints s (data ++ [d])
  = seriesPoints s data ++ (if String.eqb (seriesKey d) s then [d] else []).
Proof. unfold seriesPoints; rewrite filter_app; reflexivity. Qed.

(** The map holds, for each series that has a point, its points in data
    order; the keys are distinct. *)
Lemma seriesMapOf_spec (data : list TimeDataPoint) :
  NoDup (mapKeys (seriesMapOf data)) /\
  forall s, mapGet String.eqb s (seriesMapOf data)
            = match seriesPoints s data with
              | [] => None
              | pts => Some pts
              end.
Proof.
  induction data as [|d data IH] using rev_ind.
  - split; [constructor | reflexivity].
  - destruct IH as [Hnd Hget].
    rewrite seriesMapOf_snoc.
    unfold pushToSeries.
    set (m := seriesMapOf data) in *.
    set (k := seriesKey d).
    destruct (mapGet String.eqb k m) as [pts|] eqn:Ek.
    + rewrite Ek.
      split.
      * rewrite mapKeys_mapSet, Ek; exact Hnd.
      * intros s; rewrite seriesPoints_snoc; fold k.
        destruct (String.eqb k s) eqn:E.
        -- apply String.eqb_eq in E; subst s.
           rewrite mapGet_mapSet_same.
           rewrite Hget in Ek.
           destruct (seriesPoints k data) as [|x xs]; [discriminate|].
           injection Ek as <-; reflexivity.
        -- apply String.eqb_neq in E.
           rewrite mapGet_mapSet_other by exact E.
           rewrite Hget, app_nil_r; reflexivity.
    + rewrite mapGet_mapSet_same.
      split.
      * rewrite mapKeys_mapSet, mapGet_mapSet_same.
        rewrite mapKeys_mapSet, Ek.
        apply NoDup_snoc; [exact Hnd | apply mapGet_None_notin, Ek].
      * intros s; rewrite seriesPoints_snoc; fold k.
        destruct (String.eqb k s) eqn:E.
        -- apply String.eqb_eq in E; subst s.
           rewrite mapGet_mapSet_same.
           rewrite Hget in Ek.
           destruct (seriesPoints k data) as [|x xs]; [reflexivity | discriminate].
        -- apply String.eqb_neq in E.
           rewrite !mapGet_mapSet_other by exact E.
           rewrite Hget, app_nil_r; reflexivity.
Qed.

End SeriesMapFacts.

(** ** From rows to the merged sequence *)

Section PipelineFacts.
Context {rt : Runtime}.

(** *** Membership *)

Lemma fillGaps_In (m thr : Z) (s : string) (p : TimeDataPoint) :
  forall (rest : list TimeDataPoint) (prev : TimeDataPoint),
  In p (fillGaps m thr s prev rest) ->
  In p rest \/ exists t, p = gapPoint t s.
Proof.
  induction rest as [|curr rest IH]; intros prev Hin; simpl in Hin.
  - destruct Hin.
  - apply in_app_or in Hin.
    destruct Hin as [Hin | [Heq | Hin]].
    + destruct ((0 <? thr) && (thr <? toDouble (timestamp curr - timestamp prev))).
      * destruct Hin as [<- | []]. right; eexists; reflexivity.
      * destruct Hin.
    + left; left; exact Heq.
    + destruct (IH curr Hin) as [H | H]; [left; right; exact H | right; exact H].
Qed.

Lemma fillGaps_keeps (m thr : Z) (s : string) (p : TimeDataPoint) :
  forall (rest : list TimeDataPoint) (prev : TimeDataPoint),
  In p rest -> In p (fillGaps m thr s prev rest).
Proof.
  induction rest as [|curr rest IH]; intros prev Hin; simpl.
  - destruct Hin.
  - apply in_or_app; right.
    destruct Hin as [Heq | Hin]; [left; exact Heq | right; apply IH, Hin].
Qed.

Lemma detectGaps_In (s : string) (points : list TimeDataPoint) (p : TimeDataPoint) :
  In p (detectGaps s points) -> In p points \/ exists t, p = gapPoint t s.
Proof.
  unfold detectGaps.
  pose proof (sortBy_In timestamp p points) as Hs.
  destruct (sortBy timestamp points) as [|p0 [|p1 rest]].
  - intros [].
  - intros Hin; left; apply Hs, Hin.
  - intros [Heq | Hin].
    + left; apply Hs; left; exact Heq.
    + apply fillGaps_In in Hin.
      destruct Hin as [Hin | Hgap]; [left; apply Hs; right; exact Hin | right; exact Hgap].
Qed.

Lemma detectGaps_keeps (s : string) (points : list TimeDataPoint) (p : TimeDataPoint) :
  In p points -> In p (detectGaps s points).
Proof.
  unfold detectGaps.
  pose proof (sortBy_In timestamp p points) as Hs.
  intros Hin; apply Hs in Hin.
  destruct (sortBy timestamp points) as [|p0 [|p1 rest]].
  - destruct Hin.
  - exact Hin.
  - destruct Hin as [Heq | Hin]; [left; exact Heq | right].
    apply fillGaps_keeps, Hin.
Qed.

Lemma seriesMapOf_In (data : list TimeDataPoint) (s : string) (pts : list TimeDataPoint) :
  In (s, pts) (seriesMapOf data) -> pts = seriesPoints s data /\ pts <> [].
Proof.
  intros Hin.
  destruct (seriesMapOf_spec data) as [Hnd Hget].
  apply (mapGet_In s pts _ Hnd) in Hin.
  rewrite Hget in Hin.
  destruct (seriesPoints s data) as [|x xs]; [discriminate|].
  injection Hin as <-; split; [reflexivity | discriminate].
Qed.

Lemma seriesPoints_In (s : string) (data : list TimeDataPoint) (p : TimeDataPoint) :
  In p (seriesPoints s data) <-> In p data /\ seriesKey p = s.
Proof.
  unfold seriesPoints; rewrite filter_In, String.eqb_eq; reflexivity.
Qed.

(** A point of the merged sequence is a point built from a row or an
    absent-value point of gap detection. *)
Lemma postProcess_In (data : list TimeDataPoint) (p : TimeDataPoint) :
  In p (postProcess data) -> In p data \/ exists t s, p = gapPoint t s.
Proof.
  unfold postProcess; intros Hin.
  apply sortBy_In in Hin.
  apply in_flat_map in Hin.
  destruct Hin as [[s pts] [Hsp Hin]]; simpl in Hin.
  apply detectGaps_In in Hin.
  destruct Hin as [Hin | [t Ht]].
  - left.
    apply seriesMapOf_In in Hsp; destruct Hsp as [-> _].
    apply seriesPoints_In in Hin; apply Hin.
  - right; exists t, s; exact Ht.
Qed.

(** Every point built from a row is in the merged sequence. *)
Lemma postProcess_keeps (data : list TimeDataPoint) (p : TimeDataPoint) :
  In p data -> In p (postProcess data).
Proof.
  intros Hin; unfold postProcess.
  apply sortBy_In, in_flat_map.
  exists (seriesKey p, seriesPoints (seriesKey p) data); split.
  - apply In_mapGet.
    destruct (seriesMapOf_spec data) as [_ Hget]; rewrite Hget.
    assert (Hp : In p (seriesPoints (seriesKey p) data))
      by (apply seriesPoints_In; split; [exact Hin | reflexivity]).
    destruct (seriesPoints (seriesKey p) data); [destruct Hp | reflexivity].
  - simpl; apply detectGaps_keeps, seriesPoints_In; split; [exact Hin | reflexivity].
Qed.

Lemma parseData_postProcess (dv : option DataViewCategorical) :
  parseData dv = postProcess (parseRows dv).
Proof.
  unfold parseData, parseRows.
  destruct dv as [categorical|]; [|reflexivity].
  destruct (dv_categories categorical) as [[|c cs]|]; try reflexivity.
  destruct (dv_values categorical) as [groups|]; [|reflexivity].
  destruct (findTimestampCategory (c :: cs)) as [cat|]; [|reflexivity].
  destruct (c_values cat) eqn:E; [|reflexivity].
  unfold rawPoints, groupPoints; rewrite E; simpl.
  induction groups as [|g groups IH]; [reflexivity | exact IH].
Qed.

End PipelineFacts.

(** ** Rows and synthetic points in the model *)

Section ModelFacts.
Context {rt : Runtime}.

Lemma parseRows_shape (dv : option DataViewCategorical) :
  parseRows dv = match timestampCategoryOf dv with
                 | Some cat => rawPoints cat (groupsOf dv)
                 | None => []
                 end.
Proof.
  unfold parseRows, timestampCategoryOf, groupsOf.
  destruct dv as [categorical|]; [|reflexivity].
  destruct (dv_categories categorical) as [[|c cs]|]; try reflexivity.
  destruct (dv_values categorical) as [groups|]; reflexivity.
Qed.

(** A point of the two passes is the point of a row whose timestamp
    parses, in one of the groups. *)
Lemma rawPoints_In (cat : DataViewCategoryColumn)
    (groups : list DataViewValueColumnGroup) (p : TimeDataPoint) :
  In p (rawPoints cat groups) <->
  exists g i t,
    In g groups /\ (i < List.length (c_values cat))%nat /\
    parseDate (jsNth i (c_values cat)) = Some t /\
    p = rowPoint cat (globalMarkers (c_values cat) groups) g i t.
Proof.
  unfold rawPoints, groupPoints.
  rewrite in_flat_map.
  split.
  - intros [g [Hg Hin]].
    apply in_flat_map in Hin.
    destruct Hin as [i [Hi Hin]].
    apply in_seq in Hi.
    destruct (parseDate (jsNth i (c_values cat))) as [t|] eqn:E; [|destruct Hin].
    destruct Hin as [<- | []].
    exists g, i, t; repeat split; try assumption; lia.
  - intros [g [i [t [Hg [Hi [Ht ->]]]]]].
    exists g; split; [exact Hg|].
    apply in_flat_map.
    exists i; split; [apply in_seq; lia|].
    rewrite Ht; left; reflexivity.
Qed.

Lemma parseRows_index (dv : option DataViewCategorical) (p : TimeDataPoint) :
  In p (parseRows dv) -> 0 <= index p.
Proof.
  rewrite parseRows_shape.
  destruct (timestampCategoryOf dv) as [cat|]; [|intros []].
  intros Hin; apply rawPoints_In in Hin.
  destruct Hin as [g [i [t [_ [_ [_ ->]]]]]]; simpl; lia.
Qed.

Lemma timelinePoints_marked (data : list TimeDataPoint) (p : TimeDataPoint) :
  In p (timelinePoints data) -> hasMarker p = true.
Proof.
  unfold timelinePoints, mapValues.
  assert (Hset : forall (um : list (Z * TimeDataPoint)) (d : TimeDataPoint),
             hasMarker d = true ->
             Forall (fun kv => hasMarker (snd kv) = true) um ->
             Forall (fun kv => hasMarker (snd kv) = true)
                    (mapSet Z.eqb (timestamp d) d um)).
  { intros um d Hd; induction 1 as [|[k v] um Hkv Hum IH]; simpl.
    - constructor; [exact Hd | constructor].
    - destruct (timestamp d =? k); constructor; assumption. }
  assert (Hfold : forall (ds : list TimeDataPoint) (um : list (Z * TimeDataPoint)),
             Forall (fun kv => hasMarker (snd kv) = true) um ->
             Forall (fun kv => hasMarker (snd kv) = true)
               (fold_left (fun um d =>
                  if hasMarker d then mapSet Z.eqb (timestamp d) d um else um) ds um)).
  { induction ds as [|d ds IH]; intros um Hum; simpl; [exact Hum|].
    apply IH.
    destruct (hasMarker d) eqn:E; [apply Hset; assumption | exact Hum]. }
  intros Hin; apply in_map_iff in Hin.
  destruct Hin as [[k v] [<- Hin]].
  specialize (Hfold data [] (Forall_nil _)).
  rewrite Forall_forall in Hfold; apply (Hfold _ Hin).
Qed.

(** The series of the parsed rows hold points of rows only: gap detection
    starts from series without synthetic points. *)
Lemma series_of_rows_original (dv : option DataViewCategorical) (s : string)
    (pts : list TimeDataPoint) :
  In (s, pts) (seriesMapOf (parseRows dv)) ->
  Forall (fun d => isSynthetic d = false) pts.
Proof.
  intros Hin.
  apply seriesMapOf_In in Hin; destruct Hin as [-> _].
  apply Forall_forall; intros d Hd.
  apply seriesPoints_In in Hd; destruct Hd as [Hd _].
  apply parseRows_index in Hd.
  unfold isSynthetic; apply Z.eqb_neq; lia.
Qed.


End ModelFacts.

Section RowFacts.
Context {rt : Runtime}.

(** C8.  [parseData] is a total function: no input makes it fail.  Without
    a timestamp column (no data view, no categories, no values, no column
    in the timestamp role) the model is empty.  With one: a row whose
    timestamp does not parse gives no point; a row whose timestamp parses
    gives, in every group, a point with that instant and with the value of
    [rowValue]; [rowValue] is absent when the group has no value measure,
    when the cell is [null], [undefined] or the empty string, and when the
    cell is no number after coercion; and when no timestamp parses the
    model is empty. *)
Theorem parseData_rows (dv : option DataViewCategorical) :
  (timestampCategoryOf dv = None -> parseData dv = []) /\
  (forall cat, timestampCategoryOf dv = Some cat ->
     (forall i, parseDate (jsNth i (c_values cat)) = None ->
        forall p, In p (parseData dv) -> index p <> Z.of_nat i) /\
     (forall i g t,
        (i < List.length (c_values cat))%nat -> In g (groupsOf dv) ->
        parseDate (jsNth i (c_values cat)) = Some t ->
        exists p, In p (parseData dv) /\ index p = Z.of_nat i /\
                  timestamp p = t /\ series p = groupSeriesName g /\
                  value p = rowValue (findMeasure "values" g) i) /\
     ((forall i, parseDate (jsNth i (c_values cat)) = None) -> parseData dv = [])) /\
  (forall vm i,
     rowValue None i = None /\
     (jsNth i (v_values vm) = VNull \/ jsNth i (v_values vm) = VUndefined \/
      jsNth i (v_values vm) = VString "" \/ toNumber (jsNth i (v_values vm)) = NaN ->
      rowValue (Some vm) i = None)).
Proof.
  rewrite parseData_postProcess, parseRows_shape.
  split; [|split].
  - intros ->; reflexivity.
  - intros cat ->.
    split; [|split].
    + intros i Hnone p Hin Hidx.
      apply postProcess_In in Hin.
      destruct Hin as [Hin | [t [s ->]]].
      * apply rawPoints_In in Hin.
        destruct Hin as [g [j [t [_ [_ [Ht ->]]]]]].
        simpl in Hidx; apply Nat2Z.inj in Hidx; subst j.
        rewrite Hnone in Ht; discriminate.
      * simpl in Hidx; lia.
    + intros i g t Hi Hg Ht.
      exists (rowPoint cat (globalMarkers (c_values cat) (groupsOf dv)) g i t).
      split; [|repeat split].
      apply postProcess_keeps, rawPoints_In.
      exists g, i, t; repeat split; assumption.
    + intros Hall.
      assert (Hraw : rawPoints cat (groupsOf dv) = []).
      { destruct (rawPoints cat (groupsOf dv)) as [|p l] eqn:E; [reflexivity|].
        assert (Hin : In p (rawPoints cat (groupsOf dv))) by (rewrite E; left; reflexivity).
        apply rawPoints_In in Hin.
        destruct Hin as [g [i [t [_ [_ [Ht _]]]]]].
        rewrite Hall in Ht; discriminate. }
      rewrite Hraw; reflexivity.
  - intros vm i; split; [reflexivity|].
    unfold rowValue.
    intros [H | [H | [H | H]]].
    + rewrite H; reflexivity.
    + rewrite H; reflexivity.
    + rewrite H; reflexivity.
    + destruct (jsNth i (v_values vm)) as [| |n|s|b|d]; try reflexivity.
      * rewrite H; reflexivity.
      * destruct s; [reflexivity|]. rewrite H; reflexivity.
      * rewrite H; reflexivity.
      * rewrite H; reflexivity.
Qed.

End RowFacts.

Lemma parseData_rows_witness :
  timestampCategoryOf (Some raggedView)
  = Some (timeColumn [instant 0; VString "soon"; instant 1000; instant 2000]) /\
  forall p, In p (@parseData sampleRuntime (Some raggedView)) -> index p <> 1.
Proof.
  split; [reflexivity|].
  destruct (@parseData_rows sampleRuntime (Some raggedView)) as [_ [H _]].
  destruct (H _ eq_refl) as [Hskip _].
  exact (Hskip 1%nat eq_refl).
Defined.

(** The ragged view: the second row is gone, the rows without a number
    are there with an absent value. *)
Example raggedView_model :
  map (fun p => (index p, timestamp p, value p))
      (@parseData sampleRuntime (Some raggedView))
  = [(0, 0, Some (inject_Z 1)); (2, 1000, None); (3, 2000, None)].
Proof. reflexivity. Qed.

(** ** Time order within a series *)

Section OrderFacts.
Context {rt : Runtime}.

Lemma fillGaps_Sorted (rel : Z -> Z -> Prop) (m thr : Z) (s : string) :
  (forall x y, x < y -> rel x y) ->
  (0 < thr -> 0 < m /\ forall d, thr < toDouble d -> m < d) ->
  forall (rest : list TimeDataPoint) (prev : TimeDataPoint),
  Sorted (fun a b => rel (timestamp a) (timestamp b)) (prev :: rest) ->
  Sorted (fun a b => rel (timestamp a) (timestamp b))
         (prev :: fillGaps m thr s prev rest).
Proof.
  intros Hrel Hthr.
  induction rest as [|curr rest IH]; intros prev Hs.
  - exact Hs.
  - inversion Hs as [|? ? Hs' Hhd]; subst.
    inversion Hhd as [|? ? Hpc]; subst.
    specialize (IH curr Hs').
    cbn [fillGaps].
    destruct ((0 <? thr) && (thr <? toDouble (timestamp curr - timestamp prev))) eqn:E.
    + apply andb_true_iff in E; destruct E as [E1 E2].
      apply Z.ltb_lt in E1; apply Z.ltb_lt in E2.
      destruct (Hthr E1) as [Hm Hd]; specialize (Hd _ E2).
      constructor.
      * constructor; [exact IH|].
        constructor; apply Hrel; simpl; lia.
      * constructor; apply Hrel; simpl; lia.
    + constructor; [exact IH | constructor; exact Hpc].
Qed.

Lemma detectGaps_Sorted (rel : Z -> Z -> Prop) (s : string) (points : list TimeDataPoint) :
  (forall x y, x < y -> rel x y) ->
  Sorted (fun a b => rel (timestamp a) (timestamp b)) (sortBy timestamp points) ->
  Sorted (fun a b => rel (timestamp a) (timestamp b)) (detectGaps s points).
Proof.
  intros Hrel Hs.
  unfold detectGaps.
  destruct (sortBy timestamp points) as [|p0 [|p1 rest]]; try exact Hs.
  apply fillGaps_Sorted; [exact Hrel | apply gapThreshold_bound | exact Hs].
Qed.

Lemma timeLt_trans : Relations_1.Transitive (fun a b : TimeDataPoint => timestamp a < timestamp b).
Proof. intros a b c; lia. Qed.

(** With no two points at the same instant, what gap detection returns
    has no two points at the same instant either. *)
Lemma detectGaps_nodup (s : string) (points : list TimeDataPoint) :
  NoDup (map timestamp points) -> NoDup (map timestamp (detectGaps s points)).
Proof.
  intros Hnd.
  apply strict_sorted_nodup.
  apply Sorted_StronglySorted; [exact timeLt_trans|].
  apply (detectGaps_Sorted Z.lt); [auto|].
  apply StronglySorted_Sorted.
  apply sorted_nodup_strict; [apply sortBy_sorted|].
  eapply Permutation_NoDup; [|exact Hnd].
  apply Permutation_map, Permutation_sym, sortBy_perm.
Qed.

Lemma detectGaps_seriesKey (data : list TimeDataPoint) (k : string)
    (pts : list TimeDataPoint) :
  In (k, pts) (seriesMapOf data) ->
  Forall (fun p => seriesKey p = k) (detectGaps k pts).
Proof.
  intros Hin.
  apply seriesMapOf_In in Hin; destruct Hin as [-> Hne].
  assert (Hk : strNonEmpty k = true).
  { destruct (seriesPoints k data) as [|x xs] eqn:E; [congruence|].
    assert (Hx : In x (seriesPoints k data)) by (rewrite E; left; reflexivity).
    apply seriesPoints_In in Hx; destruct Hx as [_ <-].
    apply seriesKey_nonempty. }
  apply Forall_forall; intros p Hp.
  apply detectGaps_In in Hp.
  destruct Hp as [Hp | [t ->]].
  - apply seriesPoints_In in Hp; apply Hp.
  - apply seriesKey_gapPoint, Hk.
Qed.

Lemma seriesPoints_app (s : string) (a b : list TimeDataPoint) :
  seriesPoints s (a ++ b) = seriesPoints s a ++ seriesPoints s b.
Proof. unfold seriesPoints; apply filter_app. Qed.

Lemma seriesPoints_groups (s : string) (m : list (string * list TimeDataPoint)) :
  NoDup (mapKeys m) ->
  (forall k pts, In (k, pts) m -> Forall (fun p => seriesKey p = k) (detectGaps k pts)) ->
  seriesPoints s (flat_map (fun sp => detectGaps (fst sp) (snd sp)) m)
  = match mapGet String.eqb s m with
    | Some pts => detectGaps s pts
    | None => []
    end.
Proof.
  induction m as [|[k pts] m IH]; intros Hnd Hkeys; [reflexivity|].
  inversion Hnd as [|? ? Hnotin Hnd']; subst.
  cbn [flat_map fst snd mapGet].
  rewrite seriesPoints_app.
  assert (Hk := Hkeys k pts (or_introl eq_refl)).
  rewrite (IH Hnd') by (intros k' pts' H'; apply Hkeys; right; exact H').
  unfold seriesPoints.
  destruct (String.eqb s k) eqn:E.
  - apply String.eqb_eq in E; subst k.
    rewrite filter_all.
    + destruct (mapGet String.eqb s m) as [pts'|] eqn:Eg; [|apply app_nil_r].
      exfalso; apply Hnotin.
      apply In_mapGet in Eg.
      change s with (fst (s, pts')); apply in_map, Eg.
    + eapply Forall_impl; [|exact Hk].
      intros p Hp; apply String.eqb_eq, Hp.
  - rewrite filter_none; [reflexivity|].
    eapply Forall_impl; [|exact Hk].
    intros p Hp; simpl in Hp; rewrite Hp.
    rewrite String.eqb_sym; exact E.
Qed.

(** The points of a series in the merged sequence are those that gap
    detection returned for the series, up to the order of equal instants. *)
Lemma seriesPoints_postProcess (s : string) (data : list TimeDataPoint) :
  Permutation (seriesPoints s (postProcess data))
              (match seriesPoints s data with
               | [] => []
               | pts => detectGaps s pts
               end).
Proof.
  unfold postProcess.
  eapply perm_trans.
  - apply Permutation_filter_local, sortBy_perm.
  - fold (seriesPoints s (flat_map (fun sp => detectGaps (fst sp) (snd sp))
                                   (seriesMapOf data))).
    destruct (seriesMapOf_spec data) as [Hnd Hget].
    rewrite seriesPoints_groups.
    + rewrite Hget.
      destruct (seriesPoints s data); apply Permutation_refl.
    + exact Hnd.
    + intros k pts; apply detectGaps_seriesKey.
Qed.

Lemma StronglySorted_pairs {A : Type} (R : A -> A -> Prop) (l : list A) :
  StronglySorted R l -> forall p q, In (p, q) (pairsOf l) -> R p q.
Proof.
  induction 1 as [|x l Hs IH Hall]; intros p q Hin; [destruct Hin|].
  destruct l as [|y l']; [destruct Hin|].
  change (pairsOf (x :: y :: l')) with ((x, y) :: pairsOf (y :: l')) in Hin.
  destruct Hin as [Heq | Hin].
  - injection Heq as <- <-.
    inversion Hall; assumption.
  - apply IH, Hin.
Qed.

(** C5, as the code has it.  In the model, two consecutive points of a
    series are in time order: the instant of the earlier is less than or
    equal to that of the later; and it is strictly less when the rows of
    the series have no two equal instants. *)
Theorem series_time_order (dv : option DataViewCategorical) (s : string) :
  (forall p q, In (p, q) (pairsOf (seriesPoints s (parseData dv))) ->
               timestamp p <= timestamp q) /\
  (NoDup (map timestamp (seriesPoints s (parseRows dv))) ->
   forall p q, In (p, q) (pairsOf (seriesPoints s (parseData dv))) ->
               timestamp p < timestamp q).
Proof.
  rewrite parseData_postProcess.
  assert (Hle : StronglySorted (keyLe timestamp)
                  (seriesPoints s (postProcess (parseRows dv)))).
  { apply filter_sorted; unfold postProcess; apply sortBy_sorted. }
  split.
  - apply (StronglySorted_pairs (keyLe timestamp)), Hle.
  - intros Hnd.
    apply (StronglySorted_pairs (fun a b => timestamp a < timestamp b)).
    apply sorted_nodup_strict; [exact Hle|].
    eapply Permutation_NoDup.
    + apply Permutation_map, Permutation_sym, seriesPoints_postProcess.
    + destruct (seriesPoints s (parseRows dv)) as [|x xs] eqn:E; [constructor|].
      apply detectGaps_nodup, Hnd.
Qed.

End OrderFacts.

Lemma series_time_order_witness :
  NoDup (map timestamp (seriesPoints "default" (@parseRows sampleRuntime (Some hourlyView)))) /\
  forall p q,
    In (p, q) (pairsOf (seriesPoints "default" (@parseData sampleRuntime (Some hourlyView)))) ->
    timestamp p < timestamp q.
Proof.
  assert (H : NoDup (map timestamp (seriesPoints "default"
                       (@parseRows sampleRuntime (Some hourlyView))))).
  { repeat constructor; simpl; intuition discriminate. }
  split; [exact H|].
  exact (proj2 (@series_time_order sampleRuntime (Some hourlyView) "default") H).
Defined.

(** C5, as stated, fails: two rows at the same instant give two
    consecutive points of the series at the same instant. *)
Lemma series_time_order_not_strict :
  ~ (forall p q,
       In (p, q) (pairsOf (seriesPoints "default"
                    (@parseData sampleRuntime (Some repeatedInstantView)))) ->
       timestamp p < timestamp q).
Proof.
  intros H.
  specialize (H _ _ (or_introl eq_refl)).
  simpl in H; lia.
Qed.

(** ** Value scales *)

Section ScaleFacts.
Context {rt : Runtime}.

Lemma isMultiSeriesOf_many (names : list string) :
  (1 < List.length names)%nat -> isMultiSeriesOf names = true.
Proof.
  destruct names as [|a [|b l]]; simpl; intros H; try lia; reflexivity.
Qed.

Lemma mapGet_map_snd {V W : Type} (f : string * V -> W) (s : string)
    (m : list (string * V)) :
  (forall k v, f (k, v) = f (s, v)) ->
  mapGet String.eqb s (map (fun sp => (fst sp, f sp)) m)
  = match mapGet String.eqb s m with
    | Some v => Some (f (s, v))
    | None => None
    end.
Proof.
  intros Hf.
  induction m as [|[k v] m IH]; simpl; [reflexivity|].
  destruct (String.eqb s k); [rewrite Hf; reflexivity | exact IH].
Qed.

(** C7.  The axis settings reach a value scale only when the data has
    exactly one series: with any other number of series the scales are
    those computed without settings.  With more than one series, every
    series that has a point gets the domain computed from its own points
    alone: from their least value [lo] and their greatest value [hi] (0 and
    1 standing in as in [orDefault]) it is [lo - 1] to [hi + 1] when the two
    are equal, and otherwise [lo - padding] to [hi + padding] with
    [padding] a tenth of [hi - lo], each operation rounded to a number.
    With one series that has no name, a bound that is set and is a number
    replaces [lo] or [hi] before the padding. *)
Theorem manual_bounds_single_series_only (yMinSetting yMaxSetting : option string)
    (data : list TimeDataPoint) :
  (List.length (seriesMapOf data) <> 1%nat ->
   yScalesOf yMinSetting yMaxSetting data = yScalesOf None None data) /\
  ((1 < List.length (seriesMapOf data))%nat ->
   forall s,
     mapGet String.eqb s (yScalesOf yMinSetting yMaxSetting data)
     = match seriesPoints s data with
       | [] => None
       | pts =>
           let lo := orDefault (d3min (validValues pts)) 0 in
           let hi := orDefault (d3max (validValues pts)) 1 in
           let padding :=
             roundNumber (roundNumber (hi - lo) * roundNumber (1 # 10)) in
           Some (if Qeq_bool lo hi
                 then (roundNumber (lo - 1), roundNumber (hi + 1))
                 else (roundNumber (lo - padding), roundNumber (hi + padding)))
       end) /\
  (forall pts,
     seriesMapOf data = [("default", pts)] ->
     let lo := match manualBound yMinSetting with
               | Some bound => bound
               | None => orDefault (d3min (validValues pts)) 0
               end in
     let hi := match manualBound yMaxSetting with
               | Some bound => bound
               | None => orDefault (d3max (validValues pts)) 1
               end in
     let padding :=
       roundNumber (roundNumber (hi - lo) * roundNumber (1 # 10)) in
     yScalesOf yMinSetting yMaxSetting data
     = [("default",
         if Qeq_bool lo hi
         then (roundNumber (lo - 1), roundNumber (hi + 1))
         else (roundNumber (lo - padding), roundNumber (hi + padding)))]).
Proof.
  unfold yScalesOf.
  split; [|split].
  - intros Hne.
    assert (Hlen : List.length (mapKeys (seriesMapOf data))
                   = List.length (seriesMapOf data)) by apply length_map.
    destruct (mapKeys (seriesMapOf data)) as [|a [|b l]] eqn:E.
    + destruct (seriesMapOf data); [reflexivity | discriminate].
    + simpl in Hlen; congruence.
    + reflexivity.
  - intros Hmany s.
    rewrite isMultiSeriesOf_many by (unfold mapKeys; rewrite length_map; exact Hmany).
    rewrite (mapGet_map_snd (fun sp => yDomain true yMinSetting yMaxSetting (snd sp)))
      by reflexivity.
    destruct (seriesMapOf_spec data) as [_ Hget]; rewrite Hget.
    destruct (seriesPoints s data); reflexivity.
  - intros pts Hone; rewrite Hone.
    cbn [mapKeys map fst snd isMultiSeriesOf String.eqb Ascii.eqb Bool.eqb negb].
    unfold yDomain, padDomain; reflexivity.
Qed.

(** A single series that has a name counts as multi-series in
    [renderChart]: the settings do not reach its scale either. *)
Remark named_single_series_ignores_bounds (yMinSetting yMaxSetting : option string)
    (name : string) (pts : list TimeDataPoint) (data : list TimeDataPoint) :
  seriesMapOf data = [(name, pts)] -> name <> "default" ->
  yScalesOf yMinSetting yMaxSetting data = yScalesOf None None data.
Proof.
  intros Hm Hname; unfold yScalesOf; rewrite Hm; simpl.
  apply String.eqb_neq in Hname; rewrite Hname; reflexivity.
Qed.

End ScaleFacts.

Lemma manual_bounds_single_series_only_witness :
  (1 < List.length (seriesMapOf twoSeries))%nat /\
  mapGet String.eqb "B" (@yScalesOf binary64Runtime (Some "5") (Some "6") twoSeries)
  = Some (900, 2100)%Q.
Proof.
  assert (H : (1 < List.length (seriesMapOf twoSeries))%nat) by (simpl; lia).
  split; [exact H|].
  rewrite (proj1 (proj2 (@manual_bounds_single_series_only binary64Runtime
                           (Some "5") (Some "6") twoSeries)) H "B").
  vm_compute; reflexivity.
Defined.

(** Two series with values in 0 .. 10 and 1000 .. 2000: each has its own
    padded domain, whatever the settings say.  In binary64 the domain of
    the second is 900 to 2100, and that of the first, with least value 0.5,
    is -0.45000000000000007 to 10.95. *)
Example twoSeries_scales :
  @yScalesOf sampleRuntime (Some "5") (Some "6") twoSeries
  = [("A", ((1 # 2) - (10 - (1 # 2)) * (1 # 10), 10 + (10 - (1 # 2)) * (1 # 10))%Q);
     ("B", (1000 - (2000 - 1000) * (1 # 10), 2000 + (2000 - 1000) * (1 # 10))%Q)] /\
  @yScalesOf binary64Runtime (Some "5") (Some "6") twoSeries
  = [("A", (roundBinary64 (- (45000000000000007 # 100000000000000000)),
            roundBinary64 (1095 # 100)));
     ("B", (900, 2100)%Q)].
Proof. split; vm_compute; reflexivity. Qed.

(** One unnamed series: the settings replace the computed bounds. *)
Example threeReadings_manual :
  @yScalesOf sampleRuntime (Some "5") (Some "6") threeReadings
  = [("default", (5 - (6 - 5) * (1 # 10), 6 + (6 - 5) * (1 # 10))%Q)].
Proof. reflexivity. Qed.

Section DomainFacts.
Context {rt : Runtime}.

Lemma qmin_le (a b : Q) : (qmin a b <= a)%Q /\ (qmin a b <= b)%Q.
Proof.
  unfold qmin.
  destruct (Qle_bool a b) eqn:E.
  - apply Qle_bool_iff in E; split; [apply Qle_refl | exact E].
  - split; [|apply Qle_refl].
    destruct (Qlt_le_dec b a) as [H | H].
    + apply Qlt_le_weak, H.
    + apply Qle_bool_iff in H; congruence.
Qed.

Lemma qmax_ge (a b : Q) : (a <= qmax a b)%Q /\ (b <= qmax a b)%Q.
Proof.
  unfold qmax.
  destruct (Qle_bool a b) eqn:E.
  - apply Qle_bool_iff in E; split; [exact E | apply Qle_refl].
  - split; [apply Qle_refl|].
    destruct (Qlt_le_dec b a) as [H | H].
    + apply Qlt_le_weak, H.
    + apply Qle_bool_iff in H; congruence.
Qed.

Lemma qmin_cases (a b : Q) : qmin a b = a \/ qmin a b = b.
Proof. unfold qmin; destruct (Qle_bool a b); auto. Qed.

Lemma qmax_cases (a b : Q) : qmax a b = a \/ qmax a b = b.
Proof. unfold qmax; destruct (Qle_bool a b); auto. Qed.

(** [d3.min] returns a least value of the list. *)
Lemma d3min_spec (vs : list Q) (lo : Q) :
  d3min vs = Some lo -> In lo vs /\ forall v, In v vs -> (lo <= v)%Q.
Proof.
  destruct vs as [|v0 vs]; [discriminate|].
  simpl; intros H; injection H as <-.
  revert v0; induction vs as [|x vs IH]; intros v0; simpl.
  - split; [left; reflexivity|].
    intros v [<- | []]; apply Qle_refl.
  - destruct (IH (qmin v0 x)) as [Hin Hle].
    destruct (qmin_le v0 x) as [H0 Hx].
    split.
    + destruct Hin as [Heq | Hin]; [|right; right; exact Hin].
      rewrite <- Heq.
      destruct (qmin_cases v0 x) as [-> | ->]; [left | right; left]; reflexivity.
    + intros v [<- | [<- | Hv]].
      * eapply Qle_trans; [apply Hle; left; reflexivity | exact H0].
      * eapply Qle_trans; [apply Hle; left; reflexivity | exact Hx].
      * apply Hle; right; exact Hv.
Qed.

(** [d3.max] returns a greatest value of the list. *)
Lemma d3max_spec (vs : list Q) (hi : Q) :
  d3max vs = Some hi -> In hi vs /\ forall v, In v vs -> (v <= hi)%Q.
Proof.
  destruct vs as [|v0 vs]; [discriminate|].
  simpl; intros H; injection H as <-.
  revert v0; induction vs as [|x vs IH]; intros v0; simpl.
  - split; [left; reflexivity|].
    intros v [<- | []]; apply Qle_refl.
  - destruct (IH (qmax v0 x)) as [Hin Hle].
    destruct (qmax_ge v0 x) as [H0 Hx].
    split.
    + destruct Hin as [Heq | Hin]; [|right; right; exact Hin].
      rewrite <- Heq.
      destruct (qmax_cases v0 x) as [-> | ->]; [left | right; left]; reflexivity.
    + intros v [<- | [<- | Hv]].
      * eapply Qle_trans; [exact H0 | apply Hle; left; reflexivity].
      * eapply Qle_trans; [exact Hx | apply Hle; left; reflexivity].
      * apply Hle; right; exact Hv.
Qed.

Lemma orDefault_zero (lo : Q) : (orDefault (Some lo) 0 == lo)%Q.
Proof.
  unfold orDefault, isZeroQ.
  destruct (Qeq_bool lo 0) eqn:E; [|apply Qeq_refl].
  apply Qeq_bool_iff in E; symmetry; exact E.
Qed.

(** Where no manual bound applies and the greatest value is not 0, the
    domain is the padded interval from the least to the greatest value. *)
Lemma yDomain_auto (isMulti : bool) (a b : option string)
    (points : list TimeDataPoint) (lo hi : Q) :
  isMulti = true \/ (manualBound a = None /\ manualBound b = None) ->
  d3min (validValues points) = Some lo ->
  d3max (validValues points) = Some hi ->
  isZeroQ hi = false ->
  yDomain isMulti a b points = padDomain (orDefault (Some lo) 0) hi.
Proof.
  intros Hauto Hlo Hhi Hnz.
  unfold yDomain; rewrite Hlo, Hhi.
  replace (orDefault (Some hi) 1) with hi by (unfold orDefault; rewrite Hnz; reflexivity).
  destruct Hauto as [-> | [-> ->]]; [reflexivity|].
  destruct isMulti; reflexivity.
Qed.

Lemma padDomain_cases (lo hi : Q) :
  ((lo == hi)%Q -> padDomain lo hi = (roundNumber (lo - 1), roundNumber (hi + 1))) /\
  (~ (lo == hi)%Q ->
   padDomain lo hi
   = (roundNumber (lo - roundNumber (roundNumber (hi - lo) * roundNumber (1 # 10))),
      roundNumber (hi + roundNumber (roundNumber (hi - lo) * roundNumber (1 # 10))))).
Proof.
  unfold padDomain; split; intros H.
  - apply Qeq_bool_iff in H; rewrite H; reflexivity.
  - destruct (Qeq_bool lo hi) eqn:E; [|reflexivity].
    apply Qeq_bool_iff in E; contradiction.
Qed.

End DomainFacts.

(** C6, at a series whose greatest value is 0.  The values are -5 and 0, no
    manual bound applies; the least and greatest values are -5 and 0 and
    the domain padded by a tenth of their distance would be -5.5 to 0.5.
    [renderChart] takes 1 for the greatest value, since [0 || 1] is 1, and
    derives the domain -5.6 to 1.6. *)
Theorem value_domain_zero_max :
  d3min (validValues belowZero) = Some (-5)%Q /\
  d3max (validValues belowZero) = Some 0%Q /\
  (fst (@yDomain sampleRuntime true None None belowZero) == -28 # 5)%Q /\
  (snd (@yDomain sampleRuntime true None None belowZero) == 8 # 5)%Q /\
  ~ (snd (@yDomain sampleRuntime true None None belowZero)
     == snd (-5 - (0 - -5) * (1 # 10), 0 + (0 - -5) * (1 # 10)))%Q.
Proof.
  repeat split; try reflexivity.
  intros H; vm_compute in H; discriminate.
Qed.

(** ** The brush handlers *)

Section HandlerFacts.
Context {rt : Runtime}.

Lemma onBrush_filters (ev : BrushEvent) (v : Visual) :
  appliedFilters (onBrush ev v) = appliedFilters v.
Proof.
  unfold onBrush.
  destruct (selection ev) as [[x0 x1]|]; [|reflexivity].
  destruct (xScale v) as [[domain w]|]; reflexivity.
Qed.

Lemma onBrush_flag (ev : BrushEvent) (v : Visual) :
  isProgrammaticBrushUpdate (onBrush ev v) = isProgrammaticBrushUpdate v.
Proof.
  unfold onBrush.
  destruct (selection ev) as [[x0 x1]|]; [|reflexivity].
  destruct (xScale v) as [[domain w]|]; reflexivity.
Qed.

(** The guard: while the flag of a programmatic update is set, the end of
    a brush gesture submits nothing. *)
Lemma onBrushEnd_guarded (ev : BrushEvent) (v : Visual) :
  isProgrammaticBrushUpdate v = true ->
  appliedFilters (onBrushEnd ev v) = appliedFilters v /\
  isProgrammaticBrushUpdate (onBrushEnd ev v) = true.
Proof.
  intros Hflag; unfold onBrushEnd.
  destruct (selection ev) as [[x0 x1]|].
  - rewrite Hflag; split; [reflexivity | exact Hflag].
  - destruct (xScale v) as [[domain w]|]; simpl; rewrite Hflag; split; auto.
Qed.

Lemma brushMove_guarded (sel : Q * Q) (v : Visual) :
  isProgrammaticBrushUpdate v = true ->
  appliedFilters (brushMove sel v) = appliedFilters v /\
  isProgrammaticBrushUpdate (brushMove sel v) = true.
Proof.
  intros Hflag; unfold brushMove.
  destruct (onBrushEnd_guarded {| selection := Some sel |}
              (onBrush {| selection := Some sel |} (setBrushSelection (Some sel) v)))
    as [Hf Hg].
  - rewrite onBrush_flag; exact Hflag.
  - split; [|exact Hg].
    rewrite Hf, onBrush_filters; reflexivity.
Qed.

Lemma restoreBrushSelection_filters (v : Visual) :
  appliedFilters (restoreBrushSelection v) = appliedFilters v.
Proof.
  unfold restoreBrushSelection.
  destruct (selectedStartDate v) as [a|]; [|reflexivity].
  destruct (selectedEndDate v) as [b|]; [|reflexivity].
  destruct (brush v) as [e|]; [|reflexivity].
  destruct (xScale v) as [[domain w]|]; [|reflexivity].
  cbn [appliedFilters setTimers updateRangeDisplay].
  destruct (brushMove_guarded (scaleApply domain w a, scaleApply domain w b)
              (setProgrammatic true v) eq_refl) as [Hf _].
  exact Hf.
Qed.

Lemma runTimer_filters (t : Timer) (v : Visual) :
  appliedFilters (runTimer t v) = appliedFilters v.
Proof. destruct t; reflexivity. Qed.

Lemma fireTimer_filters (n : nat) (v : Visual) :
  appliedFilters (fireTimer n v) = appliedFilters v.
Proof.
  unfold fireTimer.
  destruct (nth_error (timers v) n); [|reflexivity].
  rewrite runTimer_filters; reflexivity.
Qed.

Lemma fireTimers_filters (ns : list nat) (v : Visual) :
  appliedFilters (fold_left (fun s n => fireTimer n s) ns v) = appliedFilters v.
Proof.
  revert v; induction ns as [|n ns IH]; intros v; simpl; [reflexivity|].
  rewrite IH; apply fireTimer_filters.
Qed.

End HandlerFacts.

(** ** The update cycle *)

Section UpdateFacts.
Context {rt : Runtime}.

Lemma placeholderPath_false (o : VisualUpdateOptions) (v : Visual) :
  placeholderPath o v = false ->
  Qltb (qmax 0 (viewportWidth o)) 100 || Qltb (qmax 0 (viewportHeight o)) 50 = false /\
  data (loadOptions o v) <> [].
Proof.
  unfold placeholderPath; intros H.
  apply orb_false_iff in H; destruct H as [H1 H2].
  split; [exact H1|].
  destruct (data (loadOptions o v)); [discriminate | discriminate].
Qed.

Lemma update_renders (o : VisualUpdateOptions) (v : Visual) :
  placeholderPath o v = false ->
  update o v = renderChart (qmax 0 (viewportWidth o)) (qmax 0 (viewportHeight o))
                           (loadOptions o v).
Proof.
  intros H; apply placeholderPath_false in H; destruct H as [H1 H2].
  unfold update; rewrite H1.
  destruct (data (loadOptions o v)); [congruence | reflexivity].
Qed.

Lemma update_placeholder (o : VisualUpdateOptions) (v : Visual) :
  placeholderPath o v = true ->
  update o v = showNoDataMessage (loadOptions o v).
Proof.
  unfold placeholderPath, update; intros H.
  destruct (Qltb (qmax 0 (viewportWidth o)) 100 || Qltb (qmax 0 (viewportHeight o)) 50);
    [reflexivity|].
  destruct (data (loadOptions o v)); [reflexivity | discriminate].
Qed.

(** What [renderChart] does when the extent is the one of the last render
    and a selection is there: the brush goes to the pixels of the
    selection under the guard. *)
Lemma renderChart_restores (width height : Q) (v : Visual) (ext : Z * Z) (a b : Z) :
  timeExtentOf (data v) = Some ext ->
  lastTimeRange v = Some ext ->
  selectedStartDate v = Some a -> selectedEndDate v = Some b ->
  renderChart width height v
  = restoreBrushSelection
      (setupBrush (chartWidthOf v width) (chartHeightOf v height)
                  (renderScene (chartWidthOf v width) ext v)) /\
  selectedStartDate (renderScene (chartWidthOf v width) ext v) = Some a /\
  selectedEndDate (renderScene (chartWidthOf v width) ext v) = Some b.
Proof.
  intros Hext Hlast Ha Hb.
  unfold renderChart; rewrite Hext.
  assert (Hsel : selectedStartDate (renderScene (chartWidthOf v width) ext v) = Some a /\
                 selectedEndDate (renderScene (chartWidthOf v width) ext v) = Some b).
  { cbn [renderScene selectedStartDate selectedEndDate]; rewrite Hlast.
    destruct ext as [lo hi]; cbn [fst snd].
    rewrite !Z.eqb_refl; cbn [negb orb].
    split; assumption. }
  destruct Hsel as [Ha' Hb'].
  split; [|split; assumption].
  cbn [setupBrush selectedStartDate selectedEndDate].
  rewrite Ha', Hb'; reflexivity.
Qed.

(** C1.  An update that keeps the time extent of the last render, with a
    selection in place (a resize): [applyJsonFilter] is not called during
    the update, and the timers that fire afterwards, whichever and in
    whatever order, call it neither.  When the viewport is large enough to
    draw in, the brush is moved back to the selection with the guard set,
    and the guard is still set when the update returns. *)
Theorem resize_emits_no_filter (o : VisualUpdateOptions) (v : Visual) (a b : Z) :
  selectedStartDate v = Some a ->
  selectedEndDate v = Some b ->
  timeExtentOf (data (loadOptions o v)) = lastTimeRange v ->
  appliedFilters (update o v) = appliedFilters v /\
  (forall ns, appliedFilters (fold_left (fun s n => fireTimer n s) ns (update o v))
              = appliedFilters v) /\
  (placeholderPath o v = false -> isProgrammaticBrushUpdate (update o v) = true).
Proof.
  intros Ha Hb Hext.
  assert (Hmain : appliedFilters (update o v) = appliedFilters v /\
                  (placeholderPath o v = false ->
                   isProgrammaticBrushUpdate (update o v) = true)).
  { destruct (placeholderPath o v) eqn:Hpath.
    - rewrite (update_placeholder o v Hpath); split; [reflexivity | discriminate].
    - rewrite (update_renders o v Hpath).
      set (v1 := loadOptions o v) in *.
      assert (Hne : data v1 <> []) by (apply placeholderPath_false, Hpath).
      destruct (timeExtentOf (data v1)) as [ext|] eqn:Eext.
      2:{ destruct (data v1); [congruence | discriminate]. }
      destruct (renderChart_restores (qmax 0 (viewportWidth o))
                  (qmax 0 (viewportHeight o)) v1 ext a b Eext (eq_sym Hext) Ha Hb)
        as [Hr [Ha' Hb']].
      rewrite Hr.
      set (v2 := setupBrush _ _ _) in *.
      split.
      + rewrite restoreBrushSelection_filters; reflexivity.
      + intros _.
        unfold restoreBrushSelection.
        replace (selectedStartDate v2) with (Some a) by (symmetry; exact Ha').
        replace (selectedEndDate v2) with (Some b) by (symmetry; exact Hb').
        cbn [v2 brush xScale setupBrush renderScene].
        cbn [isProgrammaticBrushUpdate setTimers updateRangeDisplay].
        apply brushMove_guarded; reflexivity. }
  destruct Hmain as [Hfilters Hguard].
  split; [exact Hfilters|]; split; [|exact Hguard].
  intros ns; rewrite fireTimers_filters; exact Hfilters.
Qed.

End UpdateFacts.

Lemma resize_emits_no_filter_witness :
  selectedStartDate afterDrag = Some 3600000 /\
  selectedEndDate afterDrag = Some 10800000 /\
  List.length (appliedFilters (@update sampleRuntime resizeOptions afterDrag)) = 2%nat.
Proof.
  split; [reflexivity|]; split; [reflexivity|].
  rewrite (proj1 (@resize_emits_no_filter sampleRuntime resizeOptions afterDrag
                    3600000 10800000 eq_refl eq_refl eq_refl)).
  reflexivity.
Defined.

Section PlaceholderFacts.
Context {rt : Runtime}.

Lemma pageless_setSelection (a b : option Z) (v : Visual) :
  pageless (setSelection a b v) = pageless (setSelection a b (pageless v)).
Proof. reflexivity. Qed.

Lemma pageless_setBrushSelection (sel : option (Q * Q)) (v : Visual) :
  pageless (setBrushSelection sel v) = pageless (setBrushSelection sel (pageless v)).
Proof. reflexivity. Qed.

Lemma pageless_setProgrammatic (b : bool) (v : Visual) :
  pageless (setProgrammatic b v) = pageless (setProgrammatic b (pageless v)).
Proof. reflexivity. Qed.

Lemma pageless_updateRangeDisplay (v : Visual) :
  pageless (updateRangeDisplay v) = pageless v.
Proof. reflexivity. Qed.

Lemma pageless_onBrush (ev : BrushEvent) (v : Visual) :
  pageless (onBrush ev v) = pageless (onBrush ev (pageless v)).
Proof.
  unfold onBrush; cbn [xScale pageless].
  destruct (selection ev) as [[x0 x1]|]; [|reflexivity].
  destruct (xScale v) as [[domain w]|]; reflexivity.
Qed.

Lemma pageless_onBrushEnd (ev : BrushEvent) (v : Visual) :
  pageless (onBrushEnd ev v) = pageless (onBrushEnd ev (pageless v)).
Proof.
  unfold onBrushEnd.
  change (xScale (pageless v)) with (xScale v).
  destruct (selection ev) as [[x0 x1]|].
  - change (isProgrammaticBrushUpdate (pageless v)) with (isProgrammaticBrushUpdate v).
    change (selectedStartDate (pageless v)) with (selectedStartDate v).
    change (selectedEndDate (pageless v)) with (selectedEndDate v).
    change (filterColumnTarget (pageless v)) with (filterColumnTarget v).
    destruct (isProgrammaticBrushUpdate v); [reflexivity|].
    destruct (selectedStartDate v), (selectedEndDate v), (filterColumnTarget v);
      reflexivity.
  - destruct (xScale v) as [[domain w]|].
    + cbn [isProgrammaticBrushUpdate selectedStartDate selectedEndDate filterColumnTarget
           updateRangeDisplay setSelection pageless].
      destruct (isProgrammaticBrushUpdate v); [reflexivity|].
      destruct (filterColumnTarget v); reflexivity.
    + change (isProgrammaticBrushUpdate (pageless v)) with (isProgrammaticBrushUpdate v).
      change (selectedStartDate (pageless v)) with (selectedStartDate v).
      change (selectedEndDate (pageless v)) with (selectedEndDate v).
      change (filterColumnTarget (pageless v)) with (filterColumnTarget v).
      destruct (isProgrammaticBrushUpdate v); [reflexivity|].
      destruct (selectedStartDate v), (selectedEndDate v), (filterColumnTarget v);
        reflexivity.
Qed.

Lemma pageless_brushMove (sel : Q * Q) (v : Visual) :
  pageless (brushMove sel v) = pageless (brushMove sel (pageless v)).
Proof.
  unfold brushMove.
  rewrite (pageless_onBrushEnd _ (onBrush _ (setBrushSelection (Some sel) v))).
  rewrite (pageless_onBrush _ (setBrushSelection (Some sel) v)).
  rewrite (pageless_setBrushSelection (Some sel) v).
  rewrite <- (pageless_onBrush _ (setBrushSelection (Some sel) (pageless v))).
  rewrite <- (pageless_onBrushEnd _ (onBrush _ (setBrushSelection (Some sel) (pageless v)))).
  reflexivity.
Qed.

Lemma same_brushMove (sel : Q * Q) (s1 s2 : Visual) :
  pageless s1 = pageless s2 ->
  pageless (brushMove sel s1) = pageless (brushMove sel s2).
Proof.
  intros H.
  rewrite (pageless_brushMove sel s1), H, <- (pageless_brushMove sel s2).
  reflexivity.
Qed.

Lemma pageless_restoreBrushSelection (v : Visual) :
  pageless (restoreBrushSelection v) = pageless (restoreBrushSelection (pageless v)).
Proof.
  unfold restoreBrushSelection.
  cbn [selectedStartDate selectedEndDate brush xScale pageless].
  destruct (selectedStartDate v) as [a|]; [|reflexivity].
  destruct (selectedEndDate v) as [b|]; [|reflexivity].
  destruct (brush v) as [e|]; [|reflexivity].
  destruct (xScale v) as [[domain w]|]; [|reflexivity].
  set (sel := (scaleApply domain w a, scaleApply domain w b)).
  assert (H : pageless (brushMove sel (setProgrammatic true v))
              = pageless (brushMove sel (setProgrammatic true (pageless v)))).
  { apply same_brushMove; reflexivity. }
  revert H.
  generalize (brushMove sel (setProgrammatic true v)).
  generalize (brushMove sel (setProgrammatic true (pageless v))).
  intros s2 s1 H.
  unfold setTimers, updateRangeDisplay, pageless.
  cbn [timers brushUpdateTimeout data formattingSettings xScale brush selectedStartDate
       selectedEndDate filterColumnTarget lastTimeRange isProgrammaticBrushUpdate
       brushSelection appliedFilters].
  rewrite (f_equal timers H : timers s1 = timers s2).
  rewrite (f_equal brushUpdateTimeout H : brushUpdateTimeout s1 = brushUpdateTimeout s2).
  rewrite (f_equal data H : data s1 = data s2).
  rewrite (f_equal formattingSettings H : formattingSettings s1 = formattingSettings s2).
  rewrite (f_equal xScale H : xScale s1 = xScale s2).
  rewrite (f_equal brush H : brush s1 = brush s2).
  rewrite (f_equal selectedStartDate H : selectedStartDate s1 = selectedStartDate s2).
  rewrite (f_equal selectedEndDate H : selectedEndDate s1 = selectedEndDate s2).
  rewrite (f_equal filterColumnTarget H : filterColumnTarget s1 = filterColumnTarget s2).
  rewrite (f_equal lastTimeRange H : lastTimeRange s1 = lastTimeRange s2).
  rewrite (f_equal isProgrammaticBrushUpdate H
           : isProgrammaticBrushUpdate s1 = isProgrammaticBrushUpdate s2).
  rewrite (f_equal brushSelection H : brushSelection s1 = brushSelection s2).
  rewrite (f_equal appliedFilters H : appliedFilters s1 = appliedFilters s2).
  reflexivity.
Qed.


Lemma same_restoreBrushSelection (s1 s2 : Visual) :
  pageless s1 = pageless s2 ->
  pageless (restoreBrushSelection s1) = pageless (restoreBrushSelection s2).
Proof.
  intros H.
  rewrite (pageless_restoreBrushSelection s1), H,
    <- (pageless_restoreBrushSelection s2).
  reflexivity.
Qed.

Lemma same_fullRange (a b : option Z) (s1 s2 : Visual) :
  pageless s1 = pageless s2 ->
  pageless (updateRangeDisplay (setSelection a b s1))
  = pageless (updateRangeDisplay (setSelection a b s2)).
Proof.
  intros H.
  rewrite (pageless_updateRangeDisplay (setSelection a b s1)).
  rewrite (pageless_updateRangeDisplay (setSelection a b s2)).
  rewrite (pageless_setSelection a b s1), H, <- (pageless_setSelection a b s2).
  reflexivity.
Qed.

Lemma pageless_renderChart (width height : Q) (v : Visual) :
  pageless (renderChart width height v)
  = pageless (renderChart width height (pageless v)).
Proof.
  unfold renderChart.
  change (data (pageless v)) with (data v).
  destruct (timeExtentOf (data v)) as [ext|]; [|reflexivity].
  change (chartWidthOf (pageless v) width) with (chartWidthOf v width).
  change (chartHeightOf (pageless v) height) with (chartHeightOf v height).
  set (cw := chartWidthOf v width).
  set (ch := chartHeightOf v height).
  set (A := setupBrush cw ch (renderScene cw ext v)).
  set (B := setupBrush cw ch (renderScene cw ext (pageless v))).
  assert (HAB : pageless A = pageless B) by reflexivity.
  change (selectedStartDate B) with (selectedStartDate A).
  change (selectedEndDate B) with (selectedEndDate A).
  destruct (selectedStartDate A) as [a|]; [destruct (selectedEndDate A) as [b|]|].
  - apply same_restoreBrushSelection, HAB.
  - apply same_brushMove, same_fullRange, HAB.
  - apply same_brushMove, same_fullRange, HAB.
Qed.

Lemma same_renderChart (width height : Q) (s1 s2 : Visual) :
  pageless s1 = pageless s2 ->
  pageless (renderChart width height s1) = pageless (renderChart width height s2).
Proof.
  intros H.
  rewrite (pageless_renderChart width height s1), H,
    <- (pageless_renderChart width height s2).
  reflexivity.
Qed.

Lemma pageless_loadOptions (o o' : VisualUpdateOptions) (v : Visual) :
  dataView0 o' <> None ->
  pageless (loadOptions o' (showNoDataMessage (loadOptions o v)))
  = pageless (loadOptions o' v).
Proof.
  intros Hview; unfold loadOptions, showNoDataMessage, pageless.
  destruct (dataView0 o'); [reflexivity | congruence].
Qed.

(** What a later update makes of the selection, of the brush and of the
    filters does not depend on a placeholder update in between. *)
Lemma update_after_placeholder (o o' : VisualUpdateOptions) (v : Visual) :
  pageless (update o' (showNoDataMessage (loadOptions o v)))
  = pageless (update o' v) \/
  (update o' (showNoDataMessage (loadOptions o v))
   = showNoDataMessage (loadOptions o' (showNoDataMessage (loadOptions o v))) /\
   update o' v = showNoDataMessage (loadOptions o' v)).
Proof.
  destruct (dataView0 o') as [view|] eqn:Eview.
  2:{ right.
      split; apply update_placeholder;
        unfold placeholderPath, loadOptions; rewrite Eview; apply orb_true_r. }
  assert (Hload := pageless_loadOptions o o' v).
  rewrite Eview in Hload; specialize (Hload ltac:(discriminate)).
  set (s1 := showNoDataMessage (loadOptions o v)) in *.
  unfold update.
  destruct (Qltb (qmax 0 (viewportWidth o')) 100 || Qltb (qmax 0 (viewportHeight o')) 50).
  { right; split; reflexivity. }
  change (data (loadOptions o' s1)) with (data (loadOptions o' v)).
  destruct (data (loadOptions o' v)).
  { right; split; reflexivity. }
  left.
  apply same_renderChart, Hload.
Qed.

End PlaceholderFacts.

(** ** Reset and restore of the selection *)

Section SelectionFacts.
Context {rt : Runtime}.

(** A move of the brush, programmatic or not: d3 holds the new pixels and
    the selection is what the scale inverts them to. *)
Lemma brushMove_selection (x0 x1 : Q) (v : Visual) (domain : Z * Z) (w : Q) :
  xScale v = Some (domain, w) ->
  brushSelection (brushMove (x0, x1) v) = Some (x0, x1) /\
  selectedStartDate (brushMove (x0, x1) v) = Some (scaleInvert domain w x0) /\
  selectedEndDate (brushMove (x0, x1) v) = Some (scaleInvert domain w x1).
Proof.
  intros Hx.
  unfold brushMove, onBrushEnd, onBrush.
  cbn [selection setBrushSelection xScale]; rewrite Hx.
  cbn [setTimers setSelection isProgrammaticBrushUpdate selectedStartDate
       selectedEndDate filterColumnTarget setBrushSelection].
  destruct (isProgrammaticBrushUpdate v); [repeat split|].
  destruct (filterColumnTarget v); repeat split.
Qed.

Lemma restoreBrushSelection_selection (v : Visual) (a b : Z) (e : Q * Q)
    (domain : Z * Z) (w : Q) :
  selectedStartDate v = Some a -> selectedEndDate v = Some b ->
  brush v = Some e -> xScale v = Some (domain, w) ->
  brushSelection (restoreBrushSelection v)
  = Some (scaleApply domain w a, scaleApply domain w b) /\
  selectedStartDate (restoreBrushSelection v)
  = Some (scaleInvert domain w (scaleApply domain w a)) /\
  selectedEndDate (restoreBrushSelection v)
  = Some (scaleInvert domain w (scaleApply domain w b)).
Proof.
  intros Ha Hb He Hx.
  unfold restoreBrushSelection; rewrite Ha, Hb, He, Hx.
  cbn [setTimers updateRangeDisplay brushSelection selectedStartDate selectedEndDate].
  apply brushMove_selection; exact Hx.
Qed.

(** What [renderChart] does when no selection survives: the full extent
    is selected and the brush is moved over the whole width. *)
Lemma renderChart_resets (width height : Q) (v : Visual) (ext : Z * Z) :
  timeExtentOf (data v) = Some ext ->
  selectedStartDate (renderScene (chartWidthOf v width) ext v) = None ->
  renderChart width height v
  = brushMove (0%Q, chartWidthOf v width)
      (updateRangeDisplay
         (setSelection (Some (fst ext)) (Some (snd ext))
            (setupBrush (chartWidthOf v width) (chartHeightOf v height)
                        (renderScene (chartWidthOf v width) ext v)))).
Proof.
  intros Hext Hnone.
  unfold renderChart; rewrite Hext.
  cbn [setupBrush selectedStartDate selectedEndDate].
  rewrite Hnone; reflexivity.
Qed.

(** C2, as the code has it.  An update that draws, after a render with
    extent [old], on data with extent [ext].  If the extents differ the
    selection the update leaves is the one the scale gives for the pixels 0
    and chart width, whatever it was before; that is the full new extent,
    a time scale mapping the ends of its range to the ends of its domain.
    If the extents are equal and a selection [a], [b] is there, it is not
    reset: the brush is put on the pixels of [a] and [b] and nothing is
    submitted.  The instants kept are those the scale inverts these pixels
    to, since the "brush" listener runs on the programmatic move as well. *)
Theorem extent_change_resets_selection (o : VisualUpdateOptions) (v : Visual)
    (old ext : Z * Z) :
  placeholderPath o v = false ->
  timeExtentOf (data (loadOptions o v)) = Some ext ->
  lastTimeRange v = Some old ->
  let w := chartWidthOf (loadOptions o v) (qmax 0 (viewportWidth o)) in
  (old <> ext ->
   brushSelection (update o v) = Some (0%Q, w) /\
   selectedStartDate (update o v) = Some (scaleInvert ext w 0) /\
   selectedEndDate (update o v) = Some (scaleInvert ext w w) /\
   (scaleInvert ext w 0 = fst ext -> scaleInvert ext w w = snd ext ->
    selectedStartDate (update o v) = Some (fst ext) /\
    selectedEndDate (update o v) = Some (snd ext))) /\
  (old = ext ->
   forall a b, selectedStartDate v = Some a -> selectedEndDate v = Some b ->
   brushSelection (update o v) = Some (scaleApply ext w a, scaleApply ext w b) /\
   appliedFilters (update o v) = appliedFilters v /\
   selectedStartDate (update o v) = Some (scaleInvert ext w (scaleApply ext w a)) /\
   selectedEndDate (update o v) = Some (scaleInvert ext w (scaleApply ext w b))).
Proof.
  intros Hpath Hext Hlast w.
  rewrite (update_renders o v Hpath).
  set (v1 := loadOptions o v) in *.
  set (width := qmax 0 (viewportWidth o)) in *.
  set (height := qmax 0 (viewportHeight o)).
  assert (Hlast1 : lastTimeRange v1 = Some old) by exact Hlast.
  split.
  - intros Hne.
    assert (Hnone : selectedStartDate (renderScene w ext v1) = None).
    { cbn [renderScene selectedStartDate]; rewrite Hlast1.
      destruct old as [oldMin oldMax]; destruct ext as [lo hi]; cbn [fst snd].
      destruct (oldMin =? lo) eqn:E1; [|reflexivity].
      destruct (oldMax =? hi) eqn:E2; [|reflexivity].
      apply Z.eqb_eq in E1; apply Z.eqb_eq in E2; subst; congruence. }
    rewrite (renderChart_resets width height v1 ext Hext Hnone).
    fold w.
    destruct (brushMove_selection 0 w
                (updateRangeDisplay
                   (setSelection (Some (fst ext)) (Some (snd ext))
                      (setupBrush w (chartHeightOf v1 height) (renderScene w ext v1))))
                ext w eq_refl) as [Hb [Hs He]].
    split; [exact Hb|]; split; [exact Hs|]; split; [exact He|].
    intros H0 H1; rewrite Hs, He, H0, H1; split; reflexivity.
  - intros -> a b Ha Hb.
    destruct (renderChart_restores width height v1 ext a b Hext Hlast1 Ha Hb)
      as [Hr [Ha' Hb']].
    rewrite Hr; fold w.
    destruct (restoreBrushSelection_selection
                (setupBrush w (chartHeightOf v1 height) (renderScene w ext v1))
                a b (w, chartHeightOf v1 height) ext w Ha' Hb' eq_refl eq_refl)
      as [Hbs [Hs He]].
    split; [exact Hbs|].
    split; [rewrite restoreBrushSelection_filters; reflexivity|].
    split; [exact Hs | exact He].
Qed.

End SelectionFacts.

Lemma extent_change_resets_selection_witness :
  selectedStartDate afterDrag = Some 3600000 /\
  selectedEndDate afterDrag = Some 10800000 /\
  selectedStartDate (@update sampleRuntime laterOptions afterDrag) = Some 36000000 /\
  selectedEndDate (@update sampleRuntime laterOptions afterDrag) = Some 43200000.
Proof.
  split; [reflexivity|]; split; [reflexivity|].
  destruct (@extent_change_resets_selection sampleRuntime laterOptions afterDrag
              (0, 28800000) (36000000, 43200000) eq_refl eq_refl eq_refl)
    as [Hreset _].
  destruct Hreset as [_ [_ [_ H]]]; [discriminate|].
  exact (H eq_refl eq_refl).
Defined.

(** C2, as stated, fails on an update that does not draw: the viewport is
    80 pixels wide, the data has the extent 10:00 to 12:00 where the last
    render had 00:00 to 08:00, and the selection stays 01:00 to 03:00. *)
Lemma extent_change_without_render :
  lastTimeRange afterDrag = Some (0, 28800000) /\
  timeExtentOf (data (@update sampleRuntime tinyLaterOptions afterDrag))
  = Some (36000000, 43200000) /\
  selectedStartDate afterDrag = Some 3600000 /\
  selectedEndDate afterDrag = Some 10800000 /\
  ~ (selectedStartDate (@update sampleRuntime tinyLaterOptions afterDrag)
     = Some 36000000 /\
     selectedEndDate (@update sampleRuntime tinyLaterOptions afterDrag)
     = Some 43200000).
Proof.
  repeat split; try reflexivity.
  intros [H _]; vm_compute in H; discriminate.
Qed.

(** In binary64 the scale maps the ends of its range to the ends of its
    domain, and the reset gives the full extent; but it does not invert
    what it maps.  The drag to pixel 29 of 400 selects from 2087999 ms, and
    an update with the same data and the same viewport, which restores the
    brush, leaves 2087998 ms, submitting nothing. *)
Example restore_drifts :
  let o := sampleOptions hourlyView noSettings 400 200 in
  binary64Invert (0, 28800000) 400 0 = 0 /\
  binary64Invert (0, 28800000) 400 400 = 28800000 /\
  lastTimeRange draggedOff = Some (0, 28800000) /\
  timeExtentOf (data (@update binary64Runtime o draggedOff)) = Some (0, 28800000) /\
  selectedStartDate draggedOff = Some 2087999 /\
  selectedEndDate draggedOff = Some 10800000 /\
  selectedStartDate (@update binary64Runtime o draggedOff) = Some 2087998 /\
  selectedEndDate (@update binary64Runtime o draggedOff) = Some 10800000 /\
  appliedFilters (@update binary64Runtime o draggedOff) = appliedFilters draggedOff.
Proof. vm_compute. repeat split; reflexivity. Qed.

(** The same visual after a resize, in exact arithmetic: extent unchanged,
    selection kept. *)
Example resize_keeps_selection :
  selectedStartDate (@update sampleRuntime resizeOptions afterDrag) = Some 3600000 /\
  selectedEndDate (@update sampleRuntime resizeOptions afterDrag) = Some 10800000 /\
  brushSelection (@update sampleRuntime resizeOptions afterDrag)
  = Some (linearApply (0, 28800000) 600 3600000, linearApply (0, 28800000) 600 10800000).
Proof. repeat split; vm_compute; reflexivity. Qed.

(** ** The scene and the placeholder *)

Section SceneFacts.
Context {rt : Runtime}.

Lemma onBrush_page (ev : BrushEvent) (v : Visual) :
  data (onBrush ev v) = data v /\ scene (onBrush ev v) = scene v /\
  lastTimeRange (onBrush ev v) = lastTimeRange v.
Proof.
  unfold onBrush.
  destruct (selection ev) as [[x0 x1]|]; [|repeat split].
  destruct (xScale v) as [[domain w]|]; repeat split.
Qed.

Lemma onBrushEnd_page (ev : BrushEvent) (v : Visual) :
  data (onBrushEnd ev v) = data v /\ scene (onBrushEnd ev v) = scene v /\
  lastTimeRange (onBrushEnd ev v) = lastTimeRange v.
Proof.
  unfold onBrushEnd.
  set (v' := match selection ev, xScale v with
             | None, Some (domain, _) =>
                 updateRangeDisplay (setSelection (Some (fst domain)) (Some (snd domain)) v)
             | _, _ => v
             end).
  assert (H : data v' = data v /\ scene v' = scene v /\ lastTimeRange v' = lastTimeRange v).
  { unfold v'; destruct (selection ev) as [[x0 x1]|]; [repeat split|].
    destruct (xScale v) as [[domain w]|]; repeat split. }
  destruct H as [Hd [Hs Hl]]; rewrite <- Hd, <- Hs, <- Hl.
  destruct (isProgrammaticBrushUpdate v'); [repeat split|].
  destruct (selectedStartDate v'), (selectedEndDate v'), (filterColumnTarget v');
    repeat split.
Qed.

Lemma brushMove_page (sel : Q * Q) (v : Visual) :
  data (brushMove sel v) = data v /\ scene (brushMove sel v) = scene v /\
  lastTimeRange (brushMove sel v) = lastTimeRange v.
Proof.
  unfold brushMove.
  destruct (onBrushEnd_page {| selection := Some sel |}
              (onBrush {| selection := Some sel |} (setBrushSelection (Some sel) v)))
    as [Hd [Hs Hl]].
  destruct (onBrush_page {| selection := Some sel |} (setBrushSelection (Some sel) v))
    as [Hd' [Hs' Hl']].
  rewrite Hd, Hs, Hl, Hd', Hs', Hl'; repeat split.
Qed.

Lemma restoreBrushSelection_page (v : Visual) :
  data (restoreBrushSelection v) = data v /\
  scene (restoreBrushSelection v) = scene v /\
  lastTimeRange (restoreBrushSelection v) = lastTimeRange v.
Proof.
  unfold restoreBrushSelection.
  destruct (selectedStartDate v) as [a|]; [|repeat split].
  destruct (selectedEndDate v) as [b|]; [|repeat split].
  destruct (brush v) as [e|]; [|repeat split].
  destruct (xScale v) as [[domain w]|]; [|repeat split].
  cbn [data scene lastTimeRange setTimers updateRangeDisplay].
  apply (brushMove_page _ (setProgrammatic true v)).
Qed.

(** After an update that draws, the scene holds the markers of the data
    of that update, and the extent of that data is on record. *)
Lemma update_scene (o : VisualUpdateOptions) (v : Visual) :
  placeholderPath o v = false ->
  data (update o v) = data (loadOptions o v) /\
  lastTimeRange (update o v) = timeExtentOf (data (loadOptions o v)) /\
  exists ys,
    scene (update o v)
    = Some {| sc_anomalies := anomalyPoints (data (loadOptions o v));
              sc_timeline := timelinePoints (data (loadOptions o v));
              sc_yScales := ys |}.
Proof.
  intros Hpath.
  rewrite (update_renders o v Hpath).
  set (v1 := loadOptions o v).
  assert (Hne : data v1 <> []) by (apply placeholderPath_false, Hpath).
  unfold renderChart.
  destruct (timeExtentOf (data v1)) as [ext|] eqn:Eext.
  2:{ destruct (data v1); [congruence | discriminate]. }
  set (v2 := setupBrush _ _ (renderScene _ ext v1)).
  assert (H2 : data v2 = data v1 /\ lastTimeRange v2 = Some ext /\
               scene v2 = Some {| sc_anomalies := anomalyPoints (data v1);
                                  sc_timeline := timelinePoints (data v1);
                                  sc_yScales := yScalesOf (settingOpt v1 yAxisMin)
                                                  (settingOpt v1 yAxisMax) (data v1) |})
    by (repeat split).
  destruct H2 as [Hd [Hl Hs]].
  destruct (selectedStartDate v2) as [a|]; [destruct (selectedEndDate v2) as [b|]|].
  - destruct (restoreBrushSelection_page v2) as [Hd' [Hs' Hl']].
    rewrite Hd', Hs', Hl', Hd, Hl, Hs; repeat split; eexists; reflexivity.
  - destruct (brushMove_page (0%Q, chartWidthOf v1 (qmax 0 (viewportWidth o)))
                (updateRangeDisplay (setSelection (Some (fst ext)) (Some (snd ext)) v2)))
      as [Hd' [Hs' Hl']].
    rewrite Hd', Hs', Hl'.
    cbn [data scene lastTimeRange updateRangeDisplay setSelection].
    rewrite Hd, Hl, Hs; repeat split; eexists; reflexivity.
  - destruct (brushMove_page (0%Q, chartWidthOf v1 (qmax 0 (viewportWidth o)))
                (updateRangeDisplay (setSelection (Some (fst ext)) (Some (snd ext)) v2)))
      as [Hd' [Hs' Hl']].
    rewrite Hd', Hs', Hl'.
    cbn [data scene lastTimeRange updateRangeDisplay setSelection].
    rewrite Hd, Hl, Hs; repeat split; eexists; reflexivity.
Qed.

Lemma update_scene_cases (o : VisualUpdateOptions) (v : Visual) (sc : Scene) :
  scene (update o v) = Some sc ->
  sc_anomalies sc = anomalyPoints (data (update o v)) /\
  sc_timeline sc = timelinePoints (data (update o v)).
Proof.
  destruct (placeholderPath o v) eqn:Hpath.
  - rewrite (update_placeholder o v Hpath); discriminate.
  - destruct (update_scene o v Hpath) as [Hd [_ [ys Hs]]].
    rewrite Hs, Hd; intros H; injection H as <-; split; reflexivity.
Qed.

(** C9.  A point of the model that no row has made is a point of gap
    detection: it has no value, no anomaly, no timeline marker and the
    index -1, while the points of rows have an index from 0 on.  It is not
    among the anomaly markers nor among the timeline markers of any data,
    so in no scene that an update draws. *)
Theorem synthetic_points_inert (dv : option DataViewCategorical) (p : TimeDataPoint) :
  In p (parseData dv) -> ~ In p (parseRows dv) ->
  value p = None /\ anomaly p = None /\ timelineMarker p = None /\ index p = -1 /\
  (forall q, In q (parseRows dv) -> 0 <= index q) /\
  (forall data, ~ In p (anomalyPoints data) /\ ~ In p (timelinePoints data)) /\
  (forall o v sc, scene (update o v) = Some sc ->
                  ~ In p (sc_anomalies sc) /\ ~ In p (sc_timeline sc)).
Proof.
  intros Hin Hrow.
  rewrite parseData_postProcess in Hin.
  apply postProcess_In in Hin.
  destruct Hin as [Hin | [t [s ->]]]; [contradiction|].
  assert (Hinert : forall data, ~ In (gapPoint t s) (anomalyPoints data) /\
                                ~ In (gapPoint t s) (timelinePoints data)).
  { intros data; split; intros H.
    - apply filter_In in H; destruct H as [_ H]; discriminate.
    - apply timelinePoints_marked in H; discriminate. }
  repeat split; try apply Hinert.
  - apply parseRows_index.
  - destruct (update_scene_cases o v sc H) as [-> _]; apply Hinert.
  - destruct (update_scene_cases o v sc H) as [_ ->]; apply Hinert.
Qed.

(** C10.  An update that takes the placeholder path leaves the selection,
    the recorded extent, the pixels of the brush, the guard and the
    submitted filters as they were; the message and the scene are
    replaced.  A later update then leaves the same selection, recorded
    extent, brush pixels and filters as it would have left without the
    placeholder update in between. *)
Theorem placeholder_keeps_selection (o : VisualUpdateOptions) (v : Visual) :
  placeholderPath o v = true ->
  (selectedStartDate (update o v) = selectedStartDate v /\
   selectedEndDate (update o v) = selectedEndDate v /\
   lastTimeRange (update o v) = lastTimeRange v /\
   brushSelection (update o v) = brushSelection v /\
   isProgrammaticBrushUpdate (update o v) = isProgrammaticBrushUpdate v /\
   appliedFilters (update o v) = appliedFilters v) /\
  (scene (update o v) = None /\
   rangeDisplay (update o v)
   = "Add a timestamp field and data to use the time brush slicer") /\
  (forall o',
     selectedStartDate (update o' (update o v)) = selectedStartDate (update o' v) /\
     selectedEndDate (update o' (update o v)) = selectedEndDate (update o' v) /\
     lastTimeRange (update o' (update o v)) = lastTimeRange (update o' v) /\
     brushSelection (update o' (update o v)) = brushSelection (update o' v) /\
     appliedFilters (update o' (update o v)) = appliedFilters (update o' v)).
Proof.
  intros Hpath.
  rewrite (update_placeholder o v Hpath).
  split; [repeat split|]; split; [repeat split|].
  intros o'.
  destruct (update_after_placeholder o o' v) as [H | [H1 H2]].
  - pose proof (f_equal selectedStartDate H) as Hs.
    pose proof (f_equal selectedEndDate H) as He.
    pose proof (f_equal lastTimeRange H) as Hl.
    pose proof (f_equal brushSelection H) as Hb.
    pose proof (f_equal appliedFilters H) as Hf.
    repeat split; assumption.
  - rewrite H1, H2; repeat split.
Qed.

End SceneFacts.

Lemma synthetic_points_inert_witness :
  In (gapPoint 14400000 "default") (@parseData sampleRuntime (Some hourlyView)) /\
  ~ In (gapPoint 14400000 "default") (@parseRows sampleRuntime (Some hourlyView)) /\
  forall data, ~ In (gapPoint 14400000 "default") (anomalyPoints data).
Proof.
  assert (Hin : In (gapPoint 14400000 "default")
                   (@parseData sampleRuntime (Some hourlyView))).
  { simpl; auto 10. }
  assert (Hrow : ~ In (gapPoint 14400000 "default")
                      (@parseRows sampleRuntime (Some hourlyView))).
  { simpl; intuition discriminate. }
  split; [exact Hin|]; split; [exact Hrow|].
  intros data.
  destruct (@synthetic_points_inert sampleRuntime (Some hourlyView) _ Hin Hrow)
    as [_ [_ [_ [_ [_ [H _]]]]]].
  apply H.
Defined.

Lemma placeholder_keeps_selection_witness :
  @placeholderPath sampleRuntime tinyOptions afterDrag = true /\
  selectedStartDate (@update sampleRuntime tinyOptions afterDrag) = Some 3600000 /\
  selectedEndDate (@update sampleRuntime tinyOptions afterDrag) = Some 10800000.
Proof.
  assert (Hpath : @placeholderPath sampleRuntime tinyOptions afterDrag = true)
    by reflexivity.
  split; [exact Hpath|].
  destruct (@placeholder_keeps_selection sampleRuntime tinyOptions afterDrag Hpath)
    as [[Hs [He _]] _].
  rewrite Hs, He; split; reflexivity.
Defined.

(** ** The formatters *)

Section FormatFacts.
Context {rt : Runtime}.

Lemma append_nil_r (a : string) : (a ++ "")%string = a.
Proof. induction a as [|c a IH]; simpl; [|rewrite IH]; reflexivity. Qed.

Lemma append_length (a b : string) :
  String.length (a ++ b) = (String.length a + String.length b)%nat.
Proof. induction a as [|c a IH]; simpl; [|rewrite IH]; reflexivity. Qed.

Lemma numeric_app (a b : string) :
  numeric (a ++ b) = numeric a && numeric b.
Proof.
  induction a as [|c a IH]; simpl; [reflexivity|].
  rewrite IH, andb_assoc; reflexivity.
Qed.

Lemma string_of_uint_numeric (d : Decimal.uint) :
  numeric (NilEmpty.string_of_uint d) = true.
Proof. induction d; simpl; try rewrite IHd; reflexivity. Qed.

Lemma intToString_numeric (n : Z) : numeric (intToString n) = true.
Proof.
  unfold intToString, NilZero.string_of_int, NilZero.string_of_uint.
  destruct (Z.to_int n) as [d|d]; destruct d; try reflexivity;
    try apply (string_of_uint_numeric (Decimal.D0 _));
    simpl; rewrite ?string_of_uint_numeric; reflexivity.
Qed.

Lemma zeros_numeric (n : nat) : numeric (zeros n) = true.
Proof. induction n as [|n IH]; simpl; [reflexivity | exact IH]. Qed.

Lemma pad_numeric (n : Z) (len : nat) : numeric (pad n len) = true.
Proof.
  unfold pad, padStart0.
  rewrite numeric_app, zeros_numeric, intToString_numeric; reflexivity.
Qed.

Lemma numeric_absent (c : ascii) (s : string) :
  isNumChar c = false -> numeric s = true -> occurs c s = false.
Proof.
  intros Hc; induction s as [|c' s IH]; simpl; intros Hs; [reflexivity|].
  apply andb_true_iff in Hs; destruct Hs as [Hc' Hs].
  rewrite (IH Hs), orb_false_r.
  destruct (Ascii.eqb c c') eqn:E; [|reflexivity].
  apply Ascii.eqb_eq in E; subst c'; congruence.
Qed.

(** A stretch of text without the first character of the token is copied. *)
Lemma replaceFrom_app_absent (c0 : ascii) (tok rep : string) (look : bool)
    (a b : string) :
  occurs c0 a = false ->
  replaceFrom (String c0 tok) rep look 0 (a ++ b)
  = (a ++ replaceFrom (String c0 tok) rep look 0 b)%string.
Proof.
  induction a as [|c a IH]; intros Habs; [reflexivity|].
  simpl in Habs; apply orb_false_iff in Habs; destruct Habs as [Hc Ha].
  change ((String c a ++ b)%string) with (String c (a ++ b)).
  cbn [replaceFrom String.prefix].
  destruct (ascii_dec c0 c) as [Heq | Hne].
  - subst c; rewrite Ascii.eqb_refl in Hc; discriminate.
  - cbn [andb]; rewrite (IH Ha); reflexivity.
Qed.

Lemma replaceFrom_absent (c0 : ascii) (tok rep : string) (look : bool) (a : string) :
  occurs c0 a = false ->
  replaceFrom (String c0 tok) rep look 0 a = a.
Proof.
  intros Habs.
  rewrite <- (append_nil_r a) at 1.
  rewrite replaceFrom_app_absent by exact Habs.
  cbn [replaceFrom]; apply append_nil_r.
Qed.

(** A rendered integer goes through every later pass unchanged. *)
Lemma replaceFrom_numeric (c0 : ascii) (tok rep : string) (look : bool) (a : string) :
  isNumChar c0 = false -> numeric a = true ->
  replaceFrom (String c0 tok) rep look 0 a = a.
Proof. intros Hc Ha; apply replaceFrom_absent, numeric_absent; assumption. Qed.


(** *** One token at a time *)

Local Arguments pad : simpl never.
Local Arguments intToString : simpl never.
Local Arguments hour12 : simpl never.
Local Arguments sliceLast2 : simpl never.
Local Arguments nth : simpl never.
Local Arguments Z.leb : simpl never.
Local Arguments Z.add : simpl never.

Ltac numeric_solver :=
  first [apply pad_numeric | apply intToString_numeric].

(** A pass over a rendered field followed by more text. *)
Ltac app_pass :=
  rewrite replaceFrom_app_absent
    by (apply numeric_absent; [reflexivity | numeric_solver]).

(** A pass over text that starts with known characters. *)
Ltac eval_pass :=
  match goal with
  | |- context [replaceFrom ?tok ?rep ?look 0 ?s] =>
      lazymatch s with
      | String _ _ => idtac
      | EmptyString => idtac
      end;
      let v := eval simpl in (replaceFrom tok rep look 0 s) in
      change (replaceFrom tok rep look 0 s) with v
  end.

Ltac format_passes t :=
  unfold createDateFormatter, replaceAll, replaceAllNotBeforeLower;
  cbv zeta;
  generalize (localFields t); intros ?d;
  repeat (first [app_pass | eval_pass]);
  rewrite ?append_nil_r.

Lemma format_yyyy (t : Z) :
  createDateFormatter "yyyy" t = intToString (fullYear (localFields t)).
Proof. format_passes t; reflexivity. Qed.

Lemma format_MM (t : Z) :
  createDateFormatter "MM" t = pad (month (localFields t) + 1) 2.
Proof. format_passes t; reflexivity. Qed.

Lemma format_dd (t : Z) :
  createDateFormatter "dd" t = pad (date (localFields t)) 2.
Proof. format_passes t; reflexivity. Qed.

Lemma format_HH (t : Z) :
  createDateFormatter "HH" t = pad (hours (localFields t)) 2.
Proof. format_passes t; reflexivity. Qed.

Lemma format_hh (t : Z) :
  createDateFormatter "hh" t = pad (hour12 (hours (localFields t))) 2.
Proof. format_passes t; reflexivity. Qed.

Lemma format_mm (t : Z) :
  createDateFormatter "mm" t = pad (minutes (localFields t)) 2.
Proof. format_passes t; reflexivity. Qed.

Lemma format_ss (t : Z) :
  createDateFormatter "ss" t = pad (seconds (localFields t)) 2.
Proof. format_passes t; reflexivity. Qed.

Lemma format_fff (t : Z) :
  createDateFormatter "fff" t = pad (milliseconds (localFields t)) 3.
Proof. format_passes t; reflexivity. Qed.

Lemma format_tt (t : Z) :
  createDateFormatter "tt" t = if 12 <=? hours (localFields t) then "PM" else "AM".
Proof. format_passes t; destruct (12 <=? hours d); reflexivity. Qed.

(** The default output format. *)
Lemma format_default (t : Z) :
  createDateFormatter "yyyy-MM-dd HH:mm:ss" t
  = (intToString (fullYear (localFields t)) ++ "-"
     ++ pad (month (localFields t) + 1) 2 ++ "-"
     ++ pad (date (localFields t)) 2 ++ " "
     ++ pad (hours (localFields t)) 2 ++ ":"
     ++ pad (minutes (localFields t)) 2 ++ ":"
     ++ pad (seconds (localFields t)) 2)%string.
Proof. format_passes t; reflexivity. Qed.

End FormatFacts.

(** ** The ISO rendering *)

Section DateFacts.

Lemma checkFrom_spec (P : Z -> bool) (count : nat) :
  forall start, checkFrom P count start = true ->
  forall n, start <= n < start + Z.of_nat count -> P n = true.
Proof.
  induction count as [|count IH]; intros start H n Hn.
  - lia.
  - cbn [checkFrom] in H.
    apply andb_true_iff in H; destruct H as [H0 H].
    destruct (Z.eq_dec n start) as [-> | Hne]; [exact H0|].
    apply (IH (start + 1) H); lia.
Qed.

Lemma bounded_check (P : Z -> bool) (N : Z) :
  checkFrom P (Z.to_nat N) 0 = true ->
  forall n, 0 <= n < N -> P n = true.
Proof.
  intros H n Hn.
  apply (checkFrom_spec P (Z.to_nat N) 0 H); lia.
Qed.

Lemma pad2_length (n : Z) : 0 <= n <= 99 -> String.length (pad n 2) = 2%nat.
Proof.
  intros Hn.
  apply Nat.eqb_eq.
  apply (bounded_check (fun n => Nat.eqb (String.length (pad n 2)) 2) 100);
    [vm_compute; reflexivity | lia].
Qed.

Lemma pad3_length (n : Z) : 0 <= n <= 999 -> String.length (pad n 3) = 3%nat.
Proof.
  intros Hn.
  apply Nat.eqb_eq.
  apply (bounded_check (fun n => Nat.eqb (String.length (pad n 3)) 3) 1000);
    [vm_compute; reflexivity | lia].
Qed.

Lemma pad4_length (n : Z) : 0 <= n <= 9999 -> String.length (pad n 4) = 4%nat.
Proof.
  intros Hn.
  apply Nat.eqb_eq.
  apply (bounded_check (fun n => Nat.eqb (String.length (pad n 4)) 4) 10000);
    [vm_compute; reflexivity | lia].
Qed.

Lemma monthDay_bounds (doe : Z) :
  0 <= doe < 146097 ->
  1 <= fst (monthDayOfEra doe) <= 12 /\ 1 <= snd (monthDayOfEra doe) <= 31.
Proof.
  intros Hdoe.
  assert (H : monthDayInRange doe = true).
  { apply (bounded_check monthDayInRange 146097); [vm_compute; reflexivity | lia]. }
  unfold monthDayInRange in H.
  destruct (monthDayOfEra doe) as [m d]; simpl.
  apply andb_true_iff in H; destruct H as [H H4].
  apply andb_true_iff in H; destruct H as [H H3].
  apply andb_true_iff in H; destruct H as [H1 H2].
  apply Z.leb_le in H1, H2, H3, H4; lia.
Qed.

Lemma civilFromDays_monthDay (days : Z) :
  let doe := (days + 719468) - (days + 719468) / 146097 * 146097 in
  snd (fst (civilFromDays days)) = fst (monthDayOfEra doe) /\
  snd (civilFromDays days) = snd (monthDayOfEra doe).
Proof. split; reflexivity. Qed.

(** The fields of a date are in their ranges. *)
Lemma utcFields_bounds (t : Z) :
  0 <= month (utcFields t) <= 11 /\ 1 <= date (utcFields t) <= 31 /\
  0 <= hours (utcFields t) <= 23 /\ 0 <= minutes (utcFields t) <= 59 /\
  0 <= seconds (utcFields t) <= 59 /\ 0 <= milliseconds (utcFields t) <= 999.
Proof.
  unfold utcFields.
  pose proof (civilFromDays_monthDay (t / msPerDay)) as Hmd.
  cbv zeta in Hmd.
  set (z := t / msPerDay + 719468) in *.
  assert (Hdoe : 0 <= z - z / 146097 * 146097 < 146097).
  { pose proof (Z.mod_pos_bound z 146097 ltac:(lia)) as Hm.
    rewrite Z.mod_eq in Hm by lia. lia. }
  destruct (monthDay_bounds _ Hdoe) as [Hm Hd].
  destruct Hmd as [Hm' Hd'].
  destruct (civilFromDays (t / msPerDay)) as [[y m] d].
  cbn [fst snd] in Hm', Hd'; cbn [month date hours minutes seconds milliseconds].
  assert (Hr : 0 <= t mod msPerDay < 86400000)
    by (apply Z.mod_pos_bound; reflexivity).
  set (r := t mod msPerDay) in *.
  repeat split; try lia;
    try (apply Z.div_pos; lia);
    try (apply Z.mod_pos_bound; lia).
  - apply Z.lt_succ_r, Z.div_lt_upper_bound; lia.
  - apply Z.lt_succ_r, Z.mod_pos_bound; lia.
  - apply Z.lt_succ_r, Z.mod_pos_bound; lia.
  - apply Z.lt_succ_r, Z.mod_pos_bound; lia.
Qed.

(** With a year of four digits, the ISO rendering has the 24 characters
    of [YYYY-MM-DDTHH:mm:ss.sssZ]. *)
Lemma toISOString_length (t : Z) :
  0 <= fullYear (utcFields t) <= 9999 ->
  String.length (toISOString t) = 24%nat.
Proof.
  intros Hy.
  destruct (utcFields_bounds t) as [Hmo [Hd [Hh [Hmi [Hs Hms]]]]].
  unfold toISOString, isoYear.
  replace ((0 <=? fullYear (utcFields t)) && (fullYear (utcFields t) <=? 9999))
    with true
    by (symmetry; apply andb_true_iff; split; apply Z.leb_le; lia).
  rewrite !append_length.
  rewrite pad4_length by exact Hy.
  rewrite !pad2_length by lia.
  rewrite pad3_length by lia.
  reflexivity.
Qed.

End DateFacts.

(** ** Token substitution *)

(** *** One pass over a string in stretches *)

Lemma prefix_app (a b : string) : String.prefix a (a ++ b) = true.
Proof.
  induction a as [|c a IH]; simpl; [destruct b; reflexivity|].
  destruct (ascii_dec c c) as [_ | Hne]; [exact IH | contradiction].
Qed.

Lemma dropStr_app (a b : string) : dropStr (String.length a) (a ++ b) = b.
Proof. induction a as [|c a IH]; simpl; [destruct b; reflexivity | exact IH]. Qed.

Lemma replaceFrom_skip (tok rep : string) (look : bool) (a b : string) :
  replaceFrom tok rep look (String.length a) (a ++ b) = replaceFrom tok rep look 0 b.
Proof. induction a as [|c a IH]; simpl; [reflexivity | exact IH]. Qed.

Lemma prefix_short (c0 : ascii) (len n : nat) (b : string) :
  (n < len)%nat -> startsWith c0 b = false ->
  String.prefix (repeatChar c0 len) (repeatChar c0 n ++ b) = false.
Proof.
  revert n; induction len as [|len IH]; intros n Hn Hb; [lia|].
  destruct n as [|n].
  - destruct b as [|c b]; [reflexivity|].
    cbn [repeatChar append String.prefix].
    simpl in Hb.
    destruct (ascii_dec c0 c) as [-> | Hne]; [|reflexivity].
    rewrite Ascii.eqb_refl in Hb; discriminate.
  - cbn [repeatChar append String.prefix].
    destruct (ascii_dec c0 c0) as [_ | Hne]; [|contradiction].
    apply IH; [lia | exact Hb].
Qed.

Lemma replaceFrom_short (c0 : ascii) (len : nat) (rep : string) (look : bool)
    (n : nat) (b : string) :
  (n < len)%nat -> startsWith c0 b = false ->
  replaceFrom (repeatChar c0 len) rep look 0 (repeatChar c0 n ++ b)
  = (repeatChar c0 n ++ replaceFrom (repeatChar c0 len) rep look 0 b)%string.
Proof.
  intros Hn Hb; induction n as [|n IH]; [reflexivity|].
  change ((repeatChar c0 (S n) ++ b)%string) with (String c0 (repeatChar c0 n ++ b)).
  cbn [replaceFrom].
  change (String c0 (repeatChar c0 n ++ b)) with ((repeatChar c0 (S n) ++ b)%string).
  rewrite (prefix_short c0 len (S n) b Hn Hb); cbn [andb].
  rewrite IH by lia; reflexivity.
Qed.

Lemma repeatChar_length (c : ascii) (n : nat) : String.length (repeatChar c n) = n.
Proof. induction n as [|n IH]; simpl; [|rewrite IH]; reflexivity. Qed.

Lemma replaceFrom_target (c0 : ascii) (len : nat) (rep : string) (look : bool)
    (b : string) :
  (0 < len)%nat -> (look && nextIsLower b)%bool = false ->
  replaceFrom (repeatChar c0 len) rep look 0 (repeatChar c0 len ++ b)
  = (rep ++ replaceFrom (repeatChar c0 len) rep look 0 b)%string.
Proof.
  intros Hlen Hlook.
  destruct len as [|len]; [lia|].
  change ((repeatChar c0 (S len) ++ b)%string) with (String c0 (repeatChar c0 len ++ b)).
  cbn [replaceFrom].
  change (String c0 (repeatChar c0 len ++ b)) with ((repeatChar c0 (S len) ++ b)%string).
  rewrite prefix_app.
  rewrite dropStr_app.
  replace (negb look || negb (nextIsLower b))%bool with true
    by (destruct look; destruct (nextIsLower b); simpl in *; congruence).
  cbn [andb].
  rewrite repeatChar_length.
  replace (S len - 1)%nat with (String.length (repeatChar c0 len))
    by (rewrite repeatChar_length; lia).
  rewrite replaceFrom_skip; reflexivity.
Qed.

(** One pass: the stretches of text and the shorter runs are copied, the
    tokens of the pass replaced. *)
Lemma onePass (c0 : ascii) (len : nat) (rep : string) (look : bool)
    (cs : list Chunk) :
  (0 < len)%nat ->
  okChunks c0 len look cs = true ->
  replaceFrom (repeatChar c0 len) rep look 0 (joinStrings (map (chunkIn c0 len) cs))
  = joinStrings (map (chunkOut c0 rep) cs).
Proof.
  intros Hlen; induction cs as [|ch cs IH]; intros Hok; [reflexivity|].
  cbn [map joinStrings fold_right].
  fold (joinStrings (map (chunkIn c0 len) cs)).
  fold (joinStrings (map (chunkOut c0 rep) cs)).
  destruct ch as [s| |n]; cbn [okChunks] in Hok; cbn [chunkIn chunkOut].
  - apply andb_true_iff in Hok; destruct Hok as [Hs Hok].
    apply negb_true_iff in Hs.
    destruct len as [|len]; [lia|].
    cbn [repeatChar].
    rewrite replaceFrom_app_absent by exact Hs.
    f_equal; apply (IH Hok).
  - apply andb_true_iff in Hok; destruct Hok as [Hl Hok].
    apply negb_true_iff in Hl.
    rewrite replaceFrom_target by assumption.
    f_equal; apply (IH Hok).
  - apply andb_true_iff in Hok; destruct Hok as [Hn Hok].
    apply andb_true_iff in Hn; destruct Hn as [Hn Hs].
    apply Nat.ltb_lt in Hn; apply negb_true_iff in Hs.
    rewrite replaceFrom_short by assumption.
    f_equal; apply (IH Hok).
Qed.

(** *** What the tokens stand for *)

Lemma strNonEmpty_app (a b : string) :
  strNonEmpty (a ++ b) = strNonEmpty a || strNonEmpty b.
Proof. destruct a; reflexivity. Qed.

Lemma intToString_nonempty (n : Z) : strNonEmpty (intToString n) = true.
Proof.
  unfold intToString, NilZero.string_of_int, NilZero.string_of_uint.
  destruct (Z.to_int n) as [d|d]; destruct d; reflexivity.
Qed.

Lemma pad_nonempty (n : Z) (len : nat) : strNonEmpty (pad n len) = true.
Proof.
  unfold pad, padStart0.
  rewrite strNonEmpty_app, intToString_nonempty; apply orb_true_r.
Qed.

Lemma dropStr_numeric (n : nat) (s : string) :
  numeric s = true -> numeric (dropStr n s) = true.
Proof.
  revert s; induction n as [|n IH]; intros s Hs; [exact Hs|].
  destruct s as [|c s]; [reflexivity|].
  simpl in Hs; apply andb_true_iff in Hs; destruct Hs as [_ Hs].
  apply (IH s Hs).
Qed.

Lemma dropStr_nonempty (n : nat) (s : string) :
  (n < String.length s)%nat -> strNonEmpty (dropStr n s) = true.
Proof.
  revert s; induction n as [|n IH]; intros s Hn.
  - destruct s; [simpl in Hn; lia | reflexivity].
  - destruct s as [|c s]; [simpl in Hn; lia|].
    simpl in Hn; apply IH; lia.
Qed.

Lemma sliceLast2_value (s : string) :
  numeric s = true -> strNonEmpty s = true ->
  numeric (sliceLast2 s) = true /\ strNonEmpty (sliceLast2 s) = true.
Proof.
  intros Hn He; unfold sliceLast2; split; [apply dropStr_numeric, Hn|].
  apply dropStr_nonempty.
  destruct s; [discriminate | simpl; lia].
Qed.

Lemma tokenValue_number (d : DateFields) (k : Token) :
  numberToken k = true ->
  numeric (tokenValue d k) = true /\ strNonEmpty (tokenValue d k) = true.
Proof.
  destruct k; intros H; try discriminate; cbn [tokenValue];
    try (split; [apply intToString_numeric | apply intToString_nonempty]);
    try (split; [apply pad_numeric | apply pad_nonempty]).
  apply sliceLast2_value; [apply intToString_numeric | apply intToString_nonempty].
Qed.

Lemma numeric_first (s : string) :
  numeric s = true -> nextIsLower s = false.
Proof.
  destruct s as [|c s]; [reflexivity|]; simpl; intros H.
  apply andb_true_iff in H; destruct H as [Hc _].
  unfold isNumChar in Hc; unfold isLower.
  apply orb_true_iff in Hc; destruct Hc as [Hc | Hc].
  - apply andb_true_iff in Hc; destruct Hc as [_ Hc].
    apply Nat.leb_le in Hc.
    apply andb_false_iff; left; apply Nat.leb_gt; lia.
  - apply Ascii.eqb_eq in Hc; subst c; reflexivity.
Qed.

Lemma letter_not_numeric (k : Token) : isNumChar (tokenLetter k) = false.
Proof. destruct k; reflexivity. Qed.

(** A value set in by an earlier pass has nothing for a later pass. *)
Lemma tokenValue_clean (d : DateFields) (k kp : Token) :
  (passIndex k < passIndex kp)%nat -> monthName k = false ->
  occurs (tokenLetter kp) (tokenValue d k) = false.
Proof.
  intros Hlt Hm.
  destruct (numberToken k) eqn:E.
  - apply numeric_absent; [apply letter_not_numeric|].
    apply (tokenValue_number d k E).
  - destruct k; try discriminate; destruct kp; simpl in Hlt; try lia.
    cbn [tokenValue tokenLetter]; destruct (12 <=? hours d); reflexivity.
Qed.

Lemma tokenValue_first (d : DateFields) (k : Token) :
  monthName k = false ->
  nextIsLower (tokenValue d k) = false /\ strNonEmpty (tokenValue d k) = true.
Proof.
  intros Hm.
  destruct (numberToken k) eqn:E.
  - destruct (tokenValue_number d k E) as [Hn He].
    split; [apply numeric_first, Hn | exact He].
  - destruct k; try discriminate;
      cbn [tokenValue]; destruct (12 <=? hours d); split; reflexivity.
Qed.

(** *** The tokens and their passes *)

Lemma tokenText_repeat (k : Token) :
  tokenText k = repeatChar (tokenLetter k) (tokenLength k).
Proof. destruct k; reflexivity. Qed.

Lemma tokenLength_pos (k : Token) : (0 < tokenLength k)%nat.
Proof. destruct k; unfold tokenLength; simpl; lia. Qed.

Lemma passIndex_inj (k k' : Token) : passIndex k = passIndex k' -> k = k'.
Proof. destruct k, k'; simpl; intros H; try reflexivity; discriminate. Qed.

(** Of two tokens of one letter the longer has the earlier pass. *)
Lemma longer_first (k kp : Token) :
  (passIndex kp < passIndex k)%nat -> tokenLetter k = tokenLetter kp ->
  (tokenLength k < tokenLength kp)%nat.
Proof.
  destruct k, kp; unfold tokenLength; simpl; intros Hlt He;
    try lia; discriminate.
Qed.

Lemma other_letter (k kp : Token) :
  tokenLetter k <> tokenLetter kp -> occurs (tokenLetter kp) (tokenText k) = false.
Proof. destruct k, kp; simpl; intros H; try reflexivity; contradiction. Qed.

Lemma plain_letter (s : string) (kp : Token) :
  plain s = true -> occurs (tokenLetter kp) s = false.
Proof.
  unfold plain; cbn [forallb]; intros H.
  repeat (apply andb_true_iff in H; let Hc := fresh "Hc" in destruct H as [Hc H]).
  repeat match goal with
         | Hc : negb _ = true |- _ => apply negb_true_iff in Hc
         end.
  destruct kp; assumption.
Qed.

Lemma occurs_first (c : ascii) (s : string) :
  occurs c s = false -> startsWith c s = false.
Proof.
  destruct s as [|c' s]; [reflexivity|]; simpl; intros H.
  apply orb_false_iff in H; apply H.
Qed.

Lemma startsWith_app (c : ascii) (a b : string) :
  strNonEmpty a = true -> startsWith c (a ++ b) = startsWith c a.
Proof. destruct a; [discriminate | reflexivity]. Qed.

Lemma nextIsLower_app (a b : string) :
  strNonEmpty a = true -> nextIsLower (a ++ b) = nextIsLower a.
Proof. destruct a; [discriminate | reflexivity]. Qed.

(** *** The passes one after the other *)

Section Passes.
Variable d : DateFields.

Lemma stageChunk_in (kp : Token) (p : Piece) :
  chunkIn (tokenLetter kp) (tokenLength kp) (stageChunk d kp p)
  = stagePiece d (passIndex kp) p.
Proof.
  destruct p as [s|k]; [reflexivity|].
  cbn [stageChunk stagePiece].
  destruct (Nat.ltb (passIndex k) (passIndex kp)) eqn:E1; [reflexivity|].
  destruct (Nat.eqb (passIndex k) (passIndex kp)) eqn:E2.
  - apply Nat.eqb_eq, passIndex_inj in E2; subst k.
    symmetry; apply tokenText_repeat.
  - destruct (Ascii.eqb (tokenLetter k) (tokenLetter kp)) eqn:E3; [|reflexivity].
    apply Ascii.eqb_eq in E3.
    cbn [chunkIn]; rewrite <- E3; symmetry; apply tokenText_repeat.
Qed.

Lemma stageChunk_out (kp : Token) (p : Piece) :
  chunkOut (tokenLetter kp) (tokenValue d kp) (stageChunk d kp p)
  = stagePiece d (S (passIndex kp)) p.
Proof.
  destruct p as [s|k]; [reflexivity|].
  cbn [stageChunk stagePiece].
  destruct (Nat.ltb (passIndex k) (passIndex kp)) eqn:E1.
  - apply Nat.ltb_lt in E1.
    replace (Nat.ltb (passIndex k) (S (passIndex kp))) with true
      by (symmetry; apply Nat.ltb_lt; lia).
    reflexivity.
  - apply Nat.ltb_ge in E1.
    destruct (Nat.eqb (passIndex k) (passIndex kp)) eqn:E2.
    + apply Nat.eqb_eq in E2.
      replace (Nat.ltb (passIndex k) (S (passIndex kp))) with true
        by (symmetry; apply Nat.ltb_lt; lia).
      apply passIndex_inj in E2; subst k; reflexivity.
    + apply Nat.eqb_neq in E2.
      replace (Nat.ltb (passIndex k) (S (passIndex kp))) with false
        by (symmetry; apply Nat.ltb_ge; lia).
      destruct (Ascii.eqb (tokenLetter k) (tokenLetter kp)) eqn:E3; [|reflexivity].
      apply Ascii.eqb_eq in E3.
      cbn [chunkOut]; rewrite <- E3; symmetry; apply tokenText_repeat.
Qed.

Lemma stageText_in (kp : Token) (ps : list Piece) :
  joinStrings (map (chunkIn (tokenLetter kp) (tokenLength kp))
                   (map (stageChunk d kp) ps))
  = stageText d (passIndex kp) ps.
Proof.
  unfold stageText; rewrite map_map; f_equal.
  apply map_ext; intros p; apply stageChunk_in.
Qed.

Lemma stageText_out (kp : Token) (ps : list Piece) :
  joinStrings (map (chunkOut (tokenLetter kp) (tokenValue d kp))
                   (map (stageChunk d kp) ps))
  = stageText d (S (passIndex kp)) ps.
Proof.
  unfold stageText; rewrite map_map; f_equal.
  apply map_ext; intros p; apply stageChunk_out.
Qed.

(** The first character of what follows a token, at any stage. *)
Lemma stagePiece_nonempty (i : nat) (p : Piece) (rest : list Piece) :
  wellFormed (p :: rest) = true -> strNonEmpty (stagePiece d i p) = true.
Proof.
  destruct p as [s|k]; cbn [wellFormed stagePiece]; intros H.
  - apply andb_true_iff in H; destruct H as [H _].
    apply andb_true_iff in H; apply H.
  - apply andb_true_iff in H; destruct H as [H _].
    apply andb_true_iff in H; destruct H as [Hm _].
    apply negb_true_iff in Hm.
    destruct (Nat.ltb (passIndex k) i).
    + apply (tokenValue_first d k Hm).
    + destruct k; reflexivity.
Qed.

Lemma after_same_letter (kp k : Token) (rest : list Piece) :
  tokenLetter k = tokenLetter kp ->
  follows k (hd_error rest) = true -> wellFormed rest = true ->
  startsWith (tokenLetter kp) (stageText d (passIndex kp) rest) = false.
Proof.
  intros Hl Hf Hw.
  destruct rest as [|p rest]; [reflexivity|].
  unfold stageText; cbn [map joinStrings fold_right].
  rewrite startsWith_app by (apply (stagePiece_nonempty _ p rest Hw)).
  apply occurs_first.
  destruct p as [s|k']; cbn [stagePiece].
  - cbn [wellFormed] in Hw.
    apply andb_true_iff in Hw; destruct Hw as [Hw _].
    apply andb_true_iff in Hw; destruct Hw as [_ Hp].
    apply plain_letter, Hp.
  - cbn [hd_error follows] in Hf.
    apply andb_true_iff in Hf; destruct Hf as [Hne _].
    apply negb_true_iff, Ascii.eqb_neq in Hne.
    cbn [wellFormed] in Hw.
    apply andb_true_iff in Hw; destruct Hw as [Hw _].
    apply andb_true_iff in Hw; destruct Hw as [Hm _].
    apply negb_true_iff in Hm.
    destruct (Nat.ltb (passIndex k') (passIndex kp)) eqn:E.
    + apply Nat.ltb_lt in E; apply tokenValue_clean; assumption.
    + apply other_letter; congruence.
Qed.

Lemma after_lookahead (kp : Token) (rest : list Piece) :
  follows kp (hd_error rest) = true -> wellFormed rest = true ->
  (lookahead kp && nextIsLower (stageText d (passIndex kp) rest))%bool = false.
Proof.
  intros Hf Hw.
  destruct (lookahead kp) eqn:El; [cbn [andb] | reflexivity].
  destruct rest as [|p rest]; [reflexivity|].
  unfold stageText; cbn [map joinStrings fold_right].
  rewrite nextIsLower_app by (apply (stagePiece_nonempty _ p rest Hw)).
  destruct p as [s|k']; cbn [stagePiece].
  - cbn [hd_error follows] in Hf; rewrite El in Hf.
    apply negb_true_iff in Hf; exact Hf.
  - cbn [hd_error follows] in Hf; rewrite El in Hf.
    apply andb_true_iff in Hf; destruct Hf as [Hne Hlow].
    apply negb_true_iff, Ascii.eqb_neq in Hne.
    apply negb_true_iff in Hlow; cbn [andb] in Hlow.
    cbn [wellFormed] in Hw.
    apply andb_true_iff in Hw; destruct Hw as [Hw _].
    apply andb_true_iff in Hw; destruct Hw as [Hm _].
    apply negb_true_iff in Hm.
    destruct (Nat.ltb (passIndex k') (passIndex kp)) eqn:E.
    + apply (tokenValue_first d k' Hm).
    + apply Nat.ltb_ge in E.
      assert (Hlt : Nat.ltb (passIndex kp) (passIndex k') = true).
      { apply Nat.ltb_lt.
        destruct (Nat.eq_dec (passIndex kp) (passIndex k')) as [Heq | Hneq]; [|lia].
        apply passIndex_inj in Heq; subst k'; contradiction. }
      rewrite Hlt, andb_true_r in Hlow.
      destruct k'; simpl in Hlow |- *; try reflexivity; discriminate.
Qed.

Lemma stage_ok (kp : Token) (ps : list Piece) :
  wellFormed ps = true ->
  okChunks (tokenLetter kp) (tokenLength kp) (lookahead kp)
           (map (stageChunk d kp) ps) = true.
Proof.
  induction ps as [|p ps IH]; intros Hw; [reflexivity|].
  assert (Hrest : wellFormed ps = true).
  { destruct p; cbn [wellFormed] in Hw;
      apply andb_true_iff in Hw; apply Hw. }
  specialize (IH Hrest).
  cbn [map].
  destruct p as [s|k].
  - cbn [stageChunk okChunks].
    cbn [wellFormed] in Hw.
    apply andb_true_iff in Hw; destruct Hw as [Hw _].
    apply andb_true_iff in Hw; destruct Hw as [_ Hp].
    rewrite (plain_letter s kp Hp), IH; reflexivity.
  - cbn [wellFormed] in Hw.
    apply andb_true_iff in Hw; destruct Hw as [Hw _].
    apply andb_true_iff in Hw; destruct Hw as [Hm Hf].
    apply negb_true_iff in Hm.
    cbn [stageChunk].
    destruct (Nat.ltb (passIndex k) (passIndex kp)) eqn:E1.
    + apply Nat.ltb_lt in E1.
      cbn [okChunks].
      rewrite (tokenValue_clean d k kp E1 Hm), IH; reflexivity.
    + apply Nat.ltb_ge in E1.
      destruct (Nat.eqb (passIndex k) (passIndex kp)) eqn:E2.
      * apply Nat.eqb_eq, passIndex_inj in E2; subst k.
        cbn [okChunks].
        rewrite stageText_in, (after_lookahead kp ps Hf Hrest), IH; reflexivity.
      * apply Nat.eqb_neq in E2.
        destruct (Ascii.eqb (tokenLetter k) (tokenLetter kp)) eqn:E3.
        -- apply Ascii.eqb_eq in E3.
           cbn [okChunks].
           rewrite stageText_in, (after_same_letter kp k ps E3 Hf Hrest), IH.
           replace (Nat.ltb (tokenLength k) (tokenLength kp)) with true; [reflexivity|].
           symmetry; apply Nat.ltb_lt, longer_first; [lia | exact E3].
        -- apply Ascii.eqb_neq in E3.
           cbn [okChunks].
           rewrite (other_letter k kp E3), IH; reflexivity.
Qed.

(** One pass takes a well-formed format from one stage to the next. *)
Lemma stage_step (kp : Token) (ps : list Piece) :
  wellFormed ps = true ->
  replaceFrom (tokenText kp) (tokenValue d kp) (lookahead kp) 0
              (stageText d (passIndex kp) ps)
  = stageText d (S (passIndex kp)) ps.
Proof.
  intros Hw.
  rewrite <- stageText_in, <- stageText_out, tokenText_repeat.
  apply onePass; [apply tokenLength_pos | apply stage_ok, Hw].
Qed.

Lemma stageText_first (ps : list Piece) : stageText d 0 ps = formatOf ps.
Proof.
  unfold stageText, formatOf.
  rewrite (map_ext (stagePiece d 0) pieceText); [reflexivity|].
  intros [s|k]; reflexivity.
Qed.

Lemma stageText_last (ps : list Piece) : stageText d 19 ps = renderPieces d ps.
Proof.
  unfold stageText, renderPieces.
  rewrite (map_ext (stagePiece d 19)
                   (fun p => match p with Lit s => s | Tok k => tokenValue d k end));
    [reflexivity|].
  intros [s|k]; [reflexivity|].
  destruct k; reflexivity.
Qed.

End Passes.

(** The formatter is token substitution on the well-formed formats. *)
Lemma createDateFormatter_pieces {rt : Runtime} (ps : list Piece) (t : Z) :
  wellFormed ps = true ->
  createDateFormatter (formatOf ps) t = renderPieces (localFields t) ps.
Proof.
  intros Hw.
  unfold createDateFormatter, replaceAll, replaceAllNotBeforeLower; cbv zeta.
  set (d := localFields t).
  rewrite <- stageText_first with (d := d).
  rewrite <- stageText_last.
  pose proof (fun kp => stage_step d kp ps Hw) as Hstep.
  pose proof (Hstep Tyyyy) as H; cbn [tokenText tokenValue lookahead passIndex] in H; rewrite H; clear H.
  pose proof (Hstep Tyy) as H; cbn [tokenText tokenValue lookahead passIndex] in H; rewrite H; clear H.
  pose proof (Hstep TMMMM) as H; cbn [tokenText tokenValue lookahead passIndex] in H; rewrite H; clear H.
  pose proof (Hstep TMMM) as H; cbn [tokenText tokenValue lookahead passIndex] in H; rewrite H; clear H.
  pose proof (Hstep TMM) as H; cbn [tokenText tokenValue lookahead passIndex] in H; rewrite H; clear H.
  pose proof (Hstep TM) as H; cbn [tokenText tokenValue lookahead passIndex] in H; rewrite H; clear H.
  pose proof (Hstep Tdd) as H; cbn [tokenText tokenValue lookahead passIndex] in H; rewrite H; clear H.
  pose proof (Hstep Td) as H; cbn [tokenText tokenValue lookahead passIndex] in H; rewrite H; clear H.
  pose proof (Hstep THH) as H; cbn [tokenText tokenValue lookahead passIndex] in H; rewrite H; clear H.
  pose proof (Hstep TH) as H; cbn [tokenText tokenValue lookahead passIndex] in H; rewrite H; clear H.
  pose proof (Hstep Thh) as H; cbn [tokenText tokenValue lookahead passIndex] in H; rewrite H; clear H.
  pose proof (Hstep Th) as H; cbn [tokenText tokenValue lookahead passIndex] in H; rewrite H; clear H.
  pose proof (Hstep Tmm) as H; cbn [tokenText tokenValue lookahead passIndex] in H; rewrite H; clear H.
  pose proof (Hstep Tm) as H; cbn [tokenText tokenValue lookahead passIndex] in H; rewrite H; clear H.
  pose proof (Hstep Tss) as H; cbn [tokenText tokenValue lookahead passIndex] in H; rewrite H; clear H.
  pose proof (Hstep Ts) as H; cbn [tokenText tokenValue lookahead passIndex] in H; rewrite H; clear H.
  pose proof (Hstep Tfff) as H; cbn [tokenText tokenValue lookahead passIndex] in H; rewrite H; clear H.
  pose proof (Hstep Ttt) as H; cbn [tokenText tokenValue lookahead passIndex] in H; rewrite H; clear H.
  pose proof (Hstep Tt) as H; cbn [tokenText tokenValue lookahead passIndex] in H; rewrite H; clear H.
  reflexivity.
Qed.

Section Divergence.
Context {rt : Runtime}.

Local Arguments pad : simpl never.
Local Arguments intToString : simpl never.
Local Arguments hour12 : simpl never.
Local Arguments sliceLast2 : simpl never.
Local Arguments nth : simpl never.
Local Arguments Z.leb : simpl never.
Local Arguments Z.add : simpl never.

Ltac field_pass :=
  rewrite replaceFrom_app_absent
    by (apply numeric_absent;
        [reflexivity | first [apply pad_numeric | apply intToString_numeric]]).

Ltac text_pass :=
  match goal with
  | |- context [replaceFrom ?tok ?rep ?look 0 ?s] =>
      lazymatch s with
      | String _ _ => idtac
      | EmptyString => idtac
      end;
      let v := eval simpl in (replaceFrom tok rep look 0 s) in
      change (replaceFrom tok rep look 0 s) with v
  end.

(** A one-letter token before a lowercase letter is text. *)
Lemma format_blocked (k : Token) (c : ascii) (t : Z) :
  lookahead k = true -> isLower c = true -> plain (String c "") = true ->
  createDateFormatter (tokenText k ++ String c "") t
  = (tokenText k ++ String c "")%string.
Proof.
  intros Hk Hc Hp.
  unfold createDateFormatter, replaceAll, replaceAllNotBeforeLower; cbv zeta.
  generalize (localFields t); intros d.
  destruct c as [b0 b1 b2 b3 b4 b5 b6 b7].
  destruct b0, b1, b2, b3, b4, b5, b6, b7; try discriminate Hc; try discriminate Hp;
    destruct k; try discriminate Hk; vm_compute; reflexivity.
Qed.

(** The name of March loses its last letter to the hour of 12, the
    abbreviation of October its last letter to the half of the day. *)
Lemma format_march (t : Z) :
  month (localFields t) = 2 ->
  createDateFormatter "MMMM" t
  = String.append "Marc" (intToString (hour12 (hours (localFields t)))).
Proof.
  intros Hm.
  unfold createDateFormatter, replaceAll, replaceAllNotBeforeLower; cbv zeta.
  rewrite Hm.
  generalize (localFields t); intros d.
  change (nth (Z.to_nat 2) fullMonths "") with "March".
  repeat (first [field_pass | text_pass]).
  rewrite ?append_nil_r; reflexivity.
Qed.

Lemma format_october (t : Z) :
  month (localFields t) = 9 ->
  createDateFormatter "MMM" t
  = String.append "Oc" (if 12 <=? hours (localFields t) then "P" else "A").
Proof.
  intros Hm.
  unfold createDateFormatter, replaceAll, replaceAllNotBeforeLower; cbv zeta.
  rewrite Hm.
  generalize (localFields t); intros d.
  change (nth (Z.to_nat 9) months "") with "Oct".
  repeat (first [field_pass | text_pass]).
  destruct (12 <=? hours d); reflexivity.
Qed.

End Divergence.

(** ** The operand of the filter *)

Section OperandFacts.
Context {rt : Runtime}.

(** C3.  When the end of a brush gesture submits a filter, the guard is
    not set and the operand is the rendering of the start of the
    selection, the delimiter and the rendering of its end; the rendering
    is [toISOString] in ISO mode and the formatter of the output format
    otherwise.  The ISO rendering is year, month, day, hours, minutes,
    seconds and three digits of milliseconds of the UTC fields, 24
    characters when the year has four digits.  The formatter is token
    substitution on the local fields for every format made of text
    without the letters of the tokens and of the tokens for numbers and
    for the half of the day (yyyy, yy, MM, M, dd, d, HH, H, hh, h, mm, m,
    ss, s, fff, tt, t), no two tokens of one letter side by side and no
    one-letter token before a lowercase letter; a one-letter token before
    a lowercase letter is text.  It is not token substitution for the
    names of the months: the later passes scan the name that an earlier
    pass has set in, and March comes out as "Marc" and the hour of 12,
    the abbreviation of October as "Oc" and the first letter of the half
    of the day. *)
Theorem filter_operand_format :
  (forall (ev : BrushEvent) (v : Visual),
     appliedFilters (onBrushEnd ev v) <> appliedFilters v ->
     exists a b target,
       isProgrammaticBrushUpdate v = false /\
       selectedStartDate (onBrushEnd ev v) = Some a /\
       selectedEndDate (onBrushEnd ev v) = Some b /\
       filterColumnTarget v = Some target /\
       appliedFilters (onBrushEnd ev v)
       = appliedFilters v ++
         [{| f_target := target;
             f_value :=
               if setting v useISOFormat true
               then (toISOString a ++ setting v delimiter "|" ++ toISOString b)%string
               else (createDateFormatter
                       (setting v outputFormat "yyyy-MM-dd HH:mm:ss") a
                     ++ setting v delimiter "|"
                     ++ createDateFormatter
                          (setting v outputFormat "yyyy-MM-dd HH:mm:ss") b)%string |}]) /\
  (forall t,
     0 <= fullYear (utcFields t) <= 9999 ->
     String.length (toISOString t) = 24%nat /\
     toISOString t
     = (pad (fullYear (utcFields t)) 4 ++ "-" ++ pad (month (utcFields t) + 1) 2
        ++ "-" ++ pad (date (utcFields t)) 2 ++ "T" ++ pad (hours (utcFields t)) 2
        ++ ":" ++ pad (minutes (utcFields t)) 2 ++ ":" ++ pad (seconds (utcFields t)) 2
        ++ "." ++ pad (milliseconds (utcFields t)) 3 ++ "Z")%string) /\
  (forall (ps : list Piece) (t : Z),
     wellFormed ps = true ->
     createDateFormatter (formatOf ps) t = renderPieces (localFields t) ps) /\
  (forall (k : Token) (c : ascii) (t : Z),
     lookahead k = true -> isLower c = true -> plain (String c "") = true ->
     createDateFormatter (tokenText k ++ String c "") t
     = (tokenText k ++ String c "")%string) /\
  (forall t,
     month (localFields t) = 2 ->
     renderPieces (localFields t) [Tok TMMMM] = "March" /\
     createDateFormatter (formatOf [Tok TMMMM]) t
     = String.append "Marc" (intToString (hour12 (hours (localFields t))))) /\
  (forall t,
     month (localFields t) = 9 ->
     renderPieces (localFields t) [Tok TMMM] = "Oct" /\
     createDateFormatter (formatOf [Tok TMMM]) t
     = String.append "Oc" (if 12 <=? hours (localFields t) then "P" else "A")).
Proof.
  split; [|split; [|split; [|split; [|split]]]].
  - intros ev v Hemit.
    unfold onBrushEnd in *.
    set (v' := match selection ev, xScale v with
               | None, Some (domain, _) =>
                   updateRangeDisplay
                     (setSelection (Some (fst domain)) (Some (snd domain)) v)
               | _, _ => v
               end) in *.
    assert (Hsame : isProgrammaticBrushUpdate v' = isProgrammaticBrushUpdate v /\
                    filterColumnTarget v' = filterColumnTarget v /\
                    appliedFilters v' = appliedFilters v /\
                    formattingSettings v' = formattingSettings v).
    { unfold v'; destruct (selection ev) as [[x0 x1]|]; [repeat split|].
      destruct (xScale v) as [[domain w]|]; repeat split. }
    destruct Hsame as [Hflag [Htarget [Hfilters Hsettings]]].
    destruct (isProgrammaticBrushUpdate v') eqn:Eflag; [congruence|].
    destruct (selectedStartDate v') as [a|] eqn:Ea; [|congruence].
    destruct (selectedEndDate v') as [b|] eqn:Eb; [|congruence].
    destruct (filterColumnTarget v') as [target|] eqn:Et; [|congruence].
    exists a, b, target.
    split; [congruence|].
    split; [exact Ea|]; split; [exact Eb|]; split; [congruence|].
    cbn [appliedFilters applyJsonFilter]; rewrite Hfilters.
    unfold filterValue, setting; rewrite Hsettings.
    destruct (formattingSettings v) as [st|]; [|reflexivity].
    destruct (useISOFormat st) as [[|]|]; reflexivity.
  - intros t Hy; split; [apply toISOString_length, Hy|].
    unfold toISOString, isoYear.
    replace ((0 <=? fullYear (utcFields t)) && (fullYear (utcFields t) <=? 9999))
      with true
      by (symmetry; apply andb_true_iff; split; apply Z.leb_le; lia).
    reflexivity.
  - intros ps t Hw; apply createDateFormatter_pieces, Hw.
  - intros k c t; apply format_blocked.
  - intros t Hm; split; [|apply format_march, Hm].
    unfold renderPieces; cbn [map joinStrings fold_right tokenValue].
    rewrite Hm; reflexivity.
  - intros t Hm; split; [|apply format_october, Hm].
    unfold renderPieces; cbn [map joinStrings fold_right tokenValue].
    rewrite Hm; reflexivity.
Qed.

End OperandFacts.

Lemma filter_operand_format_witness :
  wellFormed defaultPieces = true /\
  appliedFilters (@onBrushEnd sampleRuntime releaseEvent customReady)
  = [{| f_target := {| table := "Readings"; column := "Time" |};
        f_value := "1970-01-01 01:00:00;1970-01-01 03:00:00" |}].
Proof.
  assert (Hw : wellFormed defaultPieces = true) by reflexivity.
  split; [exact Hw|].
  assert (Hemit : appliedFilters (@onBrushEnd sampleRuntime releaseEvent customReady)
                  <> appliedFilters customReady).
  { vm_compute; discriminate. }
  destruct (@filter_operand_format sampleRuntime) as [Hop [_ [Hfmt _]]].
  destruct (Hop releaseEvent customReady Hemit)
    as [a [b [target [_ [Ha [Hb [Ht Hout]]]]]]].
  rewrite Hout.
  assert (Ea : a = 3600000) by (vm_compute in Ha; congruence).
  assert (Eb : b = 10800000) by (vm_compute in Hb; congruence).
  assert (Et : target = {| table := "Readings"; column := "Time" |})
    by (vm_compute in Ht; congruence).
  subst a b target.
  change (setting customReady useISOFormat true) with false.
  change (setting customReady outputFormat "yyyy-MM-dd HH:mm:ss")
    with (formatOf defaultPieces).
  rewrite !(Hfmt defaultPieces _ Hw).
  vm_compute; reflexivity.
Defined.

(** The release on the ready visual submits the ISO operand. *)
Example release_submits :
  appliedFilters (@onBrushEnd sampleRuntime releaseEvent readyVisual)
  = [{| f_target := {| table := "Readings"; column := "Time" |};
        f_value := "1970-01-01T01:00:00.000Z|1970-01-01T03:00:00.000Z" |}].
Proof. reflexivity. Qed.

(** The sample outputs of the two modes. *)
Example operand_iso :
  @filterValue sampleRuntime (visualWith noSettings) 1704067200000 1735689599999
  = "2024-01-01T00:00:00.000Z|2024-12-31T23:59:59.999Z".
Proof. reflexivity. Qed.

Example operand_custom :
  @filterValue sampleRuntime (visualWith customSettings) 1704067200000 1735689599999
  = "2024-01-01 00:00:00;2024-12-31 23:59:59".
Proof. reflexivity. Qed.

(** The names of months go through the later passes like any text: the
    "h" of March is taken for the hour of 12 and the "t" of October for
    the half of the day. *)
Example month_names_rescanned :
  @createDateFormatter sampleRuntime "MMMM d" 1710000000000 = "Marc4 9" /\
  @createDateFormatter sampleRuntime "MMM d, yyyy" 1728000000000 = "OcA 4, 2024".
Proof. split; reflexivity. Qed.

(** * Further properties *)

(** ** The merged sequence *)

Section MergeFacts.
Context {A : Type} (key : A -> Z).

Lemma insertSorted_front (x : A) (l : list A) :
  Forall (fun z => key x <= key z) l -> insertSorted key x l = x :: l.
Proof.
  destruct 1 as [|y l Hy _]; simpl; [reflexivity|].
  apply Z.leb_le in Hy; rewrite Hy; reflexivity.
Qed.

(** Filtering commutes with an insertion into a sorted list. *)
Lemma filter_insertSorted (f : A -> bool) (x : A) (l : list A) :
  StronglySorted (keyLe key) l ->
  filter f (insertSorted key x l)
  = if f x then insertSorted key x (filter f l) else filter f l.
Proof.
  induction 1 as [|y l Hs IH Hall]; [simpl; destruct (f x); reflexivity|].
  cbn [insertSorted].
  destruct (key x <=? key y) eqn:E.
  - apply Z.leb_le in E.
    change (filter f (x :: y :: l))
      with (if f x then x :: filter f (y :: l) else filter f (y :: l)).
    destruct (f x); [|reflexivity].
    symmetry; apply insertSorted_front.
    assert (Hge : Forall (fun z => key x <= key z) (y :: l)).
    { constructor; [exact E|].
      eapply Forall_impl; [|exact Hall].
      unfold keyLe; intros; lia. }
    apply Forall_forall; intros z Hz.
    apply filter_In in Hz; destruct Hz as [Hz _].
    rewrite Forall_forall in Hge; apply Hge, Hz.
  - cbn [filter]; rewrite IH.
    destruct (f y), (f x); try reflexivity.
    cbn [insertSorted]; rewrite E; reflexivity.
Qed.

(** The sort is stable: what it does to the elements that pass a test is
    what it does to them alone. *)
Lemma filter_sortBy (f : A -> bool) (l : list A) :
  filter f (sortBy key l) = sortBy key (filter f l).
Proof.
  induction l as [|x l IH]; simpl; [reflexivity|].
  rewrite filter_insertSorted by apply sortBy_sorted.
  rewrite IH.
  destruct (f x); reflexivity.
Qed.

End MergeFacts.

Section MergedModel.
Context {rt : Runtime}.

Lemma timeLe_trans :
  Relations_1.Transitive (fun a b : TimeDataPoint => timestamp a <= timestamp b).
Proof. intros a b c; lia. Qed.

Lemma detectGaps_sorted_le (s : string) (points : list TimeDataPoint) :
  StronglySorted (keyLe timestamp) (detectGaps s points).
Proof.
  apply (Sorted_StronglySorted timeLe_trans).
  apply (detectGaps_Sorted Z.le); [intros; lia|].
  apply StronglySorted_Sorted, (sortBy_sorted timestamp).
Qed.

(** X1.  What [renderChart] finds when it groups the model by series is what
    gap detection made of the rows of the series, point for point and in
    the same order. *)
Theorem series_view_exact (dv : option DataViewCategorical) (s : string) :
  seriesPoints s (parseData dv)
  = match seriesPoints s (parseRows dv) with
    | [] => []
    | pts => detectGaps s pts
    end.
Proof.
  rewrite parseData_postProcess.
  unfold postProcess.
  unfold seriesPoints at 1.
  rewrite filter_sortBy.
  fold (seriesPoints s (flat_map (fun sp => detectGaps (fst sp) (snd sp))
                                 (seriesMapOf (parseRows dv)))).
  destruct (seriesMapOf_spec (parseRows dv)) as [Hnd Hget].
  rewrite seriesPoints_groups;
    [|exact Hnd | intros k pts; apply detectGaps_seriesKey].
  rewrite Hget.
  destruct (seriesPoints s (parseRows dv)) as [|p pts]; [reflexivity|].
  apply sortBy_sorted_id, detectGaps_sorted_le.
Qed.

(** X2.  The model is in time order whatever the order of the rows, and the
    points at one instant keep the order in which the series put them. *)
Theorem model_sorted_stable (dv : option DataViewCategorical) :
  StronglySorted (keyLe timestamp) (parseData dv) /\
  forall t,
    filter (fun d => timestamp d =? t) (parseData dv)
    = filter (fun d => timestamp d =? t)
        (flat_map (fun sp => detectGaps (fst sp) (snd sp))
                  (seriesMapOf (parseRows dv))).
Proof.
  rewrite parseData_postProcess; unfold postProcess.
  split; [apply sortBy_sorted|].
  intros t.
  rewrite filter_sortBy.
  apply sortBy_sorted_id.
  set (l := filter _ _).
  assert (Hall : Forall (fun d => timestamp d = t) l).
  { apply Forall_forall; intros d Hd.
    apply filter_In in Hd; destruct Hd as [_ Hd]; apply Z.eqb_eq, Hd. }
  clearbody l.
  induction Hall as [|d l Hd Hall IH]; constructor; [exact IH|].
  eapply Forall_impl; [|exact Hall].
  unfold keyLe; intros e He; lia.
Qed.

End MergedModel.

(** ** The time extent *)

Section ExtentFacts.
Context {rt : Runtime}.

Lemma fold_min_spec (l : list Z) (a : Z) :
  (fold_left Z.min l a = a \/ In (fold_left Z.min l a) l) /\
  fold_left Z.min l a <= a /\
  forall x, In x l -> fold_left Z.min l a <= x.
Proof.
  revert a; induction l as [|y l IH]; intros a; simpl.
  - split; [left; reflexivity|]; split; [lia|]; intros x [].
  - destruct (IH (Z.min a y)) as [Hin [Hle Hall]].
    split; [|split].
    + destruct Hin as [Heq | Hin]; [|right; right; exact Hin].
      rewrite Heq.
      destruct (Z.min_spec a y) as [[_ ->] | [_ ->]]; [left | right; left]; reflexivity.
    + lia.
    + intros x [<- | Hx]; [lia | apply Hall, Hx].
Qed.

Lemma fold_max_spec (l : list Z) (a : Z) :
  (fold_left Z.max l a = a \/ In (fold_left Z.max l a) l) /\
  a <= fold_left Z.max l a /\
  forall x, In x l -> x <= fold_left Z.max l a.
Proof.
  revert a; induction l as [|y l IH]; intros a; simpl.
  - split; [left; reflexivity|]; split; [lia|]; intros x [].
  - destruct (IH (Z.max a y)) as [Hin [Hle Hall]].
    split; [|split].
    + destruct Hin as [Heq | Hin]; [|right; right; exact Hin].
      rewrite Heq.
      destruct (Z.max_spec a y) as [[_ ->] | [_ ->]]; [right; left | left]; reflexivity.
    + lia.
    + intros x [<- | Hx]; [lia | apply Hall, Hx].
Qed.

(** [d3.extent] gives the least and the greatest instant of the data. *)
Lemma timeExtentOf_spec (data : list TimeDataPoint) (lo hi : Z) :
  timeExtentOf data = Some (lo, hi) ->
  (exists p, In p data /\ timestamp p = lo) /\
  (exists q, In q data /\ timestamp q = hi) /\
  forall r, In r data -> lo <= timestamp r <= hi.
Proof.
  destruct data as [|d ds]; [discriminate|].
  simpl; intros H; injection H as <- <-.
  destruct (fold_min_spec (map timestamp ds) (timestamp d)) as [Hmin [Hmin0 HminAll]].
  destruct (fold_max_spec (map timestamp ds) (timestamp d)) as [Hmax [Hmax0 HmaxAll]].
  split; [|split].
  - destruct Hmin as [-> | Hin]; [exists d; split; [left|]; reflexivity|].
    apply in_map_iff in Hin; destruct Hin as [p [Hp Hin]].
    exists p; split; [right; exact Hin | exact Hp].
  - destruct Hmax as [-> | Hin]; [exists d; split; [left|]; reflexivity|].
    apply in_map_iff in Hin; destruct Hin as [p [Hp Hin]].
    exists p; split; [right; exact Hin | exact Hp].
  - intros r [<- | Hr]; [lia|].
    split; [apply HminAll | apply HmaxAll]; apply in_map, Hr.
Qed.

Lemma timeExtentOf_unique (l l' : list TimeDataPoint) (e e' : Z * Z) :
  timeExtentOf l = Some e -> timeExtentOf l' = Some e' ->
  (forall p, In p l -> In p l') ->
  (forall p, In p l' -> exists a b, In a l /\ In b l /\
                                    timestamp a <= timestamp p <= timestamp b) ->
  e = e'.
Proof.
  destruct e as [lo hi], e' as [lo' hi'].
  intros H H' Hsub Hbetween.
  destruct (timeExtentOf_spec l lo hi H) as [[p [Hp Hpt]] [[q [Hq Hqt]] Hall]].
  destruct (timeExtentOf_spec l' lo' hi' H') as [[p' [Hp' Hpt']] [[q' [Hq' Hqt']] Hall']].
  pose proof (Hall' p (Hsub p Hp)) as B1.
  pose proof (Hall' q (Hsub q Hq)) as B2.
  destruct (Hbetween p' Hp') as [a [b [Ha [Hb Hab]]]].
  destruct (Hbetween q' Hq') as [a' [b' [Ha' [Hb' Hab']]]].
  pose proof (Hall a Ha); pose proof (Hall b Hb).
  pose proof (Hall a' Ha'); pose proof (Hall b' Hb').
  f_equal; lia.
Qed.

(** A point that gap detection inserts lies strictly between two points
    of the series. *)
Lemma fillGaps_between (m thr : Z) (s : string) (p : TimeDataPoint) :
  (0 < thr -> 0 < m /\ forall d, thr < toDouble d -> m < d) ->
  forall (rest : list TimeDataPoint) (prev : TimeDataPoint),
  In p (fillGaps m thr s prev rest) ->
  In p rest \/
  exists a b, In a (prev :: rest) /\ In b (prev :: rest) /\
              timestamp a < timestamp p < timestamp b.
Proof.
  intros Hthr.
  induction rest as [|curr rest IH]; intros prev Hin; simpl in Hin; [destruct Hin|].
  apply in_app_or in Hin.
  destruct Hin as [Hin | [Heq | Hin]].
  - destruct ((0 <? thr) && (thr <? toDouble (timestamp curr - timestamp prev))) eqn:E;
      [|destruct Hin].
    destruct Hin as [<- | []].
    apply andb_true_iff in E; destruct E as [E1 E2].
    apply Z.ltb_lt in E1; apply Z.ltb_lt in E2.
    destruct (Hthr E1) as [Hm Hd]; specialize (Hd _ E2).
    right; exists prev, curr.
    split; [left; reflexivity|]; split; [right; left; reflexivity|].
    simpl; lia.
  - left; left; exact Heq.
  - destruct (IH curr Hin) as [H | [a [b [Ha [Hb Hab]]]]].
    + left; right; exact H.
    + right; exists a, b; split; [right; exact Ha|]; split; [right; exact Hb | exact Hab].
Qed.

Lemma detectGaps_between (s : string) (points : list TimeDataPoint) (p : TimeDataPoint) :
  In p (detectGaps s points) ->
  exists a b, In a points /\ In b points /\
              timestamp a <= timestamp p <= timestamp b.
Proof.
  unfold detectGaps.
  assert (Hs : forall x, In x (sortBy timestamp points) -> In x points)
    by (intros x; apply sortBy_In).
  destruct (sortBy timestamp points) as [|p0 [|p1 rest]].
  - intros [].
  - intros Hin; exists p, p; repeat split; try (apply Hs, Hin); lia.
  - intros [<- | Hin].
    + exists p0, p0; repeat split; try (apply Hs; left; reflexivity); lia.
    + apply fillGaps_between in Hin; [|apply gapThreshold_bound].
      destruct Hin as [Hin | [a [b [Ha [Hb Hab]]]]].
      * exists p, p; repeat split; try (apply Hs; right; exact Hin); lia.
      * exists a, b; repeat split; try (apply Hs; assumption); lia.
Qed.

(** X3.  Gap detection leaves the time extent alone: the domain of the time
    scale and of the brush is that of the rows. *)
Theorem gap_detection_keeps_extent (dv : option DataViewCategorical) :
  timeExtentOf (parseData dv) = timeExtentOf (parseRows dv).
Proof.
  rewrite parseData_postProcess.
  set (data := parseRows dv).
  assert (Hsub : forall p, In p data -> In p (postProcess data))
    by apply postProcess_keeps.
  assert (Hbetween : forall p, In p (postProcess data) ->
            exists a b, In a data /\ In b data /\
                        timestamp a <= timestamp p <= timestamp b).
  { intros p Hin.
    unfold postProcess in Hin.
    apply sortBy_In, in_flat_map in Hin.
    destruct Hin as [[s pts] [Hsp Hin]]; simpl in Hin.
    apply seriesMapOf_In in Hsp; destruct Hsp as [-> _].
    destruct (detectGaps_between s _ p Hin) as [a [b [Ha [Hb Hab]]]].
    apply seriesPoints_In in Ha; apply seriesPoints_In in Hb.
    exists a, b; repeat split; try apply Ha; try apply Hb; lia. }
  destruct (timeExtentOf data) as [e|] eqn:E.
  - destruct (timeExtentOf (postProcess data)) as [e'|] eqn:E'.
    + f_equal; symmetry.
      apply (timeExtentOf_unique data (postProcess data) e e' E E' Hsub Hbetween).
    + destruct data as [|d ds]; [discriminate|].
      specialize (Hsub d (or_introl eq_refl)).
      destruct (postProcess (d :: ds)); [destruct Hsub | discriminate].
  - destruct data as [|d ds]; [reflexivity | discriminate].
Qed.

End ExtentFacts.

(** ** Timeline markers *)

Section ZMapFacts.
Context {V : Type}.

Lemma zmapGet_mapSet (k k' : Z) (v : V) (m : list (Z * V)) :
  mapGet Z.eqb k (mapSet Z.eqb k' v m)
  = if k =? k' then Some v else mapGet Z.eqb k m.
Proof.
  induction m as [|[k0 v0] m IH]; simpl.
  - reflexivity.
  - destruct (k' =? k0) eqn:E; simpl.
    + apply Z.eqb_eq in E; subst k0.
      destruct (k =? k'); reflexivity.
    + rewrite IH.
      destruct (k =? k0) eqn:E0; [|reflexivity].
      apply Z.eqb_eq in E0; subst k0.
      rewrite Z.eqb_sym, E; reflexivity.
Qed.

Lemma zmapKeys_mapSet (k : Z) (v : V) (m : list (Z * V)) :
  mapKeys (mapSet Z.eqb k v m)
  = if existsb (Z.eqb k) (mapKeys m) then mapKeys m else mapKeys m ++ [k].
Proof.
  unfold mapKeys.
  induction m as [|[k0 v0] m IH]; simpl; [reflexivity|].
  destruct (k =? k0) eqn:E; simpl.
  - apply Z.eqb_eq in E; subst k0; reflexivity.
  - rewrite IH; destruct (existsb (Z.eqb k) (map fst m)); reflexivity.
Qed.

Lemma zmapKeys_NoDup (k : Z) (v : V) (m : list (Z * V)) :
  NoDup (mapKeys m) -> NoDup (mapKeys (mapSet Z.eqb k v m)).
Proof.
  intros H; rewrite zmapKeys_mapSet.
  destruct (existsb (Z.eqb k) (mapKeys m)) eqn:E; [exact H|].
  apply NoDup_snoc; [exact H|].
  intros Hin.
  assert (existsb (Z.eqb k) (mapKeys m) = true)
    by (apply existsb_exists; exists k; split; [exact Hin | apply Z.eqb_refl]).
  congruence.
Qed.

Lemma zIn_mapGet (k : Z) (v : V) (m : list (Z * V)) :
  mapGet Z.eqb k m = Some v -> In (k, v) m.
Proof.
  induction m as [|[k0 v0] m IH]; simpl; [discriminate|].
  destruct (k =? k0) eqn:E.
  - apply Z.eqb_eq in E; subst k0; intros H; injection H as ->; left; reflexivity.
  - intros H; right; apply IH, H.
Qed.

Lemma zmapGet_In (k : Z) (v : V) (m : list (Z * V)) :
  NoDup (mapKeys m) -> In (k, v) m -> mapGet Z.eqb k m = Some v.
Proof.
  unfold mapKeys.
  induction m as [|[k0 v0] m IH]; simpl; [intros _ []|].
  intros Hnd Hin; inversion Hnd as [|? ? Hnot Hnd']; subst.
  destruct Hin as [Heq | Hin].
  - injection Heq as -> ->; rewrite Z.eqb_refl; reflexivity.
  - destruct (k =? k0) eqn:E.
    + apply Z.eqb_eq in E; subst k0.
      exfalso; apply Hnot.
      apply in_map_iff; exists (k, v); split; [reflexivity | exact Hin].
    + apply IH; assumption.
Qed.

End ZMapFacts.

Lemma lastOf_app {A : Type} (l l' : list A) :
  lastOf (l ++ l') = match lastOf l' with Some x => Some x | None => lastOf l end.
Proof.
  unfold lastOf.
  induction l' as [|x l' IH] using rev_ind.
  - rewrite app_nil_r; reflexivity.
  - rewrite app_assoc, !map_app; simpl.
    rewrite !last_last; reflexivity.
Qed.

Lemma lastOf_In {A : Type} (l : list A) (x : A) : lastOf l = Some x -> In x l.
Proof.
  unfold lastOf.
  induction l as [|y l IH] using rev_ind; [discriminate|].
  rewrite map_app; simpl; rewrite last_last.
  intros H; injection H as ->; apply in_or_app; right; left; reflexivity.
Qed.

Lemma lastOf_None {A : Type} (l : list A) : lastOf l = None <-> l = [].
Proof.
  unfold lastOf; split; [|intros ->; reflexivity].
  destruct l as [|y l] using rev_ind; [reflexivity|].
  rewrite map_app; simpl; rewrite last_last; discriminate.
Qed.

Section MarkerFacts.
Context {rt : Runtime}.

(** The first pass over one group: the entry of an instant is the last
    marker the group writes there, or what the map held before. *)
Lemma collectMarkers_get (timestamps : list PrimitiveValue)
    (g : DataViewValueColumnGroup) (gm : list (Z * string)) (t : Z) :
  mapGet Z.eqb t (collectMarkers timestamps gm g)
  = match lastOf (markerWrites timestamps [g] t) with
    | Some m => Some m
    | None => mapGet Z.eqb t gm
    end.
Proof.
  unfold collectMarkers, markerWrites, markerCell; simpl; rewrite app_nil_r.
  destruct (findMeasure "timelineMarkers" g) as [measure|].
  - generalize (seq 0 (List.length timestamps)); intros l.
    revert gm; induction l as [|i l IH]; intros gm; simpl; [reflexivity|].
    rewrite IH, lastOf_app.
    match goal with |- match ?x with _ => _ end = _ => destruct x; [reflexivity|] end.
    destruct (parseDate (jsNth i timestamps)) as [time|]; [|reflexivity].
    destruct (truthy (jsNth i (v_values measure))); simpl; [|reflexivity].
    destruct (strNonEmpty (toStr (jsNth i (v_values measure)))); simpl; [|reflexivity].
    destruct (String.eqb (trim (toStr (jsNth i (v_values measure)))) ""); simpl;
      [reflexivity|].
    rewrite zmapGet_mapSet, (Z.eqb_sym t time).
    destruct (time =? t); reflexivity.
  - assert (E : forall l : list nat,
               flat_map (fun i => match parseDate (jsNth i timestamps) with
                                  | Some _ => @nil string | None => [] end) l = []).
    { induction l as [|i l IH]; simpl; [reflexivity|].
      rewrite IH; destruct (parseDate (jsNth i timestamps)); reflexivity. }
    rewrite E; reflexivity.
Qed.

Lemma markerWrites_app (timestamps : list PrimitiveValue)
    (gs gs' : list DataViewValueColumnGroup) (t : Z) :
  markerWrites timestamps (gs ++ gs') t
  = markerWrites timestamps gs t ++ markerWrites timestamps gs' t.
Proof. unfold markerWrites; apply flat_map_app. Qed.

Lemma globalMarkers_get (timestamps : list PrimitiveValue)
    (groups : list DataViewValueColumnGroup) (t : Z) :
  mapGet Z.eqb t (globalMarkers timestamps groups)
  = lastOf (markerWrites timestamps groups t).
Proof.
  unfold globalMarkers.
  induction groups as [|g groups IH] using rev_ind; [reflexivity|].
  rewrite fold_left_app; simpl.
  rewrite collectMarkers_get, IH, markerWrites_app, lastOf_app; reflexivity.
Qed.

Lemma markerWrites_In (timestamps : list PrimitiveValue)
    (groups : list DataViewValueColumnGroup) (t : Z) (m : string) :
  In m (markerWrites timestamps groups t) <->
  exists g i, In g groups /\ (i < List.length timestamps)%nat /\
              parseDate (jsNth i timestamps) = Some t /\ markerCell g i = Some m.
Proof.
  unfold markerWrites; rewrite in_flat_map; split.
  - intros [g [Hg Hin]].
    apply in_flat_map in Hin; destruct Hin as [i [Hi Hin]].
    apply in_seq in Hi.
    destruct (parseDate (jsNth i timestamps)) as [time|] eqn:Et; [|destruct Hin].
    destruct (markerCell g i) as [m'|] eqn:Em; [|destruct Hin].
    destruct (time =? t) eqn:E; [|destruct Hin].
    apply Z.eqb_eq in E; subst time.
    destruct Hin as [<- | []].
    exists g, i; repeat split; try assumption; lia.
  - intros [g [i [Hg [Hi [Ht Hm]]]]].
    exists g; split; [exact Hg|].
    apply in_flat_map; exists i; split; [apply in_seq; lia|].
    rewrite Ht, Hm, Z.eqb_refl; left; reflexivity.
Qed.

(** X4.  Markers are promoted across series: the marker of a row point is the
    last marker written at its instant by any group and any row, so the
    row points of one instant carry the same marker, and a point is marked
    exactly when some group has a marker that counts in a row of that
    instant. *)
Theorem markers_promoted (dv : option DataViewCategorical)
    (cat : DataViewCategoryColumn) (p : TimeDataPoint) :
  timestampCategoryOf dv = Some cat ->
  In p (parseRows dv) ->
  timelineMarker p = lastOf (markerWrites (c_values cat) (groupsOf dv) (timestamp p)) /\
  (forall q, In q (parseRows dv) -> timestamp q = timestamp p ->
             timelineMarker q = timelineMarker p) /\
  (hasMarker p = true <->
   exists g i m, In g (groupsOf dv) /\ (i < List.length (c_values cat))%nat /\
                 parseDate (jsNth i (c_values cat)) = Some (timestamp p) /\
                 markerCell g i = Some m).
Proof.
  intros Hcat; rewrite parseRows_shape, Hcat.
  assert (Hmark : forall q, In q (rawPoints cat (groupsOf dv)) ->
            timelineMarker q
            = lastOf (markerWrites (c_values cat) (groupsOf dv) (timestamp q))).
  { intros q Hq; apply rawPoints_In in Hq.
    destruct Hq as [g [i [t [_ [_ [_ ->]]]]]]; simpl.
    apply globalMarkers_get. }
  intros Hp; split; [apply Hmark, Hp|]; split.
  - intros q Hq Ht; rewrite (Hmark q Hq), (Hmark p Hp), Ht; reflexivity.
  - unfold hasMarker; rewrite (Hmark p Hp); split.
    + destruct (lastOf _) as [m|] eqn:E; [intros _ | discriminate].
      apply lastOf_In, markerWrites_In in E.
      destruct E as [g [i H]]; exists g, i, m; exact H.
    + intros [g [i [m [Hg [Hi [Ht Hm]]]]]].
      assert (Hin : In m (markerWrites (c_values cat) (groupsOf dv) (timestamp p)))
        by (apply markerWrites_In; exists g, i; repeat split; assumption).
      destruct (lastOf _) as [m'|] eqn:E; [reflexivity|].
      apply lastOf_None in E; rewrite E in Hin; destruct Hin.
Qed.

End MarkerFacts.

Lemma markers_promoted_witness :
  let p := seriesPoint "B" 0 0 (inject_Z 3) in
  let marked := {| timestamp := timestamp p; value := value p; series := series p;
                   anomaly := anomaly p; timelineMarker := Some "start";
                   selectionId := selectionId p; lineColor := lineColor p;
                   areaColor := areaColor p; index := index p |} in
  In marked (@parseRows sampleRuntime (Some markedView)) /\
  hasMarker marked = true.
Proof.
  intros p marked.
  assert (Hin : In marked (@parseRows sampleRuntime (Some markedView))).
  { simpl; right; right; left; reflexivity. }
  split; [exact Hin|].
  destruct (@markers_promoted sampleRuntime (Some markedView) _ marked eq_refl Hin)
    as [_ [_ H]].
  apply H.
  exists {| g_name := VString "A";
            g_values :=
              [{| v_source := sampleColumn "values" "Readings.Value";
                  v_values := [num 1; num 2] |};
               {| v_source := sampleColumn "timelineMarkers" "Readings.Event";
                  v_values := [VString "start"; VNull] |}] |}, 0%nat, "start".
  repeat split; simpl; auto.
Defined.

(** ** Timeline markers on the page *)

Section TimelineFacts.

Lemma lastOf_filter_snoc {A : Type} (f : A -> bool) (l : list A) (d : A) :
  lastOf (filter f (l ++ [d])) = if f d then Some d else lastOf (filter f l).
Proof.
  rewrite filter_app, lastOf_app; simpl.
  destruct (f d); reflexivity.
Qed.

Lemma uniqueMarkers_spec (data : list TimeDataPoint) :
  let um := fold_left
              (fun um d => if hasMarker d then mapSet Z.eqb (timestamp d) d um else um)
              data [] in
  NoDup (mapKeys um) /\
  (forall k v, In (k, v) um -> k = timestamp v) /\
  (forall t, mapGet Z.eqb t um = lastOf (filter (markedAt t) data)).
Proof.
  induction data as [|d data IH] using rev_ind; simpl.
  - split; [constructor|]; split; [intros k v [] | reflexivity].
  - rewrite fold_left_app; simpl.
    destruct IH as [Hnd [Hkey Hget]].
    set (um := fold_left _ data []) in *.
    split; [|split].
    + destruct (hasMarker d); [apply zmapKeys_NoDup|]; exact Hnd.
    + destruct (hasMarker d); [|exact Hkey].
      intros k v Hin.
      clear Hget Hnd; induction um as [|[k0 v0] um IHum]; simpl in Hin.
      * destruct Hin as [H | []]; injection H as <- <-; reflexivity.
      * destruct (timestamp d =? k0) eqn:E.
        -- apply Z.eqb_eq in E.
           destruct Hin as [H | Hin].
           ++ injection H as <- <-; symmetry; exact E.
           ++ apply (Hkey k v); right; exact Hin.
        -- destruct Hin as [H | Hin].
           ++ apply (Hkey k v); left; exact H.
           ++ apply IHum; [|exact Hin].
              intros k' v' H'; apply Hkey; right; exact H'.
    + intros t; rewrite lastOf_filter_snoc; unfold markedAt at 1.
      destruct (hasMarker d); simpl; [|apply Hget].
      rewrite zmapGet_mapSet, (Z.eqb_sym t).
      destruct (timestamp d =? t); [reflexivity | apply Hget].
Qed.

(** X5.  The marker lines and symbols: one for each instant that has a marked
    point, bound to the last marked point of that instant in data order. *)
Theorem timeline_markers_unique (data : list TimeDataPoint) :
  NoDup (map timestamp (timelinePoints data)) /\
  (forall p, In p (timelinePoints data) <->
             lastOf (filter (markedAt (timestamp p)) data) = Some p) /\
  (forall d, In d data -> hasMarker d = true ->
             exists p, In p (timelinePoints data) /\ timestamp p = timestamp d).
Proof.
  unfold timelinePoints, mapValues.
  destruct (uniqueMarkers_spec data) as [Hnd [Hkey Hget]]; simpl in *.
  set (um := fold_left _ data []) in *.
  assert (Hin : forall p, In p (map snd um) <->
                          lastOf (filter (markedAt (timestamp p)) data) = Some p).
  { intros p; rewrite <- Hget; split.
    - intros H; apply in_map_iff in H; destruct H as [[k v] [Hv H]].
      simpl in Hv; subst v.
      rewrite (Hkey k p H) in H.
      apply zmapGet_In; assumption.
    - intros H; apply zIn_mapGet in H.
      apply in_map_iff; exists (timestamp p, p); split; [reflexivity | exact H]. }
  split; [|split].
  - replace (map timestamp (map snd um)) with (mapKeys um); [exact Hnd|].
    unfold mapKeys; rewrite map_map.
    apply map_ext_in; intros [k v] H; simpl; apply Hkey, H.
  - exact Hin.
  - intros d Hd Hm.
    destruct (lastOf (filter (markedAt (timestamp d)) data)) as [p|] eqn:E.
    + pose proof (lastOf_In _ _ E) as Hp.
      apply filter_In in Hp; destruct Hp as [_ Hp].
      unfold markedAt in Hp; apply andb_true_iff in Hp; destruct Hp as [_ Hp].
      apply Z.eqb_eq in Hp.
      exists p; split; [|exact Hp].
      apply Hin; rewrite Hp; exact E.
    + apply lastOf_None in E.
      assert (In d (filter (markedAt (timestamp d)) data)).
      { apply filter_In; split; [exact Hd|].
        unfold markedAt; rewrite Hm, Z.eqb_refl; reflexivity. }
      rewrite E in H; destruct H.
Qed.

End TimelineFacts.

(** ** The filter target *)

Section TargetFacts.
Context {rt : Runtime}.

Lemma lastIndexOfFrom_spec (c : ascii) (s : string) :
  forall (i : nat) (found : option nat),
  (occurs c s = false /\ lastIndexOfFrom c i s found = found) \/
  (exists k : nat,
     lastIndexOfFrom c i s found = Some (i + k)%nat /\
     s = String.append (substring 0 k s) (String c (dropStr (S k) s)) /\
     occurs c (dropStr (S k) s) = false).
Proof.
  induction s as [|c' s IH]; intros i found; simpl.
  - left; split; reflexivity.
  - destruct (IH (S i) (if Ascii.eqb c c' then Some i else found))
      as [[Hno Hres] | [k [Hres [Hs Hno]]]].
    + destruct (Ascii.eqb c c') eqn:E.
      * right; exists 0%nat.
        apply Ascii.eqb_eq in E; subst c'.
        rewrite Hres, Nat.add_0_r; repeat split.
        destruct s; exact Hno.
      * left; split; [exact Hno | exact Hres].
    + right; exists (S k).
      rewrite Hres, Nat.add_succ_r; repeat split; [|exact Hno].
      simpl; f_equal; exact Hs.
Qed.

Lemma occurs_app (c : ascii) (s s' : string) :
  occurs c (String.append s s') = occurs c s || occurs c s'.
Proof.
  induction s as [|c' s IH]; simpl; [reflexivity|].
  rewrite IH, orb_assoc; reflexivity.
Qed.

Lemma filterCategoryOf_In (categories : list DataViewCategoryColumn)
    (fc : DataViewCategoryColumn) :
  filterCategoryOf categories = Some fc -> In fc categories.
Proof.
  unfold filterCategoryOf.
  destruct (find (fun c => hasRole "filterField" (c_source c)) categories) eqn:E1.
  - intros H; injection H as <-; apply (find_some _ _ E1).
  - destruct (Nat.ltb 1 (List.length categories)).
    + destruct (find (fun c => negb (hasRole "timestamp" (c_source c))) categories) eqn:E2.
      * intros H; injection H as <-; apply (find_some _ _ E2).
      * intros H; apply (find_some _ _ H).
    + intros H; apply (find_some _ _ H).
Qed.

(** X6.  The target names the two parts of the query name around its last dot:
    putting them together again gives the query name, and the column part
    has no dot.  A query name without a dot, or whose only dot comes first,
    gives the display name with an empty table. *)
Theorem filter_target_split (dv : option DataView) (target : FilterTarget) :
  filterTargetOf dv = Some target ->
  exists view cat categories fc qn,
    dv = Some view /\ categorical view = Some cat /\
    dv_categories cat = Some categories /\
    filterCategoryOf categories = Some fc /\ In fc categories /\
    queryName (c_source fc) = Some qn /\ qn <> "" /\
    ((table target <> "" /\
      qn = String.append (table target) (String "." (column target)) /\
      occurs "." (column target) = false)
     \/
     (table target = "" /\ column target = displayName (c_source fc) /\
      occurs "." (dropStr 1 qn) = false)).
Proof.
  unfold filterTargetOf.
  destruct dv as [view|]; [|discriminate].
  destruct (categorical view) as [cat|] eqn:Ecat; [|discriminate].
  destruct (dv_categories cat) as [categories|] eqn:Ecats; [|discriminate].
  destruct (filterCategoryOf categories) as [fc|] eqn:Efc; [|discriminate].
  destruct (queryName (c_source fc)) as [qn|] eqn:Eqn; [|discriminate].
  destruct (strNonEmpty qn) eqn:Ene; [|discriminate].
  intros H.
  exists view, cat, categories, fc, qn.
  split; [reflexivity|]; split; [exact Ecat|]; split; [exact Ecats|].
  split; [exact Efc|]; split; [apply (filterCategoryOf_In _ _ Efc)|].
  split; [exact Eqn|]; split; [intros ->; discriminate|].
  unfold lastIndexOfDot in H.
  destruct (lastIndexOfFrom_spec "." qn 0 None) as [[Hno Hres] | [k [Hres [Hs Hno]]]].
  - rewrite Hres in H; injection H as <-; right; simpl.
    repeat split.
    destruct qn as [|c qn]; [discriminate|].
    simpl in Hno; apply orb_false_iff in Hno; apply Hno.
  - rewrite Hres in H; simpl in H.
    destruct k as [|k]; injection H as <-; simpl.
    + right; repeat split; exact Hno.
    + left; destruct qn as [|c qn]; [discriminate|].
      split; [discriminate|]; split; [exact Hs | exact Hno].
Qed.

(** The three tiers of the choice of the filter category, seen from the
    result: a category in the filter role wins; without one, and with more
    than one category, the first category that is not the timestamp; and
    the timestamp category last. *)
Lemma filterCategoryOf_tiers (categories : list DataViewCategoryColumn)
    (fc : DataViewCategoryColumn) :
  filterCategoryOf categories = Some fc ->
  hasRole "filterField" (c_source fc) = true \/
  (forallb (fun c => negb (hasRole "filterField" (c_source c))) categories = true /\
   ((1 < List.length categories)%nat /\ hasRole "timestamp" (c_source fc) = false \/
    hasRole "timestamp" (c_source fc) = true)).
Proof.
  unfold filterCategoryOf.
  destruct (find (fun c => hasRole "filterField" (c_source c)) categories) eqn:E1.
  - intros H; injection H as <-; left; apply (find_some _ _ E1).
  - assert (Hnone : forallb (fun c => negb (hasRole "filterField" (c_source c)))
                            categories = true).
    { apply forallb_forall; intros c Hc.
      rewrite (find_none _ _ E1 c Hc); reflexivity. }
    destruct (Nat.ltb 1 (List.length categories)) eqn:El.
    + destruct (find (fun c => negb (hasRole "timestamp" (c_source c))) categories) eqn:E2.
      * intros H; injection H as <-; right; split; [exact Hnone|]; left.
        split; [apply Nat.ltb_lt, El|].
        apply find_some in E2; destruct E2 as [_ E2].
        apply negb_true_iff, E2.
      * intros H; right; split; [exact Hnone|]; right; apply (find_some _ _ H).
    + intros H; right; split; [exact Hnone|]; right; apply (find_some _ _ H).
Qed.

Lemma onBrush_target (e : BrushEvent) (v : Visual) :
  filterColumnTarget (onBrush e v) = filterColumnTarget v.
Proof.
  unfold onBrush.
  destruct (selection e) as [[x0 x1]|]; [|reflexivity].
  destruct (xScale v) as [[domain w]|]; reflexivity.
Qed.

Lemma onBrushEnd_target (e : BrushEvent) (v : Visual) :
  filterColumnTarget (onBrushEnd e v) = filterColumnTarget v.
Proof.
  unfold onBrushEnd.
  set (v1 := match selection e, xScale v with
             | None, Some (domain, _) => _
             | _, _ => v
             end).
  assert (H1 : filterColumnTarget v1 = filterColumnTarget v).
  { unfold v1; destruct (selection e) as [[x0 x1]|]; [reflexivity|].
    destruct (xScale v) as [[domain w]|]; reflexivity. }
  rewrite <- H1.
  destruct (isProgrammaticBrushUpdate v1); [reflexivity|].
  destruct (selectedStartDate v1), (selectedEndDate v1),
    (filterColumnTarget v1) eqn:Et; try reflexivity; exact Et.
Qed.

Lemma brushMove_target (sel : Q * Q) (v : Visual) :
  filterColumnTarget (brushMove sel v) = filterColumnTarget v.
Proof.
  unfold brushMove; rewrite onBrushEnd_target, onBrush_target; reflexivity.
Qed.

Lemma restoreBrushSelection_target (v : Visual) :
  filterColumnTarget (restoreBrushSelection v) = filterColumnTarget v.
Proof.
  unfold restoreBrushSelection.
  destruct (selectedStartDate v), (selectedEndDate v), (brush v),
    (xScale v) as [[domain w]|]; try reflexivity.
  cbn [filterColumnTarget setTimers updateRangeDisplay].
  rewrite brushMove_target; reflexivity.
Qed.

Lemma renderChart_target (width height : Q) (v : Visual) :
  filterColumnTarget (renderChart width height v) = filterColumnTarget v.
Proof.
  unfold renderChart.
  destruct (timeExtentOf (data v)) as [extent|]; [|reflexivity].
  set (v2 := setupBrush _ _ _).
  assert (H2 : filterColumnTarget v2 = filterColumnTarget v) by reflexivity.
  destruct (selectedStartDate v2), (selectedEndDate v2);
    try (rewrite brushMove_target; exact H2).
  rewrite restoreBrushSelection_target; exact H2.
Qed.

Lemma update_target (o : VisualUpdateOptions) (v : Visual) :
  filterColumnTarget (update o v) = filterTargetOf (dataView0 o).
Proof.
  unfold update.
  destruct (Qltb _ 100 || Qltb _ 50); [reflexivity|].
  destruct (data (loadOptions o v)) eqn:E; [reflexivity|].
  rewrite renderChart_target; reflexivity.
Qed.

Lemma parseData_nonempty_timestamp (dv : option DataViewCategorical) :
  parseData dv <> [] ->
  exists cat categories c,
    dv = Some cat /\ dv_categories cat = Some categories /\
    In c categories /\ hasRole "timestamp" (c_source c) = true.
Proof.
  unfold parseData.
  destruct dv as [cat|]; [|congruence].
  destruct (dv_categories cat) as [[|c cs]|] eqn:Ec; try congruence.
  destruct (dv_values cat) as [groups|]; [|congruence].
  destruct (findTimestampCategory (c :: cs)) as [tc|] eqn:Et; [|congruence].
  intros _; exists cat, (c :: cs), tc.
  unfold findTimestampCategory in Et; apply find_some in Et.
  repeat split; [exact Ec | apply Et | apply Et].
Qed.

(** X7.  Whenever an update leaves data, there is a category to filter on: the
    filter target is absent only if the chosen category has no query
    name. *)
Theorem data_has_filter_category (o : VisualUpdateOptions) (v : Visual) :
  data (update o v) <> [] ->
  exists view cat categories fc,
    dataView0 o = Some view /\ categorical view = Some cat /\
    dv_categories cat = Some categories /\
    filterCategoryOf categories = Some fc /\
    (filterColumnTarget (update o v) = None <->
     match queryName (c_source fc) with
     | Some qn => qn = ""
     | None => True
     end).
Proof.
  intros Hdata.
  assert (Hd : data (update o v) = data (loadOptions o v)).
  { destruct (placeholderPath o v) eqn:Hp.
    - rewrite (update_placeholder o v Hp); reflexivity.
    - apply (update_scene o v Hp). }
  rewrite Hd in Hdata; simpl in Hdata.
  apply parseData_nonempty_timestamp in Hdata.
  destruct Hdata as [cat [categories [c [Hcat [Hcats [Hc Hrole]]]]]].
  destruct (dataView0 o) as [view|] eqn:Ev; [|discriminate].
  exists view, cat, categories.
  assert (Hsome : exists fc, filterCategoryOf categories = Some fc).
  { unfold filterCategoryOf.
    destruct (find (fun c => hasRole "filterField" (c_source c)) categories);
      [eexists; reflexivity|].
    assert (Hts : exists fc, find (fun c => hasRole "timestamp" (c_source c)) categories
                             = Some fc).
    { destruct (find (fun c => hasRole "timestamp" (c_source c)) categories) eqn:E;
        [eexists; reflexivity|].
      rewrite (find_none _ _ E c Hc) in Hrole; discriminate. }
    destruct (Nat.ltb 1 (List.length categories)); [|exact Hts].
    destruct (find (fun c => negb (hasRole "timestamp" (c_source c))) categories);
      [eexists; reflexivity | exact Hts]. }
  destruct Hsome as [fc Hfc]; exists fc.
  split; [reflexivity|]; split; [exact Hcat|]; split; [exact Hcats|].
  split; [exact Hfc|].
  rewrite update_target, Ev; unfold filterTargetOf.
  rewrite Hcat, Hcats, Hfc.
  destruct (queryName (c_source fc)) as [qn|]; [|split; reflexivity].
  destruct qn as [|ch qn]; [split; reflexivity|].
  simpl strNonEmpty; cbv iota.
  split; [|discriminate].
  destruct (lastIndexOfDot (String ch qn)) as [[|k]|]; discriminate.
Qed.

End TargetFacts.

Lemma filter_target_split_witness :
  let dv := Some {| categorical := Some hourlyView; dv_settings := noSettings |} in
  filterTargetOf dv = Some {| table := "Readings"; column := "Time" |} /\
  exists fc, queryName (c_source fc) = Some "Readings.Time".
Proof.
  intros dv; split; [reflexivity|].
  destruct (filter_target_split dv {| table := "Readings"; column := "Time" |} eq_refl)
    as [view [cat [categories [fc [qn [_ [_ [_ [_ [_ [Hqn [_ Hor]]]]]]]]]]]].
  destruct Hor as [[_ [Heq _]] | [Hd _]].
  - exists fc; rewrite Hqn, Heq; reflexivity.
  - discriminate Hd.
Defined.

Lemma data_has_filter_category_witness :
  let o := sampleOptions hourlyView noSettings 400 200 in
  data (@update sampleRuntime o initialVisual) <> [] /\
  exists fc, filterCategoryOf [timeColumn [instant 7200000; instant 0; instant 28800000;
                                           instant 3600000; instant 10800000]] = Some fc.
Proof.
  intros o.
  assert (Hdata : data (@update sampleRuntime o initialVisual) <> [])
    by (vm_compute; discriminate).
  split; [exact Hdata|].
  destruct (@data_has_filter_category sampleRuntime o initialVisual Hdata)
    as [view [cat [categories [fc [Hv [Hc [Hcs [Hfc _]]]]]]]].
  exists fc.
  unfold o, sampleOptions in Hv; cbn [dataView0] in Hv.
  injection Hv as <-; cbn [categorical] in Hc.
  injection Hc as <-; unfold hourlyView in Hcs; cbn [dv_categories] in Hcs.
  injection Hcs as <-; exact Hfc.
Defined.

(** ** Area and line across a gap *)

Section SeriesRendering.
Context {rt : Runtime}.

Lemma areaLoop_cons (dflt : string) (p1 p2 : TimeDataPoint)
    (l : list TimeDataPoint) :
  areaLoop dflt (p1 :: p2 :: l)
  = (if hasValue p1 && hasValue p2
     then [(colorOr (areaColor p1) dflt, (p1, p2))] else [])
    ++ areaLoop dflt (p2 :: l).
Proof. reflexivity. Qed.

Lemma areaLoop_fillGaps (dflt : string) (m thr : Z) (s : string)
    (rest : list TimeDataPoint) :
  forall prev,
  areaLoop dflt (prev :: fillGaps m thr s prev rest)
  = map (fun pq => (colorOr (areaColor (fst pq)) dflt, pq))
        (filter (fun pq => hasValue (fst pq) && hasValue (snd pq)
                           && negb (gapCond thr (fst pq) (snd pq)))
                (pairsOf (prev :: rest))).
Proof.
  induction rest as [|curr rest IH]; intros prev; [reflexivity|].
  change (pairsOf (prev :: curr :: rest)) with ((prev, curr) :: pairsOf (curr :: rest)).
  cbn [fillGaps filter fst snd].
  fold (gapCond thr prev curr).
  destruct (gapCond thr prev curr).
  - cbn [app]; rewrite !areaLoop_cons.
    change (hasValue (gapPoint (timestamp prev + m) s)) with false.
    rewrite !andb_false_r; cbn [app andb negb].
    rewrite IH; reflexivity.
  - cbn [app]; rewrite areaLoop_cons.
    rewrite andb_true_r, IH.
    destruct (hasValue prev && hasValue curr); reflexivity.
Qed.

Lemma filter_ext_in_local {A : Type} (f g : A -> bool) (l : list A) :
  (forall x, In x l -> f x = g x) -> filter f l = filter g l.
Proof.
  induction l as [|x l IH]; intros H; simpl; [reflexivity|].
  rewrite (H x (or_introl eq_refl)), IH; [reflexivity|].
  intros y Hy; apply H; right; exact Hy.
Qed.

(** X8.  The area of a series after gap detection.  With the area switched
    off in the settings nothing is drawn.  Otherwise (the default) there is
    a segment for exactly the pairs of consecutive row points that both have
    a value and whose step the gap test of the loop does not find wide, in
    the colour of the first of the two; no segment touches a point that gap
    detection has inserted. *)
Theorem area_breaks_at_gaps (v : Visual) (dflt s : string)
    (points : list TimeDataPoint) :
  let sorted := sortBy timestamp points in
  let m := medianDiff sorted in
  (settingOpt v showAreaChart = Some false ->
   areaSegments (showArea v) dflt (detectGaps s points) = []) /\
  (settingOpt v showAreaChart <> Some false ->
   areaSegments (showArea v) dflt (detectGaps s points)
   = map (fun pq => (colorOr (areaColor (fst pq)) dflt, pq))
         (filter (fun pq =>
                    hasValue (fst pq) && hasValue (snd pq)
                    && negb (toDouble (m * 3)
                             <? toDouble (timestamp (snd pq) - timestamp (fst pq))))
                 (pairsOf sorted))).
Proof.
  cbv zeta.
  unfold showArea, setting, settingOpt.
  split.
  - intros H.
    destruct (formattingSettings v) as [st|]; [|discriminate].
    rewrite H; reflexivity.
  - intros H.
    assert (E : match formattingSettings v with
                | Some st => match showAreaChart st with Some a => a | None => true end
                | None => true
                end = true).
    { destruct (formattingSettings v) as [st|]; [|reflexivity].
      destruct (showAreaChart st) as [[|]|]; [reflexivity | contradiction | reflexivity]. }
    rewrite E; unfold areaSegments.
    unfold detectGaps.
    pose proof (gapCond_wide (sortBy timestamp points)) as Hw.
    destruct (sortBy timestamp points) as [|p0 [|p1 rest]]; [reflexivity | reflexivity |].
    rewrite areaLoop_fillGaps; f_equal.
    apply filter_ext_in_local; intros [p q] Hin; cbn [fst snd].
    rewrite (Hw p q Hin); reflexivity.
Qed.

Lemma colorSegments_snoc (dflt : string) (points : list TimeDataPoint)
    (p : TimeDataPoint) :
  colorSegments dflt (points ++ [p]) = pushToColor dflt (colorSegments dflt points) p.
Proof. unfold colorSegments; rewrite fold_left_app; reflexivity. Qed.

(** The map of the colours holds, for each colour that some valued point
    has, the valued points of that colour in the order of the series. *)
Lemma colorSegments_spec (dflt : string) (points : list TimeDataPoint) :
  NoDup (mapKeys (colorSegments dflt points)) /\
  forall color, mapGet String.eqb color (colorSegments dflt points)
                = match filter (lineColorIs dflt color) points with
                  | [] => None
                  | pts => Some pts
                  end.
Proof.
  induction points as [|d points IH] using rev_ind.
  - split; [constructor | reflexivity].
  - destruct IH as [Hnd Hget].
    rewrite colorSegments_snoc.
    unfold pushToColor.
    set (m := colorSegments dflt points) in *.
    assert (Hsnoc : forall color,
               filter (lineColorIs dflt color) (points ++ [d])
               = filter (lineColorIs dflt color) points
                 ++ (if lineColorIs dflt color d then [d] else [])).
    { intros color; rewrite filter_app; simpl.
      destruct (lineColorIs dflt color d); reflexivity. }
    destruct (hasValue d) eqn:Hv.
    + set (k := colorOr (lineColor d) dflt).
      assert (Hk : forall color, lineColorIs dflt color d = String.eqb k color)
        by (intros color; unfold lineColorIs; rewrite Hv; reflexivity).
      destruct (mapGet String.eqb k m) as [pts|] eqn:Ek.
      * rewrite Ek.
        split.
        -- rewrite mapKeys_mapSet, Ek; exact Hnd.
        -- intros color; rewrite Hsnoc, Hk.
           destruct (String.eqb k color) eqn:E.
           ++ apply String.eqb_eq in E; subst color.
              rewrite mapGet_mapSet_same.
              rewrite Hget in Ek.
              destruct (filter (lineColorIs dflt k) points) as [|x xs]; [discriminate|].
              injection Ek as <-; reflexivity.
           ++ apply String.eqb_neq in E.
              rewrite mapGet_mapSet_other by exact E.
              rewrite Hget, app_nil_r; reflexivity.
      * rewrite mapGet_mapSet_same.
        split.
        -- rewrite mapKeys_mapSet, mapGet_mapSet_same.
           rewrite mapKeys_mapSet, Ek.
           apply NoDup_snoc; [exact Hnd | apply mapGet_None_notin, Ek].
        -- intros color; rewrite Hsnoc, Hk.
           destruct (String.eqb k color) eqn:E.
           ++ apply String.eqb_eq in E; subst color.
              rewrite mapGet_mapSet_same.
              rewrite Hget in Ek.
              destruct (filter (lineColorIs dflt k) points) as [|x xs];
                [reflexivity | discriminate].
           ++ apply String.eqb_neq in E.
              rewrite !mapGet_mapSet_other by exact E.
              rewrite Hget, app_nil_r; reflexivity.
    + split; [exact Hnd|].
      intros color; rewrite Hsnoc.
      unfold lineColorIs at 2; rewrite Hv; cbn [andb]; rewrite app_nil_r.
      apply Hget.
Qed.

Lemma NoDup_keys_filter {K V : Type} (f : K * V -> bool) (m : list (K * V)) :
  NoDup (mapKeys m) -> NoDup (map fst (filter f m)).
Proof.
  unfold mapKeys.
  induction m as [|[c l] m IH]; simpl; intros Hnd; [constructor|].
  inversion Hnd as [|? ? Hnot Hnd']; subst.
  destruct (f (c, l)); [|apply IH, Hnd'].
  simpl; constructor; [|apply IH, Hnd'].
  intros Hin; apply Hnot.
  apply in_map_iff in Hin; destruct Hin as [[c' l'] [Hc Hin]].
  apply filter_In in Hin; destruct Hin as [Hin _].
  apply in_map_iff; exists (c', l'); split; assumption.
Qed.

(** X9.  The paths of the line: one for each colour with two valued points or
    more, through all the valued points of that colour in the order of the
    series, whatever lies between them. *)
Theorem line_paths_by_colour (dflt : string) (points : list TimeDataPoint) :
  NoDup (map fst (linePaths dflt points)) /\
  forall color pts,
    In (color, pts) (linePaths dflt points) <->
    pts = filter (lineColorIs dflt color) points /\ (2 <= List.length pts)%nat.
Proof.
  destruct (colorSegments_spec dflt points) as [Hnd Hget].
  unfold linePaths; split.
  - apply NoDup_keys_filter, Hnd.
  - intros color pts; rewrite filter_In; cbn [snd]; split.
    + intros [Hin Hlen].
      apply (mapGet_In color pts _ Hnd) in Hin.
      rewrite Hget in Hin.
      destruct (filter (lineColorIs dflt color) points) as [|x xs]; [discriminate|].
      injection Hin as <-; split; [reflexivity | apply Nat.leb_le, Hlen].
    + intros [-> Hlen]; split; [|apply Nat.leb_le, Hlen].
      apply (In_mapGet color _ _).
      rewrite Hget.
      destruct (filter (lineColorIs dflt color) points) as [|x xs];
        [simpl in Hlen; lia | reflexivity].
Qed.

Lemma colorSegments_valued (dflt : string) (points : list TimeDataPoint) :
  colorSegments dflt points = colorSegments dflt (filter hasValue points).
Proof.
  induction points as [|d points IH] using rev_ind; [reflexivity|].
  rewrite filter_app, colorSegments_snoc; simpl.
  destruct (hasValue d) eqn:Hv.
  - rewrite colorSegments_snoc, IH; reflexivity.
  - rewrite app_nil_r; unfold pushToColor; rewrite Hv; exact IH.
Qed.

Lemma fillGaps_valued (m thr : Z) (s : string) (rest : list TimeDataPoint) :
  forall prev,
  filter hasValue (fillGaps m thr s prev rest) = filter hasValue rest.
Proof.
  induction rest as [|curr rest IH]; intros prev; [reflexivity|].
  cbn [fillGaps]; rewrite filter_app; cbn [filter].
  rewrite IH.
  destruct ((0 <? thr) && (thr <? toDouble (timestamp curr - timestamp prev))); reflexivity.
Qed.

(** X10.  Gap detection does not change the line of a series: the points it
    inserts have no value and are skipped, so the path runs straight from
    the point before a gap to the point after it. *)
Theorem line_unbroken_by_gaps (dflt s : string) (points : list TimeDataPoint) :
  linePaths dflt (detectGaps s points) = linePaths dflt (sortBy timestamp points).
Proof.
  unfold linePaths.
  rewrite (colorSegments_valued dflt (detectGaps s points)),
          (colorSegments_valued dflt (sortBy timestamp points)).
  unfold detectGaps.
  destruct (sortBy timestamp points) as [|p0 [|p1 rest]]; [reflexivity | reflexivity |].
  cbn [filter]; rewrite fillGaps_valued; reflexivity.
Qed.

End SeriesRendering.

(** ** Invariants of the visual *)

Section MachineFacts.
Context {rt : Runtime}.

(** *** What the handlers leave alone *)

Lemma onBrushEnd_cases (e : BrushEvent) (v : Visual) :
  let v1 := match selection e, xScale v with
            | None, Some (domain, _) =>
                updateRangeDisplay
                  (setSelection (Some (fst domain)) (Some (snd domain)) v)
            | _, _ => v
            end in
  onBrushEnd e v = v1 \/ exists f, onBrushEnd e v = applyJsonFilter f v1.
Proof.
  intros v1; unfold onBrushEnd; fold v1.
  destruct (isProgrammaticBrushUpdate v1); [left; reflexivity|].
  destruct (selectedStartDate v1), (selectedEndDate v1), (filterColumnTarget v1);
    try (left; reflexivity).
  right; eexists; reflexivity.
Qed.

Lemma onBrushEnd_kept (e : BrushEvent) (v : Visual) (sel : Q * Q) :
  selection e = Some sel ->
  onBrushEnd e v = v \/ exists f, onBrushEnd e v = applyJsonFilter f v.
Proof.
  intros He; pose proof (onBrushEnd_cases e v) as H.
  rewrite He in H; exact H.
Qed.

Lemma onBrushEnd_cleared (e : BrushEvent) (v : Visual) (domain : Z * Z) (w : Q) :
  selection e = None -> xScale v = Some (domain, w) ->
  let v1 := updateRangeDisplay
              (setSelection (Some (fst domain)) (Some (snd domain)) v) in
  onBrushEnd e v = v1 \/ exists f, onBrushEnd e v = applyJsonFilter f v1.
Proof.
  intros He Hx; pose proof (onBrushEnd_cases e v) as H.
  rewrite He, Hx in H; exact H.
Qed.

Lemma onBrushEnd_undrawn (e : BrushEvent) (v : Visual) :
  xScale v = None ->
  onBrushEnd e v = v \/ exists f, onBrushEnd e v = applyJsonFilter f v.
Proof.
  intros Hx; pose proof (onBrushEnd_cases e v) as H.
  rewrite Hx in H; destruct (selection e); exact H.
Qed.

(** *** The selection *)

Lemma Tracking_filter (f : JsonFilter) (v : Visual) :
  Tracking v -> Tracking (applyJsonFilter f v).
Proof. intros [H1 H2 H3]; constructor; assumption. Qed.

Lemma userDrag_drawn (x0 x1 : Q) (v : Visual) (domain : Z * Z) (w : Q) :
  xScale v = Some (domain, w) ->
  userDrag (x0, x1) v
  = setTimers true
      ((if brushUpdateTimeout v
        then filter (fun t => negb (isDisplayUpdate t)) (timers v)
        else timers v) ++ [DisplayUpdate])
      (setSelection (Some (scaleInvert domain w x0)) (Some (scaleInvert domain w x1))
                    (setBrushSelection (Some (x0, x1)) v)).
Proof.
  intros Hx; unfold userDrag, onBrush.
  cbn [selection xScale setBrushSelection]; rewrite Hx; reflexivity.
Qed.

Lemma userDrag_undrawn (sel : Q * Q) (v : Visual) :
  xScale v = None -> userDrag sel v = setBrushSelection (Some sel) v.
Proof.
  intros Hx; unfold userDrag, onBrush.
  cbn [selection xScale setBrushSelection]; rewrite Hx.
  destruct sel; reflexivity.
Qed.

(** A move of the brush on a drawn chart puts the selection in step with
    the pixels, whatever it was before. *)
Lemma userDrag_tracks (sel : Q * Q) (v : Visual) :
  xScale v <> None -> Tracking (userDrag sel v).
Proof.
  destruct (xScale v) as [[domain w]|] eqn:Hx; [intros _ | congruence].
  destruct sel as [x0 x1].
  rewrite (userDrag_drawn x0 x1 v domain w Hx).
  constructor; cbn [selectedStartDate selectedEndDate xScale brushSelection
                    setTimers setSelection setBrushSelection].
  - split; discriminate.
  - rewrite Hx; split; discriminate.
  - intros y0 y1 d' w' Hs Hx'.
    rewrite Hx in Hx'; injection Hs as <- <-; injection Hx' as <- <-.
    split; reflexivity.
Qed.

Lemma userDrag_Tracking (sel : Q * Q) (v : Visual) :
  Tracking v -> Tracking (userDrag sel v).
Proof.
  intros H.
  destruct (xScale v) as [[domain w]|] eqn:Hx.
  - apply userDrag_tracks; congruence.
  - rewrite (userDrag_undrawn sel v Hx).
    destruct H as [H1 H2 H3]; constructor;
      cbn [selectedStartDate selectedEndDate xScale brushSelection setBrushSelection].
    + exact H1.
    + exact H2.
    + intros x0 x1 d w _ Hx'; congruence.
Qed.

Lemma onBrushEnd_Tracking (e : BrushEvent) (v : Visual) :
  Tracking v -> selection e = None -> brushSelection v = None ->
  Tracking (onBrushEnd e v).
Proof.
  intros H He Hb.
  destruct (xScale v) as [[domain w]|] eqn:Hx.
  - assert (H1 : Tracking (updateRangeDisplay
                    (setSelection (Some (fst domain)) (Some (snd domain)) v))).
    { constructor; cbn [selectedStartDate selectedEndDate xScale brushSelection
                        updateRangeDisplay setSelection].
      - split; discriminate.
      - rewrite Hx; split; discriminate.
      - intros x0 x1 d' w' Hs; congruence. }
    destruct (onBrushEnd_cleared e v domain w He Hx) as [-> | [f ->]];
      [exact H1 | apply Tracking_filter, H1].
  - destruct (onBrushEnd_undrawn e v Hx) as [-> | [f ->]];
      [exact H | apply Tracking_filter, H].
Qed.

Lemma onBrushEnd_Tracking_kept (e : BrushEvent) (v : Visual) (sel : Q * Q) :
  Tracking v -> selection e = Some sel -> Tracking (onBrushEnd e v).
Proof.
  intros H He.
  destruct (onBrushEnd_kept e v sel He) as [-> | [f ->]];
    [exact H | apply Tracking_filter, H].
Qed.

Lemma userRelease_Tracking (v : Visual) :
  Tracking v -> Tracking (userRelease (brushSelection v) v).
Proof.
  intros H; unfold userRelease.
  assert (H' : Tracking (setBrushSelection (brushSelection v) v))
    by (destruct H as [H1 H2 H3]; constructor; assumption).
  destruct (brushSelection v) as [sel|] eqn:Hb.
  - apply (onBrushEnd_Tracking_kept _ _ sel); [exact H' | reflexivity].
  - apply onBrushEnd_Tracking; [exact H' | reflexivity | reflexivity].
Qed.

Lemma userClear_Tracking (v : Visual) :
  Tracking v -> Tracking (userRelease None v).
Proof.
  intros [H1 H2 H3]; unfold userRelease.
  apply onBrushEnd_Tracking; [|reflexivity | reflexivity].
  constructor; cbn [selectedStartDate selectedEndDate xScale brushSelection
                    setBrushSelection]; [exact H1 | exact H2 |].
  intros x0 x1 d w Hs; discriminate.
Qed.

Lemma brushMove_tracks (sel : Q * Q) (v : Visual) :
  xScale v <> None -> Tracking (brushMove sel v).
Proof.
  intros Hx.
  change (brushMove sel v) with (onBrushEnd {| selection := Some sel |} (userDrag sel v)).
  apply (onBrushEnd_Tracking_kept _ _ sel); [|reflexivity].
  apply userDrag_tracks, Hx.
Qed.

(** *** Scale, brush and timers *)

Lemma Drawn_same (v v' : Visual) :
  xScale v' = xScale v -> brush v' = brush v -> lastTimeRange v' = lastTimeRange v ->
  Drawn v -> Drawn v'.
Proof.
  intros E1 E2 E3 [H1 H2 H3]; constructor; rewrite ?E1, ?E2, ?E3; assumption.
Qed.

Lemma userDrag_control (sel : Q * Q) (v : Visual) :
  xScale (userDrag sel v) = xScale v /\ brush (userDrag sel v) = brush v /\
  lastTimeRange (userDrag sel v) = lastTimeRange v /\
  isProgrammaticBrushUpdate (userDrag sel v) = isProgrammaticBrushUpdate v.
Proof.
  destruct (xScale v) as [[domain w]|] eqn:Hx.
  - destruct sel as [x0 x1]; rewrite (userDrag_drawn x0 x1 v domain w Hx).
    cbn [xScale brush lastTimeRange isProgrammaticBrushUpdate
         setTimers setSelection setBrushSelection].
    rewrite Hx; repeat split.
  - rewrite (userDrag_undrawn sel v Hx).
    cbn [xScale brush lastTimeRange isProgrammaticBrushUpdate setBrushSelection].
    rewrite Hx; repeat split.
Qed.

Lemma onBrushEnd_control (e : BrushEvent) (v : Visual) :
  xScale (onBrushEnd e v) = xScale v /\ brush (onBrushEnd e v) = brush v /\
  lastTimeRange (onBrushEnd e v) = lastTimeRange v /\
  isProgrammaticBrushUpdate (onBrushEnd e v) = isProgrammaticBrushUpdate v /\
  timers (onBrushEnd e v) = timers v /\
  brushUpdateTimeout (onBrushEnd e v) = brushUpdateTimeout v /\
  brushSelection (onBrushEnd e v) = brushSelection v.
Proof.
  pose proof (onBrushEnd_cases e v) as H; cbv zeta in H.
  set (v1 := match selection e, xScale v with
             | None, Some (domain, _) => _
             | _, _ => v
             end) in H.
  assert (H1 : xScale v1 = xScale v /\ brush v1 = brush v /\
               lastTimeRange v1 = lastTimeRange v /\
               isProgrammaticBrushUpdate v1 = isProgrammaticBrushUpdate v /\
               timers v1 = timers v /\
               brushUpdateTimeout v1 = brushUpdateTimeout v /\
               brushSelection v1 = brushSelection v).
  { unfold v1; destruct (selection e) as [sel|]; [repeat split|].
    destruct (xScale v) as [[domain w]|] eqn:Ex;
      cbn [xScale brush lastTimeRange isProgrammaticBrushUpdate timers
           brushUpdateTimeout brushSelection updateRangeDisplay setSelection];
      rewrite Ex; repeat split. }
  destruct H as [-> | [f ->]]; exact H1.
Qed.

Lemma brushMove_control (sel : Q * Q) (v : Visual) :
  xScale (brushMove sel v) = xScale v /\ brush (brushMove sel v) = brush v /\
  lastTimeRange (brushMove sel v) = lastTimeRange v /\
  isProgrammaticBrushUpdate (brushMove sel v) = isProgrammaticBrushUpdate v.
Proof.
  change (brushMove sel v) with (onBrushEnd {| selection := Some sel |} (userDrag sel v)).
  destruct (onBrushEnd_control {| selection := Some sel |} (userDrag sel v))
    as [E1 [E2 [E3 [E4 _]]]].
  destruct (userDrag_control sel v) as [F1 [F2 [F3 F4]]].
  rewrite E1, E2, E3, E4, F1, F2, F3, F4; repeat split.
Qed.

Lemma filter_display_cleared (l : list Timer) :
  filter isDisplayUpdate (filter (fun t => negb (isDisplayUpdate t)) l) = [].
Proof.
  induction l as [|[|] l IH]; simpl; [reflexivity | exact IH | exact IH].
Qed.

Lemma userDrag_Debounced (sel : Q * Q) (v : Visual) :
  Debounced v -> Debounced (userDrag sel v).
Proof.
  unfold Debounced; intros H.
  destruct (xScale v) as [[domain w]|] eqn:Hx.
  - destruct sel as [x0 x1]; rewrite (userDrag_drawn x0 x1 v domain w Hx).
    cbn [timers brushUpdateTimeout setTimers].
    rewrite filter_app, length_app; cbn [filter isDisplayUpdate List.length].
    destruct (brushUpdateTimeout v).
    + rewrite filter_display_cleared; reflexivity.
    + rewrite H; reflexivity.
  - rewrite (userDrag_undrawn sel v Hx); exact H.
Qed.

Lemma userDrag_Guarded (sel : Q * Q) (v : Visual) :
  Guarded v -> Guarded (userDrag sel v).
Proof.
  unfold Guarded; intros H.
  destruct (xScale v) as [[domain w]|] eqn:Hx.
  - destruct sel as [x0 x1]; rewrite (userDrag_drawn x0 x1 v domain w Hx).
    cbn [timers isProgrammaticBrushUpdate setTimers setSelection setBrushSelection].
    intros Hg; specialize (H Hg).
    apply in_or_app; left.
    destruct (brushUpdateTimeout v); [|exact H].
    apply filter_In; split; [exact H | reflexivity].
  - rewrite (userDrag_undrawn sel v Hx); exact H.
Qed.

Lemma onBrushEnd_Debounced (e : BrushEvent) (v : Visual) :
  Debounced v -> Debounced (onBrushEnd e v).
Proof.
  unfold Debounced.
  destruct (onBrushEnd_control e v) as [_ [_ [_ [_ [-> [-> _]]]]]]; trivial.
Qed.

Lemma onBrushEnd_Guarded (e : BrushEvent) (v : Visual) :
  Guarded v -> Guarded (onBrushEnd e v).
Proof.
  unfold Guarded.
  destruct (onBrushEnd_control e v) as [_ [_ [_ [-> [-> _]]]]]; trivial.
Qed.

Lemma onBrushEnd_Drawn (e : BrushEvent) (v : Visual) :
  Drawn v -> Drawn (onBrushEnd e v).
Proof.
  destruct (onBrushEnd_control e v) as [E1 [E2 [E3 _]]].
  apply Drawn_same; assumption.
Qed.

Lemma userDrag_Drawn (sel : Q * Q) (v : Visual) :
  Drawn v -> Drawn (userDrag sel v).
Proof.
  destruct (userDrag_control sel v) as [E1 [E2 [E3 _]]].
  apply Drawn_same; assumption.
Qed.

(** *** Timers *)

Lemma count_removeNth {A : Type} (f : A -> bool) (l : list A) :
  forall (n : nat) (t : A),
  nth_error l n = Some t ->
  List.length (filter f l)
  = (List.length (filter f (removeNth n l)) + (if f t then 1 else 0))%nat.
Proof.
  induction l as [|x l IH]; intros n t Hn.
  - destruct n; discriminate.
  - destruct n as [|n]; simpl in Hn.
    + injection Hn as ->; simpl.
      destruct (f t); simpl; lia.
    + cbn [removeNth filter].
      destruct (f x); cbn [List.length]; rewrite (IH n t Hn); lia.
Qed.

Lemma In_removeNth {A : Type} (l : list A) :
  forall (n : nat) (t x : A),
  nth_error l n = Some t -> x <> t -> In x l -> In x (removeNth n l).
Proof.
  induction l as [|y l IH]; intros n t x Hn Hne Hin; [destruct Hin|].
  destruct n as [|n]; simpl in Hn.
  - injection Hn as ->; destruct Hin as [-> | Hin]; [congruence | exact Hin].
  - simpl; destruct Hin as [-> | Hin]; [left; reflexivity|].
    right; apply (IH n t x Hn Hne Hin).
Qed.

Lemma fireTimer_cases (n : nat) (v : Visual) :
  fireTimer n v = v \/
  (nth_error (timers v) n = Some DisplayUpdate /\
   fireTimer n v
   = setTimers false (removeNth n (timers v)) (updateRangeDisplay v)) \/
  (nth_error (timers v) n = Some FlagReset /\
   fireTimer n v
   = setProgrammatic false
       (setTimers (brushUpdateTimeout v) (removeNth n (timers v)) v)).
Proof.
  unfold fireTimer.
  destruct (nth_error (timers v) n) as [[|]|] eqn:Hn.
  - right; left; split; reflexivity.
  - right; right; split; reflexivity.
  - left; reflexivity.
Qed.

Lemma fireTimer_Inv (n : nat) (v : Visual) : Inv v -> Inv (fireTimer n v).
Proof.
  intros [Ht [Hd [Hb Hg]]].
  destruct (fireTimer_cases n v) as [-> | [[Hn ->] | [Hn ->]]].
  - split; [|split; [|split]]; assumption.
  - split; [|split; [|split]].
    + destruct Ht as [H1 H2 H3]; constructor; assumption.
    + destruct Hd as [H1 H2 H3]; constructor; assumption.
    + unfold Debounced in *; cbn [timers brushUpdateTimeout setTimers].
      pose proof (count_removeNth isDisplayUpdate _ n _ Hn) as Hc.
      cbn [isDisplayUpdate] in Hc.
      rewrite Hb in Hc; destruct (brushUpdateTimeout v); lia.
    + unfold Guarded in *; cbn [timers isProgrammaticBrushUpdate setTimers updateRangeDisplay].
      intros Hf; apply (In_removeNth _ n DisplayUpdate); [exact Hn | discriminate|].
      apply Hg, Hf.
  - split; [|split; [|split]].
    + destruct Ht as [H1 H2 H3]; constructor; assumption.
    + destruct Hd as [H1 H2 H3]; constructor; assumption.
    + unfold Debounced in *; cbn [timers brushUpdateTimeout setTimers setProgrammatic].
      pose proof (count_removeNth isDisplayUpdate _ n _ Hn) as Hc.
      cbn [isDisplayUpdate] in Hc.
      rewrite <- Hb; lia.
    + unfold Guarded; cbn [isProgrammaticBrushUpdate setProgrammatic]; discriminate.
Qed.

(** *** Brush events *)

Lemma userDrag_Inv (sel : Q * Q) (v : Visual) : Inv v -> Inv (userDrag sel v).
Proof.
  intros [Ht [Hd [Hb Hg]]]; split; [|split; [|split]].
  - apply userDrag_Tracking, Ht.
  - apply userDrag_Drawn, Hd.
  - apply userDrag_Debounced, Hb.
  - apply userDrag_Guarded, Hg.
Qed.

Lemma userRelease_Inv (v : Visual) : Inv v -> Inv (userRelease (brushSelection v) v).
Proof.
  intros [Ht [Hd [Hb Hg]]]; split; [apply userRelease_Tracking, Ht|].
  unfold userRelease; split; [|split].
  - apply onBrushEnd_Drawn; destruct Hd as [H1 H2 H3]; constructor; assumption.
  - apply onBrushEnd_Debounced; exact Hb.
  - apply onBrushEnd_Guarded; exact Hg.
Qed.

Lemma userClear_Inv (v : Visual) : Inv v -> Inv (userRelease None v).
Proof.
  intros [Ht [Hd [Hb Hg]]]; split; [apply userClear_Tracking, Ht|].
  unfold userRelease; split; [|split].
  - apply onBrushEnd_Drawn; destruct Hd as [H1 H2 H3]; constructor; assumption.
  - apply onBrushEnd_Debounced; exact Hb.
  - apply onBrushEnd_Guarded; exact Hg.
Qed.

(** A programmatic move on a drawn chart. *)
Lemma brushMove_Inv (sel : Q * Q) (v : Visual) :
  xScale v <> None -> Drawn v -> Debounced v -> Guarded v -> Inv (brushMove sel v).
Proof.
  intros Hx Hd Hb Hg; split; [apply brushMove_tracks, Hx|].
  change (brushMove sel v) with (onBrushEnd {| selection := Some sel |} (userDrag sel v)).
  split; [|split].
  - apply onBrushEnd_Drawn, userDrag_Drawn, Hd.
  - apply onBrushEnd_Debounced, userDrag_Debounced, Hb.
  - apply onBrushEnd_Guarded, userDrag_Guarded, Hg.
Qed.

Lemma restoreBrushSelection_Inv (v : Visual) :
  xScale v <> None -> brush v <> None ->
  selectedStartDate v <> None -> selectedEndDate v <> None ->
  Drawn v -> Debounced v -> Inv (restoreBrushSelection v).
Proof.
  intros Hx Hbr Hs He Hd Hb.
  unfold restoreBrushSelection.
  destruct (selectedStartDate v) as [a|]; [|congruence].
  destruct (selectedEndDate v) as [b|]; [|congruence].
  destruct (brush v) as [ext|] eqn:Ebr; [|congruence].
  destruct (xScale v) as [[domain w]|] eqn:Ex; [|congruence].
  set (v3 := setProgrammatic true v).
  assert (Hx3 : xScale v3 <> None) by (unfold v3; cbn [xScale setProgrammatic]; congruence).
  assert (Hd3 : Drawn v3) by (destruct Hd as [H1 H2 H3]; constructor; assumption).
  assert (Hb3 : Debounced v3) by exact Hb.
  set (sel := (scaleApply domain w a, scaleApply domain w b)).
  pose proof (brushMove_tracks sel v3 Hx3) as Ht4.
  change (brushMove sel v3)
    with (onBrushEnd {| selection := Some sel |} (userDrag sel v3)) in *.
  pose proof (onBrushEnd_Drawn {| selection := Some sel |} _
                (userDrag_Drawn sel v3 Hd3)) as Hd4.
  pose proof (onBrushEnd_Debounced {| selection := Some sel |} _
                (userDrag_Debounced sel v3 Hb3)) as Hb4.
  set (v4 := onBrushEnd {| selection := Some sel |} (userDrag sel v3)) in *.
  split; [|split; [|split]].
  - destruct Ht4 as [H1 H2 H3]; constructor; assumption.
  - destruct Hd4 as [H1 H2 H3]; constructor; assumption.
  - unfold Debounced in *.
    cbn [timers brushUpdateTimeout setTimers updateRangeDisplay].
    rewrite filter_app; cbn [filter isDisplayUpdate]; rewrite app_nil_r; exact Hb4.
  - unfold Guarded; cbn [timers setTimers updateRangeDisplay]; intros _.
    apply in_or_app; right; left; reflexivity.
Qed.

(** *** Updates *)

Lemma timeExtentOf_ordered (data : list TimeDataPoint) (lo hi : Z) :
  timeExtentOf data = Some (lo, hi) -> lo <= hi.
Proof.
  intros H; destruct (timeExtentOf_spec data lo hi H) as [[p [Hp Hpt]] [_ Hall]].
  specialize (Hall p Hp); lia.
Qed.

Lemma renderChart_Inv (width height : Q) (v : Visual) :
  Inv v -> Inv (renderChart width height v).
Proof.
  intros Hinv; pose proof Hinv as [Ht [Hd [Hb Hg]]].
  unfold renderChart.
  destruct (timeExtentOf (data v)) as [ext|] eqn:Eext; [|exact Hinv].
  cbv zeta.
  set (cw := chartWidthOf v width).
  set (ch := chartHeightOf v height).
  set (v2 := setupBrush cw ch (renderScene cw ext v)).
  assert (Hd2 : Drawn v2).
  { constructor; cbn [v2 lastTimeRange xScale brush setupBrush renderScene option_map fst].
    - reflexivity.
    - split; [reflexivity|]; split; [apply qmax_ge | apply qmax_ge].
    - intros lo hi w Hx; injection Hx as Hx _; subst ext.
      apply (timeExtentOf_ordered _ _ _ Eext). }
  assert (Hb2 : Debounced v2) by exact Hb.
  assert (Hg2 : Guarded v2) by exact Hg.
  assert (Hx2 : xScale v2 <> None) by discriminate.
  assert (Hbr2 : brush v2 <> None) by discriminate.
  assert (Hreset : Inv (brushMove (0%Q, cw)
                          (updateRangeDisplay
                             (setSelection (Some (fst ext)) (Some (snd ext)) v2)))).
  { apply brushMove_Inv; [discriminate | | exact Hb2 | exact Hg2].
    destruct Hd2 as [H1 H2 H3]; constructor; assumption. }
  destruct (selectedStartDate v2) as [a|] eqn:Ea; [|exact Hreset].
  destruct (selectedEndDate v2) as [b|] eqn:Eb; [|exact Hreset].
  apply restoreBrushSelection_Inv; try assumption; congruence.
Qed.

Lemma update_Inv (o : VisualUpdateOptions) (v : Visual) : Inv v -> Inv (update o v).
Proof.
  intros [Ht [Hd [Hb Hg]]].
  assert (Hl : Inv (loadOptions o v)).
  { split; [|split; [|split]]; [| |exact Hb | exact Hg].
    - destruct Ht as [H1 H2 H3]; constructor; assumption.
    - destruct Hd as [H1 H2 H3]; constructor; assumption. }
  assert (Hm : Inv (showNoDataMessage (loadOptions o v))).
  { destruct Hl as [Ht' [Hd' [Hb' Hg']]].
    split; [|split; [|split]]; [| |exact Hb' | exact Hg'].
    - destruct Ht' as [H1 H2 H3]; constructor; assumption.
    - destruct Hd' as [H1 H2 H3]; constructor; assumption. }
  unfold update.
  destruct (Qltb _ 100 || Qltb _ 50); [exact Hm|].
  destruct (data (loadOptions o v)) eqn:E; [exact Hm|].
  apply renderChart_Inv, Hl.
Qed.

Lemma initialVisual_Inv : Inv initialVisual.
Proof.
  split; [|split; [|split]].
  - constructor; simpl; [split; trivial | split; trivial | discriminate].
  - constructor; simpl; [reflexivity | exact I | discriminate].
  - reflexivity.
  - intros H; discriminate H.
Qed.

Lemma step_Inv (e : Event) (v : Visual) : Inv v -> Inv (step e v).
Proof.
  destruct e as [o | sel | | | n]; simpl.
  - apply update_Inv.
  - apply userDrag_Inv.
  - apply userRelease_Inv.
  - apply userClear_Inv.
  - apply fireTimer_Inv.
Qed.

Lemma run_Inv (events : list Event) (v : Visual) : Inv v -> Inv (run events v).
Proof.
  unfold run; revert v.
  induction events as [|e events IH]; intros v H; simpl; [exact H|].
  apply IH, step_Inv, H.
Qed.

(** X11.  Whatever happens to a visual, the selection stays in step with the
    chart: its two ends are there together, they are there exactly when a
    chart has been drawn, and when the brush holds pixels they are the
    instants of those pixels on the time scale. *)
Theorem selection_tracks_brush (events : list Event) :
  let v := run events initialVisual in
  (selectedStartDate v = None <-> selectedEndDate v = None) /\
  (xScale v = None <-> selectedStartDate v = None) /\
  forall x0 x1 domain w,
    brushSelection v = Some (x0, x1) -> xScale v = Some (domain, w) ->
    selectedStartDate v = Some (scaleInvert domain w x0) /\
    selectedEndDate v = Some (scaleInvert domain w x1).
Proof.
  intros v.
  destruct (run_Inv events initialVisual initialVisual_Inv) as [[H1 H2 H3] _].
  split; [exact H1|]; split; [exact H2 | exact H3].
Qed.

(** X12.  Whatever happens to a visual, the time scale, the brush and the
    recorded extent go together: the recorded extent is the domain of the
    scale, the domain is in order, the brush is as wide as the range of the
    scale, and the chart is never less than 50 wide and 30 high. *)
Theorem scale_and_brush_agree (events : list Event) :
  let v := run events initialVisual in
  lastTimeRange v = option_map fst (xScale v) /\
  (xScale v = None <-> brush v = None) /\
  (forall lo hi w bw bh,
     xScale v = Some ((lo, hi), w) -> brush v = Some (bw, bh) ->
     lo <= hi /\ bw = w /\ (50 <= w)%Q /\ (30 <= bh)%Q).
Proof.
  intros v.
  destruct (run_Inv events initialVisual initialVisual_Inv) as [_ [[H1 H2 H3] _]].
  fold v in H1, H2, H3.
  split; [exact H1|]; split.
  - destruct (xScale v) as [[d w]|], (brush v) as [[bw bh]|];
      try (destruct H2; fail); split; intros; congruence.
  - intros lo hi w bw bh Hx Hbr.
    split; [apply (H3 lo hi w Hx)|].
    rewrite Hx, Hbr in H2; exact H2.
Qed.

(** X13.  Whatever happens to a visual, at most one display update is pending,
    and one is pending exactly when the handle of the timer is set; and
    while the guard of the programmatic moves is set, a timer that clears
    it is pending. *)
Theorem timers_in_order (events : list Event) :
  let v := run events initialVisual in
  List.length (filter isDisplayUpdate (timers v))
  = (if brushUpdateTimeout v then 1%nat else 0%nat) /\
  (isProgrammaticBrushUpdate v = true -> In FlagReset (timers v)).
Proof.
  intros v.
  destruct (run_Inv events initialVisual initialVisual_Inv) as [_ [_ [Hb Hg]]].
  split; [exact Hb | exact Hg].
Qed.

End MachineFacts.

(** ** What is submitted, and when *)

Section EmissionFacts.
Context {rt : Runtime}.

Lemma brushMove_emits (x0 x1 : Q) (v : Visual) (domain : Z * Z) (w : Q) :
  xScale v = Some (domain, w) ->
  appliedFilters (brushMove (x0, x1) v)
  = appliedFilters v ++
    match isProgrammaticBrushUpdate v, filterColumnTarget v with
    | false, Some target =>
        [{| f_target := target;
            f_value := filterValue v (scaleInvert domain w x0)
                                     (scaleInvert domain w x1) |}]
    | _, _ => []
    end.
Proof.
  intros Hx.
  change (brushMove (x0, x1) v)
    with (onBrushEnd {| selection := Some (x0, x1) |} (userDrag (x0, x1) v)).
  rewrite (userDrag_drawn x0 x1 v domain w Hx).
  unfold onBrushEnd.
  cbn [selection isProgrammaticBrushUpdate selectedStartDate selectedEndDate
       filterColumnTarget setTimers setSelection setBrushSelection].
  destruct (isProgrammaticBrushUpdate v).
  - cbn [appliedFilters setTimers setSelection setBrushSelection].
    rewrite app_nil_r; reflexivity.
  - destruct (filterColumnTarget v) as [target|].
    + reflexivity.
    + cbn [appliedFilters setTimers setSelection setBrushSelection].
      rewrite app_nil_r; reflexivity.
Qed.

Lemma renderChart_filters (width height : Q) (v : Visual) (ext : Z * Z) :
  timeExtentOf (data v) = Some ext ->
  let cw := chartWidthOf v width in
  let v2 := setupBrush cw (chartHeightOf v height) (renderScene cw ext v) in
  appliedFilters (renderChart width height v)
  = appliedFilters v ++
    match selectedStartDate v2, selectedEndDate v2 with
    | Some _, Some _ => []
    | _, _ =>
        match isProgrammaticBrushUpdate v, filterColumnTarget v with
        | false, Some target =>
            [{| f_target := target;
                f_value := filterValue v (scaleInvert ext cw 0)
                                         (scaleInvert ext cw cw) |}]
        | _, _ => []
        end
    end.
Proof.
  intros Eext cw v2.
  unfold renderChart; rewrite Eext; cbv zeta.
  fold cw; fold v2.
  assert (Hreset : appliedFilters
                     (brushMove (0%Q, cw)
                        (updateRangeDisplay
                           (setSelection (Some (fst ext)) (Some (snd ext)) v2)))
                   = appliedFilters v ++
                     match isProgrammaticBrushUpdate v, filterColumnTarget v with
                     | false, Some target =>
                         [{| f_target := target;
                             f_value := filterValue v (scaleInvert ext cw 0)
                                                      (scaleInvert ext cw cw) |}]
                     | _, _ => []
                     end).
  { rewrite (brushMove_emits 0 cw
               (updateRangeDisplay
                  (setSelection (Some (fst ext)) (Some (snd ext)) v2))
               ext cw eq_refl).
    reflexivity. }
  destruct (selectedStartDate v2) as [a|] eqn:Ea; [|exact Hreset].
  destruct (selectedEndDate v2) as [b|] eqn:Eb; [|exact Hreset].
  rewrite restoreBrushSelection_filters, app_nil_r; reflexivity.
Qed.

(** X14.  What an update submits.  Nothing on the placeholder path, nothing when
    the selection is kept, nothing without a filter target, and nothing
    while the guard of an earlier programmatic move is still set;
    otherwise one filter, for the whole width of the new chart. *)
Theorem update_emission (o : VisualUpdateOptions) (v : Visual) :
  appliedFilters (update o v)
  = appliedFilters v ++
    if placeholderPath o v then []
    else
      match timeExtentOf (data (loadOptions o v)), filterTargetOf (dataView0 o) with
      | Some extent, Some target =>
          if selectionKept extent v || isProgrammaticBrushUpdate v then []
          else
            let w := chartWidthOf (loadOptions o v) (qmax 0 (viewportWidth o)) in
            [{| f_target := target;
                f_value := filterValue (loadOptions o v)
                             (scaleInvert extent w 0) (scaleInvert extent w w) |}]
      | _, _ => []
      end.
Proof.
  destruct (placeholderPath o v) eqn:Hp.
  - rewrite (update_placeholder o v Hp), app_nil_r; reflexivity.
  - rewrite (update_renders o v Hp).
    set (v1 := loadOptions o v).
    destruct (timeExtentOf (data v1)) as [ext|] eqn:Eext.
    + rewrite (renderChart_filters _ _ v1 ext Eext); cbv zeta.
      set (cw := chartWidthOf v1 (qmax 0 (viewportWidth o))).
      change (appliedFilters v1) with (appliedFilters v).
      change (isProgrammaticBrushUpdate v1) with (isProgrammaticBrushUpdate v).
      change (filterColumnTarget v1) with (filterTargetOf (dataView0 o)).
      f_equal.
      unfold selectionKept.
      cbn [selectedStartDate selectedEndDate lastTimeRange setupBrush renderScene
           v1 loadOptions].
      destruct (lastTimeRange v) as [[oldMin oldMax]|].
      * destruct (oldMin =? fst ext), (oldMax =? snd ext);
          destruct (selectedStartDate v), (selectedEndDate v);
          destruct (isProgrammaticBrushUpdate v), (filterTargetOf (dataView0 o));
          reflexivity.
      * destruct (selectedStartDate v), (selectedEndDate v);
          destruct (isProgrammaticBrushUpdate v), (filterTargetOf (dataView0 o));
          reflexivity.
    + unfold renderChart; rewrite Eext, app_nil_r; reflexivity.
Qed.

Lemma onBrushEnd_emits_once (e : BrushEvent) (v : Visual) :
  exists fs, appliedFilters (onBrushEnd e v) = appliedFilters v ++ fs /\
             (List.length fs <= 1)%nat /\
             (isProgrammaticBrushUpdate v = true -> fs = []).
Proof.
  destruct (isProgrammaticBrushUpdate v) eqn:Hg.
  - exists []; rewrite app_nil_r.
    split; [apply (onBrushEnd_guarded e v Hg) | split; [simpl; lia | reflexivity]].
  - set (v1 := match selection e, xScale v with
               | None, Some (domain, _) =>
                   updateRangeDisplay
                     (setSelection (Some (fst domain)) (Some (snd domain)) v)
               | _, _ => v
               end).
    assert (H1 : appliedFilters v1 = appliedFilters v).
    { unfold v1; destruct (selection e) as [sel|]; [reflexivity|].
      destruct (xScale v) as [[domain w]|]; reflexivity. }
    destruct (onBrushEnd_cases e v) as [-> | [f ->]]; fold v1.
    + exists []; rewrite app_nil_r.
      split; [exact H1 | split; [simpl; lia | discriminate]].
    + exists [f]; cbn [appliedFilters applyJsonFilter]; rewrite H1.
      split; [reflexivity | split; [simpl; lia | discriminate]].
Qed.

(** X15.  An event submits at most one filter; a move of the brush and a timer
    submit none; and while the guard of a programmatic move is set nothing
    is submitted at all, not even on a release by the user. *)
Theorem event_emission (e : Event) (v : Visual) :
  exists fs,
    appliedFilters (step e v) = appliedFilters v ++ fs /\
    (List.length fs <= 1)%nat /\
    (isProgrammaticBrushUpdate v = true -> fs = []) /\
    match e with
    | EDrag _ | ETimer _ => fs = []
    | _ => True
    end.
Proof.
  destruct e as [o | sel | | | n]; cbn [step].
  - destruct (placeholderPath o v) eqn:Hp.
    + exists []; rewrite (update_placeholder o v Hp), app_nil_r.
      split; [reflexivity | split; [simpl; lia | split; trivial]].
    + rewrite (update_renders o v Hp).
      destruct (placeholderPath_false o v Hp) as [_ Hdata].
      destruct (timeExtentOf (data (loadOptions o v))) as [ext|] eqn:Eext;
        [|destruct (data (loadOptions o v)); [congruence | discriminate]].
      rewrite (renderChart_filters _ _ _ ext Eext); cbv zeta.
      eexists; split; [reflexivity|].
      change (isProgrammaticBrushUpdate (loadOptions o v))
        with (isProgrammaticBrushUpdate v).
      match goal with
      | |- context [match ?a with Some _ => match ?b with _ => _ end | None => _ end] =>
          destruct a; [destruct b|]
      end;
        try (split; [simpl; lia | split; trivial; fail]);
        destruct (isProgrammaticBrushUpdate v),
          (filterColumnTarget (loadOptions o v));
        (split; [simpl; lia | split; [intros; congruence | trivial]]).
  - exists []; rewrite app_nil_r; unfold userDrag.
    rewrite onBrush_filters.
    split; [reflexivity | split; [simpl; lia | split; trivial]].
  - unfold userRelease.
    destruct (onBrushEnd_emits_once {| selection := brushSelection v |}
                (setBrushSelection (brushSelection v) v)) as [fs [H1 [H2 H3]]].
    exists fs; split; [exact H1 | split; [exact H2 | split; [exact H3 | trivial]]].
  - unfold userRelease.
    destruct (onBrushEnd_emits_once {| selection := None |}
                (setBrushSelection None v)) as [fs [H1 [H2 H3]]].
    exists fs; split; [exact H1 | split; [exact H2 | split; [exact H3 | trivial]]].
  - exists []; rewrite app_nil_r, fireTimer_filters.
    split; [reflexivity | split; [simpl; lia | split; trivial]].
Qed.

End EmissionFacts.

(** ** After [destroy] *)

Section DestroyFacts.
Context {rt : Runtime}.

Lemma removeNth_Forall {A : Type} (P : A -> Prop) (l : list A) :
  forall n, Forall P l -> Forall P (removeNth n l).
Proof.
  induction l as [|x l IH]; intros n H; [destruct n; exact H|].
  inversion H as [|? ? Hx Hl]; subst.
  destruct n as [|n]; simpl; [exact Hl|].
  constructor; [exact Hx | apply IH, Hl].
Qed.

Lemma destroy_timers (v : Visual) :
  Debounced v -> Forall (fun t => t = FlagReset) (timers (destroy v)).
Proof.
  unfold Debounced; cbn [timers destroy]; intros H.
  destruct (brushUpdateTimeout v).
  - clear H; induction (timers v) as [|[|] l IH]; simpl;
      [constructor | exact IH | constructor; [reflexivity | exact IH]].
  - induction (timers v) as [|[|] l IH]; simpl in *;
      [constructor | discriminate | constructor; [reflexivity | apply IH, H]].
Qed.

Lemma fireTimer_quiet (n : nat) (v : Visual) :
  Forall (fun t => t = FlagReset) (timers v) ->
  Forall (fun t => t = FlagReset) (timers (fireTimer n v)) /\
  rangeDisplay (fireTimer n v) = rangeDisplay v /\
  selectedStartDate (fireTimer n v) = selectedStartDate v /\
  selectedEndDate (fireTimer n v) = selectedEndDate v /\
  data (fireTimer n v) = data v /\
  xScale (fireTimer n v) = xScale v /\
  brush (fireTimer n v) = brush v /\
  scene (fireTimer n v) = scene v.
Proof.
  intros Hall.
  destruct (fireTimer_cases n v) as [-> | [[Hn _] | [Hn ->]]].
  - repeat split; exact Hall.
  - apply nth_error_In in Hn.
    rewrite Forall_forall in Hall; specialize (Hall _ Hn); discriminate.
  - cbn [timers rangeDisplay selectedStartDate selectedEndDate data xScale brush scene
         setProgrammatic setTimers].
    repeat split; apply removeNth_Forall, Hall.
Qed.

Lemma fireTimers_quiet (ns : list nat) :
  forall v : Visual,
  Forall (fun t => t = FlagReset) (timers v) ->
  let v' := fold_left (fun s n => fireTimer n s) ns v in
  Forall (fun t => t = FlagReset) (timers v') /\
  rangeDisplay v' = rangeDisplay v /\
  selectedStartDate v' = selectedStartDate v /\
  selectedEndDate v' = selectedEndDate v /\
  data v' = data v /\ xScale v' = xScale v /\ brush v' = brush v /\
  scene v' = scene v.
Proof.
  induction ns as [|n ns IH]; intros v Hall; simpl.
  - repeat split; exact Hall.
  - destruct (fireTimer_quiet n v Hall) as [Hall' [E1 [E2 [E3 [E4 [E5 [E6 E7]]]]]]].
    destruct (IH _ Hall') as [G0 [G1 [G2 [G3 [G4 [G5 [G6 G7]]]]]]].
    rewrite G1, G2, G3, G4, G5, G6, G7, E1, E2, E3, E4, E5, E6, E7.
    repeat split; exact G0.
Qed.

(** X16.  After [destroy], whatever happened before and whichever timers still
    fire: no display update is pending, the range text is not written
    again, nothing is submitted, and data, scale, brush and scene stay
    dropped. *)
Theorem destroy_is_final (events : list Event) (ns : list nat) :
  let v := destroy (run events initialVisual) in
  let v' := fold_left (fun s n => fireTimer n s) ns v in
  Forall (fun t => t = FlagReset) (timers v') /\
  rangeDisplay v' = rangeDisplay v /\
  appliedFilters v' = appliedFilters (run events initialVisual) /\
  selectedStartDate v' = selectedStartDate (run events initialVisual) /\
  selectedEndDate v' = selectedEndDate (run events initialVisual) /\
  data v' = [] /\ xScale v' = None /\ brush v' = None /\ scene v' = None.
Proof.
  intros v v'.
  destruct (run_Inv events initialVisual initialVisual_Inv) as [_ [_ [Hb _]]].
  pose proof (destroy_timers _ Hb) as Hall; fold v in Hall.
  assert (Hf : appliedFilters v' = appliedFilters v)
    by (unfold v'; apply fireTimers_filters).
  assert (H : Forall (fun t => t = FlagReset) (timers v') /\
              rangeDisplay v' = rangeDisplay v /\
              selectedStartDate v' = selectedStartDate v /\
              selectedEndDate v' = selectedEndDate v /\
              data v' = data v /\ xScale v' = xScale v /\ brush v' = brush v /\
              scene v' = scene v)
    by (apply fireTimers_quiet, Hall).
  destruct H as [G0 [G1 [G2 [G3 [G4 [G5 [G6 G7]]]]]]].
  rewrite Hf, G2, G3, G4, G5, G6, G7.
  repeat split; [exact G0 | exact G1].
Qed.

End DestroyFacts.

(** ** The value scale without manual bounds *)

(** ** Binary64 rounding of a rational *)

Lemma roundRatio_near (num den : Z) :
  0 < den -> num / den <= roundRatio num den <= num / den + 1.
Proof.
  intros Hd; unfold roundRatio.
  destruct (2 * (num mod den) <? den); [lia|].
  destruct (den <? 2 * (num mod den)); [lia|].
  destruct (Z.even (num / den)); lia.
Qed.

Lemma floor_mono (n1 d1 n2 d2 : Z) :
  0 < d1 -> 0 < d2 -> n1 * d2 <= n2 * d1 -> n1 / d1 <= n2 / d2.
Proof.
  intros H1 H2 H.
  apply Z.div_le_lower_bound; [exact H2|].
  pose proof (Z.mul_div_le n1 d1 H1) as Hk.
  nia.
Qed.

Lemma roundRatio_mono (n1 d1 n2 d2 : Z) :
  0 < d1 -> 0 < d2 -> n1 * d2 <= n2 * d1 ->
  roundRatio n1 d1 <= roundRatio n2 d2.
Proof.
  intros H1 H2 H.
  pose proof (floor_mono n1 d1 n2 d2 H1 H2 H) as Hk.
  pose proof (roundRatio_near n1 d1 H1) as B1.
  pose proof (roundRatio_near n2 d2 H2) as B2.
  destruct (Z.eq_dec (n1 / d1) (n2 / d2)) as [Heq | Hne]; [|lia].
  pose proof (Z.div_mod n1 d1 ltac:(lia)) as E1.
  pose proof (Z.div_mod n2 d2 ltac:(lia)) as E2.
  pose proof (Z.mod_pos_bound n1 d1 H1) as M1.
  pose proof (Z.mod_pos_bound n2 d2 H2) as M2.
  assert (Hr : (n1 mod d1) * d2 <= (n2 mod d2) * d1).
  { rewrite Heq in E1. nia. }
  unfold roundRatio; rewrite Heq.
  destruct (2 * (n1 mod d1) <? d1) eqn:A1;
    destruct (d1 <? 2 * (n1 mod d1)) eqn:A2;
    destruct (2 * (n2 mod d2) <? d2) eqn:B1';
    destruct (d2 <? 2 * (n2 mod d2)) eqn:B2';
    destruct (Z.even (n2 / d2));
    rewrite ?Z.ltb_lt, ?Z.ltb_ge in *; try lia; nia.
Qed.

(** The fractions of one number at two exponents. *)
Lemma scaled_pos (a d e : Z) :
  0 < a -> 0 < d -> 0 < fst (scaled a d e) /\ 0 < snd (scaled a d e).
Proof.
  intros Ha Hd; unfold scaled; cbn [fst snd].
  assert (0 < 2 ^ Z.max (- e) 0) by (apply Z.pow_pos_nonneg; lia).
  assert (0 < 2 ^ Z.max e 0) by (apply Z.pow_pos_nonneg; lia).
  nia.
Qed.

Lemma scaled_shift (a d e e' : Z) :
  e <= e' ->
  fst (scaled a d e) * snd (scaled a d e')
  = fst (scaled a d e') * snd (scaled a d e) * 2 ^ (e' - e).
Proof.
  intros Hle; unfold scaled; cbn [fst snd].
  transitivity (a * d * (2 ^ Z.max (- e) 0 * 2 ^ Z.max e' 0)); [ring|].
  transitivity (a * d * (2 ^ Z.max (- e') 0 * 2 ^ Z.max e 0 * 2 ^ (e' - e))); [|ring].
  f_equal.
  rewrite <- !Z.pow_add_r by lia.
  f_equal; lia.
Qed.

Lemma pow2_pos (n : Z) : 0 <= n -> 0 < 2 ^ n.
Proof. intros; apply Z.pow_pos_nonneg; lia. Qed.

(** At the exponent chosen the significand is below 2^53, and at least
    2^52 unless the exponent is the least one. *)
Lemma lastBit_spec (a d : Z) :
  0 < a -> 0 < d ->
  let e := lastBit a d in
  -1074 <= e /\
  fst (scaled a d e) < 2 ^ 53 * snd (scaled a d e) /\
  (-1074 < e -> 2 ^ 52 * snd (scaled a d e) <= fst (scaled a d e)).
Proof.
  intros Ha Hd.
  unfold lastBit.
  set (e0 := Z.log2 a - Z.log2 d - 52).
  destruct (Z.log2_spec a Ha) as [La1 La2].
  destruct (Z.log2_spec d Hd) as [Ld1 Ld2].
  pose proof (Z.log2_nonneg a) as Na.
  pose proof (Z.log2_nonneg d) as Nd.
  (* bounds at e0 *)
  assert (B0 : 2 ^ 51 * snd (scaled a d e0) < fst (scaled a d e0)
               /\ fst (scaled a d e0) < 2 ^ 53 * snd (scaled a d e0)).
  { unfold scaled; cbn [fst snd].
    set (p := Z.max (- e0) 0). set (q := Z.max e0 0).
    assert (Hp : 0 <= p) by lia. assert (Hq : 0 <= q) by lia.
    assert (Hpq : q - p = e0) by lia.
    pose proof (pow2_pos p Hp) as Pp. pose proof (pow2_pos q Hq) as Pq.
    split.
    - (* 2^51 d 2^q < 2^(52+ld+q) = 2^(la+p) <= a 2^p *)
      assert (E : 2 ^ 51 * (2 ^ Z.succ (Z.log2 d) * 2 ^ q) = 2 ^ Z.log2 a * 2 ^ p).
      { rewrite <- !Z.pow_add_r by lia. f_equal. unfold e0 in Hpq. lia. }
      assert (2 ^ 51 * (d * 2 ^ q) < 2 ^ 51 * (2 ^ Z.succ (Z.log2 d) * 2 ^ q)).
      { apply Z.mul_lt_mono_pos_l; [reflexivity|].
        apply Z.mul_lt_mono_pos_r; assumption. }
      assert (2 ^ Z.log2 a * 2 ^ p <= a * 2 ^ p) by (apply Z.mul_le_mono_nonneg_r; lia).
      lia.
    - assert (E : 2 ^ Z.succ (Z.log2 a) * 2 ^ p = 2 ^ 53 * (2 ^ Z.log2 d * 2 ^ q)).
      { rewrite <- !Z.pow_add_r by lia. f_equal. unfold e0 in Hpq. lia. }
      assert (a * 2 ^ p < 2 ^ Z.succ (Z.log2 a) * 2 ^ p)
        by (apply Z.mul_lt_mono_pos_r; assumption).
      assert (2 ^ 53 * (2 ^ Z.log2 d * 2 ^ q) <= 2 ^ 53 * (d * 2 ^ q)).
      { apply Z.mul_le_mono_nonneg_l; [discriminate|].
        apply Z.mul_le_mono_nonneg_r; lia. }
      lia. }
  destruct B0 as [B0l B0u].
  destruct (scaled_pos a d e0 Ha Hd) as [P0n P0d].
  set (e1 := if fst (scaled a d e0) / snd (scaled a d e0) <? 2 ^ 52
             then e0 - 1 else e0).
  assert (B1 : 2 ^ 52 * snd (scaled a d e1) <= fst (scaled a d e1)
               /\ fst (scaled a d e1) < 2 ^ 53 * snd (scaled a d e1)).
  { unfold e1.
    destruct (fst (scaled a d e0) / snd (scaled a d e0) <? 2 ^ 52) eqn:E.
    - apply Z.ltb_lt in E.
      assert (Hlt : fst (scaled a d e0) < 2 ^ 52 * snd (scaled a d e0)).
      { destruct (Z.lt_ge_cases (fst (scaled a d e0)) (2 ^ 52 * snd (scaled a d e0)))
          as [H | H]; [exact H|].
        assert (2 ^ 52 <= fst (scaled a d e0) / snd (scaled a d e0))
          by (apply Z.div_le_lower_bound; lia).
        lia. }
      pose proof (scaled_shift a d (e0 - 1) e0 ltac:(lia)) as Hs.
      replace (e0 - (e0 - 1)) with 1 in Hs by lia.
      change (2 ^ 1) with 2 in Hs.
      destruct (scaled_pos a d (e0 - 1) Ha Hd) as [P1n P1d].
      change (2 ^ 53) with (2 * 2 ^ 52). change (2 ^ 51) with 2251799813685248 in *.
      change (2 ^ 52) with 4503599627370496 in *.
      split; nia.
    - apply Z.ltb_ge in E.
      split; [|exact B0u].
      pose proof (Z.mul_div_le (fst (scaled a d e0)) (snd (scaled a d e0)) P0d).
      nia. }
  destruct B1 as [B1l B1u].
  cbv zeta.
  split; [lia|].
  destruct (Z.max_spec e1 (-1074)) as [[Hlt ->] | [Hge ->]].
  - (* clamped *)
    split; [|lia].
    pose proof (scaled_shift a d e1 (-1074) ltac:(lia)) as Hs.
    destruct (scaled_pos a d e1 Ha Hd) as [P1n P1d].
    destruct (scaled_pos a d (-1074) Ha Hd) as [Pcn Pcd].
    assert (Hpow : 1 <= 2 ^ (-1074 - e1)) by (pose proof (pow2_pos (-1074 - e1)); lia).
    assert (0 < 2 ^ 53) by reflexivity.
    destruct (Z.lt_ge_cases (fst (scaled a d (-1074))) (2 ^ 53 * snd (scaled a d (-1074))))
      as [H1 | H1]; [exact H1|].
    exfalso.
    set (Nc := fst (scaled a d (-1074))) in *.
    set (Dc := snd (scaled a d (-1074))) in *.
    set (N1 := fst (scaled a d e1)) in *.
    set (D1 := snd (scaled a d e1)) in *.
    set (k2 := 2 ^ (-1074 - e1)) in *.
    clearbody Nc Dc N1 D1 k2.
    assert (A : Nc * D1 * 1 <= Nc * D1 * k2)
      by (apply Z.mul_le_mono_nonneg_l; [apply Z.mul_nonneg_nonneg; lia | exact Hpow]).
    assert (B : 2 ^ 53 * Dc * D1 <= Nc * D1)
      by (apply Z.mul_le_mono_nonneg_r; lia).
    assert (C : N1 * Dc < 2 ^ 53 * D1 * Dc)
      by (apply Z.mul_lt_mono_pos_r; lia).
    lia.
  - split; [exact B1u | intros _; exact B1l].
Qed.

(** The exponent grows with the number. *)
Lemma lastBit_mono (a1 d1 a2 d2 : Z) :
  0 < a1 -> 0 < d1 -> 0 < a2 -> 0 < d2 ->
  a1 * d2 <= a2 * d1 -> lastBit a1 d1 <= lastBit a2 d2.
Proof.
  intros Ha1 Hd1 Ha2 Hd2 Hle.
  destruct (lastBit_spec a1 d1 Ha1 Hd1) as [L1 [U1 Lo1]].
  destruct (lastBit_spec a2 d2 Ha2 Hd2) as [L2 [U2 Lo2]].
  set (e1 := lastBit a1 d1) in *. set (e2 := lastBit a2 d2) in *.
  destruct (Z.le_gt_cases e1 e2) as [H | H]; [exact H|].
  exfalso.
  specialize (Lo1 ltac:(lia)).
  unfold scaled in *; cbn [fst snd] in *.
  set (p1 := Z.max (- e1) 0) in *. set (q1 := Z.max e1 0) in *.
  set (p2 := Z.max (- e2) 0) in *. set (q2 := Z.max e2 0) in *.
  assert (Hx : 2 ^ 52 * (d1 * d2) * 2 ^ (q1 + p2) <= a1 * d2 * 2 ^ (p1 + p2)).
  { rewrite !Z.pow_add_r by lia.
    pose proof (pow2_pos p2 ltac:(lia)). pose proof (pow2_pos q1 ltac:(lia)).
    pose proof (pow2_pos p1 ltac:(lia)).
    assert (Hc : 2 ^ 52 * (d1 * 2 ^ q1) * (d2 * 2 ^ p2) <= a1 * 2 ^ p1 * (d2 * 2 ^ p2))
      by (apply Z.mul_le_mono_nonneg_r; lia).
    replace (2 ^ 52 * (d1 * d2) * (2 ^ q1 * 2 ^ p2))
      with (2 ^ 52 * (d1 * 2 ^ q1) * (d2 * 2 ^ p2)) by ring.
    replace (a1 * d2 * (2 ^ p1 * 2 ^ p2))
      with (a1 * 2 ^ p1 * (d2 * 2 ^ p2)) by ring.
    exact Hc. }
  assert (Hy : a2 * d1 * 2 ^ (p1 + p2) < 2 ^ 53 * (d1 * d2) * 2 ^ (p1 + q2)).
  { rewrite !Z.pow_add_r by lia.
    pose proof (pow2_pos p2 ltac:(lia)). pose proof (pow2_pos q2 ltac:(lia)).
    pose proof (pow2_pos p1 ltac:(lia)).
    assert (Hc : a2 * 2 ^ p2 * (d1 * 2 ^ p1) < 2 ^ 53 * (d2 * 2 ^ q2) * (d1 * 2 ^ p1))
      by (apply Z.mul_lt_mono_pos_r; lia).
    replace (a2 * d1 * (2 ^ p1 * 2 ^ p2))
      with (a2 * 2 ^ p2 * (d1 * 2 ^ p1)) by ring.
    replace (2 ^ 53 * (d1 * d2) * (2 ^ p1 * 2 ^ q2))
      with (2 ^ 53 * (d2 * 2 ^ q2) * (d1 * 2 ^ p1)) by ring.
    exact Hc. }
  assert (Hm : a1 * d2 * 2 ^ (p1 + p2) <= a2 * d1 * 2 ^ (p1 + p2)).
  { apply Z.mul_le_mono_nonneg_r; [|exact Hle].
    pose proof (pow2_pos (p1 + p2) ltac:(lia)); lia. }
  assert (Hpow : 2 * 2 ^ (p1 + q2) <= 2 ^ (q1 + p2)).
  { change 2 with (2 ^ 1) at 1. rewrite <- Z.pow_add_r by lia.
    apply Z.pow_le_mono_r; lia. }
  assert (Hdd : 0 < d1 * d2) by nia.
  change (2 ^ 53) with (2 ^ 52 * 2) in Hy.
  assert (H52 : 0 < 2 ^ 52) by reflexivity.
  assert (Hlt : 2 ^ 52 * (d1 * d2) * 2 ^ (q1 + p2)
                < 2 ^ 52 * 2 * (d1 * d2) * 2 ^ (p1 + q2)) by lia.
  assert (Hge : 2 ^ 52 * (d1 * d2) * (2 * 2 ^ (p1 + q2))
                <= 2 ^ 52 * (d1 * d2) * 2 ^ (q1 + p2)).
  { apply Z.mul_le_mono_nonneg_l; [|exact Hpow].
    apply Z.mul_nonneg_nonneg; lia. }
  replace (2 ^ 52 * 2 * (d1 * d2) * 2 ^ (p1 + q2))
    with (2 ^ 52 * (d1 * d2) * (2 * 2 ^ (p1 + q2))) in Hlt by ring.
  lia.
Qed.

(** *** The order of the rounded numbers *)

Lemma timesPow2_eq (k e : Z) :
  (timesPow2 k e ==
   if 0 <=? e then inject_Z (k * 2 ^ e) else Qmake k (Z.to_pos (2 ^ (- e))))%Q.
Proof.
  unfold timesPow2; destruct (0 <=? e); [reflexivity | apply Qred_correct].
Qed.

Lemma timesPow2_le (k1 e1 k2 e2 : Z) :
  e1 <= e2 -> k1 <= k2 * 2 ^ (e2 - e1) ->
  (timesPow2 k1 e1 <= timesPow2 k2 e2)%Q.
Proof.
  intros He Hk.
  rewrite !timesPow2_eq.
  pose proof (pow2_pos (e2 - e1) ltac:(lia)) as Pd.
  destruct (0 <=? e1) eqn:E1; destruct (0 <=? e2) eqn:E2;
    rewrite ?Z.leb_le, ?Z.leb_gt in *; try lia.
  - rewrite <- Zle_Qle.
    replace e2 with ((e2 - e1) + e1) at 1 by lia.
    rewrite Z.pow_add_r by lia.
    pose proof (pow2_pos e1 E1).
    rewrite Z.mul_assoc.
    apply Z.mul_le_mono_nonneg_r; lia.
  - unfold Qle; cbn [Qnum Qden inject_Z].
    rewrite Z2Pos.id by (apply pow2_pos; lia).
    replace (e2 - e1) with (e2 + - e1) in Hk by lia.
    rewrite Z.pow_add_r in Hk by lia.
    lia.
  - unfold Qle; cbn [Qnum Qden].
    rewrite !Z2Pos.id by (apply pow2_pos; lia).
    replace (- e1) with ((e2 - e1) + - e2) by lia.
    rewrite Z.pow_add_r by lia.
    pose proof (pow2_pos (- e2) ltac:(lia)).
    rewrite Z.mul_assoc.
    apply Z.mul_le_mono_nonneg_r; lia.
Qed.

Lemma timesPow2_opp (k e : Z) : (timesPow2 (- k) e == - timesPow2 k e)%Q.
Proof.
  rewrite !timesPow2_eq.
  destruct (0 <=? e).
  - rewrite Z.mul_opp_l, inject_Z_opp; reflexivity.
  - unfold Qeq, Qopp; cbn [Qnum Qden]; lia.
Qed.

Lemma timesPow2_nonneg (k e : Z) : 0 <= k -> (0 <= timesPow2 k e)%Q.
Proof.
  intros Hk; rewrite timesPow2_eq.
  destruct (0 <=? e) eqn:E.
  - apply Z.leb_le in E.
    change 0%Q with (inject_Z 0); rewrite <- Zle_Qle.
    pose proof (pow2_pos e E); nia.
  - unfold Qle; cbn [Qnum Qden]; lia.
Qed.

Lemma roundCore_nonneg (a d : Z) : 0 < a -> 0 < d -> (0 <= roundCore a d)%Q.
Proof.
  intros Ha Hd; apply timesPow2_nonneg.
  destruct (scaled_pos a d (lastBit a d) Ha Hd) as [Pn Pd].
  pose proof (roundRatio_near (fst (scaled a d (lastBit a d))) _ Pd) as [Hk _].
  pose proof (Z.div_pos (fst (scaled a d (lastBit a d)))
                        (snd (scaled a d (lastBit a d))) ltac:(lia) Pd).
  lia.
Qed.

Lemma roundCore_mono (a1 d1 a2 d2 : Z) :
  0 < a1 -> 0 < d1 -> 0 < a2 -> 0 < d2 ->
  a1 * d2 <= a2 * d1 -> (roundCore a1 d1 <= roundCore a2 d2)%Q.
Proof.
  intros Ha1 Hd1 Ha2 Hd2 Hle.
  pose proof (lastBit_mono a1 d1 a2 d2 Ha1 Hd1 Ha2 Hd2 Hle) as He.
  destruct (lastBit_spec a1 d1 Ha1 Hd1) as [L1 [U1 Lo1]].
  destruct (lastBit_spec a2 d2 Ha2 Hd2) as [L2 [U2 Lo2]].
  unfold roundCore.
  set (e1 := lastBit a1 d1) in *. set (e2 := lastBit a2 d2) in *.
  destruct (scaled_pos a1 d1 e1 Ha1 Hd1) as [P1n P1d].
  destruct (scaled_pos a2 d2 e2 Ha2 Hd2) as [P2n P2d].
  apply timesPow2_le; [exact He|].
  destruct (Z.eq_dec e1 e2) as [Heq | Hne].
  - rewrite <- Heq, Z.sub_diag, Z.mul_1_r.
    apply roundRatio_mono; try assumption.
    + apply scaled_pos; assumption.
    + unfold scaled; cbn [fst snd].
      pose proof (pow2_pos (Z.max (- e1) 0) ltac:(lia)) as Pp.
      pose proof (pow2_pos (Z.max e1 0) ltac:(lia)) as Pq.
      set (P := 2 ^ Z.max (- e1) 0) in *. set (Q' := 2 ^ Z.max e1 0) in *.
      clearbody P Q'.
      assert (H : a1 * d2 * (P * Q') <= a2 * d1 * (P * Q'))
        by (apply Z.mul_le_mono_nonneg_r; [apply Z.mul_nonneg_nonneg; lia | exact Hle]).
      lia.
  - specialize (Lo2 ltac:(lia)).
    pose proof (roundRatio_near (fst (scaled a1 d1 e1)) _ P1d) as [_ K1].
    pose proof (roundRatio_near (fst (scaled a2 d2 e2)) _ P2d) as [K2 _].
    assert (F1 : fst (scaled a1 d1 e1) / snd (scaled a1 d1 e1) < 2 ^ 53)
      by (apply Z.div_lt_upper_bound; lia).
    assert (F2 : 2 ^ 52 <= fst (scaled a2 d2 e2) / snd (scaled a2 d2 e2))
      by (apply Z.div_le_lower_bound; lia).
    assert (Hp : 2 <= 2 ^ (e2 - e1)).
    { change 2 with (2 ^ 1) at 1; apply Z.pow_le_mono_r; lia. }
    change (2 ^ 53) with (2 ^ 52 * 2) in F1.
    assert (H52 : 0 < 2 ^ 52) by reflexivity.
    set (k1 := roundRatio (fst (scaled a1 d1 e1)) (snd (scaled a1 d1 e1))) in *.
    set (k2 := roundRatio (fst (scaled a2 d2 e2)) (snd (scaled a2 d2 e2))) in *.
    assert (A : 2 ^ 52 * 2 <= k2 * 2 ^ (e2 - e1)).
    { apply Z.le_trans with (k2 * 2); [lia|].
      apply Z.mul_le_mono_nonneg_l; lia. }
    lia.
Qed.

Lemma roundBinary64_cases (q : Q) :
  (Qnum q = 0 /\ roundBinary64 q = 0%Q) \/
  (0 < Qnum q /\ roundBinary64 q = roundCore (Qnum q) (Zpos (Qden q))) \/
  (Qnum q < 0 /\
   (roundBinary64 q == - roundCore (- Qnum q) (Zpos (Qden q)))%Q).
Proof.
  unfold roundBinary64, roundCore.
  destruct (Z.abs (Qnum q) =? 0) eqn:E.
  - left; apply Z.eqb_eq in E; split; [lia | reflexivity].
  - apply Z.eqb_neq in E; right.
    destruct (Z.lt_trichotomy (Qnum q) 0) as [H | [H | H]]; [|lia|].
    + right; split; [exact H|].
      rewrite (Z.abs_neq (Qnum q)) by lia.
      rewrite (Z.sgn_neg (Qnum q)) by exact H.
      replace (-1 * roundRatio (fst (scaled (- Qnum q) (Z.pos (Qden q))
                                            (lastBit (- Qnum q) (Z.pos (Qden q)))))
                               (snd (scaled (- Qnum q) (Z.pos (Qden q))
                                            (lastBit (- Qnum q) (Z.pos (Qden q))))))
        with (- roundRatio (fst (scaled (- Qnum q) (Z.pos (Qden q))
                                        (lastBit (- Qnum q) (Z.pos (Qden q)))))
                           (snd (scaled (- Qnum q) (Z.pos (Qden q))
                                        (lastBit (- Qnum q) (Z.pos (Qden q))))))
        by lia.
      apply timesPow2_opp.
    + left; split; [exact H|].
      rewrite (Z.abs_eq (Qnum q)) by lia.
      rewrite (Z.sgn_pos (Qnum q)) by exact H.
      rewrite Z.mul_1_l; reflexivity.
Qed.

(** Rounding keeps the order of the rationals. *)
Lemma roundBinary64_mono (x y : Q) :
  (x <= y)%Q -> (roundBinary64 x <= roundBinary64 y)%Q.
Proof.
  intros Hxy; unfold Qle in Hxy.
  destruct (roundBinary64_cases x) as [[Hx Ex] | [[Hx Ex] | [Hx Ex]]];
    destruct (roundBinary64_cases y) as [[Hy Ey] | [[Hy Ey] | [Hy Ey]]];
    rewrite Ex, Ey; try (exfalso; nia).
  - apply Qle_refl.
  - apply roundCore_nonneg; lia.
  - apply roundCore_mono; try lia.
  - pose proof (roundCore_nonneg (- Qnum x) (Zpos (Qden x)) ltac:(lia) ltac:(lia)).
    lra.
  - pose proof (roundCore_nonneg (- Qnum x) (Zpos (Qden x)) ltac:(lia) ltac:(lia)).
    pose proof (roundCore_nonneg (Qnum y) (Zpos (Qden y)) ltac:(lia) ltac:(lia)).
    lra.
  - pose proof (roundCore_mono (- Qnum y) (Zpos (Qden y)) (- Qnum x) (Zpos (Qden x))
                  ltac:(lia) ltac:(lia) ltac:(lia) ltac:(lia) ltac:(lia)).
    lra.
Qed.

Section DomainFacts.
Context {rt : Runtime}.

Lemma validValues_In (points : list TimeDataPoint) (v : Q) :
  In v (validValues points) <-> exists p, In p points /\ value p = Some v.
Proof.
  unfold validValues; rewrite in_flat_map; split.
  - intros [p [Hp Hv]]; exists p; split; [exact Hp|].
    destruct (value p) as [q|]; [|destruct Hv].
    destruct Hv as [-> | []]; reflexivity.
  - intros [p [Hp Hv]]; exists p; split; [exact Hp|].
    rewrite Hv; left; reflexivity.
Qed.

Lemma autoBounds_spec (vs : list Q) :
  (orDefault (d3min vs) 0 <= orDefault (d3max vs) 1)%Q /\
  forall v, In v vs ->
            (orDefault (d3min vs) 0 <= v)%Q /\ (v <= orDefault (d3max vs) 1)%Q.
Proof.
  destruct (d3min vs) as [mn|] eqn:Emin.
  - destruct (d3max vs) as [mx|] eqn:Emax; [|destruct vs; discriminate].
    destruct (d3min_spec vs mn Emin) as [Hmn Hlo].
    destruct (d3max_spec vs mx Emax) as [Hmx Hhi].
    assert (Hlo0 : (orDefault (Some mn) 0 == mn)%Q) by apply orDefault_zero.
    assert (Hhi0 : (mx <= orDefault (Some mx) 1)%Q).
    { unfold orDefault, isZeroQ.
      destruct (Qeq_bool mx 0) eqn:E; [|lra].
      apply Qeq_bool_iff in E; lra. }
    split.
    + specialize (Hhi mn Hmn); lra.
    + intros v Hv; specialize (Hlo v Hv); specialize (Hhi v Hv); split; lra.
  - destruct vs; [|discriminate].
    split; [simpl; lra | intros v []].
Qed.

Lemma roundNumber_nonneg (q : Q) :
  (forall x y, (x <= y)%Q -> (roundNumber x <= roundNumber y)%Q) ->
  (roundNumber 0 == 0)%Q -> (0 <= q)%Q -> (0 <= roundNumber q)%Q.
Proof.
  intros Hmono H0 Hq.
  rewrite <- H0; apply Hmono, Hq.
Qed.

(** Padding never moves an end inwards, when rounding keeps the order and
    the two ends are numbers. *)
Lemma padDomain_holds (lo hi : Q) :
  (forall x y, (x <= y)%Q -> (roundNumber x <= roundNumber y)%Q) ->
  (roundNumber 0 == 0)%Q ->
  (roundNumber lo == lo)%Q -> (roundNumber hi == hi)%Q ->
  (lo <= hi)%Q ->
  (fst (padDomain lo hi) <= lo)%Q /\ (hi <= snd (padDomain lo hi))%Q.
Proof.
  intros Hmono H0 Hlo Hhi Hle; unfold padDomain.
  destruct (Qeq_bool lo hi); cbn [fst snd].
  - split.
    + rewrite <- Hlo at 2; apply Hmono; lra.
    + rewrite <- Hhi at 1; apply Hmono; lra.
  - set (padding := roundNumber (roundNumber (hi - lo) * roundNumber (1 # 10))).
    assert (Hpad : (0 <= padding)%Q).
    { apply roundNumber_nonneg; [exact Hmono | exact H0 |].
      apply Qmult_le_0_compat; apply roundNumber_nonneg;
        try assumption; lra. }
    split.
    + rewrite <- Hlo at 2; apply Hmono; lra.
    + rewrite <- Hhi at 1; apply Hmono; lra.
Qed.

Lemma padDomain_widens (lo hi : Q) :
  (forall q, roundNumber q == q)%Q ->
  (lo <= hi)%Q ->
  (fst (padDomain lo hi) < lo)%Q /\ (hi < snd (padDomain lo hi))%Q.
Proof.
  intros Hid Hle; unfold padDomain.
  destruct (Qeq_bool lo hi) eqn:E; cbn [fst snd].
  - rewrite !Hid; split; lra.
  - assert (Hne : ~ (lo == hi)%Q).
    { intros H; apply Qeq_bool_iff in H; congruence. }
    assert (Hlt : (lo < hi)%Q).
    { destruct (Qlt_le_dec lo hi) as [H | H]; [exact H|].
      exfalso; apply Hne; lra. }
    set (padding := roundNumber (roundNumber (hi - lo) * roundNumber (1 # 10))).
    assert (Hpad : (padding == (hi - lo) * (1 # 10))%Q).
    { unfold padding; rewrite (Hid (_ * _)%Q), (Hid (hi - lo)%Q), (Hid (1 # 10)).
      reflexivity. }
    rewrite (Hid (lo - padding)%Q), (Hid (hi + padding)%Q), Hpad.
    split; lra.
Qed.

Lemma autoBounds_numbers (vs : list Q) :
  (roundNumber 0 == 0)%Q -> (roundNumber 1 == 1)%Q ->
  (forall v, In v vs -> (roundNumber v == v)%Q) ->
  (roundNumber (orDefault (d3min vs) 0) == orDefault (d3min vs) 0)%Q /\
  (roundNumber (orDefault (d3max vs) 1) == orDefault (d3max vs) 1)%Q.
Proof.
  intros H0 H1 Hvs; split.
  - destruct (d3min vs) as [mn|] eqn:E; [|exact H0].
    unfold orDefault.
    destruct (isZeroQ mn); [exact H0|].
    apply Hvs, (d3min_spec vs mn E).
  - destruct (d3max vs) as [mx|] eqn:E; [|exact H1].
    unfold orDefault.
    destruct (isZeroQ mx); [exact H1|].
    apply Hvs, (d3max_spec vs mx E).
Qed.

(** X17.  Without manual bounds (more than one series, a named series, or no
    usable setting) the domain of the value scale of a series holds every
    value of the series, as long as rounding keeps the order of the reals
    ([roundBinary64_mono] for binary64) and leaves 0, 1 and the values of
    the series, which are numbers, as they are.  In exact arithmetic the
    domain is not degenerate and every value lies strictly inside it; in
    binary64 the padding can be lost ([padding_absorbed]). *)
Theorem auto_domain_holds_values (isMulti : bool) (a b : option string)
    (points : list TimeDataPoint) :
  isMulti = true \/ (manualBound a = None /\ manualBound b = None) ->
  (forall x y, (x <= y)%Q -> (roundNumber x <= roundNumber y)%Q) ->
  (roundNumber 0 == 0)%Q -> (roundNumber 1 == 1)%Q ->
  (forall p v, In p points -> value p = Some v -> (roundNumber v == v)%Q) ->
  let d := yDomain isMulti a b points in
  (fst d <= snd d)%Q /\
  (forall p v, In p points -> value p = Some v -> (fst d <= v)%Q /\ (v <= snd d)%Q) /\
  ((forall q, roundNumber q == q)%Q ->
   (fst d < snd d)%Q /\
   forall p v, In p points -> value p = Some v -> (fst d < v)%Q /\ (v < snd d)%Q).
Proof.
  intros H Hmono H0 H1 Hvals d.
  assert (Hd : d = padDomain (orDefault (d3min (validValues points)) 0)
                             (orDefault (d3max (validValues points)) 1)).
  { unfold d, yDomain.
    destruct H as [-> | [-> ->]]; [reflexivity|].
    destruct isMulti; reflexivity. }
  destruct (autoBounds_spec (validValues points)) as [Hle Hall].
  assert (Hnum : forall v, In v (validValues points) -> (roundNumber v == v)%Q).
  { intros v Hv; apply validValues_In in Hv; destruct Hv as [p [Hp Hv]].
    exact (Hvals p v Hp Hv). }
  destruct (autoBounds_numbers (validValues points) H0 H1 Hnum) as [Nlo Nhi].
  destruct (padDomain_holds _ _ Hmono H0 Nlo Nhi Hle) as [Hlo Hhi].
  rewrite <- Hd in Hlo, Hhi.
  split; [lra|]; split.
  - intros p v Hp Hv.
    assert (Hin : In v (validValues points))
      by (apply validValues_In; exists p; split; assumption).
    destruct (Hall v Hin) as [B1 B2]; split; lra.
  - intros Hid.
    destruct (padDomain_widens _ _ Hid Hle) as [Slo Shi].
    rewrite <- Hd in Slo, Shi.
    split; [lra|].
    intros p v Hp Hv.
    assert (Hin : In v (validValues points))
      by (apply validValues_In; exists p; split; assumption).
    destruct (Hall v Hin) as [B1 B2]; split; lra.
Qed.

End DomainFacts.

Lemma auto_domain_holds_values_witness :
  let d := @yDomain binary64Runtime true None None belowZero in
  (fst d <= -5)%Q /\ (0 <= snd d)%Q.
Proof.
  intros d.
  assert (Hvals : forall p v, In p belowZero -> value p = Some v ->
                              (@roundNumber binary64Runtime v == v)%Q).
  { intros p v [<- | [<- | []]] Hv; injection Hv as <-; reflexivity. }
  destruct (@auto_domain_holds_values binary64Runtime true None None belowZero
              (or_introl eq_refl) roundBinary64_mono (Qeq_refl 0) (Qeq_refl 1)
              Hvals) as [_ [H _]].
  split.
  - apply (H (seriesPoint "A" 0 0 (-5)) (-5)%Q); [left; reflexivity | reflexivity].
  - apply (H (seriesPoint "A" 1 1000 0) 0%Q); [right; left; reflexivity | reflexivity].
Defined.

(** In binary64 the padding can be lost.  A series that is constant at
    2^54 gets the degenerate domain from 2^54 to 2^54, since neither
    2^54 - 1 nor 2^54 + 1 is a number; and between the numbers nearest to
    0.3 and to 0.30000000000000004 the padding is too small to move either
    end. *)
Example padding_absorbed :
  @padDomain binary64Runtime (inject_Z (2 ^ 54)) (inject_Z (2 ^ 54))
  = (inject_Z (2 ^ 54), inject_Z (2 ^ 54)) /\
  (let lo := roundBinary64 (3 # 10) in
   let hi := roundBinary64 (30000000000000004 # 100000000000000000) in
   (lo < hi)%Q /\ @padDomain binary64Runtime lo hi = (lo, hi)).
Proof. vm_compute. repeat split; reflexivity. Qed.

(** ** More on the formatter *)

Section FormatterFacts.
Context {rt : Runtime}.

Local Arguments pad : simpl never.
Local Arguments intToString : simpl never.
Local Arguments hour12 : simpl never.
Local Arguments sliceLast2 : simpl never.
Local Arguments Z.leb : simpl never.
Local Arguments Z.add : simpl never.

Ltac over_field :=
  rewrite replaceFrom_app_absent
    by (apply numeric_absent;
        [reflexivity | first [apply pad_numeric | apply intToString_numeric]]).

Ltac over_text :=
  match goal with
  | |- context [replaceFrom ?tok ?rep ?look 0 ?s] =>
      lazymatch s with
      | String _ _ => idtac
      | EmptyString => idtac
      end;
      let v := eval simpl in (replaceFrom tok rep look 0 s) in
      change (replaceFrom tok rep look 0 s) with v
  end.

Ltac run_passes := repeat (first [over_field | over_text]); rewrite ?append_nil_r.

(** X18.  A format without any of the letters of the tokens is rendered as it
    is. *)
Theorem format_plain_text (format : string) (t : Z) :
  forallb (fun c => negb (occurs c format))
          ["y"; "M"; "d"; "H"; "h"; "m"; "s"; "f"; "t"]%char = true ->
  createDateFormatter format t = format.
Proof.
  intros H; cbn [forallb] in H.
  repeat (apply andb_true_iff in H; let Hc := fresh "Hc" in destruct H as [Hc H]).
  clear H.
  repeat match goal with
         | Hc : negb _ = true |- _ => apply negb_true_iff in Hc
         end.
  unfold createDateFormatter, replaceAll, replaceAllNotBeforeLower; cbv zeta.
  repeat match goal with
         | |- context [replaceFrom (String ?c ?tok) ?rep ?look 0 format] =>
             rewrite (replaceFrom_absent c tok rep look format) by assumption
         end.
  reflexivity.
Qed.

(** X19.  The names of the months are scanned by the passes that come after
    them: the abbreviation of October loses its "t" to the half of the
    day, and so do the full names of August, September and October; the
    "h" of March becomes the hour of 12.  The other names come out as they
    are. *)
Theorem month_name_tokens (t : Z) :
  let d := localFields t in
  let half := if 12 <=? hours d then "P" else "A" in
  createDateFormatter "MMM" t
  = nth (Z.to_nat (month d))
        ["Jan"; "Feb"; "Mar"; "Apr"; "May"; "Jun"; "Jul"; "Aug"; "Sep";
         String.append "Oc" half; "Nov"; "Dec"] "" /\
  createDateFormatter "MMMM" t
  = nth (Z.to_nat (month d))
        ["January"; "February";
         String.append "Marc" (intToString (hour12 (hours d)));
         "April"; "May"; "June"; "July";
         String.append "Augus" half;
         String.append "Sep" (String.append half "ember");
         String.append "Oc" (String.append half "ober");
         "November"; "December"] "".
Proof.
  intros d half.
  assert (Hm : (Z.to_nat (month d) < 12)%nat).
  { unfold d, localFields.
    pose proof (utcFields_bounds (t + tzOffset t)) as [Hm _]; lia. }
  unfold createDateFormatter, replaceAll, replaceAllNotBeforeLower; cbv zeta.
  fold d.
  unfold half; clear half.
  generalize dependent d; intros d.
  generalize (Z.to_nat (month d)); intros mon Hm.
  do 12 (destruct mon as [|mon];
         [cbn [nth months fullMonths]; split; run_passes;
          try reflexivity; destruct (12 <=? hours d); reflexivity|]).
  lia.
Qed.

(** X20.  The hour of 12 and the half of the day give the hour back. *)
Theorem hour12_round_trip (t : Z) :
  let h := hours (localFields t) in
  1 <= hour12 h <= 12 /\
  h = hour12 h mod 12 + (if 12 <=? h then 12 else 0).
Proof.
  intros h.
  assert (Hh : 0 <= h <= 23).
  { unfold h, localFields.
    pose proof (utcFields_bounds (t + tzOffset t)) as [_ [_ [Hh _]]]; exact Hh. }
  unfold hour12.
  pose proof (Z.mod_pos_bound h 12 ltac:(lia)) as Hmod.
  pose proof (Z.div_mod h 12 ltac:(lia)) as Hdiv.
  destruct (h mod 12 =? 0) eqn:E;
    [apply Z.eqb_eq in E | apply Z.eqb_neq in E];
    (split; [lia|]);
    [change (12 mod 12) with 0 | rewrite Z.mod_mod by lia];
    (destruct (12 <=? h) eqn:E12;
     [apply Z.leb_le in E12 | apply Z.leb_gt in E12]); lia.
Qed.

End FormatterFacts.

Lemma format_plain_text_witness :
  @createDateFormatter sampleRuntime "-- : --" 1710000000000 = "-- : --".
Proof. apply (@format_plain_text sampleRuntime); reflexivity. Defined.

(** ** The range text *)

Section RangeTextFacts.
Context {rt : Runtime}.

Lemma updateRangeDisplay_again (v : Visual) :
  rangeDisplay (updateRangeDisplay (updateRangeDisplay v))
  = rangeDisplay (updateRangeDisplay v).
Proof. reflexivity. Qed.

Lemma userDrag_pending (sel : Q * Q) (v : Visual) :
  xScale v <> None -> brushUpdateTimeout (userDrag sel v) = true.
Proof.
  destruct (xScale v) as [[domain w]|] eqn:Hx; [intros _ | congruence].
  destruct sel as [x0 x1]; rewrite (userDrag_drawn x0 x1 v domain w Hx); reflexivity.
Qed.

Lemma brushMove_pending (sel : Q * Q) (v : Visual) :
  xScale v <> None -> brushUpdateTimeout (brushMove sel v) = true.
Proof.
  intros Hx.
  change (brushMove sel v) with (onBrushEnd {| selection := Some sel |} (userDrag sel v)).
  destruct (onBrushEnd_control {| selection := Some sel |} (userDrag sel v))
    as [_ [_ [_ [_ [_ [-> _]]]]]].
  apply userDrag_pending, Hx.
Qed.

Lemma renderChart_pending (width height : Q) (v : Visual) :
  data v <> [] -> brushUpdateTimeout (renderChart width height v) = true.
Proof.
  intros Hdata; unfold renderChart.
  destruct (timeExtentOf (data v)) as [ext|] eqn:Eext;
    [|destruct (data v); [congruence | discriminate]].
  cbv zeta.
  set (cw := chartWidthOf v width).
  set (ch := chartHeightOf v height).
  set (v2 := setupBrush cw ch (renderScene cw ext v)).
  assert (Hreset : brushUpdateTimeout
                     (brushMove (0%Q, cw)
                        (updateRangeDisplay
                           (setSelection (Some (fst ext)) (Some (snd ext)) v2))) = true)
    by (apply brushMove_pending; discriminate).
  destruct (selectedStartDate v2) as [a|] eqn:Ea; [|exact Hreset].
  destruct (selectedEndDate v2) as [b|] eqn:Eb; [|exact Hreset].
  unfold restoreBrushSelection; rewrite Ea, Eb.
  cbn [brush xScale v2 setupBrush renderScene brushUpdateTimeout setTimers
       updateRangeDisplay].
  apply brushMove_pending; discriminate.
Qed.

Lemma onBrushEnd_Shown (e : BrushEvent) (v : Visual) : Shown v -> Shown (onBrushEnd e v).
Proof.
  intros H.
  pose proof (onBrushEnd_cases e v) as Hc; cbv zeta in Hc.
  destruct (selection e) as [sel|].
  - destruct Hc as [-> | [f ->]]; exact H.
  - destruct (xScale v) as [[domain w]|].
    + destruct Hc as [-> | [f ->]]; intros _ _; reflexivity.
    + destruct Hc as [-> | [f ->]]; exact H.
Qed.

Lemma userDrag_Shown (sel : Q * Q) (v : Visual) : Shown v -> Shown (userDrag sel v).
Proof.
  intros H.
  destruct (xScale v) as [[domain w]|] eqn:Hx.
  - intros Hb; rewrite userDrag_pending in Hb by congruence; discriminate.
  - rewrite (userDrag_undrawn sel v Hx); exact H.
Qed.

Lemma fireTimer_Shown (n : nat) (v : Visual) : Shown v -> Shown (fireTimer n v).
Proof.
  intros H.
  destruct (fireTimer_cases n v) as [-> | [[Hn ->] | [Hn ->]]].
  - exact H.
  - intros _ _; reflexivity.
  - exact H.
Qed.

Lemma update_Shown (o : VisualUpdateOptions) (v : Visual) : Shown (update o v).
Proof.
  destruct (placeholderPath o v) eqn:Hp.
  - rewrite (update_placeholder o v Hp).
    intros _ Hs; exfalso; apply Hs; reflexivity.
  - rewrite (update_renders o v Hp).
    intros Hb; rewrite renderChart_pending in Hb; [discriminate|].
    apply (placeholderPath_false o v Hp).
Qed.

Lemma step_Shown (e : Event) (v : Visual) : Shown v -> Shown (step e v).
Proof.
  destruct e as [o | sel | | | n]; cbn [step]; intros H.
  - apply update_Shown.
  - apply userDrag_Shown, H.
  - apply onBrushEnd_Shown; exact H.
  - apply onBrushEnd_Shown; exact H.
  - apply fireTimer_Shown, H.
Qed.

Lemma run_Shown (events : list Event) (v : Visual) : Shown v -> Shown (run events v).
Proof.
  unfold run; revert v.
  induction events as [|e events IH]; intros v H; simpl; [exact H|].
  apply IH, step_Shown, H.
Qed.

(** X21.  Whatever happens to a visual: while a chart is on the page, either a
    display update is pending or the range text is the text of the current
    selection in the current format. *)
Theorem range_text_current (events : list Event) :
  let v := run events initialVisual in
  scene v <> None ->
  List.length (filter isDisplayUpdate (timers v)) = 1%nat \/
  rangeDisplay v = rangeDisplay (updateRangeDisplay v).
Proof.
  intros v Hs.
  assert (Hshown : Shown v).
  { apply run_Shown; intros _ H; exfalso; apply H; reflexivity. }
  destruct (run_Inv events initialVisual initialVisual_Inv) as [_ [_ [Hb _]]].
  fold v in Hb; unfold Debounced in Hb.
  destruct (brushUpdateTimeout v) eqn:E; [left; exact Hb | right].
  apply Hshown; [exact E | exact Hs].
Qed.

End RangeTextFacts.

Lemma range_text_current_witness :
  let v := @run sampleRuntime
             [EUpdate (sampleOptions hourlyView noSettings 400 200); ETimer 0%nat]
             initialVisual in
  scene v <> None /\
  rangeDisplay v = rangeDisplay (@updateRangeDisplay sampleRuntime v).
Proof.
  intros v.
  assert (Hs : scene v <> None) by (vm_compute; discriminate).
  split; [exact Hs|].
  destruct (@range_text_current sampleRuntime _ Hs) as [H | H]; [|exact H].
  vm_compute in H; discriminate H.
Defined.

(** ** Anomaly cells *)

Section AnomalyFacts.
Context {rt : Runtime}.

(** X22.  Every row with an anomaly cell that is there and not the empty string
    gives an anomaly marker, whatever the cell reads as: a cell that is no
    number gives a marker whose value is NaN. *)
Theorem anomaly_cell_marked (dv : option DataViewCategorical)
    (cat : DataViewCategoryColumn) (g : DataViewValueColumnGroup)
    (am : DataViewValueColumn) (i : nat) (t : Z) :
  timestampCategoryOf dv = Some cat ->
  In g (groupsOf dv) ->
  (i < List.length (c_values cat))%nat ->
  parseDate (jsNth i (c_values cat)) = Some t ->
  findMeasure "anomalies" g = Some am ->
  match jsNth i (v_values am) with
  | VNull | VUndefined | VString EmptyString => False
  | _ => True
  end ->
  exists p,
    In p (anomalyPoints (parseData dv)) /\
    timestamp p = t /\ index p = Z.of_nat i /\ series p = groupSeriesName g /\
    anomaly p = Some (toNumber (jsNth i (v_values am))).
Proof.
  intros Hcat Hg Hi Ht Ham Hcell.
  exists (rowPoint cat (globalMarkers (c_values cat) (groupsOf dv)) g i t).
  assert (Han : rowAnomaly (findMeasure "anomalies" g) i
                = Some (toNumber (jsNth i (v_values am)))).
  { rewrite Ham; unfold rowAnomaly.
    destruct (jsNth i (v_values am)) as [| | n | s | b | d]; try reflexivity;
      try (destruct Hcell; fail).
    destruct s; [destruct Hcell | reflexivity]. }
  split; [|cbn [timestamp index series anomaly rowPoint]; repeat split; exact Han].
  unfold anomalyPoints; apply filter_In; split.
  - rewrite parseData_postProcess; apply postProcess_keeps.
    rewrite parseRows_shape, Hcat.
    apply rawPoints_In; exists g, i, t; repeat split; assumption.
  - unfold hasAnomaly; cbn [anomaly rowPoint]; rewrite Han; reflexivity.
Qed.

End AnomalyFacts.

Lemma anomaly_cell_marked_witness :
  exists p,
    In p (anomalyPoints (@parseData sampleRuntime (Some anomalyView))) /\
    timestamp p = 3600000 /\ anomaly p = Some NaN.
Proof.
  destruct (@anomaly_cell_marked sampleRuntime (Some anomalyView)
              (timeColumn [instant 0; instant 3600000])
              {| g_name := VNull;
                 g_values :=
                   [{| v_source := sampleColumn "values" "Readings.Value";
                       v_values := [num 1; num 2] |};
                    {| v_source := sampleColumn "anomalies" "Readings.Alert";
                       v_values := [VNull; VString "n/a"] |}] |}
              {| v_source := sampleColumn "anomalies" "Readings.Alert";
                 v_values := [VNull; VString "n/a"] |}
              1%nat 3600000 eq_refl (or_introl eq_refl) ltac:(simpl; lia)
              eq_refl eq_refl I)
    as [p [Hin [Ht [_ [_ Ha]]]]].
  exists p; split; [exact Hin|]; split; [exact Ht | exact Ha].
Defined.

(** ** Rows in the model *)

Section RowsKept.
Context {rt : Runtime}.

Lemma mapSet_values_app (k : string) (pts : list TimeDataPoint) (d : TimeDataPoint)
    (m : list (string * list TimeDataPoint)) :
  mapGet String.eqb k m = Some pts ->
  Permutation (List.concat (map snd (mapSet String.eqb k (pts ++ [d]) m)))
              (d :: List.concat (map snd m)).
Proof.
  induction m as [|[k' v'] m IH]; simpl; [discriminate|].
  destruct (String.eqb k k').
  - intros H; injection H as ->; simpl.
    rewrite <- app_assoc; simpl.
    apply Permutation_sym, Permutation_middle.
  - intros H; simpl.
    eapply perm_trans; [apply Permutation_app_head, IH, H|].
    apply Permutation_sym, Permutation_middle.
Qed.

Lemma mapSet_new {V : Type} (k : string) (v : V) (m : list (string * V)) :
  mapGet String.eqb k m = None -> mapSet String.eqb k v m = m ++ [(k, v)].
Proof.
  induction m as [|[k' v'] m IH]; simpl; [reflexivity|].
  destruct (String.eqb k k'); [discriminate|].
  intros H; rewrite IH by exact H; reflexivity.
Qed.

(** Grouping by series loses and repeats no point. *)
Lemma seriesMapOf_perm (data : list TimeDataPoint) :
  Permutation (List.concat (map snd (seriesMapOf data))) data.
Proof.
  induction data as [|d data IH] using rev_ind; [apply perm_nil|].
  rewrite seriesMapOf_snoc; unfold pushToSeries.
  set (m := seriesMapOf data) in *.
  set (k := seriesKey d).
  eapply perm_trans; [|apply Permutation_cons_append].
  destruct (mapGet String.eqb k m) as [pts|] eqn:Ek.
  - rewrite Ek.
    eapply perm_trans; [apply mapSet_values_app, Ek|].
    apply perm_skip, IH.
  - rewrite mapGet_mapSet_same.
    eapply perm_trans; [apply (mapSet_values_app k []), mapGet_mapSet_same|].
    apply perm_skip.
    rewrite (mapSet_new k [] m Ek), map_app, concat_app; simpl.
    rewrite app_nil_r; exact IH.
Qed.

Lemma filter_flat_map {A B : Type} (f : B -> bool) (g : A -> list B) (l : list A) :
  filter f (flat_map g l) = flat_map (fun x => filter f (g x)) l.
Proof.
  induction l as [|x l IH]; simpl; [reflexivity|].
  rewrite filter_app, IH; reflexivity.
Qed.

Lemma detectGaps_originals (s : string) (points : list TimeDataPoint) :
  Forall (fun d => isSynthetic d = false) points ->
  filter isOriginal (detectGaps s points) = sortBy timestamp points.
Proof.
  intros Hall.
  assert (Hs : Forall (fun d => isSynthetic d = false) (sortBy timestamp points)).
  { apply Forall_forall; intros x Hx.
    rewrite Forall_forall in Hall; apply Hall.
    apply (proj1 (sortBy_In timestamp x points)), Hx. }
  unfold detectGaps.
  destruct (sortBy timestamp points) as [|p0 [|p1 rest]] eqn:E.
  - reflexivity.
  - inversion Hs as [|? ? H0 _]; subst.
    simpl; unfold isOriginal; rewrite H0; reflexivity.
  - inversion Hs as [|? ? H0 Hrest]; subst.
    cbn [filter]; unfold isOriginal at 1; rewrite H0; cbn [negb].
    rewrite fillGaps_originals by exact Hrest; reflexivity.
Qed.

(** X23.  The model holds every point of the rows exactly once: grouping, gap
    detection and sorting lose no row point and repeat none; all that is
    added are the synthetic points. *)
Theorem rows_kept_once (dv : option DataViewCategorical) :
  Permutation (filter isOriginal (parseData dv)) (parseRows dv).
Proof.
  rewrite parseData_postProcess; unfold postProcess.
  eapply perm_trans; [apply Permutation_filter_local, sortBy_perm|].
  rewrite filter_flat_map.
  eapply perm_trans; [|apply (seriesMapOf_perm (parseRows dv))].
  pose proof (series_of_rows_original dv) as Horig.
  induction (seriesMapOf (parseRows dv)) as [|[s pts] m IH]; [apply perm_nil|].
  simpl.
  apply Permutation_app.
  - rewrite (detectGaps_originals s pts) by (apply (Horig s); left; reflexivity).
    apply sortBy_perm.
  - apply IH; intros s' pts' Hin; apply (Horig s'); right; exact Hin.
Qed.

End RowsKept.

(** ** The properties on the sample inputs *)

Lemma selection_tracks_brush_witness :
  let v := @run sampleRuntime
             [EUpdate (sampleOptions hourlyView noSettings 400 200);
              EDrag (50%Q, 150%Q)] initialVisual in
  brushSelection v = Some (50%Q, 150%Q) /\
  xScale v = Some ((0, 28800000), 400%Q) /\
  selectedStartDate v = Some (@scaleInvert sampleRuntime (0, 28800000) 400 50).
Proof.
  intros v.
  assert (Hb : brushSelection v = Some (50%Q, 150%Q)) by (vm_compute; reflexivity).
  assert (Hx : xScale v = Some ((0, 28800000), 400%Q)) by (vm_compute; reflexivity).
  split; [exact Hb|]; split; [exact Hx|].
  destruct (@selection_tracks_brush sampleRuntime
              [EUpdate (sampleOptions hourlyView noSettings 400 200);
               EDrag (50%Q, 150%Q)]) as [_ [_ H]].
  apply (H _ _ _ _ Hb Hx).
Defined.

Lemma scale_and_brush_agree_witness :
  let v := @run sampleRuntime
             [EUpdate (sampleOptions hourlyView noSettings 400 200)] initialVisual in
  xScale v = Some ((0, 28800000), 400%Q) /\
  brush v = Some (400%Q, 158%Q) /\ 0 <= 28800000.
Proof.
  intros v.
  assert (Hx : xScale v = Some ((0, 28800000), 400%Q)) by (vm_compute; reflexivity).
  assert (Hb : brush v = Some (400%Q, 158%Q)) by (vm_compute; reflexivity).
  split; [exact Hx|]; split; [exact Hb|].
  destruct (@scale_and_brush_agree sampleRuntime
              [EUpdate (sampleOptions hourlyView noSettings 400 200)]) as [_ [_ H]].
  apply (H _ _ _ _ _ Hx Hb).
Defined.

Lemma timers_in_order_witness :
  let v := @run sampleRuntime firstEvents initialVisual in
  isProgrammaticBrushUpdate v = true /\ In FlagReset (timers v).
Proof.
  intros v.
  assert (Hg : isProgrammaticBrushUpdate v = true) by (vm_compute; reflexivity).
  split; [exact Hg|].
  apply (proj2 (@timers_in_order sampleRuntime firstEvents) Hg).
Defined.

Lemma event_emission_witness :
  let v := setProgrammatic true readyVisual in
  isProgrammaticBrushUpdate v = true /\
  appliedFilters (@step sampleRuntime ERelease v) = appliedFilters v.
Proof.
  intros v; split; [reflexivity|].
  destruct (@event_emission sampleRuntime ERelease v) as [fs [H1 [_ [H3 _]]]].
  rewrite H1, (H3 eq_refl), app_nil_r; reflexivity.
Defined.

Lemma timeline_markers_unique_witness :
  exists p, In p (timelinePoints markedPoints) /\ timestamp p = 0.
Proof.
  destruct (timeline_markers_unique markedPoints) as [_ [_ H]].
  destruct (H (nth 0 markedPoints (gapPoint 0 "")) (or_introl eq_refl) eq_refl)
    as [p [Hp Ht]].
  exists p; split; [exact Hp | exact Ht].
Defined.

Lemma line_paths_by_colour_witness :
  In ("#000", [seriesPoint "A" 0 0 10; seriesPoint "A" 1 1000 (1 # 2)])
     (linePaths "#000" [seriesPoint "A" 0 0 10; gapPoint 500 "A";
                        seriesPoint "A" 1 1000 (1 # 2)]).
Proof.
  apply (proj2 (line_paths_by_colour "#000" _)).
  split; [reflexivity | simpl; lia].
Defined.

(** ** A scale for every series *)

Section ScaleFacts.
Context {rt : Runtime}.

(** X24.  Every point of the data has a value scale under the key of its
    series, and no key has two: the lookup of the scale of an anomaly
    marker never falls back to the first scale. *)
Theorem every_series_has_scale (a b : option string) (data : list TimeDataPoint) :
  NoDup (mapKeys (yScalesOf a b data)) /\
  forall p, In p data ->
    exists dom, mapGet String.eqb (seriesKey p) (yScalesOf a b data) = Some dom.
Proof.
  destruct (seriesMapOf_spec data) as [Hnd Hget].
  unfold yScalesOf; cbv zeta; split.
  - unfold mapKeys in *; rewrite map_map; cbn [fst]; exact Hnd.
  - intros p Hp.
    set (isMulti := isMultiSeriesOf (mapKeys (seriesMapOf data))).
    rewrite (mapGet_map_snd (fun sp => yDomain isMulti a b (snd sp)))
      by reflexivity.
    rewrite Hget.
    assert (Hin : In p (seriesPoints (seriesKey p) data))
      by (apply seriesPoints_In; split; [exact Hp | reflexivity]).
    destruct (seriesPoints (seriesKey p) data) as [|x xs]; [destruct Hin|].
    eexists; reflexivity.
Qed.

End ScaleFacts.

Lemma every_series_has_scale_witness :
  exists dom,
    mapGet String.eqb "B" (@yScalesOf sampleRuntime None None twoSeries) = Some dom.
Proof.
  destruct (@every_series_has_scale sampleRuntime None None twoSeries) as [_ H].
  apply (H (seriesPoint "B" 0 0 1000)); right; left; reflexivity.
Defined.

(** ** The default format of the range text *)

Section DisplayFormat.
Context {rt : Runtime}.

Local Arguments pad : simpl never.
Local Arguments intToString : simpl never.
Local Arguments hour12 : simpl never.
Local Arguments sliceLast2 : simpl never.
Local Arguments Z.leb : simpl never.
Local Arguments Z.add : simpl never.

Ltac over_field' :=
  rewrite replaceFrom_app_absent
    by (apply numeric_absent;
        [reflexivity | first [apply pad_numeric | apply intToString_numeric]]).

Ltac over_text' :=
  match goal with
  | |- context [replaceFrom ?tok ?rep ?look 0 ?s] =>
      lazymatch s with
      | String _ _ => idtac
      | EmptyString => idtac
      end;
      let v := eval simpl in (replaceFrom tok rep look 0 s) in
      change (replaceFrom tok rep look 0 s) with v
  end.

(** X25.  The range text in the format that the visual uses when none is set:
    the abbreviation of the month, the day, the year and the time of day,
    for every instant; in October the abbreviation comes out with the half
    of the day in place of its last letter. *)
Theorem default_display_format (t : Z) :
  let d := localFields t in
  createDateFormatter "MMM d, yyyy HH:mm:ss" t
  = String.append
      (nth (Z.to_nat (month d))
           ["Jan"; "Feb"; "Mar"; "Apr"; "May"; "Jun"; "Jul"; "Aug"; "Sep";
            String.append "Oc" (if 12 <=? hours d then "P" else "A");
            "Nov"; "Dec"] "")
      (String.append " "
         (String.append (intToString (date d))
            (String.append ", "
               (String.append (intToString (fullYear d))
                  (String.append " "
                     (String.append (pad (hours d) 2)
                        (String.append ":"
                           (String.append (pad (minutes d) 2)
                              (String.append ":" (pad (seconds d) 2)))))))))).
Proof.
  intros d.
  assert (Hm : (Z.to_nat (month d) < 12)%nat).
  { unfold d, localFields.
    pose proof (utcFields_bounds (t + tzOffset t)) as [Hm _]; lia. }
  unfold createDateFormatter, replaceAll, replaceAllNotBeforeLower; cbv zeta.
  fold d.
  generalize dependent d; intros d.
  generalize (Z.to_nat (month d)); intros mon Hm.
  repeat (first [over_field' | over_text']).
  do 12 (destruct mon as [|mon];
         [cbn [nth months String.append];
          repeat (first [over_field' | over_text']);
          rewrite ?append_nil_r;
          try reflexivity; destruct (12 <=? hours d); reflexivity|]).
  lia.
Qed.

End DisplayFormat.

(** ** Reading the operand back *)

Section OperandDecoding.
Context {rt : Runtime}.

Lemma substring_app_prefix (s r : string) :
  substring 0 (String.length s) (String.append s r) = s.
Proof.
  induction s as [|c s IH]; simpl; [destruct r; reflexivity|].
  rewrite IH; reflexivity.
Qed.

Lemma dropStr_add (n k : nat) (s : string) :
  dropStr (n + k) s = dropStr k (dropStr n s).
Proof.
  revert s; induction n as [|n IH]; intros s; simpl; [reflexivity|].
  destruct s as [|c s]; [destruct k; reflexivity | apply IH].
Qed.

(** X26.  In ISO mode, for instants in the years 0 to 9999, the operand can be
    read back whatever the delimiter is: its first 24 characters are the
    start of the selection, what follows the delimiter is its end, and it
    has no other characters. *)
Theorem iso_operand_decodes (v : Visual) (a b : Z) :
  setting v useISOFormat true = true ->
  0 <= fullYear (utcFields a) <= 9999 ->
  0 <= fullYear (utcFields b) <= 9999 ->
  let delim := setting v delimiter "|" in
  String.length (filterValue v a b) = (48 + String.length delim)%nat /\
  substring 0 24 (filterValue v a b) = toISOString a /\
  dropStr (24 + String.length delim) (filterValue v a b) = toISOString b.
Proof.
  intros Hiso Ha Hb delim.
  pose proof (toISOString_length a Ha) as La.
  pose proof (toISOString_length b Hb) as Lb.
  unfold filterValue; cbv zeta; rewrite Hiso; fold delim.
  split; [|split].
  - rewrite !append_length, La, Lb; lia.
  - rewrite <- La at 1; apply substring_app_prefix.
  - rewrite dropStr_add, <- La, dropStr_app, dropStr_app; reflexivity.
Qed.

End OperandDecoding.

Lemma iso_operand_decodes_witness :
  substring 0 24 (@filterValue sampleRuntime readyVisual 3600000 10800000)
  = @toISOString 3600000.
Proof.
  apply (@iso_operand_decodes sampleRuntime readyVisual 3600000 10800000 eq_refl).
  - split; apply Z.leb_le; vm_compute; reflexivity.
  - split; apply Z.leb_le; vm_compute; reflexivity.
Defined.

(** ** Counting the points of the rows *)

Section RowCount.
Context {rt : Runtime}.

Lemma flat_map_cells {B : Type} (f : nat -> PrimitiveValue -> list B)
    (cells pre : list PrimitiveValue) :
  flat_map (fun i => f i (jsNth i (pre ++ cells)))
           (seq (List.length pre) (List.length cells))
  = List.concat (map (fun ic => f (fst ic) (snd ic))
                     (combine (seq (List.length pre) (List.length cells)) cells)).
Proof.
  revert pre; induction cells as [|c cells IH]; intros pre; [reflexivity|].
  cbn [List.length seq flat_map combine map List.concat fst snd].
  f_equal.
  - unfold jsNth; rewrite nth_middle; reflexivity.
  - specialize (IH (pre ++ [c])).
    rewrite length_app, Nat.add_1_r, <- app_assoc in IH; exact IH.
Qed.

Lemma groupPoints_length (cat : DataViewCategoryColumn) (gm : list (Z * string))
    (g : DataViewValueColumnGroup) :
  List.length (groupPoints cat gm g)
  = List.length (filter parseable (c_values cat)).
Proof.
  unfold groupPoints.
  rewrite (flat_map_cells
             (fun i cell => match parseDate cell with
                            | None => []
                            | Some time => [rowPoint cat gm g i time]
                            end) (c_values cat) []).
  simpl List.length.
  generalize 0%nat.
  induction (c_values cat) as [|c cells IH]; intros n; [reflexivity|].
  cbn [List.length seq combine map List.concat fst snd filter].
  rewrite length_app, IH.
  unfold parseable at 2; destruct (parseDate c); reflexivity.
Qed.

(** X27.  The two passes give one point for every group and every row whose
    timestamp parses: as many points as groups times such rows. *)
Theorem rows_times_groups (dv : option DataViewCategorical)
    (cat : DataViewCategoryColumn) :
  timestampCategoryOf dv = Some cat ->
  List.length (parseRows dv)
  = (List.length (groupsOf dv) * List.length (filter parseable (c_values cat)))%nat.
Proof.
  intros Hcat; rewrite parseRows_shape, Hcat.
  unfold rawPoints.
  generalize (globalMarkers (c_values cat) (groupsOf dv)); intros gm.
  induction (groupsOf dv) as [|g groups IH]; [reflexivity|].
  cbn [flat_map List.length]; rewrite length_app, groupPoints_length, IH.
  simpl; reflexivity.
Qed.

End RowCount.

Lemma rows_times_groups_witness :
  List.length (@parseRows sampleRuntime (Some markedView)) = (2 * 2)%nat.
Proof.
  apply (@rows_times_groups sampleRuntime (Some markedView)
           (timeColumn [instant 0; instant 3600000]) eq_refl).
Defined.

(** ** A reset while the guard is set *)

Section GuardedReset.
Context {rt : Runtime}.

(** X28.  An update that draws and does not keep the selection while the guard
    of an earlier programmatic move is still set: the selection becomes
    the whole width of the new chart, and nothing is submitted for it. *)
Theorem guarded_reset_is_silent (o : VisualUpdateOptions) (v : Visual) (ext : Z * Z) :
  placeholderPath o v = false ->
  timeExtentOf (data (loadOptions o v)) = Some ext ->
  selectionKept ext v = false ->
  isProgrammaticBrushUpdate v = true ->
  let w := chartWidthOf (loadOptions o v) (qmax 0 (viewportWidth o)) in
  selectedStartDate (update o v) = Some (scaleInvert ext w 0) /\
  selectedEndDate (update o v) = Some (scaleInvert ext w w) /\
  appliedFilters (update o v) = appliedFilters v.
Proof.
  intros Hp Eext Hkept Hg w.
  rewrite (update_renders o v Hp).
  set (v1 := loadOptions o v) in *.
  unfold renderChart; rewrite Eext; cbv zeta; fold w.
  set (ch := chartHeightOf v1 (qmax 0 (viewportHeight o))).
  set (v2 := setupBrush w ch (renderScene w ext v1)).
  set (v3 := updateRangeDisplay (setSelection (Some (fst ext)) (Some (snd ext)) v2)).
  assert (Hreset : selectedStartDate (brushMove (0%Q, w) v3) = Some (scaleInvert ext w 0) /\
                   selectedEndDate (brushMove (0%Q, w) v3) = Some (scaleInvert ext w w) /\
                   appliedFilters (brushMove (0%Q, w) v3) = appliedFilters v).
  { destruct (brushMove_selection 0 w v3 ext w eq_refl) as [_ [Hs He]].
    destruct (brushMove_guarded (0%Q, w) v3 Hg) as [Hf _].
    split; [exact Hs|]; split; [exact He | exact Hf]. }
  assert (Hsel : match selectedStartDate v2, selectedEndDate v2 with
                 | Some _, Some _ => true
                 | _, _ => false
                 end = false).
  { rewrite <- Hkept; unfold selectionKept.
    cbn [selectedStartDate selectedEndDate lastTimeRange setupBrush renderScene
         v2 v1 loadOptions].
    destruct (lastTimeRange v) as [[oldMin oldMax]|].
    - destruct (oldMin =? fst ext), (oldMax =? snd ext);
        destruct (selectedStartDate v), (selectedEndDate v); reflexivity.
    - destruct (selectedStartDate v), (selectedEndDate v); reflexivity. }
  destruct (selectedStartDate v2) as [a|]; [|exact Hreset].
  destruct (selectedEndDate v2) as [b|]; [discriminate Hsel | exact Hreset].
Qed.

End GuardedReset.

Lemma guarded_reset_is_silent_witness :
  let v := @run sampleRuntime firstEvents initialVisual in
  isProgrammaticBrushUpdate v = true /\
  selectedStartDate (@update sampleRuntime laterOptions v)
  = Some (@scaleInvert sampleRuntime (36000000, 43200000) 400 0) /\
  appliedFilters (@update sampleRuntime laterOptions v) = appliedFilters v.
Proof.
  intros v.
  assert (Hg : isProgrammaticBrushUpdate v = true) by (vm_compute; reflexivity).
  assert (Hp : @placeholderPath sampleRuntime laterOptions v = false)
    by (vm_compute; reflexivity).
  assert (He : timeExtentOf (data (@loadOptions sampleRuntime laterOptions v))
               = Some (36000000, 43200000)) by (vm_compute; reflexivity).
  assert (Hk : selectionKept (36000000, 43200000) v = false)
    by (vm_compute; reflexivity).
  destruct (@guarded_reset_is_silent sampleRuntime laterOptions v _ Hp He Hk Hg)
    as [Hs [_ Hf]].
  split; [exact Hg|]; split; [|exact Hf].
  rewrite Hs; vm_compute; reflexivity.
Defined.
